(* ===== verification/_CoqProject ===== *)
-Q . S2P
Prelude.v
GoStrings.v
Regexp.v
GoTime.v
GoPath.v
GoRuntime.v
World.v
GoFmt.v
Translations.v
GoGlob.v
CrashLogic.v
FileTree.v
Polling.v
I18n.v
Config.v
Mysql.v
Retention.v
UserSQL.v
UserStatements.v
UserExport.v
Backup.v
WindowsPath.v
Schedule.v
WindowsTask.v
Restore.v
Reinit.v
RemoteHost.v
Remote.v
Email.v
Logger.v
Run.v
Main.v
EndToEnd.v
MessageTypes.v
