(* ===== verification/Prelude.v ===== *)
(** * MySqlBackup: a verification library

    MySqlBackup dumps the databases of a MySQL or MariaDB server into dated zip archives,
    appends to each the users with rights on that database, prunes old archives, copies
    them to a remote host, restores them, and installs itself as a daily job.  This
    library models the program's own logic and proves what makes it correct; where the
    code does something else than it means to, a theorem says exactly what it does.

    ** The parts of the program and the files that model them

    The Go standard library as far as the program uses it:
    - Prelude.v: notations, tactics, hint databases, generic list lemmas.
    - GoStrings.v: package strings, strconv and bufio.Scanner on byte strings.
    - Regexp.v: package regexp, with Perl's leftmost-first matching over UTF-8.
    - GoTime.v: civil dates of package time (days and nanoseconds in one time zone).
    - GoPath.v, WindowsPath.v: package path/filepath on Unix and on Windows.
    - GoGlob.v: filepath.Match, with [Match_glob] against a declarative glob.
    - GoRuntime.v: what Go leaves open, as classes with instances: the order of equal
      elements after sort.Slice ([SliceSort]) and of ranging over a map ([MapOrder]).
    - World.v: files, clock, log and external commands as a state monad.  Each system call
      consumes a tick; the class [Faults] says which calls fail, so a theorem for every
      [Faults] holds under every pattern of I/O errors.  [w_hist] records the files after
      every call, the points at which the program may be interrupted.  [Exec] gives the
      result of an external program.
    - GoFmt.v: Sprintf and Errorf of package fmt, with the verbs the program uses and the
      texts of bad ones.  [cut], [fits] and [fill] are the reference: a format as text and
      holes, what each hole takes, and the text with its holes filled.
    - CrashLogic.v: a Hoare logic with crash invariants ([spec]: every intermediate state
      satisfies the invariant) and one for runs without I/O errors ([does]).
    - FileTree.v: filepath.Rel and WalkDir and the renaming of a directory, on a tree of
      files seen through the elements of its paths.
    - Polling.v: the loop that waits for a condition up to a deadline, whose checks take time of
      their own, and TCP ports.  The class [Net] says how ports answer and how long checks take.

    The program, in the order of its calls from the bottom up:
    - Translations.v: the four files of src/internal/i18n/translations, entry by entry.
    - I18n.v: src/internal/i18n (language detection, loading, lookup and formatting of
      messages).
    - Config.v: src/internal/config; the external package sconfig is the parameter
      [sconfig_LoadConfig].
    - Mysql.v: src/internal/mysql, the command lines of the client programs and the
      parsing of their output.
    - Retention.v: src/internal/retention: [ListBackups], [LastBackupBefore], [Apply],
      [ApplyToDirs], [Classify].  [retained] is the documented policy.
    - UserSQL.v: src/internal/backup/usersql.go: [parseUserRecords] and [ParseUserSQL] over
      the record [userRecord], with the four patterns of the source.
    - UserStatements.v, UserExport.v: no code, but what the patterns of UserSQL.v find in
      the statements of a server, and the composition of Mysql.v and UserSQL.v.
    - Backup.v: src/internal/backup/backup.go: [Run], the loop over the databases, the
      protected replacement of an archive ([safeWriteZIPStreaming], [finish], [cancel]) and
      [recoverSavFiles].  The loop body is [backupOne].
    - Schedule.v: src/internal/schedule on Unix (systemd timer, crontab, status, removal)
      and the command line of a Windows task.  The crontab program is the class [Crontab]
      with its laws [CrontabLaws]; [spoolCrontab] is an instance.
    - WindowsTask.v: src/internal/schedule on Windows.  PowerShell and schtasks are the
      class [TaskHost] with the laws [TaskHostLaws]; [demoHost] is an instance.  Theorems
      are proved with triples about the task ([tri]).
    - Restore.v: src/internal/restore: [RestoreFromZips], [restoreZip], the commands that
      start and stop the server.
    - Reinit.v: src/internal/restore: [FullReinit], which replaces the data directory.
    - RemoteHost.v: SSH, SFTP and ciphers, external packages, as the classes [Sftp] and
      [Crypto] with [SftpLaws] and [CryptoLaws]; [treeSftp] is an instance.
    - Remote.v: src/internal/remote: [Sync] and [GetFile] in a monad over the local world
      and the server.  [mirrored] is the abstract specification of [Sync].
    - Email.v: src/internal/email: [Send], with the SMTP calls as the class [Smtp] and the
      transcript of the calls as state.  [dialogue] is the reference.
    - Logger.v: src/internal/logger and, in the module [Disk], src/internal/disk on Unix and
      on Windows.
    - Run.v: src/internal/run: [Backup], which composes disk check, start of the server,
      dump, retention, mirroring and error e-mail over one state.
    - Main.v: src/main.go: the command line, the choice of the action, the actions, what
      is written to the terminal and the exit codes.
    - EndToEnd.v, MessageTypes.v: theorems about the whole program: a backup followed by a
      restore, a full restore, and the messages of every run.

    Functions keep the names of the source; loops that are not structural in Go are
    Fixpoints on the remaining list or count, and a body of a loop is a definition of its
    own.  Errors are values: a sum for a result, an option where only an error is returned;
    an error made by fmt.Errorf is [Errorf] with its message key, arguments and cause.
    Log output is a list of levels, keys and typed arguments ([Arg]); [Logger.emit] says
    what line a message becomes.

    ** What the theorems show

    - Run: a backup run without errors dumps every database, prunes, and leaves every
      archive on the host ([Backup_end_to_end]); an e-mail is sent exactly if an error is
      returned; waiting for the server ends and finds it if it answers in time.
    - Backup: the previous archive is not lost before the new one is complete, under every
      pattern of errors after the first call and at every point of interruption
      ([backupOne_never_loses]); what a run produces ([Run_creates_all]) and what a failed
      dump leaves ([backupOne_dump_error_restores]); what recovery does
      ([recoverSavFiles_keeps_larger]); names read back ([archive_name_roundtrip]).  Two
      theorems show where the protection ends ([stat_error_loses_archive],
      [interrupted_run_loses_archive]).
    - The whole program: after a backup the restore action hands over exactly the dumps and
      users of that run ([backup_then_restore]); a full restore replaces the data and imports
      the latest day ([full_restore]); every message of every run has the
      arguments its text takes in all four languages ([messages_typed]), and is logged as
      it reads ([log_line_exact]) unless an argument has a percent sign.  Errors made with a
      name from an already formatted text lose their cause ([named_error_loses_cause]).
    - Restore: backup and restore round-trip ([backup_restore_roundtrip]); an unfinished
      archive is refused; an early end of the client hides its error.  Replacing the data
      directory never loses the old data, at whatever call it is interrupted
      ([FullReinit_never_loses]), and installs the template ([FullReinit_replaces]).
    - Remote: [Sync] makes the host a mirror ([Sync_mirrors]), removes only after all
      uploads have succeeded, what it sends is fetched back byte for byte
      ([Sync_GetFile_roundtrip]), fetching selects what the glob matches and stays in its
      directory.  Two theorems show archives lost or misread.
    - Retention: pruning follows the documented policy for at most one Sunday
      ([Apply_refines_policy]), which is all of it when the daily window holds the Sundays asked
      for, never deletes within the daily window, and two settings do not do what they are
      documented to do.
    - Users: well-formed records, the exact text per database in whatever order maps are
      visited, escaping, the first password; accounts with plain names, hashes and grants
      come back from an export ([users_roundtrip]); names with quotes, other authentication
      plugins, at signs in names of databases and very long lines fail.
    - Schedule: installing the cron job, the first time too, returns the error of storing the
      table or is idempotent and leaves other jobs alone,
      removing undoes installing, times are valid, quoting round-trips for paths without
      quotes and fails otherwise.  On Windows a successful installation leaves a task with
      the planned command, whatever commands fail ([ensureWindows_installs]), an existing
      one keeps its start time ([ensureWindows_keeps_time]), and a failed update leaves
      none.
    - Main: an action runs only if it is the only one asked for, a failed backup is
      reported, and three theorems show paths that do not lead where they are meant to.
    - Email, Mysql, Config: the exact SMTP dialogue up to the first refused call, with the
      closings and the error it leads to; the databases listed; paths after loading.

    ** Bounds and fuel

    [lastSunday] has fuel 7, which [lastSunday_terminates] proves enough for any day.
    [backslash_paths] has the length of its text as fuel and consumes at least one byte a
    round.  [digits] has the binary length of its number.  The loops of GoGlob have the
    length of the pattern and consume at least one byte of it a round; [Match_glob] proves
    the result for patterns of plain characters, stars and question marks.  [poll] has one round per interval up to the deadline and one
    more ([pollFuel]), which [poll_spec] proves enough.  [walkDir] has [PATH_MAX]: a path
    grows by at least two bytes a level and the system refuses longer ones.  No other
    recursion has fuel.  Years of archive names are 0 to 9999, the range of the date format.

    ** Not modelled

    The time that calls and commands take: the clock goes on while the program sleeps and while
    it polls the server or its port ([timed]), and stands still otherwise, so that all files of
    one backup carry one time.  Daylight saving (all dates are midnights of one zone); buffering inside an open archive
    (a write either happens or fails; a failing buffered write may be reported by a later
    call in reality, with the same handling); file modes and symbolic links; concurrency
    with other processes; the text of errors of the operating system, which is the parameter
    [ErrorText], and how package fmt prints them under other verbs than their text
    ([ErrorPrint]); the formats with an argument index or a star, on which Sprintf is [None]
    (the program has none).  On Windows the scheduled task, its paths and the free space are
    modelled, [main] is modelled on Unix.  The function windowsPathsMatch has no caller and is
    left out.  sconfig, ssh, sftp, pbkdf2, tls and smtp, the decoding of JSON, the database's
    client programs, crontab, PowerShell and schtasks are parameters.

    ** Plan

    Next: the export of MySQL servers through mysqlpump, and [main] on Windows. *)

From Stdlib Require Export ZArith Lia Ascii.
From stdpp Require Export base tactics list gmap sets strings sorting.

(** ** Notations *)

(** A Go string is a sequence of bytes. *)
Abbreviation gostring := (list ascii).

Definition str (s : string) : gostring := String.list_ascii_of_string s.
Coercion str : string >-> list.

(** Keys of maps are countable by their structure, never through a finite enumeration
    (which an untyped binder of a statement could otherwise stand for). *)
#[export] Remove Hints finite.finite_countable : typeclass_instances.

Declare Scope go_scope.
Delimit Scope go_scope with go.
Open Scope go_scope.

(** Boolean equality on any type whose equality is decidable; the Go [==]. *)
Notation "x ==? y" := (bool_decide (x = y)) (at level 70, no associativity) : go_scope.

(** ** Hint databases and tactics *)

Create HintDb go discriminated.
Create HintDb tree discriminated.
Create HintDb keeps discriminated.
Create HintDb grows discriminated.
Create HintDb main discriminated.
Create HintDb gorw.

(** [case_if] splits on the first test of an [if] of the goal. *)
Ltac case_if :=
  match goal with
  | |- context [if ?b then _ else _] => let E := fresh "E" in destruct b eqn:E
  end.

(** Turns boolean tests of the context into propositions. *)
Ltac bool_prop :=
  repeat match goal with
  | H : bool_decide _ = true |- _ => apply bool_decide_eq_true_1 in H
  | H : bool_decide _ = false |- _ => apply bool_decide_eq_false_1 in H
  | H : andb _ _ = true |- _ => apply andb_true_iff in H; destruct H
  | H : orb _ _ = false |- _ => apply orb_false_iff in H; destruct H
  | H : negb _ = true |- _ => apply negb_true_iff in H
  | H : negb _ = false |- _ => apply negb_false_iff in H
  | H : (_ <? _)%Z = true |- _ => apply Z.ltb_lt in H
  | H : (_ <? _)%Z = false |- _ => apply Z.ltb_ge in H
  | H : (_ <=? _)%Z = true |- _ => apply Z.leb_le in H
  | H : (_ <=? _)%Z = false |- _ => apply Z.leb_gt in H
  | H : (_ =? _)%Z = true |- _ => apply Z.eqb_eq in H
  | H : (_ =? _)%Z = false |- _ => apply Z.eqb_neq in H
  end.

(** Linear arithmetic with Euclidean division written out. *)
Ltac zdiv := Z.div_mod_to_equations; lia.

(** ** Generic lemmas on lists *)

Lemma Forall_snoc {A} (P : A -> Prop) l x : Forall P (l ++ [x]) <-> Forall P l /\ P x.
Proof. rewrite Forall_app, Forall_singleton. done. Qed.


Lemma list_filter_iff_in {A} (P Q : A -> Prop) `{!forall x, Decision (P x), !forall x, Decision (Q x)} (l : list A) :
  Forall (fun x => P x <-> Q x) l -> filter P l = filter Q l.
Proof.
  induction 1 as [|x l Hx _ IH]; [done|]. rewrite !filter_cons, IH.
  destruct (decide (P x)), (decide (Q x)); naive_solver.
Qed.
