(* ===== verification/GoStrings.v ===== *)
(** * The part of Go's strings, strconv and bufio packages the program uses.

    Strings are byte sequences; the Unicode-aware functions ([TrimSpace],
    [ToUpper], [EqualFold]) work on the UTF-8 encodings of the code points they
    treat specially, so no decoding is needed to compute them. *)

From S2P Require Import Prelude.

Module GoStrings.

(** ** Bytes *)

Definition code (c : ascii) : Z := Z.of_N (N_of_ascii c).

Definition chr (n : Z) : ascii := ascii_of_N (Z.to_N n).

Definition dquote : ascii := "034"%char.
Definition squote : ascii := "'"%char.
Definition backtick : ascii := "`"%char.
Definition backslash : ascii := "\"%char.
Definition LF : ascii := "010"%char.
Definition CR : ascii := "013"%char.
Definition TAB : ascii := "009"%char.

Definition is_digit (c : ascii) : bool := (48 <=? code c)%Z && (code c <=? 57)%Z.

(** ** Prefixes and suffixes *)

Fixpoint strip_prefix (p s : gostring) : option gostring :=
  match p, s with
  | [], _ => Some s
  | c :: p', d :: s' => if c ==? d then strip_prefix p' s' else None
  | _ :: _, [] => None
  end.

Definition HasPrefix (s p : gostring) : bool := bool_decide (is_Some (strip_prefix p s)).

Definition TrimPrefix (s p : gostring) : gostring := default s (strip_prefix p s).

Definition strip_suffix (p s : gostring) : option gostring :=
  reverse <$> strip_prefix (reverse p) (reverse s).

Definition HasSuffix (s p : gostring) : bool := bool_decide (is_Some (strip_suffix p s)).

Definition TrimSuffix (s p : gostring) : gostring := default s (strip_suffix p s).

(** ** Searching *)

(** [find_sub sub s] splits [s] around the first occurrence of [sub]. *)
Fixpoint find_sub (sub s : gostring) : option (gostring * gostring) :=
  match strip_prefix sub s with
  | Some rest => Some ([], rest)
  | None =>
      match s with
      | [] => None
      | c :: s' => (fun '(a, b) => (c :: a, b)) <$> find_sub sub s'
      end
  end.

Definition Contains (s sub : gostring) : bool := bool_decide (is_Some (find_sub sub s)).

(** [strings.Index]: the position of the first occurrence. *)
Definition Index (s sub : gostring) : option nat := (fun '(a, _) => length a) <$> find_sub sub s.

(** [strings.ReplaceAll] for a one-byte [old], the only kind of call there is. *)
Definition ReplaceAllByte (s : gostring) (old : ascii) (new : gostring) : gostring :=
  s ≫= fun c => if c ==? old then new else [c].

(** ** Splitting and joining *)

(** [strings.Split] for a one-byte separator. *)
Fixpoint Split (s : gostring) (sep : ascii) : list gostring :=
  match s with
  | [] => [[]]
  | c :: s' =>
      if c ==? sep then [] :: Split s' sep
      else match Split s' sep with
           | [] => [[c]]
           | w :: ws => (c :: w) :: ws
           end
  end.

Fixpoint Join (l : list gostring) (sep : gostring) : gostring :=
  match l with
  | [] => []
  | [w] => w
  | w :: ws => w ++ sep ++ Join ws sep
  end.

(** [strings.SplitN] with [n >= 1]: at most [n] pieces, the last one unsplit. *)
Definition SplitN (s : gostring) (sep : ascii) (n : nat) : list gostring :=
  let ws := Split s sep in
  if bool_decide (length ws <= n) then ws
  else take (n - 1) ws ++ [Join (drop (n - 1) ws) [sep]].

(** ** Trimming *)

(** The bytes and UTF-8 encodings of the code points of [unicode.IsSpace]. *)
Definition is_space1 (c : ascii) : bool :=
  ((9 <=? code c)%Z && (code c <=? 13)%Z) || (code c =? 32)%Z.

Definition is_space2 (c1 c2 : ascii) : bool :=
  (code c1 =? 194)%Z && ((code c2 =? 133)%Z || (code c2 =? 160)%Z).

Definition is_space3 (c1 c2 c3 : ascii) : bool :=
  let a := code c1 in let b := code c2 in let c := code c3 in
  ((a =? 225) && (b =? 154) && (c =? 128))%Z
  || ((a =? 226) && (b =? 128) && (((128 <=? c) && (c <=? 138)) || (c =? 168) || (c =? 169) || (c =? 175)))%Z
  || ((a =? 226) && (b =? 129) && (c =? 159))%Z
  || ((a =? 227) && (b =? 128) && (c =? 128))%Z.

Section Trim.
Variables (w1 : ascii -> bool) (w2 : ascii -> ascii -> bool) (w3 : ascii -> ascii -> ascii -> bool).

Fixpoint trim_gen (s : gostring) : gostring :=
  match s with
  | [] => []
  | c1 :: s1 =>
      if w1 c1 then trim_gen s1
      else match s1 with
           | [] => s
           | c2 :: s2 =>
               if w2 c1 c2 then trim_gen s2
               else match s2 with
                    | [] => s
                    | c3 :: s3 => if w3 c1 c2 c3 then trim_gen s3 else s
                    end
           end
  end.

End Trim.

Definition TrimLeftSpace (s : gostring) : gostring := trim_gen is_space1 is_space2 is_space3 s.

Definition TrimRightSpace (s : gostring) : gostring :=
  reverse (trim_gen is_space1 (fun a b => is_space2 b a) (fun a b c => is_space3 c b a) (reverse s)).

Definition TrimSpace (s : gostring) : gostring := TrimRightSpace (TrimLeftSpace s).

(** [strings.TrimRight] for a one-byte cutset. *)
Fixpoint drop_byte (c : ascii) (s : gostring) : gostring :=
  match s with
  | [] => []
  | d :: s' => if d ==? c then drop_byte c s' else s
  end.

Definition TrimRightByte (s : gostring) (c : ascii) : gostring :=
  reverse (drop_byte c (reverse s)).

(** ** Case mapping

    Every caller compares the result with an ASCII constant.  A code point
    outside ASCII matters to such a comparison only if it maps into ASCII:
    U+0131 and U+017F under upper-casing, U+0130 and U+212A under lower-casing,
    U+017F and U+212A under folding.  The others are left as they are. *)

Definition upper_byte (c : ascii) : ascii :=
  if ((97 <=? code c) && (code c <=? 122))%Z then chr (code c - 32) else c.

Definition lower_byte (c : ascii) : ascii :=
  if ((65 <=? code c) && (code c <=? 90))%Z then chr (code c + 32) else c.

Fixpoint ToUpper (s : gostring) : gostring :=
  match s with
  | [] => []
  | c1 :: s1 =>
      match s1 with
      | c2 :: s2 =>
          if ((code c1 =? 196) && (code c2 =? 177))%Z then "I"%char :: ToUpper s2
          else if ((code c1 =? 197) && (code c2 =? 191))%Z then "S"%char :: ToUpper s2
          else upper_byte c1 :: ToUpper s1
      | [] => [upper_byte c1]
      end
  end.

Fixpoint ToLower (s : gostring) : gostring :=
  match s with
  | [] => []
  | c1 :: s1 =>
      match s1 with
      | c2 :: s2 =>
          if ((code c1 =? 196) && (code c2 =? 176))%Z then "i"%char :: ToLower s2
          else match s2 with
               | c3 :: s3 =>
                   if ((code c1 =? 226) && (code c2 =? 132) && (code c3 =? 170))%Z
                   then "k"%char :: ToLower s3
                   else lower_byte c1 :: ToLower s1
               | [] => lower_byte c1 :: ToLower s1
               end
      | [] => [lower_byte c1]
      end
  end.

(** ** bufio.Scanner with ScanLines

    A line is what precedes a newline (or the end of input, if not empty), less
    one trailing carriage return.  A line of [max] bytes or more does not fit the
    buffer: the scanner stops there with [ErrTooLong], having delivered the lines
    before it. *)

Definition drop_cr (l : gostring) : gostring := default l (strip_suffix [CR] l).

(** The raw lines: [Split] without the empty piece after a final newline. *)
Definition raw_lines (s : gostring) : list gostring :=
  let ls := Split s LF in
  match last ls with
  | Some [] => take (length ls - 1) ls
  | _ => ls
  end.

Fixpoint scan_raw (max : Z) (ls : list gostring) : list gostring * bool :=
  match ls with
  | [] => ([], true)
  | l :: ls' =>
      if (max <=? Z.of_nat (length l))%Z then ([], false)
      else let '(r, ok) := scan_raw max ls' in (drop_cr l :: r, ok)
  end.

(** The default limit of [bufio.Scanner]. *)
Definition MaxScanTokenSize : Z := 64 * 1024.

(** The delivered lines, and whether [Err()] is nil. *)
Definition ScanLines (max : Z) (s : gostring) : list gostring * bool :=
  scan_raw max (raw_lines s).

(** ** strconv and fmt *)

Definition digit (n : Z) : ascii := chr (48 + n).

(** Decimal digits of a non-negative number; [fuel] bounds their count. *)
Fixpoint digits_aux (fuel : nat) (n : Z) (acc : gostring) : gostring :=
  match fuel with
  | O => acc
  | S f =>
      let acc' := digit (n mod 10) :: acc in
      if (n <? 10)%Z then acc' else digits_aux f (n / 10) acc'
  end.

Definition digits (n : Z) : gostring := digits_aux (S (Z.to_nat (Z.log2 n))) n [].

(** [strconv.Itoa], the [%d] verb. *)
Definition Itoa (n : Z) : gostring :=
  if (n <? 0)%Z then "-"%char :: digits (- n) else digits n.

(** [time.appendInt]: a sign and at least [width] digits. *)
Definition appendInt (n : Z) (width : nat) : gostring :=
  let d := digits (Z.abs n) in
  (if (n <? 0)%Z then ["-"%char] else []) ++ replicate (width - length d) "0"%char ++ d.

(** The value of a digit string. *)
Definition dec_val (s : gostring) : Z := fold_left (fun a c => (10 * a + (code c - 48))%Z) s 0%Z.

(** [strconv.Atoi] on a 64-bit machine. *)
Definition Atoi (s : gostring) : option Z :=
  let '(neg, d) :=
    match s with
    | c :: s' => if c ==? "-"%char then (true, s') else if c ==? "+"%char then (false, s') else (false, s)
    | [] => (false, s)
    end in
  if (d ==? []) || negb (forallb is_digit d) then None
  else
    let v := (if neg then - dec_val d else dec_val d)%Z in
    if ((- 2 ^ 63 <=? v) && (v <? 2 ^ 63))%Z then Some v else None.

(** ** Lemmas *)

Lemma chr_code c : chr (code c) = c.
Proof. unfold chr, code. rewrite N2Z.id. apply ascii_N_embedding. Qed.

Lemma code_chr n : (0 <= n < 256)%Z -> code (chr n) = n.
Proof. intros H. unfold code, chr. rewrite N_ascii_embedding; lia. Qed.

Lemma strip_prefix_Some p s r : strip_prefix p s = Some r <-> s = p ++ r.
Proof.
  revert s. induction p as [|c p IH]; intros s; simpl; [naive_solver|].
  destruct s as [|d s]; [naive_solver|]. case_bool_decide; [|naive_solver].
  rewrite IH. clear IH. naive_solver.
Qed.

Lemma strip_prefix_app p r : strip_prefix p (p ++ r) = Some r.
Proof. by apply strip_prefix_Some. Qed.

Lemma strip_suffix_Some p s r : strip_suffix p s = Some r <-> s = r ++ p.
Proof.
  unfold strip_suffix. split.
  - intros (t & H & ->)%fmap_Some. apply strip_prefix_Some in H.
    rewrite <- (reverse_involutive s), H, reverse_app, reverse_involutive. done.
  - intros ->. rewrite reverse_app, strip_prefix_app. simpl. by rewrite reverse_involutive.
Qed.

Lemma HasPrefix_true s p : HasPrefix s p = true <-> exists r, s = p ++ r.
Proof.
  unfold HasPrefix. rewrite bool_decide_eq_true. unfold is_Some.
  by setoid_rewrite strip_prefix_Some.
Qed.

Lemma HasSuffix_true s p : HasSuffix s p = true <-> exists r, s = r ++ p.
Proof.
  unfold HasSuffix. rewrite bool_decide_eq_true. unfold is_Some.
  by setoid_rewrite strip_suffix_Some.
Qed.

Lemma HasPrefix_app p r : HasPrefix (p ++ r) p = true.
Proof. apply HasPrefix_true. eauto. Qed.

Lemma HasSuffix_app p r : HasSuffix (r ++ p) p = true.
Proof. apply HasSuffix_true. eauto. Qed.

Lemma TrimSuffix_app p r : TrimSuffix (r ++ p) p = r.
Proof. unfold TrimSuffix. by rewrite (proj2 (strip_suffix_Some p _ r)). Qed.

Lemma TrimPrefix_app p r : TrimPrefix (p ++ r) p = r.
Proof. unfold TrimPrefix. by rewrite strip_prefix_app. Qed.

Lemma find_sub_Some sub s a b : find_sub sub s = Some (a, b) -> s = a ++ sub ++ b.
Proof.
  revert a. induction s as [|c s IH]; intros a; simpl.
  - destruct (strip_prefix sub []) eqn:E; [|done].
    intros [= <- <-]. by apply (strip_prefix_Some sub).
  - destruct (strip_prefix sub (c :: s)) eqn:E.
    + intros [= <- <-]. by apply (strip_prefix_Some sub).
    + intros ([a' b'] & H & [= -> ->])%fmap_Some. simpl. by rewrite (IH _ H).
Qed.

Lemma find_sub_occurs sub a b : is_Some (find_sub sub (a ++ sub ++ b)).
Proof.
  induction a as [|c a IH]; simpl.
  - destruct (sub ++ b) eqn:E; simpl; rewrite <- ?E, strip_prefix_app; eauto.
  - destruct (strip_prefix _ _); [by eexists|]. destruct IH as [[x y] ->]. simpl. eauto.
Qed.

Lemma Contains_true s sub : Contains s sub = true <-> exists a b, s = a ++ sub ++ b.
Proof.
  unfold Contains. rewrite bool_decide_eq_true. split.
  - intros [[a b] H%find_sub_Some]. eauto.
  - intros (a & b & ->). apply find_sub_occurs.
Qed.

Lemma ReplaceAllByte_app s t c n : ReplaceAllByte (s ++ t) c n = ReplaceAllByte s c n ++ ReplaceAllByte t c n.
Proof. apply bind_app. Qed.

Lemma ReplaceAllByte_absent s c n : c ∉ s -> ReplaceAllByte s c n = s.
Proof.
  unfold ReplaceAllByte. induction s as [|d s IH]; intros H; [done|].
  apply not_elem_of_cons in H as [Hd Hs]. csimpl.
  rewrite bool_decide_eq_false_2 by done. simpl. by rewrite IH.
Qed.

Lemma Split_cons_nil s sep : Split s sep <> [].
Proof. destruct s; simpl; [done|]. case_bool_decide; [done|]. by destruct (Split _ _). Qed.

Lemma Split_absent s sep : sep ∉ s -> Split s sep = [s].
Proof.
  induction s as [|c s IH]; intros H; [done|].
  apply not_elem_of_cons in H as [Hd Hs]. simpl.
  rewrite bool_decide_eq_false_2 by done. by rewrite IH.
Qed.

Lemma Split_app_sep w s sep : sep ∉ w -> Split (w ++ sep :: s) sep = w :: Split s sep.
Proof.
  induction w as [|c w IH]; intros H; simpl.
  - by rewrite bool_decide_eq_true_2.
  - apply not_elem_of_cons in H as [Hd Hs].
    rewrite bool_decide_eq_false_2 by done. by rewrite IH.
Qed.

Lemma Split_pieces s sep : Forall (fun w => sep ∉ w) (Split s sep).
Proof.
  induction s as [|c s IH]; simpl.
  - repeat constructor. apply not_elem_of_nil.
  - case_bool_decide.
    + constructor; [apply not_elem_of_nil | done].
    + destruct (Split s sep) as [|w ws]; inversion IH; subst; repeat constructor;
        try done; apply not_elem_of_cons; split; auto; apply not_elem_of_nil.
Qed.

Lemma Join_Split s sep : Join (Split s sep) [sep] = s.
Proof.
  induction s as [|c s IH]; simpl; [done|]. case_bool_decide as Hc.
  - subst. simpl. pose proof (Split_cons_nil s sep).
    destruct (Split s sep); [done|]. by rewrite IH.
  - destruct (Split s sep) as [|w [|w' ws]]; simpl in *; subst; done.
Qed.

(** *** Trimming *)

(** A byte that no trimming removes: ASCII and not white space. *)
Definition solid (c : ascii) : bool := (code c <? 128)%Z && negb (is_space1 c).

Lemma solid_not_space2 a c : solid c = true -> is_space2 c a = false /\ is_space2 a c = false.
Proof. unfold solid, is_space2. intros H. bool_prop. split; lia. Qed.

Lemma solid_not_space3 a b c : solid c = true -> is_space3 c a b = false /\ is_space3 a b c = false.
Proof. unfold solid, is_space3. intros H. bool_prop. split; lia. Qed.

Lemma TrimLeftSpace_solid c s : solid c = true -> TrimLeftSpace (c :: s) = c :: s.
Proof.
  intros H. unfold TrimLeftSpace. simpl.
  assert (is_space1 c = false) as -> by (unfold solid in H; by bool_prop).
  destruct s as [|d s]; [done|]. rewrite (proj1 (solid_not_space2 d c H)).
  destruct s as [|e s]; [done|]. by rewrite (proj1 (solid_not_space3 d e c H)).
Qed.

Lemma TrimRightSpace_solid c s : solid c = true -> TrimRightSpace (s ++ [c]) = s ++ [c].
Proof.
  intros H. unfold TrimRightSpace. rewrite reverse_app.
  change (reverse [c]) with [c]. remember (reverse s) as t eqn:Et.
  assert (s = reverse t) as -> by (by rewrite Et, reverse_involutive).
  rewrite <- reverse_cons. f_equal. simpl.
  assert (is_space1 c = false) as -> by (unfold solid in H; by bool_prop).
  destruct t as [|d t]; [done|]. rewrite (proj2 (solid_not_space2 d c H)).
  destruct t as [|e t]; [done|]. by rewrite (proj2 (solid_not_space3 e d c H)).
Qed.

Lemma TrimSpace_solid c d s : solid c = true -> solid d = true -> TrimSpace (c :: s ++ [d]) = c :: s ++ [d].
Proof.
  intros Hc Hd. unfold TrimSpace. rewrite TrimLeftSpace_solid by done.
  apply (TrimRightSpace_solid d (c :: s) Hd).
Qed.

Lemma TrimSpace_solid1 c : solid c = true -> TrimSpace [c] = [c].
Proof.
  intros Hc. unfold TrimSpace. rewrite TrimLeftSpace_solid by done.
  apply (TrimRightSpace_solid c [] Hc).
Qed.

(** A string all of whose bytes are solid is trimmed to itself. *)
Lemma TrimSpace_Forall s : Forall (fun c => solid c = true) s -> TrimSpace s = s.
Proof.
  intros H. destruct s as [|c s]; [done|]. apply Forall_cons in H as [Hc H].
  destruct s as [|d s _] using rev_ind; [by apply TrimSpace_solid1|].
  apply Forall_snoc in H as [_ Hd]. by apply TrimSpace_solid.
Qed.

(** Text that starts and ends with solid bytes. *)
Definition starts_solid (s : gostring) : Prop := exists c t, s = c :: t /\ solid c = true.
Definition ends_solid (s : gostring) : Prop := exists t d, s = t ++ [d] /\ solid d = true.

Lemma TrimSpace_tight s : starts_solid s -> ends_solid s -> TrimSpace s = s.
Proof.
  intros (c & t & -> & Hc) (t' & d & E & Hd). destruct t' as [|c' t'].
  - injection E as -> ->. by apply TrimSpace_solid1.
  - injection E as -> ->. by apply TrimSpace_solid.
Qed.

Lemma starts_solid_app a b : starts_solid a -> starts_solid (a ++ b).
Proof. intros (c & t & -> & Hc). by exists c, (t ++ b). Qed.

Lemma ends_solid_app a b : ends_solid b -> ends_solid (a ++ b).
Proof. intros (t & d & -> & Hd). exists (a ++ t), d. by rewrite app_assoc. Qed.

(** Leading blanks are trimmed. *)
Lemma TrimSpace_blanks k s : TrimSpace (replicate k " "%char ++ s) = TrimSpace s.
Proof. induction k as [|k IH]; [done|]. rewrite <- IH. done. Qed.

Lemma trim_gen_suffix w1 w2 w3 s : exists a, s = a ++ trim_gen w1 w2 w3 s.
Proof.
  induction s as [s IH] using (induction_ltof1 _ length). unfold ltof in IH.
  destruct s as [|c1 s1]; [by exists []|]. simpl. destruct (w1 c1).
  { destruct (IH s1 ltac:(simpl; lia)) as [a Ha]. exists (c1 :: a). simpl. congruence. }
  destruct s1 as [|c2 s2]; [by exists []|]. destruct (w2 c1 c2).
  { destruct (IH s2 ltac:(simpl; lia)) as [a Ha]. exists (c1 :: c2 :: a). simpl. congruence. }
  destruct s2 as [|c3 s3]; [by exists []|]. destruct (w3 c1 c2 c3); [|by exists []].
  destruct (IH s3 ltac:(simpl; lia)) as [a Ha]. exists (c1 :: c2 :: c3 :: a). simpl. congruence.
Qed.

(** Trimming cuts a piece off either end. *)
Lemma trim_gen_length w1 w2 w3 s : length (trim_gen w1 w2 w3 s) <= length s.
Proof. destruct (trim_gen_suffix w1 w2 w3 s) as [a E]. rewrite E at 2. rewrite length_app. lia. Qed.

(** A text that starts with a space loses it. *)
Lemma trim_gen_fix w1 w2 w3 s :
  trim_gen w1 w2 w3 s = s ->
  match s with
  | [] => True
  | c1 :: s1 => w1 c1 = false /\ match s1 with
    | [] => True
    | c2 :: s2 => w2 c1 c2 = false /\ match s2 with [] => True | c3 :: _ => w3 c1 c2 c3 = false end
    end
  end.
Proof.
  destruct s as [|c1 s1]; [done|]. simpl. pose proof (trim_gen_length w1 w2 w3 s1) as H1.
  destruct (w1 c1). { intros E. rewrite E in H1. simpl in H1. lia. } split; [done|]. revert H.
  destruct s1 as [|c2 s2]; [done|]. pose proof (trim_gen_length w1 w2 w3 s2) as H2.
  destruct (w2 c1 c2). { intros E. rewrite E in H2. simpl in H2. lia. } split; [done|]. revert H.
  destruct s2 as [|c3 s3]; [done|]. pose proof (trim_gen_length w1 w2 w3 s3) as H3.
  destruct (w3 c1 c2 c3); [|done]. intros E. rewrite E in H3. simpl in H3. lia.
Qed.

Lemma trim_gen_prefix w1 w2 w3 r b : trim_gen w1 w2 w3 (r ++ b) = r ++ b -> trim_gen w1 w2 w3 r = r.
Proof.
  intros H%trim_gen_fix. destruct r as [|c1 [|c2 [|c3 r]]]; [done| | |]; simpl in *.
  - destruct H as [-> _]. done.
  - destruct H as (-> & -> & _). done.
  - destruct H as (-> & -> & ->). done.
Qed.

Lemma trim_gen_idem w1 w2 w3 s : trim_gen w1 w2 w3 (trim_gen w1 w2 w3 s) = trim_gen w1 w2 w3 s.
Proof.
  assert (forall n s, length s <= n -> trim_gen w1 w2 w3 (trim_gen w1 w2 w3 s) = trim_gen w1 w2 w3 s) as H.
  { intros n. induction n as [|n IH]; intros [|c1 s1] Hl; simpl in Hl; try done; [lia|]. cbn [trim_gen].
    destruct (w1 c1) eqn:E1; [apply IH; lia|]. destruct s1 as [|c2 s2]; [simpl; by rewrite E1|]. simpl in Hl.
    destruct (w2 c1 c2) eqn:E2; [apply IH; lia|]. destruct s2 as [|c3 s3]; [simpl; by rewrite E1, E2|]. simpl in Hl.
    destruct (w3 c1 c2 c3) eqn:E3; [apply IH; lia|]. cbn [trim_gen]. by rewrite E1, E2, E3. }
  by apply (H (length s)).
Qed.

Lemma TrimSpace_idem s : TrimSpace (TrimSpace s) = TrimSpace s.
Proof.
  unfold TrimSpace. set (t := TrimLeftSpace s).
  assert (TrimLeftSpace t = t) as Ht by apply trim_gen_idem.
  assert (TrimLeftSpace (TrimRightSpace t) = TrimRightSpace t) as ->.
  { unfold TrimRightSpace. destruct (trim_gen_suffix is_space1 (fun a b => is_space2 b a) (fun a b c => is_space3 c b a) (reverse t))
      as [a E]. apply (f_equal reverse) in E. rewrite reverse_involutive, reverse_app in E.
    unfold TrimLeftSpace in *. rewrite E in Ht at 1. rewrite E in Ht at 2. by eapply trim_gen_prefix. }
  unfold TrimRightSpace. by rewrite reverse_involutive, trim_gen_idem.
Qed.

Lemma TrimSpace_infix s : exists a b, s = a ++ TrimSpace s ++ b.
Proof.
  destruct (trim_gen_suffix is_space1 is_space2 is_space3 s) as [a Ha].
  unfold TrimSpace, TrimRightSpace. fold (TrimLeftSpace s) in Ha.
  destruct (trim_gen_suffix is_space1 (fun a b => is_space2 b a) (fun a b c => is_space3 c b a)
    (reverse (TrimLeftSpace s))) as [b Hb].
  exists a, (reverse b). rewrite Ha at 1. f_equal.
  rewrite <- (reverse_involutive (TrimLeftSpace s)) at 1. rewrite Hb at 1. apply reverse_app.
Qed.

Lemma drop_byte_elem c d s : d <> c -> d ∈ s -> d ∈ drop_byte c s.
Proof.
  intros Hd. induction s as [|e s IH]; simpl; [done|]. intros [->|H]%elem_of_cons; case_bool_decide; try done; [left|auto|by right].
Qed.

Lemma TrimRightByte_nonempty c d s : d <> c -> d ∈ s -> TrimRightByte s c <> [].
Proof.
  intros Hd Hin E. unfold TrimRightByte in E. assert (d ∈ reverse (drop_byte c (reverse s))) as H.
  { rewrite elem_of_reverse. apply drop_byte_elem; [done|]. by rewrite elem_of_reverse. }
  rewrite E in H. by apply elem_of_nil in H.
Qed.

Lemma Join_snoc (l : list gostring) (n sep : gostring) :
  Join (l ++ [n]) sep = if l ==? [] then n else Join l sep ++ sep ++ n.
Proof.
  induction l as [|w l IH]; [done|]. rewrite <- app_comm_cons. simpl.
  rewrite IH. destruct l as [|w' l]; [done|]. simpl. by rewrite <- !app_assoc.
Qed.

Lemma Join_nonempty (l : list gostring) (sep : gostring) : l <> [] -> Forall (fun e => e <> []) l -> Join l sep <> [].
Proof. destruct l as [|w l]; [done|]. intros _ [Hw _]%Forall_cons. destruct w; [done|]. by destruct l. Qed.

(** *** Scanning lines *)

Definition unlines (ls : list gostring) : gostring := ls ≫= fun l => l ++ [LF].

Lemma Split_unlines ls :
  Forall (fun l => LF ∉ l) ls -> Split (unlines ls) LF = ls ++ [[]].
Proof.
  induction 1 as [|l ls Hl _ IH]; [done|]. unfold unlines in *. csimpl.
  rewrite <- app_assoc. simpl. rewrite Split_app_sep by done. by rewrite IH.
Qed.

Lemma raw_lines_unlines ls : Forall (fun l => LF ∉ l) ls -> raw_lines (unlines ls) = ls.
Proof.
  intros H. unfold raw_lines. rewrite Split_unlines, last_snoc, length_app by done. simpl.
  rewrite Nat.add_sub. apply take_app_length.
Qed.

Lemma raw_lines_app l s : LF ∉ l -> raw_lines (l ++ LF :: s) = l :: raw_lines s.
Proof.
  intros Hl. unfold raw_lines. rewrite Split_app_sep by done. cbn [last length].
  destruct (Split s LF) as [|w ws] eqn:E; [by apply Split_cons_nil in E|]. cbv zeta.
  change (last (l :: w :: ws)) with (last (w :: ws)). destruct (last (w :: ws)) as [[|c z]|]; [|done|done].
  simpl. by rewrite Nat.sub_0_r.
Qed.

Lemma raw_lines_unlines_app ls s : Forall (fun l => LF ∉ l) ls -> raw_lines (unlines ls ++ s) = ls ++ raw_lines s.
Proof.
  induction 1 as [|l ls Hl _ IH]; [done|]. unfold unlines in *. rewrite bind_cons, <- !app_assoc. simpl.
  by rewrite raw_lines_app, IH.
Qed.

(** Lines that fit are delivered whatever follows. *)
Lemma scan_raw_app max a b :
  Forall (fun l => Z.of_nat (length l) < max)%Z a ->
  fst (scan_raw max (a ++ b)) = (drop_cr <$> a) ++ fst (scan_raw max b).
Proof.
  induction 1 as [|l a Hl _ IH]; [done|]. simpl. rewrite (proj2 (Z.leb_gt _ _)) by done.
  destruct (scan_raw max (a ++ b)) as [r ok]. simpl in *. by rewrite IH.
Qed.

Lemma scan_raw_ok max ls :
  Forall (fun l => (Z.of_nat (length l) < max)%Z) ls -> scan_raw max ls = (drop_cr <$> ls, true).
Proof.
  induction 1 as [|l ls Hl _ IH]; [done|]. simpl.
  rewrite (proj2 (Z.leb_gt _ _)) by done. by rewrite IH.
Qed.

Lemma drop_cr_id l c : c <> CR -> drop_cr (l ++ [c]) = l ++ [c].
Proof.
  intros Hc. unfold drop_cr. destruct (strip_suffix [CR] _) eqn:E; [|done].
  apply strip_suffix_Some in E. apply app_inj_tail in E. naive_solver.
Qed.

(** *** Decimal numerals *)

Lemma is_digit_digit n : (0 <= n < 10)%Z -> is_digit (digit n) = true /\ code (digit n) = (48 + n)%Z.
Proof. intros H. unfold is_digit, digit. rewrite !code_chr by lia. lia. Qed.

Lemma fold_dec_app s t a :
  fold_left (fun a c => (10 * a + (code c - 48))%Z) (s ++ t) a
  = fold_left (fun a c => (10 * a + (code c - 48))%Z) t (fold_left (fun a c => (10 * a + (code c - 48))%Z) s a).
Proof. apply fold_left_app. Qed.

Lemma dec_val_snoc s c : dec_val (s ++ [c]) = (10 * dec_val s + (code c - 48))%Z.
Proof. unfold dec_val. by rewrite fold_dec_app. Qed.

Lemma digits_aux_spec fuel n acc :
  (0 <= n < 10 ^ Z.of_nat fuel)%Z -> (0 < fuel)%nat ->
  exists d, digits_aux fuel n acc = d ++ acc /\ dec_val d = n /\ Forall (fun c => is_digit c = true) d /\ d <> [].
Proof.
  revert n acc. induction fuel as [|fuel IH]; intros n acc Hn Hf; [lia|]. simpl.
  destruct (is_digit_digit (n mod 10)) as [Hd Hc]; [zdiv|].
  destruct (n <? 10)%Z eqn:E; bool_prop.
  - exists [digit (n mod 10)]. repeat split; [|by constructor|done].
    unfold dec_val. cbn [fold_left]. rewrite Hc, Z.mod_small; lia.
  - assert (10 ^ Z.of_nat (S fuel) = 10 * 10 ^ Z.of_nat fuel)%Z as Hp
      by (rewrite Nat2Z.inj_succ, Z.pow_succ_r; lia).
    destruct fuel as [|fuel]; [simpl in *; lia|].
    destruct (IH (n / 10)%Z (digit (n mod 10) :: acc)) as (d & -> & Hv & Hall & _);
      [split; [zdiv|apply Z.div_lt_upper_bound; lia]|lia|].
    exists (d ++ [digit (n mod 10)]). rewrite <- app_assoc. split; [done|].
    rewrite dec_val_snoc, Hv, Hc, Forall_snoc. split; [zdiv|]. split; [done|]. by destruct d.
Qed.

Lemma digits_spec n :
  (0 <= n)%Z -> dec_val (digits n) = n /\ Forall (fun c => is_digit c = true) (digits n) /\ digits n <> [].
Proof.
  intros Hn. unfold digits.
  destruct (digits_aux_spec (S (Z.to_nat (Z.log2 n))) n []) as (d & -> & H); [|lia|].
  - split; [done|]. destruct (decide (n = 0)%Z) as [->|]; [by vm_compute|].
    pose proof (Z.log2_spec n ltac:(lia)). pose proof (Z.log2_nonneg n).
    eapply Z.lt_le_trans; [apply H|]. rewrite Nat2Z.inj_succ, Z2Nat.id by done.
    apply Z.pow_le_mono_l; lia.
  - by rewrite app_nil_r.
Qed.

Lemma dec_val_zeros k s : dec_val (replicate k "0"%char ++ s) = dec_val s.
Proof. unfold dec_val. induction k; simpl; [done|]. exact IHk. Qed.

Lemma appendInt_nonneg n w :
  (0 <= n)%Z -> appendInt n w = replicate (w - length (digits n)) "0"%char ++ digits n.
Proof. intros H. unfold appendInt. rewrite Z.abs_eq by done. by rewrite (proj2 (Z.ltb_ge n 0)). Qed.

Lemma appendInt_digits n w : (0 <= n)%Z -> Forall (fun c => is_digit c = true) (appendInt n w).
Proof.
  intros H. rewrite appendInt_nonneg, Forall_app by done. split; [|by apply digits_spec].
  by apply Forall_replicate.
Qed.

Lemma dec_val_appendInt n w : (0 <= n)%Z -> dec_val (appendInt n w) = n.
Proof. intros H. rewrite appendInt_nonneg, dec_val_zeros by done. by apply digits_spec. Qed.

Lemma digits_aux_length fuel n acc k :
  (0 <= n < 10 ^ Z.of_nat k)%Z -> (0 < k)%nat -> length (digits_aux fuel n acc) <= k + length acc.
Proof.
  revert n acc k. induction fuel as [|fuel IH]; intros n acc k Hn Hk; simpl; [lia|].
  destruct (n <? 10)%Z eqn:E; bool_prop; simpl; [lia|].
  destruct k as [|[|k]]; [lia|simpl in *; lia|].
  rewrite (Nat2Z.inj_succ (S k)), Z.pow_succ_r in Hn by lia.
  etrans; [apply (IH _ _ (S k)); [|lia]|simpl; lia].
  split; [zdiv|apply Z.div_lt_upper_bound; lia].
Qed.

Lemma appendInt_length n w :
  (0 <= n < 10 ^ Z.of_nat w)%Z -> (0 < w)%nat -> length (appendInt n w) = w.
Proof.
  intros H Hw. rewrite appendInt_nonneg, length_app, length_replicate by lia.
  unfold digits at 2. pose proof (digits_aux_length (S (Z.to_nat (Z.log2 n))) n [] w H Hw) as Hl.
  fold (digits n) in *. simpl in Hl. lia.
Qed.

Lemma dec_val_bound s :
  Forall (fun c => is_digit c = true) s -> (0 <= dec_val s < 10 ^ Z.of_nat (length s))%Z.
Proof.
  induction s as [|c s IH] using rev_ind; intros H; [by vm_compute|].
  apply Forall_snoc in H as [Hs Hc]. specialize (IH Hs).
  rewrite dec_val_snoc, length_app, Nat.add_1_r, Nat2Z.inj_succ, Z.pow_succ_r by lia.
  unfold is_digit in Hc. bool_prop. lia.
Qed.

Lemma appendInt_inj n n' w : appendInt n w = appendInt n' w -> n = n'.
Proof.
  assert (forall k, (k < 0)%Z -> appendInt k w = "-"%char :: appendInt (- k) w) as Hneg.
  { intros k Hk. unfold appendInt. rewrite Z.abs_opp, (proj2 (Z.ltb_lt k 0)) by done.
    by rewrite (proj2 (Z.ltb_ge (- k) 0)) by lia. }
  assert (forall k l, (0 <= k)%Z -> appendInt k w <> "-"%char :: l) as Hpos.
  { intros k l Hk E. pose proof (appendInt_digits k w Hk) as H. rewrite E in H.
    apply Forall_cons in H as [H _]. done. }
  intros H. destruct (Z.lt_ge_cases n 0), (Z.lt_ge_cases n' 0).
  - rewrite (Hneg n), (Hneg n') in H by done. apply (f_equal tail) in H. simpl in H.
    apply (f_equal dec_val) in H. rewrite !dec_val_appendInt in H; lia.
  - rewrite (Hneg n) in H by done. symmetry in H. by apply Hpos in H.
  - rewrite (Hneg n') in H by done. by apply Hpos in H.
  - apply (f_equal dec_val) in H. by rewrite !dec_val_appendInt in H by done.
Qed.

End GoStrings.
