(* ===== verification/Regexp.v ===== *)
(** * UTF-8 decoding and the fragment of Go's regexp package the program uses.

    A pattern is matched against the code points of the text.  [run] lists the
    ways a pattern can match at the start of a text in the order in which a
    backtracking matcher would find them, so that the head of the list is the
    leftmost-first match the package returns.  Repetition is applied to character
    classes only, as in every pattern of the program, so [run] is structurally
    recursive and needs no fuel. *)

From S2P Require Import Prelude GoStrings.
Import GoStrings.

Module Regexp.

Local Open Scope Z_scope.

(** ** Code points *)

Record tok := mkTok { rune : Z; bytes : gostring }.

#[global] Instance tok_eq_dec : EqDecision tok.
Proof. solve_decision. Defined.

Definition RuneError : Z := 65533.

Definition cont (c : ascii) : bool := (128 <=? code c) && (code c <=? 191).

Definition in_range (a b : Z) (c : ascii) : bool := (a <=? code c) && (code c <=? b).

Definition ok2 (c1 c2 : ascii) : bool := in_range 194 223 c1 && cont c2.

Definition ok3 (c1 c2 c3 : ascii) : bool :=
  in_range 224 239 c1
  && in_range (if code c1 =? 224 then 160 else 128) (if code c1 =? 237 then 159 else 191) c2
  && cont c3.

Definition ok4 (c1 c2 c3 c4 : ascii) : bool :=
  in_range 240 244 c1
  && in_range (if code c1 =? 240 then 144 else 128) (if code c1 =? 244 then 143 else 191) c2
  && cont c3 && cont c4.

Definition low6 (c : ascii) : Z := Z.land (code c) 63.

Definition tok1 (c : ascii) : tok := mkTok (code c) [c].
Definition tok2 (c1 c2 : ascii) : tok :=
  mkTok (Z.lor (Z.shiftl (Z.land (code c1) 31) 6) (low6 c2)) [c1; c2].
Definition tok3 (c1 c2 c3 : ascii) : tok :=
  mkTok (Z.lor (Z.shiftl (Z.land (code c1) 15) 12) (Z.lor (Z.shiftl (low6 c2) 6) (low6 c3))) [c1; c2; c3].
Definition tok4 (c1 c2 c3 c4 : ascii) : tok :=
  mkTok (Z.lor (Z.shiftl (Z.land (code c1) 7) 18)
    (Z.lor (Z.shiftl (low6 c2) 12) (Z.lor (Z.shiftl (low6 c3) 6) (low6 c4)))) [c1; c2; c3; c4].
Definition bad (c : ascii) : tok := mkTok RuneError [c].

(** The code points of a byte string; a byte that starts no valid encoding is
    U+FFFD of width one. *)
Fixpoint runes (s : gostring) : list tok :=
  match s with
  | [] => []
  | c1 :: s1 =>
      if code c1 <? 128 then tok1 c1 :: runes s1
      else match s1 with
      | [] => [bad c1]
      | c2 :: s2 =>
          if ok2 c1 c2 then tok2 c1 c2 :: runes s2
          else match s2 with
          | [] => bad c1 :: runes s1
          | c3 :: s3 =>
              if ok3 c1 c2 c3 then tok3 c1 c2 c3 :: runes s3
              else match s3 with
              | [] => bad c1 :: runes s1
              | c4 :: s4 =>
                  if ok4 c1 c2 c3 c4 then tok4 c1 c2 c3 c4 :: runes s4
                  else bad c1 :: runes s1
              end
          end
      end
  end.

(** The bytes of a run of code points. *)
Definition text (l : list tok) : gostring := l ≫= bytes.

(** ** Patterns *)

Inductive re :=
| Eps
| Cls (p : Z -> bool)
| Rep (p : Z -> bool)
| Cat (a b : re)
| Alt (a b : re)
| Grp (n : nat) (a : re)
| Eot.

(** One way of matching: the code points consumed, the rest, the groups set. *)
Definition hit : Type := list tok * list tok * list (nat * gostring).

(** [p*], longest first. *)
Fixpoint rep (p : Z -> bool) (s : list tok) : list hit :=
  match s with
  | [] => [([], [], [])]
  | t :: s' =>
      (if p (rune t) then (fun '(c, r, k) => (t :: c, r, k)) <$> rep p s' else [])
      ++ [([], s, [])]
  end.

Fixpoint run (r : re) (s : list tok) : list hit :=
  match r with
  | Eps => [([], s, [])]
  | Cls p =>
      match s with
      | t :: s' => if p (rune t) then [([t], s', [])] else []
      | [] => []
      end
  | Rep p => rep p s
  | Cat a b =>
      run a s ≫= fun '(c1, s1, k1) => (fun '(c2, s2, k2) => (c1 ++ c2, s2, k2 ++ k1)) <$> run b s1
  | Alt a b => run a s ++ run b s
  | Grp n a => (fun '(c, s', k) => (c, s', (n, text c) :: k)) <$> run a s
  | Eot => match s with [] => [([], [], [])] | _ => [] end
  end.

(** The leftmost-first match of an unanchored pattern. *)
Fixpoint find (r : re) (s : list tok) : option hit :=
  match run r s with
  | m :: _ => Some m
  | [] => match s with [] => None | _ :: s' => find r s' end
  end.

Definition group (k : list (nat * gostring)) (n : nat) : gostring :=
  default [] (snd <$> list_find (fun p => fst p = n) k ≫= fun q => Some (snd q)).

Definition submatches (ngroups : nat) (m : hit) : list gostring :=
  let '(c, _, k) := m in text c :: (group k <$> seq 1 ngroups).

(** [re.FindStringSubmatch], [None] for nil. *)
Definition FindStringSubmatch (r : re) (ngroups : nat) (s : gostring) : option (list gostring) :=
  submatches ngroups <$> find r (runes s).

(** [re.MatchString] for a pattern that starts with [^]. *)
Definition MatchAnchored (r : re) (s : gostring) : bool :=
  match run r (runes s) with [] => false | _ => true end.

(** [re.ReplaceAllString] for a pattern without empty matches and a replacement
    without [$]: [skip] counts the code points of a match still to be dropped. *)
Fixpoint replace_go (r : re) (new : gostring) (skip : nat) (s : list tok) : gostring :=
  match s with
  | [] => []
  | t :: s' =>
      match skip with
      | S k => replace_go r new k s'
      | O =>
          match run r s with
          | (_ :: c, _, _) :: _ => new ++ replace_go r new (length c) s'
          | _ => bytes t ++ replace_go r new 0 s'
          end
      end
  end.

Definition ReplaceAllString (r : re) (s new : gostring) : gostring := replace_go r new 0 (runes s).

(** ** Building patterns *)

Definition is_byte (c : ascii) (r : Z) : bool := r =? code c.
Definition not_byte (c : ascii) (r : Z) : bool := negb (r =? code c).

(** Case-insensitive comparison with an ASCII letter: [unicode.SimpleFold] relates
    S to U+017F and K to U+212A besides the other case. *)
Definition fold_byte (c : ascii) (r : Z) : bool :=
  (r =? code (upper_byte c)) || (r =? code (lower_byte c))
  || ((code (upper_byte c) =? 83) && (r =? 383))
  || ((code (upper_byte c) =? 75) && (r =? 8490)).

Definition cats (l : list re) : re := foldr Cat Eps l.
Definition lit (s : gostring) : re := cats ((fun c => Cls (is_byte c)) <$> s).
Definition lit_ci (s : gostring) : re := cats ((fun c => Cls (fold_byte c)) <$> s).
Definition plus (p : Z -> bool) : re := Cat (Cls p) (Rep p).
Definition times (n : nat) (p : Z -> bool) : re := cats (replicate n (Cls p)).

(** [\s], [\d] and [\w]. *)
Definition cls_s (r : Z) : bool := (r =? 9) || (r =? 10) || (r =? 12) || (r =? 13) || (r =? 32).
Definition cls_d (r : Z) : bool := (48 <=? r) && (r <=? 57).
Definition cls_w (r : Z) : bool :=
  ((48 <=? r) && (r <=? 57)) || ((65 <=? r) && (r <=? 90)) || ((97 <=? r) && (r <=? 122)) || (r =? 95).
(** [.]: any code point but a newline. *)
Definition cls_dot (r : Z) : bool := negb (r =? 10).

(** ** Lemmas: decoding *)

Lemma runes_ind (P : gostring -> Prop) :
  (forall s, (forall s', (length s' < length s)%nat -> P s') -> P s) -> forall s, P s.
Proof. intros H. apply (induction_ltof1 _ length). exact H. Qed.

Lemma runes_ascii c s : code c < 128 -> runes (c :: s) = tok1 c :: runes s.
Proof. intros H. simpl. by rewrite (proj2 (Z.ltb_lt _ _)). Qed.

Lemma runes_ascii_app a s :
  Forall (fun c => code c < 128) a -> runes (a ++ s) = (tok1 <$> a) ++ runes s.
Proof. induction 1 as [|c a Hc _ IH]; [done|]. rewrite <- app_comm_cons, runes_ascii by done. by rewrite IH. Qed.

Lemma text_runes s : text (runes s) = s.
Proof.
  unfold text. induction s as [s IH] using runes_ind.
  destruct s as [|c1 s1]; [done|]. simpl. destruct (code c1 <? 128).
  { csimpl. by rewrite IH by (simpl; lia). }
  destruct s1 as [|c2 s2]; [done|]. destruct (ok2 c1 c2).
  { csimpl. by rewrite IH by (simpl; lia). }
  assert ((bad c1 :: runes (c2 :: s2)) ≫= bytes = c1 :: c2 :: s2) as Hbad.
  { rewrite bind_cons, (IH (c2 :: s2)) by (simpl; lia). done. }
  destruct s2 as [|c3 s3]; [done|]. destruct (ok3 c1 c2 c3).
  { csimpl. by rewrite IH by (simpl; lia). }
  destruct s3 as [|c4 s4]; [done|]. destruct (ok4 c1 c2 c3 c4); [|done].
  csimpl. by rewrite IH by (simpl; lia).
Qed.

Lemma ok_ascii_false a b d c :
  code c < 128 -> ok2 a c = false /\ ok3 a c b = false /\ ok3 a b c = false
  /\ ok4 a c b d = false /\ ok4 a b c d = false /\ ok4 a b d c = false.
Proof. intros H. unfold ok2, ok3, ok4, cont, in_range. repeat case_if; lia. Qed.

Lemma runes_cons c1 s1 :
  runes (c1 :: s1) =
  if code c1 <? 128 then tok1 c1 :: runes s1
  else match s1 with
  | [] => [bad c1]
  | c2 :: s2 =>
      if ok2 c1 c2 then tok2 c1 c2 :: runes s2
      else match s2 with
      | [] => bad c1 :: runes s1
      | c3 :: s3 =>
          if ok3 c1 c2 c3 then tok3 c1 c2 c3 :: runes s3
          else match s3 with
          | [] => bad c1 :: runes s1
          | c4 :: s4 => if ok4 c1 c2 c3 c4 then tok4 c1 c2 c3 c4 :: runes s4 else bad c1 :: runes s1
          end
      end
  end.
Proof. done. Qed.

(** An ASCII byte ends any encoding before it. *)
Lemma runes_app_ascii u c s : code c < 128 -> runes (u ++ c :: s) = runes u ++ runes (c :: s).
Proof.
  intros Hc. remember (runes (c :: s)) as R eqn:HR. induction u as [u IH] using runes_ind.
  destruct u as [|c1 u1]; [done|]. rewrite <- app_comm_cons, !(runes_cons c1).
  destruct (code c1 <? 128). { by rewrite IH by (simpl; lia). }
  destruct u1 as [|c2 u2]; cbn [app].
  { destruct (ok_ascii_false c1 c c c Hc) as (-> & _). rewrite <- HR.
    destruct s as [|d s]; [done|]. destruct (ok_ascii_false c1 d d c Hc) as (_ & -> & _).
    destruct s as [|e s]; [done|]. by destruct (ok_ascii_false c1 d e c Hc) as (_ & _ & _ & -> & _). }
  pose proof (IH (c2 :: u2) ltac:(simpl; lia)) as Hb. cbn [app] in Hb. rewrite Hb.
  destruct (ok2 c1 c2). { by rewrite IH by (simpl; lia). }
  destruct u2 as [|c3 u3]; cbn [app].
  { destruct (ok_ascii_false c1 c2 c2 c Hc) as (_ & _ & -> & _).
    destruct s as [|e s]; [done|]. by destruct (ok_ascii_false c1 c2 e c Hc) as (_ & _ & _ & _ & -> & _). }
  destruct (ok3 c1 c2 c3). { by rewrite IH by (simpl; lia). }
  destruct u3 as [|c4 u4]; cbn [app].
  { by destruct (ok_ascii_false c1 c2 c3 c Hc) as (_ & _ & _ & _ & _ & ->). }
  destruct (ok4 c1 c2 c3 c4); [|done]. by rewrite IH by (simpl; lia).
Qed.

(** An ASCII byte is a code point by itself. *)
Lemma runes_ascii_byte s t c : t ∈ runes s -> c ∈ bytes t -> code c < 128 -> t = tok1 c.
Proof.
  intros Ht Hc Ha. induction s as [s IH] using runes_ind. destruct s as [|c1 s1]; [by apply elem_of_nil in Ht|].
  assert (forall s', (length s' < length (c1 :: s1))%nat -> forall u, (c ∈ bytes u -> u = tok1 c) ->
    t ∈ u :: runes s' -> t = tok1 c) as Hcons.
  { intros s' Hs' u Hu [->|Hin]%elem_of_cons; [auto|]. by apply (IH s'). }
  rewrite runes_cons in Ht. destruct (code c1 <? 128) eqn:E1.
  { apply (Hcons s1) in Ht; [done|simpl; lia|]. by intros ->%list_elem_of_singleton. }
  assert (c ∈ bytes (bad c1) -> bad c1 = tok1 c) as Hbad by (intros ->%list_elem_of_singleton; lia).
  destruct s1 as [|c2 s2]; [by apply (Hcons []) in Ht; [|simpl; lia|]|].
  destruct (ok2 c1 c2) eqn:E2.
  { apply (Hcons s2) in Ht; [done|simpl; lia|]. unfold ok2, in_range, cont in E2. simpl. set_unfold. naive_solver lia. }
  destruct s2 as [|c3 s3]; [by apply (Hcons [c2]) in Ht; [|simpl; lia|]|].
  destruct (ok3 c1 c2 c3) eqn:E3.
  { apply (Hcons s3) in Ht; [done|simpl; lia|]. unfold ok3, in_range, cont in E3. simpl. set_unfold.
    repeat case_match; naive_solver lia. }
  destruct s3 as [|c4 s4]; [by apply (Hcons [c2; c3]) in Ht; [|simpl; lia|]|].
  destruct (ok4 c1 c2 c3 c4) eqn:E4.
  { apply (Hcons s4) in Ht; [done|simpl; lia|]. unfold ok4, in_range, cont in E4. simpl. set_unfold.
    repeat case_match; naive_solver lia. }
  by apply (Hcons (c2 :: c3 :: c4 :: s4)) in Ht; [|simpl; lia|].
Qed.

(** A code point below 64 is an ASCII byte: the others set a higher bit. *)
Lemma lor_shiftl6 x y : 0 <= x -> 0 <= y -> Z.lor (Z.shiftl x 6) y < 64 -> x = 0 /\ y < 64.
Proof.
  intros Hx Hy H. assert (Z.shiftr (Z.lor (Z.shiftl x 6) y) 6 = 0) as E.
  { rewrite Z.shiftr_div_pow2 by lia. apply Z.div_small. split; [|exact H]. apply Z.lor_nonneg. split; [apply Z.shiftl_nonneg; lia|lia]. }
  rewrite Z.shiftr_lor, Z.shiftr_shiftl_l, Z.shiftl_0_r in E by lia. apply Z.lor_eq_0_iff in E as [-> E]. split; [done|].
  rewrite Z.shiftr_div_pow2 in E by lia. apply Z.div_small_iff in E; lia.
Qed.

Lemma lor_shiftl12 x y z : 0 <= x -> 0 <= y -> 0 <= z -> Z.lor (Z.shiftl x 12) (Z.lor (Z.shiftl y 6) z) < 64 -> x = 0 /\ y = 0.
Proof.
  intros Hx Hy Hz H. replace (Z.shiftl x 12) with (Z.shiftl (Z.shiftl x 6) 6) in H by (by rewrite Z.shiftl_shiftl).
  rewrite Z.lor_assoc, <- Z.shiftl_lor in H. apply lor_shiftl6 in H as [H _]; [|apply Z.lor_nonneg; split; [apply Z.shiftl_nonneg|]; lia|lia].
  apply Z.lor_eq_0_iff in H as [H ->]. split; [|done]. by apply Z.shiftl_eq_0_iff in H.
Qed.

Lemma land_pos c m : 0 <= m -> 0 <= Z.land (code c) m.
Proof. intros Hm. apply Z.land_nonneg. by right. Qed.

Lemma lead_bits c : (in_range 194 223 c = true -> Z.land (code c) 31 <> 0) /\ (in_range 224 239 c = true -> Z.land (code c) 15 = 0 -> code c = 224)
  /\ (in_range 240 244 c = true -> Z.land (code c) 7 = 0 -> code c = 240) /\ (in_range 144 191 c = true -> low6 c <> 0).
Proof. destruct c as [[] [] [] [] [] [] [] []]; vm_compute; repeat split; intros; discriminate || done. Qed.

Lemma runes_low s t : t ∈ runes s -> rune t < 64 -> exists c, t = tok1 c /\ c ∈ s.
Proof.
  intros Ht Hr. induction s as [s IH] using runes_ind. destruct s as [|c1 s1]; [by apply elem_of_nil in Ht|].
  assert (forall s' u, (length s' < length (c1 :: s1))%nat -> s' ⊆ c1 :: s1 -> (rune u < 64 -> exists c, u = tok1 c /\ c ∈ c1 :: s1) ->
    t ∈ u :: runes s' -> exists c, t = tok1 c /\ c ∈ c1 :: s1) as Hcons.
  { intros s' u Hs' Hsub Hu [->|Hin]%elem_of_cons; [auto|]. destruct (IH s' Hs' Hin) as (c & -> & Hc). exists c. auto. }
  rewrite runes_cons in Ht. destruct (code c1 <? 128).
  { apply (Hcons s1) in Ht; [done|simpl; lia|set_solver|]. intros _. exists c1. split; [done|left]. }
  assert (rune (bad c1) < 64 -> exists c, bad c1 = tok1 c /\ c ∈ c1 :: s1) as Hbad by (simpl; unfold RuneError; lia).
  destruct s1 as [|c2 s2]; [by apply (Hcons []) in Ht; [|simpl; lia|set_solver|]|].
  destruct (ok2 c1 c2) eqn:E2.
  { apply (Hcons s2) in Ht; [done|simpl; lia|set_solver|]. simpl. intros H. apply lor_shiftl6 in H as [H _]; [|by apply land_pos..].
    unfold ok2 in E2. apply andb_true_iff in E2 as [E _]. by apply (lead_bits c1) in E. }
  destruct s2 as [|c3 s3]; [by apply (Hcons [c2]) in Ht; [|simpl; lia|set_solver|]|].
  destruct (ok3 c1 c2 c3) eqn:E3.
  { apply (Hcons s3) in Ht; [done|simpl; lia|set_solver|]. simpl. intros H. apply lor_shiftl12 in H as [H H2]; [|by apply land_pos..].
    unfold ok3 in E3. apply andb_true_iff in E3 as [[E E']%andb_true_iff _]. pose proof (proj1 (proj2 (lead_bits c1)) E H) as E1.
    rewrite E1 in E'. cbn [Z.eqb Pos.eqb] in E'. destruct (lead_bits c2) as (_ & _ & _ & Hl). destruct Hl; [|done].
    unfold in_range in *. lia. }
  destruct s3 as [|c4 s4]; [by apply (Hcons [c2; c3]) in Ht; [|simpl; lia|set_solver|]|].
  destruct (ok4 c1 c2 c3 c4) eqn:E4; [|by apply (Hcons (c2 :: c3 :: c4 :: s4)) in Ht; [|simpl; lia|set_solver|]].
  apply (Hcons s4) in Ht; [done|simpl; lia|set_solver|]. simpl. intros H.
  replace (Z.shiftl (Z.land (code c1) 7) 18) with (Z.shiftl (Z.shiftl (Z.land (code c1) 7) 6) 12) in H by (by rewrite Z.shiftl_shiftl).
  rewrite Z.lor_assoc, <- Z.shiftl_lor in H. apply lor_shiftl12 in H as [H _];
    [|apply Z.lor_nonneg; split; [apply Z.shiftl_nonneg|]; by apply land_pos|by apply land_pos..].
  apply Z.lor_eq_0_iff in H as [H H2]. apply Z.shiftl_eq_0_iff in H; [|lia].
  unfold ok4 in E4. apply andb_true_iff in E4 as [[[E E']%andb_true_iff _]%andb_true_iff _]. pose proof (proj1 (proj2 (proj2 (lead_bits c1))) E H) as E1.
  rewrite E1 in E'. cbn [Z.eqb Pos.eqb] in E'. destruct (lead_bits c2) as (_ & _ & _ & Hl). destruct Hl; [|done].
  unfold in_range in *. lia.
Qed.

(** A replacement of the code points of a class leaves none of them. *)
Lemma ReplaceAllString_Cls p s new c :
  c ∈ ReplaceAllString (Cls p) s new -> code c < 128 -> c ∈ new \/ p (code c) = false.
Proof.
  unfold ReplaceAllString. intros Hin Hc. pose proof (fun t H H' => runes_ascii_byte s t c H H' Hc) as Hb.
  revert Hin Hb. induction (runes s) as [|t ts IH]; simpl; [by intros ?%elem_of_nil|].
  destruct (p (rune t)) eqn:Ep; simpl; intros [Hin|Hin]%elem_of_app Hb; auto.
  - apply IH; [done|]. intros u Hu. apply Hb. by right.
  - right. rewrite (Hb t) in Ep by (done || left). done.
  - apply IH; [done|]. intros u Hu. apply Hb. by right.
Qed.

(** *** Matching *)

(** Every hit splits the text into what it consumed and the rest. *)
Lemma rep_split p s c r k : (c, r, k) ∈ rep p s -> s = c ++ r /\ Forall (fun t => p (rune t) = true) c /\ k = [].
Proof.
  revert c. induction s as [|t s IH]; intros c; simpl.
  - intros H%list_elem_of_singleton. by simplify_eq.
  - rewrite elem_of_app, list_elem_of_singleton. intros [H|H]; [|by simplify_eq].
    destruct (p (rune t)) eqn:E; [|by apply not_elem_of_nil in H].
    apply list_elem_of_fmap in H as ([[c' r'] k'] & ? & H). simplify_eq.
    apply IH in H as (-> & H & ->). auto.
Qed.

Lemma run_split r s c s' k : (c, s', k) ∈ run r s -> s = c ++ s'.
Proof.
  revert s c s' k. induction r as [|p|p|a IHa b IHb|a IHa b IHb|n a IHa|]; intros s c s' k; simpl.
  - intros H%list_elem_of_singleton. by simplify_eq.
  - destruct s as [|t s]; [by intros ?%not_elem_of_nil|].
    destruct (p (rune t)); [|by intros ?%not_elem_of_nil].
    intros H%list_elem_of_singleton. by simplify_eq.
  - apply rep_split.
  - intros H. apply list_elem_of_bind in H as ([[c1 s1] k1] & H & H1).
    apply list_elem_of_fmap in H as ([[c2 s2] k2] & ? & H2). simplify_eq.
    apply IHa in H1. apply IHb in H2. subst. by rewrite app_assoc.
  - rewrite elem_of_app. intros [H|H]; eauto.
  - intros H. apply list_elem_of_fmap in H as ([[c1 s1] k1] & ? & H1). simplify_eq. eauto.
  - destruct s; [|by intros ?%not_elem_of_nil]. intros H%list_elem_of_singleton. by simplify_eq.
Qed.

(** The first hit of a maximal run of a class. *)
Lemma rep_head p w s :
  Forall (fun t => p (rune t) = true) w ->
  (forall t s', s = t :: s' -> p (rune t) = false) ->
  exists l, rep p (w ++ s) = (w, s, []) :: l.
Proof.
  intros Hw Hs. induction Hw as [|t w Ht Hw [l IH]]; simpl.
  - destruct s as [|t s]; simpl; [by eexists|]. rewrite (Hs t s eq_refl). by eexists.
  - rewrite Ht, IH. by eexists.
Qed.

(** What a pattern starting with [p*] can do when nothing after it can start with
    a code point of [p]: only the maximal run counts. *)
Lemma run_Rep_Cat p r w s :
  Forall (fun t => p (rune t) = true) w ->
  (forall t s', s = t :: s' -> p (rune t) = false) ->
  (forall t s', p (rune t) = true -> run r (t :: s') = []) ->
  run (Cat (Rep p) r) (w ++ s) = (fun '(c, s', k) => (w ++ c, s', k ++ [])) <$> run r s.
Proof.
  intros Hw Hs Hr. induction Hw as [|t w Ht Hw IH].
  - simpl. destruct s as [|t s]; simpl; rewrite ?(Hs t s eq_refl); simpl; by rewrite app_nil_r.
  - cbn [run] in *. simpl. rewrite Ht, bind_app. simpl. rewrite (Hr t) by done. simpl.
    rewrite !app_nil_r. rewrite list_fmap_bind. revert IH. generalize (rep p (w ++ s)) as hs.
    intros hs IH.
    transitivity ((fun '(c, s', k) => (t :: c, s', k)) <$> (hs ≫= (fun '(c1, s1, k1) =>
      (fun '(c2, s2, k2) => (c1 ++ c2, s2, k2 ++ k1)) <$> run r s1))).
    + clear. induction hs as [|[[c s1] k] hs IH]; [done|]. rewrite !bind_cons, fmap_app, IH. f_equal.
      simpl. induction (run r s1) as [|[[c2 s2] k2] l IHl]; [done|]. csimpl. by rewrite IHl.
    + rewrite IH. clear. induction (run r s) as [|[[c2 s2] k2] l IHl]; [done|]. csimpl. by rewrite IHl.
Qed.

(** A deterministic step followed by the rest of a pattern. *)
Lemma run_Cat_det a b s c s' k : run a s = [(c, s', k)] ->
  run (Cat a b) s = (fun '(c2, s2, k2) => (c ++ c2, s2, k2 ++ k)) <$> run b s'.
Proof. intros H. cbn [run]. rewrite H. cbn. by rewrite app_nil_r. Qed.

Lemma run_Cls p t s : p (rune t) = true -> run (Cls p) (t :: s) = [([t], s, [])].
Proof. intros H. cbn [run]. by rewrite H. Qed.

Lemma run_lit w s : run (lit w) ((tok1 <$> w) ++ s) = [(tok1 <$> w, s, [])].
Proof.
  unfold lit, cats. induction w as [|c w IH]; [done|]. cbn [fmap list_fmap foldr app].
  erewrite run_Cat_det by (apply run_Cls, Z.eqb_refl). by rewrite IH.
Qed.

Lemma run_times p ts s : Forall (fun t => p (rune t) = true) ts -> run (times (length ts) p) (ts ++ s) = [(ts, s, [])].
Proof.
  unfold times, cats. induction 1 as [|t ts Ht _ IH]; [done|]. cbn [length replicate foldr app].
  erewrite run_Cat_det by (by apply run_Cls). by rewrite IH.
Qed.

Lemma text_tok1 w : text (tok1 <$> w) = w.
Proof. unfold text. induction w as [|c w IH]; [done|]. csimpl. by rewrite IH. Qed.

(** A match at the first position is the one found. *)
Lemma find_here r s m l : run r s = m :: l -> find r s = Some m.
Proof. intros H. destruct s; cbn [find]; by rewrite H. Qed.

(** A repetition may stop anywhere within a run of its class. *)
Lemma run_Rep_some p r w s : Forall (fun t => p (rune t) = true) w -> run r s <> [] -> run (Cat (Rep p) r) (w ++ s) <> [].
Proof.
  intros Hw Hr. assert (exists l1 l2, rep p (w ++ s) = l1 ++ (w, s, []) :: l2) as (l1 & l2 & E).
  { induction Hw as [|t w Ht Hw (l1 & l2 & IH)].
    - destruct s as [|t s]; simpl; [by exists [], []|]. eexists _, []. reflexivity.
    - simpl. rewrite Ht, IH, fmap_app. csimpl. rewrite <- app_assoc. cbn [app]. eauto. }
  cbn [run]. rewrite E, bind_app, bind_cons. intros [_ [H _]%app_nil]%app_nil. by apply fmap_nil_inv in H.
Qed.

End Regexp.
