(* ===== verification/GoTime.v ===== *)
(** * Go's time package: the calendar of one location.

    A [Time] is a local civil day and the nanoseconds since its midnight, in a
    location whose clock has no gaps; every value the program computes with is in
    [time.Local].  [Date] and [AddDate] normalise out-of-range months and days as
    the package does. *)

From S2P Require Import Prelude GoStrings.
Import GoStrings.

Module GoTime.

Local Open Scope Z_scope.

Definition isLeap (y : Z) : bool :=
  (y mod 4 =? 0) && (negb (y mod 100 =? 0) || (y mod 400 =? 0)).

Definition leap (y : Z) : Z := if isLeap y then 1 else 0.

(** Days before month [m] (1 to 12) of a year with [l] leap days. *)
Definition daysBefore (l m : Z) : Z :=
  match m with
  | 1 => 0 | 2 => 31 | 3 => 59 + l | 4 => 90 + l | 5 => 120 + l | 6 => 151 + l
  | 7 => 181 + l | 8 => 212 + l | 9 => 243 + l | 10 => 273 + l | 11 => 304 + l | _ => 334 + l
  end.

(** [time.daysIn]. *)
Definition daysIn (m y : Z) : Z :=
  match m with
  | 2 => 28 + leap y
  | 4 | 6 | 9 | 11 => 30
  | _ => 31
  end.

(** Days from 0001-01-01 to the first day of year [y]. *)
Definition daysBeforeYear (y : Z) : Z :=
  365 * (y - 1) + (y - 1) / 4 - (y - 1) / 100 + (y - 1) / 400.

(** Day number of a civil date. *)
Definition dayNumber (y m d : Z) : Z := daysBeforeYear y + daysBefore (leap y) m + d - 1.

(** Year and zero-based day in the year of a day number, by cycles of 400, 100, 4
    and 1 years. *)
Definition yearOf (n : Z) : Z * Z :=
  let n400 := n / 146097 in
  let d := n - 146097 * n400 in
  let n100 := d / 36524 - d / 36524 / 4 in
  let d := d - 36524 * n100 in
  let n4 := d / 1461 in
  let d := d - 1461 * n4 in
  let n1 := d / 365 - d / 365 / 4 in
  (400 * n400 + 100 * n100 + 4 * n4 + n1 + 1, d - 365 * n1).

(** Month and day of a zero-based day in a year with [l] leap days. *)
Definition monthOf (l yd : Z) : Z * Z :=
  let find := fix find (ms : list Z) :=
    match ms with
    | [] => (1, yd + 1)
    | m :: ms' => if daysBefore l m <=? yd then (m, yd - daysBefore l m + 1) else find ms'
    end in
  find [12; 11; 10; 9; 8; 7; 6; 5; 4; 3; 2; 1].

Record Time := mkTime { t_day : Z; t_nsec : Z }.

#[global] Instance Time_eq_dec : EqDecision Time.
Proof. solve_decision. Defined.

Definition Year (t : Time) : Z := fst (yearOf (t_day t)).

Definition YearDay0 (t : Time) : Z := snd (yearOf (t_day t)).

Definition Month (t : Time) : Z := fst (monthOf (leap (Year t)) (YearDay0 t)).

Definition Day (t : Time) : Z := snd (monthOf (leap (Year t)) (YearDay0 t)).

(** 0 is Sunday; day 0 (0001-01-01) is a Monday. *)
Definition Weekday (t : Time) : Z := (t_day t + 1) mod 7.

Definition Sunday : Z := 0.

(** [time.Date] at the given nanoseconds of the day, months out of range carried
    into the year, days out of range into the following or preceding months. *)
Definition Date (y m d nsec : Z) : Time :=
  mkTime (dayNumber (y + (m - 1) / 12) ((m - 1) mod 12 + 1) d) nsec.

Definition AddDate (t : Time) (years months days : Z) : Time :=
  Date (Year t + years) (Month t + months) (Day t + days) (t_nsec t).

(** [t.Add(d)] for a duration in nanoseconds. *)
Definition nsPerDay : Z := 86400 * 1000000000.
Definition Add (t : Time) (d : Z) : Time := mkTime (t_day t + (t_nsec t + d) / nsPerDay) ((t_nsec t + d) mod nsPerDay).

(** [time.Second] *)
Definition Second : Z := 1000000000.

Definition Before (t u : Time) : bool :=
  (t_day t <? t_day u) || ((t_day t =? t_day u) && (t_nsec t <? t_nsec u)).

Definition After (t u : Time) : bool := Before u t.

(** [t.Format("20060102")]. *)
Definition FormatDate (t : Time) : gostring :=
  appendInt (Year t) 4 ++ appendInt (Month t) 2 ++ appendInt (Day t) 2.

(** [time.ParseInLocation("20060102", s, time.Local)]: exactly eight digits that
    name an existing day. *)
Definition ParseDate (s : gostring) : option Time :=
  if bool_decide (length s = 8%nat) && forallb is_digit s then
    let y := dec_val (take 4 s) in
    let m := dec_val (take 2 (drop 4 s)) in
    let d := dec_val (drop 6 s) in
    if (1 <=? m) && (m <=? 12) && (1 <=? d) && (d <=? daysIn m y) then Some (Date y m d 0) else None
  else None.

(** ** The calendar laws *)

Definition validDate (y m d : Z) : Prop := 1 <= m <= 12 /\ 1 <= d <= daysIn m y.

Lemma leap_range y : 0 <= leap y <= 1.
Proof. unfold leap. destruct (isLeap y); lia. Qed.

Lemma leap_spec y :
  leap y = y / 4 - (y - 1) / 4 - (y / 100 - (y - 1) / 100) + (y / 400 - (y - 1) / 400).
Proof. unfold leap, isLeap. case_if; zdiv. Qed.

Lemma daysBeforeYear_succ y : daysBeforeYear (y + 1) = daysBeforeYear y + 365 + leap y.
Proof. unfold daysBeforeYear. rewrite leap_spec. replace (y + 1 - 1) with y by lia. lia. Qed.

Lemma daysBeforeYear_lt y y' : y < y' -> daysBeforeYear (y + 1) <= daysBeforeYear y'.
Proof.
  intros H. replace y' with (y + 1 + Z.of_nat (Z.to_nat (y' - y - 1))) by lia.
  generalize (Z.to_nat (y' - y - 1)) as k. clear H. induction k as [|k IH].
  - rewrite Z.add_0_r. lia.
  - replace (y + 1 + Z.of_nat (S k)) with (y + 1 + Z.of_nat k + 1) by lia.
    rewrite (daysBeforeYear_succ (y + 1 + Z.of_nat k)).
    pose proof (leap_range (y + 1 + Z.of_nat k)). lia.
Qed.

Lemma yearOf_spec n :
  let '(y, yd) := yearOf n in daysBeforeYear y + yd = n /\ 0 <= yd < 365 + leap y.
Proof.
  unfold yearOf, daysBeforeYear. cbv zeta.
  set (n400 := n / 146097).
  assert (146097 * n400 <= n < 146097 * n400 + 146097) as H1 by (unfold n400; zdiv).
  generalize dependent n400. intros n400 H1.
  set (d1 := n - 146097 * n400). assert (0 <= d1 < 146097) as H2 by lia.
  set (c := d1 / 36524 - d1 / 36524 / 4).
  assert (0 <= c <= 3 /\ 36524 * c <= d1 /\ (c < 3 -> d1 < 36524 * c + 36524)) as H3 by (unfold c; zdiv).
  generalize dependent c. intros c H3.
  set (d2 := d1 - 36524 * c). assert (0 <= d2 <= 36524) as H4 by lia.
  set (q := d2 / 1461). assert (0 <= q <= 24 /\ 1461 * q <= d2 < 1461 * q + 1461) as H5 by (unfold q; zdiv).
  generalize dependent q. intros q H5.
  set (d3 := d2 - 1461 * q).
  set (r := d3 / 365 - d3 / 365 / 4).
  assert (0 <= r <= 3 /\ 365 * r <= d3 /\ (r < 3 -> d3 < 365 * r + 365)) as H6 by (unfold r, d3; zdiv).
  generalize dependent r. intros r H6.
  replace (400 * n400 + 100 * c + 4 * q + r + 1 - 1) with (400 * n400 + 100 * c + 4 * q + r) by lia.
  assert ((400 * n400 + 100 * c + 4 * q + r) / 4 = 100 * n400 + 25 * c + q) as E4 by zdiv.
  assert ((400 * n400 + 100 * c + 4 * q + r) / 100 = 4 * n400 + c) as E100 by zdiv.
  assert ((400 * n400 + 100 * c + 4 * q + r) / 400 = n400) as E400 by zdiv.
  rewrite E4, E100, E400. split; [lia|].
  unfold leap, isLeap. case_if; [lia|]. 
  assert (~ (r = 3 /\ (q < 24 \/ c = 3))) by (intros [-> Hq]; bool_prop; zdiv). lia.
Qed.

Lemma yearOf_unique n y yd :
  daysBeforeYear y + yd = n -> 0 <= yd < 365 + leap y -> yearOf n = (y, yd).
Proof.
  intros H1 H2. pose proof (yearOf_spec n) as H. destruct (yearOf n) as [y' yd']. destruct H as [H3 H4].
  assert (y = y') as ->; [|f_equal; lia].
  destruct (Z.lt_trichotomy y y') as [Hl|[Heq|Hl]]; [exfalso|done|exfalso];
    apply daysBeforeYear_lt in Hl; rewrite daysBeforeYear_succ in Hl; lia.
Qed.

(** Case analysis on a month number. *)
Lemma month_cases (m : Z) (P : Z -> Prop) :
  1 <= m <= 12 -> Forall P [1; 2; 3; 4; 5; 6; 7; 8; 9; 10; 11; 12] -> P m.
Proof.
  intros Hm H. rewrite Forall_forall in H. apply H.
  assert (m = 1 \/ m = 2 \/ m = 3 \/ m = 4 \/ m = 5 \/ m = 6 \/ m = 7 \/ m = 8 \/ m = 9
    \/ m = 10 \/ m = 11 \/ m = 12) as Hc by lia.
  repeat (destruct Hc as [->|Hc]; [set_solver|]). subst. set_solver.
Qed.

Ltac on_month m := pattern m; apply (month_cases m); [lia|repeat constructor].

Lemma monthOf_spec l yd m d :
  monthOf l yd = (m, d) -> 0 <= l <= 1 -> 0 <= yd < 365 + l ->
  1 <= m <= 12 /\ daysBefore l m + d - 1 = yd /\ 1 <= d /\
  (d <= match m with 2 => 28 + l | 4 | 6 | 9 | 11 => 30 | _ => 31 end).
Proof.
  unfold monthOf. cbv beta zeta. intros H Hl Hyd. revert H.
  repeat (case_if; [bool_prop; intros [= <- <-]; simpl in *; lia|]); bool_prop. simpl in *. lia.
Qed.

Lemma monthOf_unique l m d :
  0 <= l <= 1 -> 1 <= m <= 12 -> 1 <= d ->
  d <= match m with 2 => 28 + l | 4 | 6 | 9 | 11 => 30 | _ => 31 end ->
  monthOf l (daysBefore l m + d - 1) = (m, d).
Proof.
  intros Hl Hm Hd. unfold monthOf. cbv beta zeta. on_month m; intros Hd'; simpl in *;
    repeat (case_if; bool_prop; [try (f_equal; lia); exfalso; lia|]); exfalso; lia.
Qed.

Lemma daysIn_unfold m y :
  daysIn m y = match m with 2 => 28 + leap y | 4 | 6 | 9 | 11 => 30 | _ => 31 end.
Proof. done. Qed.

Lemma yday_range y m d : validDate y m d -> 0 <= daysBefore (leap y) m + d - 1 < 365 + leap y.
Proof.
  intros [Hm Hd]. pose proof (leap_range y) as Hl. revert Hd. rewrite daysIn_unfold.
  generalize dependent (leap y). intros l Hl.
  on_month m; simpl; lia.
Qed.

(** A civil date and its day number determine each other. *)
Lemma civil_of_dayNumber y m d nsec :
  validDate y m d ->
  Year (mkTime (dayNumber y m d) nsec) = y /\ Month (mkTime (dayNumber y m d) nsec) = m
  /\ Day (mkTime (dayNumber y m d) nsec) = d.
Proof.
  intros H. pose proof (yday_range y m d H) as Hy. destruct H as [Hm Hd].
  unfold Day, Month, YearDay0, Year. cbn [t_day].
  rewrite (yearOf_unique (dayNumber y m d) y (daysBefore (leap y) m + d - 1)) by (unfold dayNumber; lia).
  simpl fst. simpl snd. pose proof (leap_range y).
  rewrite monthOf_unique; rewrite ?daysIn_unfold in Hd; try lia; done.
Qed.

Lemma civil_valid t : validDate (Year t) (Month t) (Day t).
Proof.
  unfold Day, Month, YearDay0, validDate. unfold Year at 1 2 3 4 5 6.
  pose proof (yearOf_spec (t_day t)) as H. destruct (yearOf (t_day t)) as [y yd] eqn:E. simpl.
  destruct (monthOf (leap y) yd) as [m d] eqn:Em. simpl.
  apply monthOf_spec in Em; [|apply leap_range|apply H]. rewrite daysIn_unfold. lia.
Qed.

Lemma dayNumber_civil t : dayNumber (Year t) (Month t) (Day t) = t_day t.
Proof.
  unfold Day, Month, YearDay0, dayNumber. unfold Year.
  pose proof (yearOf_spec (t_day t)) as H. destruct (yearOf (t_day t)) as [y yd] eqn:E. simpl.
  destruct (monthOf (leap y) yd) as [m d] eqn:Em. simpl.
  apply monthOf_spec in Em; [|apply leap_range|apply H]. lia.
Qed.

Lemma Month_range t : 1 <= Month t <= 12.
Proof. apply civil_valid. Qed.

(** Adding days moves the day number by as much, whatever months they cross. *)
Lemma AddDate_days t k : AddDate t 0 0 k = mkTime (t_day t + k) (t_nsec t).
Proof.
  unfold AddDate, Date. f_equal. rewrite !Z.add_0_r. pose proof (Month_range t).
  replace ((Month t - 1) / 12) with 0 by zdiv. replace ((Month t - 1) mod 12 + 1) with (Month t) by zdiv.
  rewrite Z.add_0_r. rewrite <- (dayNumber_civil t). unfold dayNumber. lia.
Qed.

Lemma Date_in_range y m d nsec : 1 <= m <= 12 -> Date y m d nsec = mkTime (dayNumber y m d) nsec.
Proof.
  intros H. unfold Date. replace ((m - 1) / 12) with 0 by zdiv.
  replace ((m - 1) mod 12 + 1) with m by zdiv. by rewrite Z.add_0_r.
Qed.

(** The first day of the following month is the day after the last of this one. *)
Lemma dayNumber_next_month y m :
  1 <= m <= 12 ->
  dayNumber (y + m / 12) (m mod 12 + 1) 1 = dayNumber y m (daysIn m y) + 1.
Proof.
  intros H. destruct (decide (m = 12)) as [->|Hm].
  - unfold dayNumber, daysIn. replace (12 / 12) with 1 by done. replace (12 mod 12 + 1) with 1 by done.
    rewrite daysBeforeYear_succ. simpl. lia.
  - replace (m / 12) with 0 by zdiv. replace (m mod 12 + 1) with (m + 1) by zdiv. rewrite Z.add_0_r.
    unfold dayNumber. rewrite daysIn_unfold. generalize (leap y). intros l.
    revert Hm. on_month m; simpl; lia.
Qed.

Lemma Day_range_lower t : 1 <= Day t.
Proof. apply civil_valid. Qed.

Lemma Day_range_upper t : Day t <= 31.
Proof.
  pose proof (civil_valid t) as [_ H]. rewrite daysIn_unfold in H. pose proof (leap_range (Year t)).
  pose proof (Month_range t). revert H. on_month (Month t); lia.
Qed.

Lemma Year_mono a b : t_day a <= t_day b -> Year a <= Year b.
Proof.
  intros H. unfold Year. pose proof (yearOf_spec (t_day a)) as Ha. pose proof (yearOf_spec (t_day b)) as Hb.
  destruct (yearOf (t_day a)) as [ya da], (yearOf (t_day b)) as [yb db]. simpl in *.
  destruct (Z.le_gt_cases ya yb) as [|Hl]; [done|].
  apply daysBeforeYear_lt in Hl. rewrite daysBeforeYear_succ in Hl. lia.
Qed.

(** Months counted from the start of year 0. *)
Definition monthIndex (t : Time) : Z := 12 * Year t + (Month t - 1).

(** Day number of the last day of a month given by its index. *)
Definition monthEndDay (k : Z) : Z :=
  let y := k / 12 in let m := k mod 12 + 1 in dayNumber y m (daysIn m y).

Lemma monthIndex_year t : monthIndex t / 12 = Year t /\ monthIndex t mod 12 = Month t - 1.
Proof. unfold monthIndex. pose proof (Month_range t). zdiv. Qed.

(** Going back one month keeps the day of the month up to the 28th. *)
Lemma AddDate_month_back t :
  Day t <= 28 ->
  monthIndex (AddDate t 0 (-1) 0) = monthIndex t - 1 /\ Day (AddDate t 0 (-1) 0) = Day t
  /\ t_nsec (AddDate t 0 (-1) 0) = t_nsec t.
Proof.
  intros Hd. pose proof (Month_range t) as Hm. pose proof (Day_range_lower t) as Hl.
  unfold AddDate, Date. rewrite !Z.add_0_r.
  set (y := Year t + (Month t + -1 - 1) / 12). set (m := (Month t + -1 - 1) mod 12 + 1).
  assert (1 <= m <= 12) as Hm' by (unfold m; zdiv).
  assert (validDate y m (Day t)) as Hv.
  { split; [done|]. split; [done|]. rewrite daysIn_unfold. pose proof (leap_range y).
    on_month m; lia. }
  destruct (civil_of_dayNumber y m (Day t) (t_nsec t) Hv) as (Hy & Hmm & Hdd).
  unfold monthIndex. rewrite Hy, Hmm, Hdd. unfold y, m. split; [zdiv|done].
Qed.

(** Beyond the length of the previous month, going back one month overflows into
    the month it started from. *)
Lemma AddDate_month_overflow t :
  let k := monthIndex t - 1 in
  daysIn (k mod 12 + 1) (k / 12) < Day t ->
  monthIndex (AddDate t 0 (-1) 0) = monthIndex t.
Proof.
  intros k Hov. pose proof (Month_range t) as Hm.
  assert (exists y m, y = k / 12 /\ m = k mod 12 + 1) as (y & m & Ey & Em) by eauto.
  assert (monthIndex t - 1 = 12 * y + (m - 1) /\ 1 <= m <= 12) as [Hk Hmr] by (subst y m k; zdiv).
  rewrite <- Ey, <- Em in Hov. clear Ey Em. subst k. unfold monthIndex in Hk.
  assert (Year t + (Month t + -1 - 1) / 12 = y /\ (Month t + -1 - 1) mod 12 + 1 = m) as [Ey Em] by zdiv.
  assert (y + m / 12 = Year t /\ m mod 12 + 1 = Month t) as [Hy' Hm'] by zdiv.
  unfold AddDate, Date. rewrite !Z.add_0_r, Ey, Em.
  pose proof (dayNumber_next_month y m Hmr) as Hn. rewrite Hy', Hm' in Hn.
  set (d := Day t - daysIn m y).
  replace (dayNumber y m (Day t)) with (dayNumber (Year t) (Month t) d) by (unfold dayNumber, d in *; lia).
  pose proof (Day_range_upper t) as Hd31.
  assert (28 <= daysIn m y) as H28 by (rewrite daysIn_unfold; pose proof (leap_range y); on_month m; lia).
  destruct (civil_of_dayNumber (Year t) (Month t) d (t_nsec t)) as (HY & HM & _).
  { split; [done|]. unfold d. rewrite (daysIn_unfold (Month t)). pose proof (leap_range (Year t)).
    split; [lia|]. on_month (Month t); lia. }
  unfold monthIndex. by rewrite HY, HM.
Qed.

(** *** The eight-digit form *)

Lemma Before_midnight a b : t_nsec a = t_nsec b -> Before a b = (t_day a <? t_day b).
Proof. intros H. unfold Before. rewrite H, Z.ltb_irrefl, andb_false_r. apply orb_false_r. Qed.

Lemma Day_range t : 1 <= Day t <= 31.
Proof. split; [apply Day_range_lower|apply Day_range_upper]. Qed.

Lemma FormatDate_lengths t : length (appendInt (Month t) 2) = 2%nat /\ length (appendInt (Day t) 2) = 2%nat.
Proof.
  pose proof (Month_range t). pose proof (Day_range t). rewrite !appendInt_length; lia.
Qed.

(** Two times have the same date key exactly when they are on the same day. *)
Lemma FormatDate_inj a b : FormatDate a = FormatDate b <-> t_day a = t_day b.
Proof.
  split.
  - unfold FormatDate. intros H. destruct (FormatDate_lengths a), (FormatDate_lengths b).
    apply app_inj_2 in H as [Hy H]; [|rewrite !length_app; lia].
    apply app_inj_2 in H as [Hm Hd]; [|lia].
    apply appendInt_inj in Hy, Hm, Hd. rewrite <- (dayNumber_civil a), <- (dayNumber_civil b). congruence.
  - destruct a as [da na], b as [db nb]. simpl. intros ->. done.
Qed.

Lemma FormatDate_digits t :
  0 <= Year t <= 9999 -> length (FormatDate t) = 8%nat /\ Forall (fun c => is_digit c = true) (FormatDate t).
Proof.
  intros H. pose proof (Month_range t). pose proof (Day_range t). unfold FormatDate.
  rewrite !length_app, !Forall_app, !appendInt_length by lia. split; [done|].
  repeat split; apply appendInt_digits; lia.
Qed.

Lemma ParseDate_Some s t :
  ParseDate s = Some t ->
  length s = 8%nat /\ Forall (fun c => is_digit c = true) s /\
  exists y m d, validDate y m d /\ 0 <= y <= 9999 /\ t = mkTime (dayNumber y m d) 0.
Proof.
  unfold ParseDate. destruct (bool_decide _ && _) eqn:E; [|done].
  apply andb_true_iff in E as [E1 E2]. bool_prop.
  assert (Forall (fun c => is_digit c = true) s) as Hd.
  { apply Forall_forall. intros c Hc. apply list_elem_of_In in Hc.
    by apply (proj1 (forallb_forall _ _) E2). }
  destruct (_ && _) eqn:E; [|done]. bool_prop. intros [= <-].
  split; [done|]. split; [done|]. eexists _, _, _. split; [|split; [|apply Date_in_range]]; [split; lia| |lia].
  pose proof (dec_val_bound (take 4 s) (Forall_take _ _ _ Hd)) as Hb.
  rewrite length_take, E1 in Hb. simpl in Hb. lia.
Qed.

(** Parsing a formatted date gives back the day. *)
Lemma ParseDate_FormatDate t : 0 <= Year t <= 9999 -> ParseDate (FormatDate t) = Some (mkTime (t_day t) 0).
Proof.
  intros H. destruct (FormatDate_digits t H) as [Hl Hd]. unfold ParseDate.
  rewrite bool_decide_eq_true_2 by done.
  rewrite (proj2 (forallb_forall _ _)) by (intros c Hc; rewrite Forall_forall in Hd; apply Hd; by apply list_elem_of_In).
  pose proof (Month_range t). pose proof (Day_range t). unfold FormatDate.
  assert (length (appendInt (Year t) 4) = 4%nat) as Ly by (apply appendInt_length; lia).
  destruct (FormatDate_lengths t) as [Lm Ld]. simpl.
  rewrite (take_app_length' _ _ 4) by done.
  rewrite (drop_app_length' _ _ 4) by done. rewrite (take_app_length' _ _ 2) by done.
  replace 6%nat with (4 + 2)%nat by done. rewrite <- drop_drop, (drop_app_length' _ _ 4) by done.
  rewrite (drop_app_length' _ _ 2) by done. rewrite !dec_val_appendInt by lia.
  pose proof (civil_valid t) as [Hm Hday].
  rewrite !(proj2 (Z.leb_le _ _)) by lia. simpl. f_equal.
  rewrite Date_in_range by done. f_equal. apply dayNumber_civil.
Qed.

(** Nanoseconds since day 0; [Before] compares them. *)
Definition instant (t : Time) : Z := t_day t * nsPerDay + t_nsec t.

(** A time with its nanoseconds within the day. *)
Definition proper (t : Time) : Prop := 0 <= t_nsec t < nsPerDay.

Lemma Add_instant t d : instant (Add t d) = instant t + d /\ proper (Add t d).
Proof.
  unfold instant, Add, proper. simpl. pose proof (Z.mod_pos_bound (t_nsec t + d) nsPerDay ltac:(done)).
  pose proof (Z.div_mod (t_nsec t + d) nsPerDay ltac:(done)). split; lia.
Qed.

Lemma Before_instant t u : proper t -> proper u -> Before t u = (instant t <? instant u).
Proof.
  unfold proper, instant, Before. intros Ht Hu. apply eq_true_iff_eq.
  rewrite orb_true_iff, andb_true_iff, !Z.ltb_lt, Z.eqb_eq. nia.
Qed.

End GoTime.
