(* ===== verification/GoPath.v ===== *)
(** * Go's path/filepath package on Unix.

    [FromSlash] and [ToSlash] are the identity there. *)

From S2P Require Import Prelude GoStrings.
Import GoStrings.

Module GoPath.

Definition slash : ascii := "/"%char.

Definition FromSlash (p : gostring) : gostring := p.
Definition ToSlash (p : gostring) : gostring := p.

Definition IsRooted (p : gostring) : bool := HasPrefix p [slash].

(** One element of a path is put on the stack of elements kept so far. *)
Definition clean_step (rooted : bool) (out : list gostring) (e : gostring) : list gostring :=
  if (e ==? []) || (e ==? str ".") then out
  else if e ==? str ".." then
    match out with
    | top :: out' => if top ==? str ".." then e :: out else out'
    | [] => if rooted then [] else [e]
    end
  else e :: out.

Definition clean_elems (p : gostring) : list gostring :=
  reverse (fold_left (clean_step (IsRooted p)) (Split p slash) []).

Definition Clean (p : gostring) : gostring :=
  let body := GoStrings.Join (clean_elems p) [slash] in
  if IsRooted p then slash :: body
  else if body ==? [] then str "." else body.

(** [filepath.Join] of two elements. *)
Definition Join (a b : gostring) : gostring :=
  if a ==? [] then (if b ==? [] then [] else Clean b)
  else Clean (a ++ [slash] ++ b).

(** The part of [p] up to and including its last separator, and the rest. *)
Fixpoint split_last (p : gostring) : gostring * gostring :=
  match p with
  | [] => ([], [])
  | c :: p' =>
      let '(d, f) := split_last p' in
      if (d ==? []) && negb (c ==? slash) then ([], c :: f) else (c :: d, f)
  end.

Definition Dir (p : gostring) : gostring := Clean (fst (split_last p)).

Definition Base (p : gostring) : gostring :=
  if p ==? [] then str "."
  else let f := snd (split_last (TrimRightByte p slash)) in
       if f ==? [] then [slash] else f.

(** The suffix from the last dot of the last element. *)
Fixpoint ext_go (rs acc : gostring) : gostring :=
  match rs with
  | [] => []
  | c :: rs' =>
      if c ==? slash then []
      else if c ==? "."%char then c :: acc
      else ext_go rs' (c :: acc)
  end.

Definition Ext (p : gostring) : gostring := ext_go (reverse p) [].

(** ** Lemmas *)

(** An element that [Clean] keeps as it is. *)
Definition plain (n : gostring) : Prop := slash ∉ n /\ n <> [] /\ n <> str "." /\ n <> str "..".

#[global] Instance plain_dec n : Decision (plain n).
Proof. unfold plain. apply _. Defined.

Lemma Clean_nonempty p : Clean p <> [].
Proof. unfold Clean. destruct (IsRooted p); [done|]. case_bool_decide; done. Qed.

Lemma Split_snoc_elem d n : slash ∉ n -> Split (d ++ [slash] ++ n) slash = Split d slash ++ [n].
Proof.
  intros Hn. induction d as [|c d IH].
  - change ([] ++ [slash] ++ n) with ([] ++ slash :: n).
    rewrite Split_app_sep by apply not_elem_of_nil. by rewrite (Split_absent n).
  - rewrite <- app_comm_cons. cbn [Split]. rewrite IH. case_bool_decide; [done|]. destruct (Split d slash) eqn:E; [by apply Split_cons_nil in E|done].
Qed.

Lemma IsRooted_app d e : d <> [] -> IsRooted (d ++ e) = IsRooted d.
Proof. intros Hd. destruct d as [|c d]; [done|]. unfold IsRooted, HasPrefix. cbn [app strip_prefix]. by destruct (slash ==? c). Qed.

Lemma clean_elems_snoc d n :
  d <> [] -> plain n -> clean_elems (d ++ [slash] ++ n) = clean_elems d ++ [n].
Proof.
  intros Hd (Hs & H0 & H1 & H2). unfold clean_elems.
  rewrite IsRooted_app, Split_snoc_elem, fold_left_app by done. simpl.
  unfold clean_step at 1. rewrite !bool_decide_eq_false_2 by done. simpl. apply reverse_cons.
Qed.

(** What [Join] puts before a plain name. *)
Definition dir_prefix (d : gostring) : gostring :=
  if d ==? [] then []
  else (if IsRooted d then [slash] else []) ++
       (if clean_elems d ==? [] then [] else GoStrings.Join (clean_elems d) [slash] ++ [slash]).

Lemma clean_step_nonempty b out e : Forall (fun e => e <> []) out -> Forall (fun e => e <> []) (clean_step b out e).
Proof.
  intros H. unfold clean_step. destruct (_ || _) eqn:E; [done|]. bool_prop.
  repeat case_bool_decide; destruct out as [|top out]; try case_if; inversion H; subst; auto.
Qed.

Lemma clean_elems_nonempty p : Forall (fun e => e <> []) (clean_elems p).
Proof.
  unfold clean_elems. apply Forall_reverse. generalize (Split p slash) as es.
  assert (Forall (fun e : gostring => e <> []) []) as H by constructor. revert H.
  generalize (@nil gostring) as out.
  intros out H es. revert out H. induction es as [|e es IH]; intros out H; [done|].
  simpl. apply IH. by apply clean_step_nonempty.
Qed.

Lemma Clean_cases d :
  Clean d = (if IsRooted d then slash :: GoStrings.Join (clean_elems d) [slash]
             else if clean_elems d ==? [] then str "." else GoStrings.Join (clean_elems d) [slash]).
Proof.
  unfold Clean. destruct (IsRooted d); [done|]. cbv zeta.
  destruct (decide (clean_elems d = [])) as [->|E]; [done|].
  rewrite !bool_decide_eq_false_2; auto using Join_nonempty, clean_elems_nonempty.
Qed.

Lemma clean_elems_plain n : plain n -> clean_elems n = [n].
Proof.
  intros (Hs & H0 & H1 & H2). unfold clean_elems. rewrite Split_absent by done. simpl.
  unfold clean_step. by rewrite !bool_decide_eq_false_2 by done.
Qed.

Lemma IsRooted_plain n : plain n -> IsRooted n = false.
Proof.
  intros (Hs & H0 & _). destruct n as [|c n]; [done|]. unfold IsRooted, HasPrefix. cbn [strip_prefix].
  rewrite (bool_decide_eq_false_2 (slash = c)); [done|]. intros <-. apply Hs. left.
Qed.

(** Joining a directory and a plain name appends the name to a prefix that does
    not depend on it. *)
Lemma Join_plain d n : plain n -> Join d n = dir_prefix d ++ n.
Proof.
  intros Hn. unfold Join, dir_prefix. pose proof Hn as (_ & H0 & _). case_bool_decide as Hd.
  - rewrite bool_decide_eq_false_2, Clean_cases, clean_elems_plain, IsRooted_plain by done. done.
  - rewrite Clean_cases, clean_elems_snoc, IsRooted_app, Join_snoc by done.
    rewrite (bool_decide_eq_false_2 (clean_elems d ++ [n] = [])) by (by destruct (clean_elems d)).
    destruct (IsRooted d), (clean_elems d ==? []); simpl; rewrite <- ?app_assoc; done.
Qed.

Lemma Join_plain_inj d n n' : plain n -> plain n' -> Join d n = Join d n' -> n = n'.
Proof. intros H H'. rewrite !Join_plain by done. apply app_inj_1. done. Qed.

(** A joined path is not rooted when its first element is plain text. *)
Lemma IsRooted_Join c (e : gostring) l sep : slash ∉ c :: e -> IsRooted (GoStrings.Join ((c :: e) :: l) sep) = false.
Proof.
  intros [Hc _]%not_elem_of_cons. unfold IsRooted, HasPrefix.
  destruct l; cbn [GoStrings.Join app strip_prefix]; by rewrite (bool_decide_eq_false_2 (slash = c)).
Qed.

(** A stack of kept elements (top first): plain names above a run of leading [..],
    which a rooted path does not have. *)
Definition good (rooted : bool) (out : list gostring) : Prop :=
  exists ps k, out = ps ++ replicate k (str "..") /\ Forall plain ps /\ (rooted = true -> k = 0).

Lemma clean_step_good b out e : slash ∉ e -> good b out -> good b (clean_step b out e).
Proof.
  intros He (ps & k & -> & Hp & Hk). unfold clean_step. destruct (_ || _) eqn:E; [by exists ps, k|]. bool_prop.
  case_bool_decide as Hd.
  - subst e. destruct ps as [|q ps].
    + destruct k as [|k]; simpl.
      * destruct b; [by exists [], 0|]. by exists [], 1.
      * exists [], (S (S k)). split; [done|]. split; [constructor|]. intros Hb. specialize (Hk Hb). lia.
    + apply Forall_cons in Hp as [(? & ? & ? & ?) Hp]. simpl. rewrite bool_decide_eq_false_2 by done. by exists ps, k.
  - exists (e :: ps), k. split; [done|]. split; [|done]. constructor; [|done]. by repeat split.
Qed.

Lemma clean_fold_good b es out :
  Forall (fun e => slash ∉ e) es -> good b out -> good b (fold_left (clean_step b) es out).
Proof. intros H. revert out. induction H; intros out Hg; simpl; auto using clean_step_good. Qed.

Lemma clean_elems_good p : good (IsRooted p) (reverse (clean_elems p)).
Proof.
  unfold clean_elems. rewrite reverse_involutive. apply clean_fold_good; [apply Split_pieces|].
  by exists [], 0.
Qed.

(** Elements that are clean already are put on the stack one after the other. *)
Lemma clean_fold_stable b out : good b out -> fold_left (clean_step b) (reverse out) [] = out.
Proof.
  intros (ps & k & -> & Hp & Hk). rewrite reverse_app, fold_left_app.
  assert (fold_left (clean_step b) (reverse (replicate k (str ".."))) [] = replicate k (str "..")) as ->.
  { rewrite reverse_replicate. destruct b; [by rewrite Hk|]. clear. induction k as [|k IH]; [done|].
    rewrite replicate_S_end at 1. rewrite fold_left_app, IH. destruct k; done. }
  clear Hk. induction Hp as [|q ps (? & ? & ? & ?) _ IH]; [done|]. rewrite reverse_cons, fold_left_app, IH. simpl.
  unfold clean_step. by rewrite !bool_decide_eq_false_2 by done.
Qed.

Lemma Split_Join_slash l (e : gostring) :
  Forall (fun w => slash ∉ w) l -> slash ∉ e -> Split (GoStrings.Join (l ++ [e]) [slash]) slash = l ++ [e].
Proof.
  intros Hl He. induction Hl as [|w l Hw _ IH]; [by apply Split_absent|]. rewrite <- app_comm_cons.
  transitivity (Split (w ++ slash :: GoStrings.Join (l ++ [e]) [slash]) slash); [by destruct l|].
  by rewrite Split_app_sep, IH.
Qed.

Lemma good_no_slash b l : good b (reverse l) -> Forall (fun w => slash ∉ w) l.
Proof.
  intros (ps & k & E & Hp & _). rewrite <- (reverse_involutive l), E. apply Forall_reverse, Forall_app. split.
  - eapply Forall_impl; [exact Hp|]. by intros x [].
  - apply Forall_replicate. apply (bool_decide_eq_true_1 (slash ∉ str "..")). reflexivity.
Qed.

(** The elements of a path put together from clean elements, with or without a
    trailing separator. *)
Lemma clean_elems_of_good (b t : bool) l :
  good b (reverse l) -> l <> [] \/ t = false ->
  clean_elems ((if b then [slash] else []) ++ GoStrings.Join (l ++ (if t then [[]] else [])) [slash]) = l.
Proof.
  intros Hg Ht. pose proof (good_no_slash _ _ Hg) as Hs.
  set (body := GoStrings.Join _ _).
  assert (exists es, Split body slash = es /\ fold_left (clean_step b) es [] = reverse l) as (es & Ees & Hes).
  { eexists. split; [reflexivity|]. subst body. destruct t.
    - rewrite Split_Join_slash by (done || apply not_elem_of_nil). rewrite fold_left_app. simpl.
      unfold clean_step at 1. simpl. pose proof (clean_fold_stable _ _ Hg) as H. by rewrite reverse_involutive in H.
    - rewrite app_nil_r. destruct l as [|e l _] using rev_ind; [done|]. apply Forall_app in Hs as [Hl He].
      rewrite Split_Join_slash by (done || by inversion He).
      pose proof (clean_fold_stable _ _ Hg) as H. by rewrite reverse_involutive in H. }
  assert (IsRooted ((if b then [slash] else []) ++ body) = b) as Hr.
  { destruct b; [done|]. subst body. simpl. destruct l as [|e l]; [destruct Ht as [Ht|Ht]; [done|by subst]|].
    apply Forall_cons in Hs as [He _]. destruct Hg as (ps & k & E & Hp & _).
    destruct e as [|c e].
    - exfalso. apply (f_equal (fun x => [] ∈ x)) in E. assert ([] ∈ reverse ([] :: l)) as Hin by (rewrite elem_of_reverse; left).
      rewrite E in Hin. apply elem_of_app in Hin as [Hin|[Hin _]%elem_of_replicate]; [|done].
      rewrite Forall_forall in Hp. by destruct (Hp _ Hin) as (_ & ? & _).
    - by apply IsRooted_Join. }
  unfold clean_elems. rewrite Hr. destruct b; simpl.
  - rewrite Ees. cbn [fold_left]. unfold clean_step at 2. simpl. by rewrite Hes, reverse_involutive.
  - by rewrite Ees, Hes, reverse_involutive.
Qed.

(** [Clean] is idempotent: its result has the same elements. *)
Lemma clean_elems_Clean p : clean_elems (Clean p) = clean_elems p.
Proof.
  rewrite Clean_cases. pose proof (clean_elems_good p) as Hg.
  pose proof (clean_elems_of_good (IsRooted p) false (clean_elems p) Hg (or_intror eq_refl)) as H.
  rewrite app_nil_r in H. destruct (IsRooted p); [done|]. simpl in H. case_bool_decide as E; [|done]. by rewrite E.
Qed.

Lemma IsRooted_Clean p : IsRooted (Clean p) = IsRooted p.
Proof.
  rewrite Clean_cases. destruct (IsRooted p); [done|]. case_bool_decide as E; [done|].
  pose proof (clean_elems_good p) as Hg. apply good_no_slash in Hg. pose proof (clean_elems_nonempty p) as Hn.
  destruct (clean_elems p) as [|[|c e] l]; [done|by inversion Hn|]. apply Forall_cons in Hg as [Hc _].
  by apply IsRooted_Join.
Qed.

Lemma Clean_idem p : Clean (Clean p) = Clean p.
Proof. rewrite (Clean_cases (Clean p)), IsRooted_Clean, clean_elems_Clean. by rewrite <- Clean_cases. Qed.

Lemma split_last_plain pre n :
  slash ∉ n -> pre = [] \/ (exists q, pre = q ++ [slash]) -> split_last (pre ++ n) = (pre, n).
Proof.
  intros Hn [->|[q ->]].
  - simpl. induction n as [|c n IH]; [done|]. apply not_elem_of_cons in Hn as [Hc Hn]. cbn [split_last].
    rewrite IH by done. by rewrite (bool_decide_eq_false_2 (c = slash)).
  - assert (split_last ([slash] ++ n) = ([slash], n)) as H0.
    { assert (split_last n = ([], n)) as E.
      { clear q. induction n as [|c n IH]; [done|]. apply not_elem_of_cons in Hn as [Hc Hn]. cbn [split_last].
        rewrite IH by done. by rewrite (bool_decide_eq_false_2 (c = slash)). }
      cbn [app split_last]. rewrite E. done. }
    rewrite <- app_assoc. induction q as [|c q IH]; [done|]. rewrite <- app_comm_cons. cbn [split_last].
    rewrite IH. by rewrite bool_decide_eq_false_2 by (by destruct q).
Qed.

Lemma dir_prefix_shape d : dir_prefix d = [] \/ exists q, dir_prefix d = q ++ [slash].
Proof.
  unfold dir_prefix. case_bool_decide; [by left|]. case_bool_decide.
  - destruct (IsRooted d); [right; by exists []|by left].
  - right. eexists (_ ++ _). by rewrite <- app_assoc.
Qed.

(** The last element of a joined path does not depend on the directory. *)
Lemma Join_plain_last d d' n n' : plain n -> plain n' -> Join d n = Join d' n' -> n = n'.
Proof.
  intros Hn Hn' E. rewrite !Join_plain in E by done. apply (f_equal (fun p => snd (split_last p))) in E.
  rewrite !split_last_plain in E by (apply Hn || apply Hn' || apply dir_prefix_shape). done.
Qed.

(** The directory of a joined plain name is the cleaned directory. *)
Lemma Dir_Join d n : plain n -> Dir (Join d n) = Clean d.
Proof.
  intros Hn. pose proof Hn as (Hs & _). rewrite Join_plain by done. unfold Dir. rewrite split_last_plain.
  - simpl. unfold dir_prefix. case_bool_decide as Hd; [by subst|]. rewrite (Clean_cases d).
    pose proof (clean_elems_good d) as Hg. case_bool_decide as He.
    + rewrite He. by destruct (IsRooted d).
    + pose proof (clean_elems_of_good (IsRooted d) true (clean_elems d) Hg (or_introl He)) as H.
      cbv iota in H. rewrite Join_snoc, bool_decide_eq_false_2, app_nil_r in H by done.
      assert (IsRooted ((if IsRooted d then [slash] else []) ++ GoStrings.Join (clean_elems d) [slash] ++ [slash]) = IsRooted d) as Hr.
      { pose proof (IsRooted_Clean d) as Hc. rewrite (Clean_cases d) in Hc. destruct (IsRooted d); [done|].
        rewrite bool_decide_eq_false_2 in Hc by done. simpl. rewrite IsRooted_app; [done|].
        apply Join_nonempty; [done|apply clean_elems_nonempty]. }
      rewrite Clean_cases, Hr, H. by rewrite bool_decide_eq_false_2.
  - done.
  - apply dir_prefix_shape.
Qed.

Lemma ext_go_found rs w acc :
  slash ∉ w -> "."%char ∉ w -> ext_go (reverse w ++ "."%char :: rs) acc = "."%char :: w ++ acc.
Proof.
  revert acc. induction w as [|c w IH] using rev_ind; intros acc Hs Hd; [done|].
  rewrite reverse_app. simpl. rewrite elem_of_app in Hs, Hd.
  rewrite !bool_decide_eq_false_2 by set_solver. rewrite IH by set_solver. by rewrite <- app_assoc.
Qed.

Lemma Ext_app p e : slash ∉ e -> "."%char ∉ e -> Ext (p ++ "."%char :: e) = "."%char :: e.
Proof.
  intros Hs Hd. unfold Ext. rewrite reverse_app, reverse_cons, <- app_assoc. simpl.
  rewrite ext_go_found by done. by rewrite app_nil_r.
Qed.

Lemma ext_go_suffix rs acc : ext_go rs acc = [] \/ exists a, reverse rs ++ acc = a ++ ext_go rs acc.
Proof.
  revert acc. induction rs as [|c rs IH]; intros acc; simpl; [by left|].
  destruct (c ==? slash); [by left|]. destruct (c ==? "."%char).
  - right. exists (reverse rs). by rewrite reverse_cons, <- app_assoc.
  - destruct (IH (c :: acc)) as [->|(a & E)]; [by left|]. right. exists a. by rewrite reverse_cons, <- app_assoc.
Qed.

(** The extension is a suffix. *)
Lemma Ext_suffix p : exists a, p = a ++ Ext p.
Proof.
  unfold Ext. destruct (ext_go_suffix (reverse p) []) as [->|(a & E)]; [exists p; by rewrite app_nil_r|].
  exists a. by rewrite reverse_involutive, app_nil_r in E.
Qed.

End GoPath.
