(* ===== verification/GoRuntime.v ===== *)
(** * What the Go language leaves unspecified.

    [sort.Slice] does not say how it orders elements that compare equal, and
    ranging over a map visits its entries in an arbitrary order.  Both are classes:
    components are verified against their laws, the instances show that the laws
    can be met. *)

From S2P Require Import Prelude.

Module GoRuntime.

(** [less] orders its arguments consistently: "not after" is a total preorder. *)
Definition not_after {A} (less : A -> A -> bool) (a b : A) : Prop := less b a = false.

#[global] Instance not_after_dec {A} (less : A -> A -> bool) : RelDecision (not_after less).
Proof. intros a b. unfold not_after. apply _. Defined.

Class SliceSort := {
  sort_slice : forall {A : Type}, (A -> A -> bool) -> list A -> list A;
  sort_slice_perm : forall A (less : A -> A -> bool) l, sort_slice less l ≡ₚ l;
  sort_slice_sorted : forall A (less : A -> A -> bool) l,
    Total (not_after less) -> Transitive (not_after less) ->
    StronglySorted (not_after less) (sort_slice less l)
}.

#[global] Program Instance merge_slice_sort : SliceSort := {|
  sort_slice A less l := merge_sort (not_after less) l
|}.
Next Obligation. intros A less l. apply merge_sort_Permutation. Qed.
Next Obligation. intros A less l Ht Htr. apply StronglySorted_merge_sort; done. Qed.

Class MapOrder := {
  range_map : forall {V : Type}, gmap gostring V -> list (gostring * V);
  range_map_perm : forall V (m : gmap gostring V), range_map m ≡ₚ map_to_list m
}.

#[global] Program Instance default_map_order : MapOrder := {|
  range_map V m := map_to_list m
|}.
Next Obligation. done. Qed.

Section Range.
Context {MO : MapOrder}.

Lemma elem_of_range_map {V} (m : gmap gostring V) k v : (k, v) ∈ range_map m <-> m !! k = Some v.
Proof. rewrite range_map_perm. apply elem_of_map_to_list. Qed.

Lemma NoDup_range_map {V} (m : gmap gostring V) : NoDup (fst <$> range_map m).
Proof. rewrite range_map_perm. apply NoDup_fst_map_to_list. Qed.

End Range.

End GoRuntime.
