(* ===== verification/World.v ===== *)
(** * The world the program runs in: files, clock, log, external commands.

    Operations are state transformers over a [World].  Every system call consumes
    one tick; the [Faults] class says which calls fail, so that a theorem proved
    for every [Faults] holds for every pattern of I/O errors.  [Exec] gives the
    result of running an external command at a tick. *)

From S2P Require Import Prelude GoStrings GoTime GoPath.
Import GoStrings GoTime.

Module World.

(** ** Errors *)

(** System errors the code distinguishes, the others by number, and the errors
    built by [fmt.Errorf] from a translation key, its arguments and the cause. *)
Inductive err :=
| ENOENT
| EEXIST
| EIO (n : Z)
| ErrTooLong
| ErrExecNotFound
| ExitError (n : Z)
| Errorf (key : gostring) (args : list gostring) (cause : option err).

Definition IsNotExist (e : err) : bool := match e with ENOENT => true | _ => false end.

(** [err.Error()] *)
Class ErrorText := error_text : err -> gostring.

Definition IsExist (e : err) : bool := match e with EEXIST => true | _ => false end.

(** ** Files *)

(** Contents: plain bytes, or a zip archive with its entries, complete once its
    central directory has been written. *)
Inductive Data :=
| Raw (b : gostring)
| Zip (entries : list (gostring * gostring)) (closed : bool).

#[global] Instance Data_eq_dec : EqDecision Data.
Proof. solve_decision. Defined.

Inductive Node :=
| NDir
| NFile (d : Data) (mtime : Time).

#[global] Instance Node_eq_dec : EqDecision Node.
Proof. solve_decision. Defined.

(** Sizes in bytes the program does not determine: of an archive, which depends on its
    compression, and of a directory, which depends on the file system. *)
Class ArchiveSize := mkSizes {
  archive_size : list (gostring * gostring) -> bool -> Z;
  dir_size : Z
}.

Definition data_size `{ArchiveSize} (d : Data) : Z :=
  match d with
  | Raw b => Z.of_nat (length b)
  | Zip es c => archive_size es c
  end.

(** [FileInfo.Size]. *)
Definition node_size `{ArchiveSize} (n : Node) : Z :=
  match n with
  | NDir => dir_size
  | NFile d _ => data_size d
  end.

(** The bytes of an archive, as the zip writer lays them out. *)
Class ArchiveBytes := mkBytes {
  zip_bytes : list (gostring * gostring) -> bool -> gostring;
  dir_bytes : Z
}.

Definition data_bytes `{ArchiveBytes} (d : Data) : gostring :=
  match d with
  | Raw b => b
  | Zip es c => zip_bytes es c
  end.

(** The sizes that go with the bytes. *)
Definition byte_sizes `{ArchiveBytes} : ArchiveSize :=
  mkSizes (fun es c => Z.of_nat (length (zip_bytes es c))) dir_bytes.

Inductive Level := LDebug | LInfo | LWarn | LError.

(** An argument of a message: a string, a number, a list of strings, an error. *)
Inductive Arg :=
| AStr (s : gostring)
| AInt (n : Z)
| AStrs (l : list gostring)
| AErr (e : err).

#[global] Instance err_eq_dec : EqDecision err.
Proof.
  refine (fix go (x y : err) {struct x} : {x = y} + {x <> y} := _). decide equality; try apply (decide (_ = _)).
  apply (@option_eq_dec err go).
Defined.

#[global] Instance Arg_eq_dec : EqDecision Arg.
Proof. solve_decision. Defined.

(** A message by the key of its format and the arguments. *)
Record LogEntry := mkLog { l_level : Level; l_key : gostring; l_args : list Arg }.

Record World := mkWorld {
  w_fs : gmap gostring Node;
  w_now : Time;
  w_tick : nat;
  w_log : list LogEntry;
  w_hist : list (gmap gostring Node)   (* the files after each call, latest first *)
}.

Definition set_fs (f : gmap gostring Node -> gmap gostring Node) (w : World) : World :=
  mkWorld (f (w_fs w)) (w_now w) (w_tick w) (w_log w) (w_hist w).

Definition tick (w : World) : World := mkWorld (w_fs w) (w_now w) (S (w_tick w)) (w_log w) (w_hist w).

Definition snapshot (w : World) : World :=
  mkWorld (w_fs w) (w_now w) (w_tick w) (w_log w) (w_fs w :: w_hist w).

(** The error number with which the call at a tick fails, if it does. *)
Class Faults := fault : nat -> option Z.

Definition NoFaults : Faults := fun _ => None.

(** Standard output, standard error, the two as interleaved on one stream, and the
    failure of a command. *)
Record ExecResult := mkExec { x_out : gostring; x_stderr : gostring; x_combined : gostring; x_err : option err }.

Class Exec := exec : nat -> gostring -> list gostring -> gostring -> ExecResult.

(** ** State transformers *)

Definition M (A : Type) : Type := World -> A * World.

#[global] Instance M_ret : MRet M := fun A x w => (x, w).
#[global] Instance M_bind : MBind M := fun A B f m w => let '(x, w') := m w in f x w'.

Definition get_now : M Time := fun w => (w_now w, w).

Definition log_at (l : Level) (key : gostring) (args : list Arg) : M unit :=
  fun w => (tt, mkWorld (w_fs w) (w_now w) (w_tick w) (w_log w ++ [mkLog l key args]) (w_hist w)).

Definition Info := log_at LInfo.
Definition Warn := log_at LWarn.

(** [for _, x := range xs { body }] with a body that always goes on. *)
Fixpoint for_each {A} (xs : list A) (body : A -> M unit) : M unit :=
  match xs with
  | [] => mret tt
  | x :: xs' => _ ← body x; for_each xs' body
  end.

Section Calls.
Context {FT : Faults}.

(** A system call: it fails if the world says so, otherwise it acts. *)
Definition syscall {A} (act : World -> (err + A) * World) : M (err + A) := fun w =>
  let '(r, w') :=
    match fault (w_tick w) with
    | Some n => (inl (EIO n), tick w)
    | None => act (tick w)
    end in
  (r, snapshot w').

Definition Stat (p : gostring) : M (err + Node) :=
  syscall (fun w => (match w_fs w !! p with Some n => inr n | None => inl ENOENT end, w)).

(** The entries of a directory: what the path joined with a plain name leads to. *)
Definition dir_entries (fs : gmap gostring Node) (d : gostring) : list (gostring * Node) :=
  omap (fun '(p, n) =>
    match strip_prefix (GoPath.dir_prefix d) p with
    | Some name => if bool_decide (GoPath.plain name) then Some (name, n) else None
    | None => None
    end) (map_to_list fs).

(** [os.Remove] removes a file or an empty directory. *)
Definition Remove (p : gostring) : M (err + unit) :=
  syscall (fun w =>
    match w_fs w !! p with
    | None => (inl ENOENT, w)
    | Some NDir => if dir_entries (w_fs w) p ==? [] then (inr tt, set_fs (delete p) w) else (inl (EIO 39), w)
    | Some (NFile _ _) => (inr tt, set_fs (delete p) w)
    end).

(** Renaming replaces an existing file.  (The program renames regular files only; the
    move of a directory's contents is left out.) *)
Definition Rename (p q : gostring) : M (err + unit) :=
  syscall (fun w =>
    match w_fs w !! p with
    | None => (inl ENOENT, w)
    | Some n =>
        if w_fs w !! q ==? Some NDir then (inl EEXIST, w)
        else (inr tt, set_fs (fun fs => <[q := n]> (delete p fs)) w)
    end).

(** [os.Create] truncates an existing file; the directory must exist. *)
Definition Create (p : gostring) : M (err + unit) :=
  syscall (fun w =>
    if w_fs w !! p ==? Some NDir then (inl (EIO 21), w)
    else if w_fs w !! GoPath.Dir p ==? Some NDir then (inr tt, set_fs <[p := NFile (Raw []) (w_now w)]> w)
    else (inl ENOENT, w)).

(** Writing through an open file. *)
Definition Write (p : gostring) (d : Data) : M (err + unit) :=
  syscall (fun w => (inr tt, set_fs <[p := NFile d (w_now w)]> w)).

(** [os.WriteFile] creates or truncates the file, then writes. *)
Definition WriteFile (p b : gostring) : M (err + unit) :=
  r ← Create p;
  match r with
  | inl e => mret (inl e)
  | inr _ => Write p (Raw b)
  end.

(** [os.ReadFile] of a plain file.  (No archive is ever read this way.) *)
Definition ReadFile (p : gostring) : M (err + gostring) :=
  syscall (fun w =>
    match w_fs w !! p with
    | Some (NFile (Raw b) _) => (inr b, w)
    | Some (NFile (Zip _ _) _) => (inl (EIO 22), w)
    | Some NDir => (inl (EIO 21), w)
    | None => (inl ENOENT, w)
    end).

(** [os.Open] and reading to the end: a directory opens but does not read. *)
Definition Open (p : gostring) : M (err + Node) :=
  syscall (fun w => (match w_fs w !! p with Some n => inr n | None => inl ENOENT end, w)).

Definition ReadAll `{ArchiveBytes} (n : Node) : M (err + gostring) :=
  syscall (fun w => (match n with NFile d _ => inr (data_bytes d) | NDir => inl (EIO 21) end, w)).

(** [os.MkdirAll] goes down from the first element of the path and creates what is
    missing; a file in the way stops it. *)
Fixpoint ancestors (pre p : gostring) : list gostring :=
  match p with
  | [] => [pre]
  | c :: p' =>
      (if (c ==? GoPath.slash) && negb (pre ==? []) then [pre] else []) ++ ancestors (pre ++ [c]) p'
  end.

Fixpoint mkdirs (ps : list gostring) (w : World) : (err + unit) * World :=
  match ps with
  | [] => (inr tt, w)
  | p :: ps' =>
      match w_fs w !! p with
      | Some (NFile _ _) => (inl (EIO 20), w)
      | Some NDir => mkdirs ps' w
      | None => mkdirs ps' (set_fs <[p := NDir]> w)
      end
  end.

Definition MkdirAll (p : gostring) : M (err + unit) :=
  syscall (fun w => match w_fs w !! p with Some NDir => (inr tt, w) | _ => mkdirs (ancestors [] p) w end).

(** [os.ReadDir] sorts by name. *)
Definition name_leb (a b : gostring * Node) : Prop :=
  String.le (String.string_of_list_ascii (fst a)) (String.string_of_list_ascii (fst b)).

#[global] Instance name_leb_dec : RelDecision name_leb.
Proof. intros a b. unfold name_leb. apply _. Defined.

Definition ReadDir (d : gostring) : M (err + list (gostring * Node)) :=
  syscall (fun w =>
    match w_fs w !! d with
    | Some NDir => (inr (merge_sort name_leb (dir_entries (w_fs w) d)), w)
    | Some (NFile _ _) => (inl (EIO 20), w)
    | None => (inl ENOENT, w)
    end).

End Calls.

(** Running a command consumes a tick too. *)
Definition run_cmd `{Exec} (cmd : gostring) (args : list gostring) (stdin : gostring) : M ExecResult :=
  fun w => (exec (w_tick w) cmd args stdin, tick w).

(** [time.Sleep] lets the clock go on. *)
Definition Sleep (d : Z) : M unit := fun w => (tt, mkWorld (w_fs w) (Add (w_now w) d) (w_tick w) (w_log w) (w_hist w)).

(** Writing at the end of a file opened with O_APPEND. *)
Definition Append `{Faults} (p b : gostring) : M (err + unit) :=
  syscall (fun w =>
    match w_fs w !! p with
    | Some (NFile (Raw old) _) => (inr tt, set_fs <[p := NFile (Raw (old ++ b)) (w_now w)]> w)
    | _ => (inl (EIO 9), w)
    end).

(** ** Lemmas *)

(** Only paths satisfying [P] may differ. *)
Definition touches (P : gostring -> Prop) (w w' : World) : Prop :=
  (forall p, ~ P p -> w_fs w' !! p = w_fs w !! p) /\ w_now w' = w_now w.

#[global] Instance touches_refl P : Reflexive (touches P).
Proof. split; done. Qed.

#[global] Instance touches_trans P : Transitive (touches P).
Proof. intros a b c [H1 E1] [H2 E2]. split; [|congruence]. intros p Hp. rewrite H2, H1; done. Qed.

Lemma touches_mono (P Q : gostring -> Prop) w w' : (forall p, P p -> Q p) -> touches P w w' -> touches Q w w'.
Proof. intros HPQ [H E]. split; [|done]. intros p Hp. apply H. naive_solver. Qed.

(** A preorder every round of a loop respects is respected by the loop. *)
Lemma for_each_rel {A} (R : World -> World -> Prop) `{!Reflexive R, !Transitive R} (xs : list A) body w :
  (forall x w, x ∈ xs -> R w (snd (body x w))) -> R w (snd (for_each xs body w)).
Proof.
  revert w. induction xs as [|x xs IH]; intros w Hb; [done|].
  cbn [for_each]. unfold mbind, M_bind. specialize (Hb x w ltac:(by left)) as H1.
  destruct (body x w) as [[] w1] eqn:E. etrans; [exact H1|]. apply IH. intros y w2 Hy. apply Hb. by right.
Qed.

Lemma for_each_ext {A} (xs : list A) body body' w :
  (forall x w, x ∈ xs -> body x w = body' x w) -> for_each xs body w = for_each xs body' w.
Proof.
  revert w. induction xs as [|x xs IH]; intros w Hb; [done|]. cbn [for_each]. unfold mbind, M_bind.
  rewrite Hb by (by left). destruct (body' x w). apply IH. intros y w2 Hy. apply Hb. by right.
Qed.

(** Files may only disappear. *)
Definition shrinks (w w' : World) : Prop := w_fs w' ⊆ w_fs w.

#[global] Instance shrinks_refl : Reflexive shrinks.
Proof. intros w. unfold shrinks. done. Qed.

#[global] Instance shrinks_trans : Transitive shrinks.
Proof. intros a b c H1 H2. unfold shrinks in *. by etrans. Qed.

(** An action that changes no file and leaves the clock alone. *)
Definition quiet {A} (m : M A) : Prop := forall w, touches (fun _ => False) w (snd (m w)).

Lemma quiet_fs {A} (m : M A) w : quiet m -> w_fs (snd (m w)) = w_fs w.
Proof. intros Hq. apply map_eq. intros p. apply (proj1 (Hq w)). tauto. Qed.

Lemma quiet_now {A} (m : M A) w : quiet m -> w_now (snd (m w)) = w_now w.
Proof. intros Hq. apply Hq. Qed.

Lemma quiet_ret {A} (x : A) : quiet (mret x).
Proof. intros w. done. Qed.

Lemma quiet_bind {A B} (m : M A) (f : A -> M B) : quiet m -> (forall x, quiet (f x)) -> quiet (m ≫= f).
Proof.
  intros Hm Hf w. unfold mbind, M_bind. specialize (Hm w). destruct (m w) as [x w1].
  etrans; [exact Hm|apply Hf].
Qed.

Lemma quiet_log l key args : quiet (log_at l key args).
Proof. intros w. done. Qed.

Lemma quiet_now_read : quiet get_now.
Proof. intros w. done. Qed.

Lemma quiet_syscall `{Faults} {A} (act : World -> (err + A) * World) : quiet act -> quiet (syscall act).
Proof.
  intros Hq w. unfold syscall. destruct (fault (w_tick w)); [done|].
  specialize (Hq (tick w)). destruct (act (tick w)) as [r w']. done.
Qed.

Lemma quiet_Stat `{Faults} p : quiet (Stat p).
Proof. apply quiet_syscall. intros w. done. Qed.

Lemma quiet_ReadDir `{Faults} d : quiet (ReadDir d).
Proof. apply quiet_syscall. intros w. destruct (w_fs w !! d) as [[|]|]; done. Qed.

Lemma quiet_run_cmd `{Exec} cmd args stdin : quiet (run_cmd cmd args stdin).
Proof. intros w. done. Qed.

#[export] Hint Resolve quiet_run_cmd : go.
#[export] Hint Resolve quiet_ret quiet_log quiet_now_read quiet_Stat quiet_ReadDir : go.
#[export] Hint Extern 1 (quiet (_ ≫= _)) => (apply quiet_bind; [|intros ?]) : go.
#[export] Hint Extern 2 (quiet (match ?x with _ => _ end)) => destruct x : go.

(** Proves that a reading action is quiet by following its structure. *)
Ltac solve_quiet := repeat (intros; cbv zeta; eauto 2 with go; first [apply quiet_bind | case_match]).

Lemma data_size_bytes `{ArchiveBytes} d : @data_size byte_sizes d = Z.of_nat (length (data_bytes d)).
Proof. by destruct d. Qed.

Lemma quiet_Open `{Faults} p : quiet (Open p).
Proof. apply quiet_syscall. intros w. done. Qed.

Lemma quiet_ReadAll `{Faults} `{ArchiveBytes} n : quiet (ReadAll n).
Proof. apply quiet_syscall. intros w. done. Qed.

Lemma quiet_ReadFile `{Faults} p : quiet (ReadFile p).
Proof. apply quiet_syscall. intros w. destruct (w_fs w !! p) as [[|[]]|]; done. Qed.

#[export] Hint Resolve quiet_Open quiet_ReadAll quiet_ReadFile : go.

Lemma ReadDir_result `{Faults} d w :
  fst (ReadDir d w) =
  match fault (w_tick w), w_fs w !! d with
  | Some n, _ => inl (EIO n)
  | None, Some NDir => inr (merge_sort name_leb (dir_entries (w_fs w) d))
  | None, Some (NFile _ _) => inl (EIO 20)
  | None, None => inl ENOENT
  end.
Proof.
  unfold ReadDir, syscall. destruct (fault (w_tick w)); [done|]. simpl.
  by destruct (w_fs w !! d) as [[|]|].
Qed.

(** A removal touches its path only. *)
Lemma Remove_touches `{Faults} p w : touches (eq p) w (snd (Remove p w)).
Proof.
  unfold Remove, syscall. destruct (fault (w_tick w)); [done|]. simpl.
  destruct (w_fs w !! p) as [[|d m]|]; try case_if; simpl; try done;
    split; try done; intros q Hq; simpl; by rewrite lookup_delete_ne.
Qed.

Lemma Create_touches `{Faults} p w : touches (eq p) w (snd (Create p w)).
Proof.
  unfold Create, syscall. destruct (fault (w_tick w)); [done|]. repeat case_if; simpl; try done.
  split; [|done]. intros q Hq. simpl. by rewrite lookup_insert_ne.
Qed.

Lemma Write_touches `{Faults} p d w : touches (eq p) w (snd (Write p d w)).
Proof.
  unfold Write, syscall. destruct (fault (w_tick w)); [done|]. split; [|done]. intros q Hq. simpl. by rewrite lookup_insert_ne.
Qed.

Lemma Remove_shrinks `{Faults} p w : shrinks w (snd (Remove p w)).
Proof.
  unfold Remove, syscall, shrinks. destruct (fault (w_tick w)); [done|]. simpl.
  destruct (w_fs w !! p) as [[|d m]|]; try case_if; simpl; try done; apply delete_subseteq.
Qed.

(** The entries of a directory are the files one plain name below it. *)
Lemma elem_of_dir_entries fs d name n :
  (name, n) ∈ dir_entries fs d <-> GoPath.plain name /\ fs !! GoPath.Join d name = Some n.
Proof.
  unfold dir_entries. rewrite list_elem_of_omap. split.
  - intros ([p m] & Hin & Hp). apply elem_of_map_to_list in Hin.
    destruct (strip_prefix _ p) as [q|] eqn:E; [|done]. case_bool_decide as Hq; [|done].
    simplify_eq. apply strip_prefix_Some in E as ->. by rewrite GoPath.Join_plain.
  - intros [Hp Hl]. exists (GoPath.Join d name, n). rewrite elem_of_map_to_list. split; [done|].
    rewrite GoPath.Join_plain, strip_prefix_app by done. by rewrite bool_decide_eq_true_2.
Qed.

Lemma dir_entries_NoDup fs d : NoDup (fst <$> dir_entries fs d).
Proof.
  unfold dir_entries. pose proof (NoDup_fst_map_to_list fs) as Hnd. revert Hnd.
  induction (map_to_list fs) as [|[p n] l IH]; [constructor|]. csimpl. intros [Hp Hnd]%NoDup_cons.
  destruct (strip_prefix _ p) as [q|] eqn:E; [|auto]. case_bool_decide as Hq; [|auto].
  csimpl. constructor; [|auto]. intros Hin. apply Hp. clear IH Hnd.
  apply list_elem_of_fmap in Hin as ([q' n'] & -> & Hin). apply list_elem_of_omap in Hin as ([p' m'] & Hin & Hp').
  destruct (strip_prefix (GoPath.dir_prefix d) p') as [r|] eqn:E'; [|done]. case_bool_decide; [|done]. simplify_eq.
  apply strip_prefix_Some in E as ->. apply strip_prefix_Some in E' as ->.
  apply list_elem_of_fmap. by exists (GoPath.dir_prefix d ++ q', n').
Qed.

(** *** Ticks only go up *)

Definition forward {A} (m : M A) : Prop := forall w, w_tick w <= w_tick (snd (m w)).

Lemma forward_ret {A} (x : A) : forward (mret x).
Proof. intros w. done. Qed.

Lemma forward_bind {A B} (m : M A) (f : A -> M B) : forward m -> (forall x, forward (f x)) -> forward (m ≫= f).
Proof.
  intros Hm Hf w. unfold mbind, M_bind. specialize (Hm w). destruct (m w) as [x w1]. simpl in Hm. etrans; [exact Hm|apply Hf].
Qed.

Lemma forward_syscall `{Faults} {A} (act : World -> (err + A) * World) :
  (forall w, w_tick (snd (act w)) = w_tick w) -> forward (syscall act).
Proof.
  intros Ha w. unfold syscall. destruct (fault (w_tick w)); simpl; [lia|]. specialize (Ha (tick w)).
  destruct (act (tick w)) as [r w']. simpl in *. lia.
Qed.

Lemma forward_log l key args : forward (log_at l key args).
Proof. intros w. done. Qed.

Lemma forward_now : forward get_now.
Proof. intros w. done. Qed.

Lemma forward_run_cmd `{Exec} cmd args stdin : forward (run_cmd cmd args stdin).
Proof. intros w. simpl. lia. Qed.

Lemma forward_Stat `{Faults} p : forward (Stat p).
Proof. by apply forward_syscall. Qed.

Lemma forward_ReadDir `{Faults} d : forward (ReadDir d).
Proof. apply forward_syscall. intros w. by destruct (w_fs w !! d) as [[|]|]. Qed.

Lemma forward_Remove `{Faults} p : forward (Remove p).
Proof. apply forward_syscall. intros w. destruct (w_fs w !! p) as [[|]|]; try case_if; done. Qed.

Lemma forward_for_each {A} (xs : list A) body : (forall x, forward (body x)) -> forward (for_each xs body).
Proof. intros Hb. induction xs as [|x xs IH]; [apply forward_ret|]. cbn [for_each]. by apply forward_bind. Qed.

#[export] Hint Resolve forward_ret forward_log forward_now forward_run_cmd forward_Stat forward_ReadDir forward_Remove : go.

(** Proves that an action is [forward] by following its structure. *)
Ltac solve_forward := repeat (intros; cbv zeta; first [solve [eauto 2 with go] | apply forward_log | apply forward_bind | case_match]).

End World.
