(* ===== verification/GoFmt.v ===== *)
(** * Go's fmt.Sprintf and fmt.Errorf.

    The loop of doPrintf as an automaton over the bytes of the format.  Arguments are
    strings, numbers, lists of strings and errors.  The result is [None] where a format
    goes beyond what is modelled: explicit argument indexes, the star, verbs outside
    ASCII, and printing an argument with other flags than the program's formats have, or a
    string with a verb other than %s, %v, %d, %w and the exclamation mark that an unfilled
    directive of an earlier call leaves. *)

From S2P Require Import Prelude GoStrings GoTime World.
Import GoStrings World.

Module GoFmt.

Definition percent : ascii := "%"%char.

(** Between directives, or in one after its flags, width or precision. *)
Inductive Mode :=
| Literal
| Flags (fl : list ascii)
| Width (fl : list ascii) (n : Z)
| Prec (fl : list ascii) (wid : option Z) (n : Z).

Definition is_flag (c : ascii) : bool := bool_decide (c ∈ ["#"%char; "0"%char; "+"%char; "-"%char; " "%char]).

(** An argument index or a width taken from an argument. *)
Definition unmodelled (c : ascii) : bool := bool_decide (c ∈ ["["%char; "*"%char]).

(** ** Printing one argument *)

(** The type of an error's value, and how the value prints with a verb that does not ask
    for its text. *)
Class ErrorPrint := mkPrint { error_type : err -> gostring; error_verb : err -> ascii -> gostring }.

(** A number with a width: zeros after the sign, or blanks before it. *)
Definition fmtInteger (n wid : Z) (zero : bool) : gostring :=
  let sign : gostring := if (n <? 0)%Z then str "-" else [] in
  let d := digits (Z.abs n) in
  let pad := Z.to_nat (wid - Z.of_nat (length sign + length d)) in
  if zero then sign ++ replicate pad "0"%char ++ d else replicate pad " "%char ++ sign ++ d.

(** The list as %v prints it. *)
Definition fmtStrings (l : list gostring) : gostring := "[" ++ Join l " " ++ "]".

Section Print.
Context {ET : ErrorText} {EP : ErrorPrint}.

(** With the verb v and no flags. *)
Definition printValue (x : Arg) : gostring :=
  match x with
  | AStr s => s
  | AInt n => Itoa n
  | AStrs l => fmtStrings l
  | AErr e => error_text e
  end.

Definition typeName (x : Arg) : gostring :=
  match x with
  | AStr _ => str "string"
  | AInt _ => str "int"
  | AStrs _ => str "[]string"
  | AErr e => error_type e
  end.

(** For arguments other than errors. *)
Definition badVerb (verb : ascii) (x : Arg) : gostring := "%!" ++ [verb] ++ "(" ++ typeName x ++ "=" ++ printValue x ++ ")".

(** Whether the arguments are those of Errorf. *)
Variable wrap : bool.

Definition printArg (x : Arg) (verb : ascii) (fl : list ascii) (wid prec : option Z) : option gostring :=
  match prec, x with
  | Some _, _ => None
  | None, AInt n =>
      if negb ((fl ==? []) || (fl ==? ["0"%char])) then None
      else if (verb ==? "d"%char) || (verb ==? "v"%char) then Some (fmtInteger n (default 0%Z wid) (fl ==? ["0"%char]))
      else if (verb ==? "s"%char) || (verb ==? "!"%char) then Some (badVerb verb x)
      else None
  | None, _ =>
      if negb (fl ==? []) || negb (wid ==? None) then None
      else if (verb ==? "s"%char) || (verb ==? "v"%char) then Some (printValue x)
      else match x with
           | AErr e =>
               if verb ==? "w"%char then if wrap then Some (error_text e) else None
               else if (verb ==? "d"%char) || (verb ==? "!"%char) then Some (error_verb e verb)
               else None
           | AStr _ => if (verb ==? "d"%char) || (verb ==? "w"%char) || (verb ==? "!"%char) then Some (badVerb verb x) else None
           | _ => None
           end
  end.

(** ** The loop *)

(** The arguments left over, with their types. *)
Definition extraArg (x : Arg) : gostring := typeName x ++ "=" ++ printValue x.

Definition extra (a : list Arg) : gostring :=
  match a with
  | [] => []
  | _ => "%!(EXTRA " ++ Join (extraArg <$> a) ", " ++ ")"
  end.

Definition missing (verb : ascii) : gostring := "%!" ++ [verb] ++ "(MISSING)".

Definition noVerb : gostring := "%!(NOVERB)".

Definition tooLarge (n : Z) : bool := (1000000 <? n)%Z.

(** What follows is put after [s]. *)
Definition before (s : gostring) (r : option (gostring * list err)) : option (gostring * list err) :=
  (fun '(t, ws) => (s ++ t, ws)) <$> r.

(** The verb of a directive: the text, the arguments left and the errors wrapped. *)
Definition verbOf (c : ascii) (fl : list ascii) (wid prec : option Z) (a : list Arg) : option (gostring * list Arg * list err) :=
  if (128 <=? code c)%Z then None
  else if c ==? percent then Some (str "%", a, [])
  else match a with
       | [] => Some (missing c, [], [])
       | x :: a' =>
           (fun s => (s, a', match x with AErr e => if c ==? "w"%char then [e] else [] | _ => [] end)) <$> printArg x c fl wid prec
       end.

(** The result is the text and the errors that %w wraps. *)
Fixpoint doPrintf (m : Mode) (f : gostring) (a : list Arg) : option (gostring * list err) :=
  match f with
  | [] =>
      match m with
      | Literal => Some (extra a, [])
      | _ => Some (noVerb ++ extra a, [])
      end
  | c :: f' =>
      let verb fl wid prec :=
        match verbOf c fl wid prec a with
        | Some (s, a', ws) => (fun '(t, ws') => (s ++ t, ws ++ ws')) <$> doPrintf Literal f' a'
        | None => None
        end in
      match m with
      | Literal => if c ==? percent then doPrintf (Flags []) f' a else before [c] (doPrintf Literal f' a)
      | Flags fl =>
          if is_flag c then doPrintf (Flags (fl ++ [c])) f' a
          else if unmodelled c then None
          else if is_digit c then doPrintf (Width fl (code c - 48)) f' a
          else if c ==? "."%char then doPrintf (Prec fl None 0) f' a
          else verb fl None None
      | Width fl n =>
          if is_digit c then
            if tooLarge n then Some (noVerb ++ extra a, []) else doPrintf (Width fl (10 * n + (code c - 48))) f' a
          else if unmodelled c then None
          else if c ==? "."%char then doPrintf (Prec fl (Some n) 0) f' a
          else verb fl (Some n) None
      | Prec fl wid n =>
          if is_digit c then
            if tooLarge n then Some (noVerb ++ extra a, []) else doPrintf (Prec fl wid (10 * n + (code c - 48))) f' a
          else if unmodelled c then None
          else verb fl wid (Some n)
      end
  end.

End Print.

(** [fmt.Sprintf] *)
Definition Sprintf `{ErrorText} `{ErrorPrint} (f : gostring) (a : list Arg) : option gostring := fst <$> doPrintf false Literal f a.

(** [fmt.Errorf]: the text of the error and the errors it wraps. *)
Definition FmtErrorf `{ErrorText} `{ErrorPrint} (f : gostring) (a : list Arg) : option (gostring * list err) := doPrintf true Literal f a.

Example Sprintf_examples : let ET : ErrorText := fun _ => str "no space" in
  let EP : ErrorPrint := mkPrint (fun _ => str "syscall.Errno") (fun _ c => "%!" ++ [c] ++ "(syscall.Errno=28)") in
  Sprintf "dump %s: %w" [AStr "shop"] = Some (str "dump shop: %!w(MISSING)") /\
  Sprintf "cron: %02d:%02d" [AInt 4; AInt 30] = Some (str "cron: 04:30") /\
  Sprintf "%d%%, %v" [AInt (-5); AStrs [str "-v"; str "x"]] = Some (str "-5%, [-v x]") /\
  Sprintf "100%" [] = Some (str "100%!(NOVERB)") /\
  Sprintf "a" [AStr "b"; AInt 1] = Some (str "a%!(EXTRA string=b, int=1)") /\
  Sprintf "%d %s" [AStr "b"; AInt 1] = Some (str "%!d(string=b) %!s(int=1)") /\
  FmtErrorf "backup: %w" [AErr ENOENT] = Some (str "backup: no space", [ENOENT]) /\
  FmtErrorf "dump shop: %!w(MISSING)" [AErr ENOENT] = Some (str "dump shop: %!!(syscall.Errno=28)w(MISSING)", []).
Proof. vm_compute. repeat split. Qed.

(** ** Formats that fit their arguments

    The formats of the program are text with the directives below; [fill] says what they
    stand for, and [doPrintf_fits] that the loop prints just that. *)

Inductive Verb := VS | VV | VD | V02D | VW.

#[global] Instance Verb_eq_dec : EqDecision Verb.
Proof. solve_decision. Defined.

Inductive Piece := Text (c : ascii) | Hole (v : Verb).

#[global] Instance Piece_eq_dec : EqDecision Piece.
Proof. solve_decision. Defined.

(** A format as its pieces, [None] if it has another directive. *)
Fixpoint cut (f : gostring) : option (list Piece) :=
  match f with
  | [] => Some []
  | c :: f1 =>
      if negb (c ==? percent) then cons (Text c) <$> cut f1
      else match f1 with
           | [] => None
           | d :: f2 =>
               if d ==? percent then cons (Text percent) <$> cut f2
               else if d ==? "s"%char then cons (Hole VS) <$> cut f2
               else if d ==? "v"%char then cons (Hole VV) <$> cut f2
               else if d ==? "d"%char then cons (Hole VD) <$> cut f2
               else if d ==? "w"%char then cons (Hole VW) <$> cut f2
               else match f2 with
                    | e :: g :: f4 =>
                        if (d ==? "0"%char) && (e ==? "2"%char) && (g ==? "d"%char) then cons (Hole V02D) <$> cut f4 else None
                    | _ => None
                    end
           end
  end.

(** The directives of a format in order. *)
Definition holes (ps : list Piece) : list Verb := omap (fun p => match p with Hole v => Some v | Text _ => None end) ps.

Definition directives (f : gostring) : option (list Verb) := holes <$> cut f.

Inductive Kind := KStr | KInt | KStrs | KErr.

Definition kind (x : Arg) : Kind :=
  match x with AStr _ => KStr | AInt _ => KInt | AStrs _ => KStrs | AErr _ => KErr end.

(** Whether a directive takes an argument of a kind; only Errorf has %w. *)
Definition takes (wrap : bool) (v : Verb) (k : Kind) : bool :=
  match v, k with
  | VV, _ => true
  | VS, KInt => false
  | VS, _ => true
  | (VD | V02D), KInt => true
  | (VD | V02D), _ => false
  | VW, KErr => wrap
  | VW, _ => false
  end.

Fixpoint takes_all (wrap : bool) (vs : list Verb) (ks : list Kind) : bool :=
  match vs, ks with
  | [], [] => true
  | v :: vs', k :: ks' => takes wrap v k && takes_all wrap vs' ks'
  | _, _ => false
  end.

Definition fits (wrap : bool) (f : gostring) (ks : list Kind) : bool :=
  match directives f with Some vs => takes_all wrap vs ks | None => false end.

Section Fits.
Context {ET : ErrorText} {EP : ErrorPrint}.

Definition fillHole (v : Verb) (x : Arg) : gostring :=
  match v, x with
  | V02D, AInt n => fmtInteger n 2 true
  | _, _ => printValue x
  end.

Fixpoint fill (ps : list Piece) (a : list Arg) : gostring :=
  match ps, a with
  | Text c :: ps', _ => c :: fill ps' a
  | Hole v :: ps', x :: a' => fillHole v x ++ fill ps' a'
  | _, _ => []
  end.

(** The errors a format wraps. *)
Fixpoint wrapped (vs : list Verb) (a : list Arg) : list err :=
  match vs, a with
  | VW :: vs', AErr e :: a' => e :: wrapped vs' a'
  | _ :: vs', _ :: a' => wrapped vs' a'
  | _, _ => []
  end.

Lemma fmtInteger_0 n : fmtInteger n 0 false = Itoa n.
Proof.
  unfold fmtInteger, Itoa. case_if; bool_prop.
  - rewrite Z.abs_neq by lia. set (k := Z.to_nat _). assert (k = 0) as -> by (unfold k; simpl; lia). done.
  - rewrite Z.abs_eq by lia. set (k := Z.to_nat _). assert (k = 0) as -> by (unfold k; simpl; lia). done.
Qed.

Lemma fmtInteger_plain n wid : percent ∉ fmtInteger n wid true.
Proof.
  unfold fmtInteger. rewrite !not_elem_of_app. split_and!.
  - case_if; apply (bool_decide_eq_true_1 _); reflexivity.
  - intros H%elem_of_replicate. by destruct H.
  - intros H. destruct (digits_spec (Z.abs n)) as (_ & Hd & _); [lia|]. rewrite Forall_forall in Hd. by specialize (Hd _ H).
Qed.

Definition verbByte (v : Verb) : ascii :=
  match v with VS => "s"%char | VV => "v"%char | VD | V02D => "d"%char | VW => "w"%char end.

Definition flagsOf (v : Verb) : list ascii := match v with V02D => ["0"%char] | _ => [] end.
Definition widthOf (v : Verb) : option Z := match v with V02D => Some 2%Z | _ => None end.

Lemma printArg_takes wrap v x :
  takes wrap v (kind x) = true -> printArg wrap x (verbByte v) (flagsOf v) (widthOf v) None = Some (fillHole v x).
Proof.
  destruct v, x; cbn [takes kind]; intros H; try done; cbn -[fmtInteger]; rewrite ?fmtInteger_0; try done.
  by rewrite H.
Qed.

Lemma verbOf_takes wrap v x a :
  takes wrap v (kind x) = true ->
  verbOf wrap (verbByte v) (flagsOf v) (widthOf v) None (x :: a) = Some (fillHole v x, a, wrapped [v] [x]).
Proof.
  intros H. unfold verbOf. assert ((128 <=? code (verbByte v))%Z = false) as -> by (by destruct v).
  rewrite bool_decide_eq_false_2 by (by destruct v). rewrite printArg_takes by done. cbn. by destruct v, x.
Qed.

Definition directive (v : Verb) : gostring := (match v with V02D => str "%02" | _ => str "%" end) ++ [verbByte v].

(** One directive of the loop. *)
Lemma doPrintf_hole wrap v x a f :
  takes wrap v (kind x) = true ->
  doPrintf wrap Literal (directive v ++ f) (x :: a)
  = (fun '(t, ws) => (fillHole v x ++ t, wrapped [v] [x] ++ ws)) <$> doPrintf wrap Literal f a.
Proof.
  intros H. assert (doPrintf wrap Literal (directive v ++ f) (x :: a) =
    match verbOf wrap (verbByte v) (flagsOf v) (widthOf v) None (x :: a) with
    | Some (s, a', ws) => (fun '(t, ws') => (s ++ t, ws ++ ws')) <$> doPrintf wrap Literal f a'
    | None => None
    end) as -> by (destruct v; reflexivity).
  by rewrite verbOf_takes.
Qed.

Lemma cut_percent f1 ps :
  cut (percent :: f1) = Some ps ->
  (exists f2 ps', f1 = percent :: f2 /\ ps = Text percent :: ps' /\ cut f2 = Some ps') \/
  (exists v f2 ps', percent :: f1 = directive v ++ f2 /\ ps = Hole v :: ps' /\ cut f2 = Some ps').
Proof.
  cbn [cut]. rewrite bool_decide_eq_true_2 by done. cbn [negb]. destruct f1 as [|d f2]; [done|].
  repeat (case_bool_decide; [subst d; intros (ps' & Hc & ->)%fmap_Some|]).
  - left. eauto.
  - right. by exists VS, f2, ps'.
  - right. by exists VV, f2, ps'.
  - right. by exists VD, f2, ps'.
  - right. by exists VW, f2, ps'.
  - destruct f2 as [|e [|g f4]]; [done..|]. destruct (_ && _) eqn:E'; [|done]. bool_prop. subst.
    intros (ps' & Hc & ->)%fmap_Some. right. by exists V02D, f4, ps'.
Qed.

Lemma doPrintf_percent wrap f a : doPrintf wrap Literal (percent :: percent :: f) a = before [percent] (doPrintf wrap Literal f a).
Proof.
  change (doPrintf wrap Literal (percent :: percent :: f) a)
    with ((fun '(t, ws') => (str "%" ++ t, [] ++ ws')) <$> doPrintf wrap Literal f a).
  by destruct (doPrintf wrap Literal f a) as [[? ?]|].
Qed.

Lemma length_directive v : 0 < length (directive v).
Proof. destruct v; simpl; lia. Qed.

(** The loop prints what a format that fits its arguments stands for. *)
Lemma doPrintf_fits wrap f ps a :
  cut f = Some ps -> takes_all wrap (holes ps) (kind <$> a) = true ->
  doPrintf wrap Literal f a = Some (fill ps a, wrapped (holes ps) a).
Proof.
  remember (length f) as n eqn:Hn. revert f ps a Hn. induction (lt_wf n) as [n _ IH]. intros f ps a -> Hc Ht.
  destruct f as [|c f1]. { injection Hc as <-. destruct a; [done|discriminate Ht]. }
  destruct (decide (c = percent)) as [->|Ec].
  - destruct (cut_percent f1 ps Hc) as [(f2 & ps' & -> & -> & Hc')|(v & f2 & ps' & E & -> & Hc')].
    + rewrite doPrintf_percent. by rewrite (IH (length f2) ltac:(simpl; lia) f2 ps' a eq_refl Hc' Ht).
    + rewrite E. destruct a as [|x a]; [done|]. change (holes (Hole v :: ps')) with (v :: holes ps') in *.
      cbn [fmap list_fmap takes_all] in Ht. apply andb_true_iff in Ht as [Hv Ht]. rewrite doPrintf_hole by done.
      assert (length f2 < length (percent :: f1)) as Hl by (rewrite E, length_app; pose proof (length_directive v); lia).
      rewrite (IH (length f2) Hl f2 ps' a eq_refl Hc' Ht). cbn. f_equal. f_equal. by destruct v, x.
  - cbn [cut] in Hc. rewrite bool_decide_eq_false_2 in Hc by done. cbn [negb] in Hc. apply fmap_Some in Hc as (ps1 & Hc & ->).
    cbn [doPrintf]. rewrite bool_decide_eq_false_2 by done. by rewrite (IH (length f1) ltac:(simpl; lia) f1 ps1 a eq_refl Hc Ht).
Qed.

(** What [Sprintf] prints for arguments that fit. *)
Lemma Sprintf_fits f a : fits false f (kind <$> a) = true -> exists ps, cut f = Some ps /\ Sprintf f a = Some (fill ps a).
Proof.
  unfold fits, directives. destruct (cut f) as [ps|] eqn:E; [|done]. intros H. exists ps. split; [done|].
  unfold Sprintf. by rewrite (doPrintf_fits false f ps a E H).
Qed.

(** A text without percent signs is printed as it is. *)
Lemma Sprintf_plain f : percent ∉ f -> Sprintf f [] = Some f.
Proof.
  unfold Sprintf. intros H. enough (doPrintf false Literal f [] = Some (f, [])) as -> by done.
  induction f as [|c f IH]; [done|]. apply not_elem_of_cons in H as [Hc H]. cbn [doPrintf].
  rewrite bool_decide_eq_false_2 by congruence. by rewrite IH.
Qed.

End Fits.

End GoFmt.
