(* ===== verification/Translations.v ===== *)
(** * The embedded messages: src/internal/i18n/translations, decoded.

    One list of keys and texts per language, in the order of the file. *)

From S2P Require Import Prelude.

Module Translations.

Definition de : list (string * string) := [
  ("header.version", "start: Version %s");
  ("header.executable", "start: Aufrufpfad %s");
  ("header.arguments", "start: Aufrufparameter %v");
  ("usage.title", "MySQL/MariaDB Backup – konfiguriert über config.json (janmz/sconfig).");
  ("usage.usage", "Verwendung: mysqlbackup [Optionen]");
  ("usage.one_action", "Optionen (nur eine Aktion pro Aufruf):");
  ("usage.config", "-config <pfad>");
  ("usage.config_desc", "Pfad zur JSON-Config (Standard: aktuelles Verz. oder Home)");
  ("usage.verbose", "-v, -verbose");
  ("usage.verbose_desc", "Detaillierte Ausgaben mit [DEBUG], inkl. aller Exec-Aufrufe und deren Ausgaben");
  ("usage.init", "-init");
  ("usage.init_desc", "Jobs erstellen (Task Scheduler / systemd-Timer)");
  ("usage.cleanconfig", "-cleanconfig");
  ("usage.cleanconfig_desc", "Config-Datei mit Klartextpasswörtern schreiben");
  ("usage.remove", "-remove");
  ("usage.remove_desc", "Jobs löschen");
  ("usage.status", "-status");
  ("usage.status_desc", "Config prüfen, Backupdateien und Job-Einstellung anzeigen");
  ("usage.backup", "-backup");
  ("usage.backup_desc", "Backup ausführen (wird von Jobs übergeben)");
  ("usage.restore", "-restore");
  ("usage.restore_desc", "Restore aus letztem Backup (optional: Datum YYYYMMDD als letzter Parameter)");
  ("usage.restorefull", "-restorefull");
  ("usage.restorefull_desc", "Kompletter Restore: data->data.old, backup->data, dann SQL-Import (optional YYYYMMDD als letzter Parameter)");
  ("usage.getfile", "-getfile <dateiname>");
  ("usage.getfile_desc", "ZIP-Backup-Datei(en) von Remote laden (ggf. entschlüsselt) ins aktuelle Verzeichnis.");
  ("usage.getfile_wildcards", "Dateiname darf Wildcards (*, ?) enthalten, wird auf Remote ausgewertet; keine Pfade.");
  ("usage.help", "-h, -help");
  ("usage.help_desc", "Diese Übersicht anzeigen");
  ("error.one_flag", "Nur eines der Aktions-Flags angeben.");
  ("error.config", "Config: %v");
  ("error.init", "init: %v");
  ("error.cleanconfig", "cleanconfig: %v");
  ("error.remove", "remove: %v");
  ("error.restoredate_requires_restore", "Ein Datum als letzter Parameter ist nur mit -restore oder -restorefull erlaubt.");
  ("error.restore_too_many_args", "Zu viele Positionsparameter. Erlaubt ist optional genau ein Datum YYYYMMDD.");
  ("error.restoredate_format", "Datum muss YYYYMMDD sein: %v");
  ("error.restore_select", "restore: Backup-Auswahl: %v");
  ("error.restore_no_backup_found", "restore: Kein passendes Backup gefunden.");
  ("error.restorefull", "restorefull: %v");
  ("error.restore", "restore: %v");
  ("error.getfile_no_path", "getfile: dateiname darf keine Pfade enthalten (nur Basisname, z. B. mysql_backup_*.zip)");
  ("error.workdir", "Arbeitsverzeichnis: %v");
  ("error.getfile", "getfile: %v");
  ("msg.jobs_created", "Jobs wurden erstellt. Nächtlicher Lauf: --backup -config %s");
  ("msg.cleanconfig_done", "Config wurde mit Klartextpasswörtern geschrieben: %s");
  ("msg.jobs_removed", "Jobs wurden entfernt.");
  ("msg.no_job", "Kein Job eingerichtet. Nutzen Sie --init zum Anlegen.");
  ("msg.no_backups", "Keine Backupdateien gefunden.");
  ("msg.saved", "Gespeichert: %s");
  ("msg.files_count", "%d Datei(en)");
  ("section.config", "=== Config ===");
  ("section.config_file", "Config-Datei: %s");
  ("section.log_file", "Log-Datei: %s");
  ("section.mysql", "MySQL: %s %d");
  ("section.backup_dir", "Backup-Verzeichnis: %s");
  ("section.retention", "Retention: täglich %d wöchentlich %d monatlich %d jährlich %d");
  ("section.start_time", "Startzeit (Job): %s");
  ("section.remote", "Remote: %s @ %s");
  ("section.job", "=== Job ===");
  ("section.backups", "=== Backups (lokales Verzeichnis) ===");
  ("section.backup_dir_error", "Backup-Verzeichnis: %v");
  ("retention.daily", "täglichen");
  ("retention.weekly", "wöchentlichen");
  ("retention.monthly", "monatlichen");
  ("retention.yearly", "jährlichen");
  ("status.summe", "Summe:");
  ("job.windows", "Windows Task: %s (täglich um %s)
Befehl: %s --backup -config %s");
  ("job.systemd", "systemd Timer: %s (täglich um %s)
Befehl: %s --backup -config %s");
  ("job.cron", "Cron (täglich um %s)
Befehl: %s --backup -config %s");
  ("log.start.executable", "start: Aufrufpfad %s");
  ("log.start.version", "start: Version %s");
  ("log.start.arguments", "start: Aufrufparameter %v");
  ("log.debug.loadclean", "[DEBUG] LoadClean: Config lesen und mit Klartextpasswörtern zurückschreiben (sconfig debug an)");
  ("log.warn.schedule_ensure", "schedule ensure: %v");
  ("log.warn.schedule_platform", "Automatische Job-Einrichtung nur unter Windows/Linux; --init ggf. manuell ausführen.");
  ("log.error.backup_failed", "Backup fehlgeschlagen: %v");
  ("log.msg.backup_ok", "Backup erfolgreich abgeschlossen");
  ("log.msg.restore_ok", "Restore erfolgreich abgeschlossen");
  ("log.warn.retention_delete", "Retention Löschen %s: %v");
  ("log.msg.deleted_old_backup", "gelöscht (alt): %s Backup %s");
  ("log.warn.disk_check", "Prüfung freier Speicherplatz: %v");
  ("log.msg.mysql_port_skip", "MySQL-Port %s:%d offen, überspringe Start (mysql-CLI evtl. nicht im PATH?)");
  ("log.msg.mysql_starting", "MySQL nicht erreichbar, starte mit: %s");
  ("log.msg.mysql_started", "MySQL wurde gestartet");
  ("log.msg.no_user_dbs", "Keine Benutzerdatenbanken zum Backup.");
  ("log.warn.export_users", "Export Benutzer fehlgeschlagen (mysqlpump/mysqldump --system=users): %v; fahre ohne User-Grants in Dumps fort.");
  ("log.warn.retention", "Retention: %v");
  ("log.msg.mysql_stopping", "Stoppe MySQL (war von uns gestartet): %s");
  ("log.warn.mysql_stop", "MySQL-Stop: %v");
  ("log.msg.mysql_start_background", "MySQL-Startbefehl im Hintergrund gestartet (warte auf Port in waitForMySQL)");
  ("log.msg.mysql_lifecycle", "mysql lifecycle: %s");
  ("log.warn.email", "Fehler-E-Mail senden: %v");
  ("log.warn.sftp_mkdir", "sftp mkdir %s: %v");
  ("log.msg.remote_aes_on", "Remote: AES-Verschlüsselung aktiv");
  ("log.msg.remote_aes_off", "Remote: keine AES-Verschlüsselung");
  ("log.msg.uploaded", "hochgeladen %s nach Remote");
  ("log.warn.remote_remove", "remote remove %s: %v");
  ("log.msg.removed_remote", "von Remote entfernt (lokal nicht mehr): %s");
  ("log.msg.remote_decrypt", "Remote-Datei wird entschlüsselt: %s");
  ("log.warn.powershell_settings", "PowerShell Task-Einstellungen (WakeToRun, StartWhenAvailable, TimeLimit): %v");
  ("log.msg.windows_task_settings", "Windows-Task-Einstellungen angewendet");
  ("log.warn.powershell_workdir", "PowerShell set task WorkingDirectory: %v");
  ("log.msg.windows_task_workdir", "Windows-Task WorkingDirectory auf Config-Verzeichnis gesetzt");
  ("log.msg.windows_task_uptodate", "Windows-Task %s bereits aktuell");
  ("log.msg.windows_task_updating", "Windows-Task-Pfade geändert, aktualisiere Task");
  ("log.msg.windows_task_created", "Windows-Task %s erstellt (täglich um %s)");
  ("log.msg.systemd_exists", "systemd-Timer %s existiert bereits");
  ("log.warn.systemd_fallback", "systemd-Benutzersitzung nicht verfügbar (z. B. kein D-Bus), nutze Cron als Fallback");
  ("log.msg.systemd_created", "systemd-Timer und Service in %s erstellt; ausführen: systemctl --user daemon-reload && systemctl --user enable --now %s.timer");
  ("log.msg.cron_present", "Cron-Eintrag für mysqlbackup bereits vorhanden");
  ("log.msg.cron_added", "Cron-Eintrag hinzugefügt (täglich %02d:%02d); entfernen mit: crontab -e");
  ("log.msg.cron_present_file", "Cron-Eintrag für mysqlbackup bereits in %s vorhanden");
  ("log.msg.cron_added_file", "Cron-Eintrag zu %s hinzugefügt (täglich %02d:%02d); entfernen mit: --remove");
  ("log.msg.users_found", "%d Benutzer gefunden: %s");
  ("log.msg.dumped_db", "Datenbank gedumpt: %s");
  ("log.msg.created_zip", "erstellt: %s");
  ("log.msg.restore_zip", "importiere Backup-ZIP: %s");
  ("log.msg.restore_done", "Restore abgeschlossen (%d ZIP-Datei(en) importiert)");
  ("log.msg.restorefull_rename", "Full-Restore: benenne um %s -> %s");
  ("log.msg.restorefull_copy", "Full-Restore: kopiere %s -> %s");
  ("log.warn.recover_sav_read", "recover .sav: Verzeichnis lesen: %v");
  ("log.warn.recover_sav_rename", "recover .sav: Umbenennen %s -> %s: %v");
  ("log.msg.recovered", "wiederhergestellt: %s aus .sav");
  ("log.msg.recovered_larger", "wiederhergestellt: %s aus .sav (größere behalten)");
  ("log.warn.recover_sav_remove", "recover .sav: Entfernen %s: %v");
  ("log.warn.recover_sav_rename2", "recover .sav: Umbenennen %s -> %s: %v");
  ("log.msg.removed_sav", "veraltete .sav %s entfernt (behalte .zip)");
  ("log.warn.restore_sav", "Wiederherstellung aus .sav nach Fehler: %v");
  ("log.warn.restored_sav", "%s aus .sav nach Fehler wiederhergestellt");
  ("email.subject.disk", "MySQL Backup: Speicherplatz zu gering");
  ("email.subject.mysql_start", "MySQL Backup: MySQL-Start fehlgeschlagen");
  ("email.subject.mysql_timeout", "MySQL Backup: MySQL nach Start nicht erreichbar");
  ("email.subject.mysql_server", "MySQL Backup: Server nicht erreichbar");
  ("email.subject.list_dbs", "MySQL Backup: Datenbanken auflisten fehlgeschlagen");
  ("email.subject.dump", "MySQL Backup: Dump fehlgeschlagen");
  ("email.subject.remote", "MySQL Backup: Remote-Sync fehlgeschlagen");
  ("email.body.mysql_timeout", "Timeout beim Warten auf MySQL");
  ("err.mysql_reachable", "MySQL erreichbar: %w (Ausgabe: %s)");
  ("err.mysql_version", "MySQL-Version: %w (Ausgabe: %s)");
  ("err.show_databases", "SHOW DATABASES: %w (Ausgabe: %s)");
  ("err.mysqlpump_users", "mysqlpump --users: %w (Ausgabe: %s)");
  ("err.mysqldump_system_users", "mysqldump --system=users: %w (Ausgabe: %s)");
  ("err.mysql_user_list", "MySQL-Benutzerliste: %w (Ausgabe: %s)");
  ("err.scan_user_list", "Benutzerliste einlesen: %w");
  ("err.mysqldump_db", "mysqldump %s: %w (Ausgabe: %s)");
  ("err.mysql_import", "mysql Import: %w (Ausgabe: %s)");
  ("err.user_differing_password", "Benutzer %s @ %s: abweichende Passwort-Hashes, nutze ersten");
  ("err.restore_no_backups", "Keine Backup-Dateien für Restore ausgewählt");
  ("err.restore_zip", "Restore aus %s fehlgeschlagen: %w");
  ("err.restore_sql_missing", "ZIP enthält keine SQL-Datei: %s");
  ("err.restorefull_data_dir", "restorefull: mysql_data_dir ist nicht gesetzt");
  ("err.restorefull_backup_dir", "restorefull: mysql_backup_dir ungültig: %w");
  ("err.restorefull_data_old_exists", "restorefull: %s existiert bereits");
  ("err.restorefull_data_old_stat", "restorefull: data.old prüfen: %w");
  ("err.restorefull_data_dir_missing", "restorefull: data-Verzeichnis fehlt oder ist nicht lesbar: %w");
  ("err.restorefull_stop_required", "restorefull: MySQL läuft, aber mysql_stop_cmd ist nicht gesetzt");
  ("err.restorefull_stop", "restorefull: MySQL stoppen: %w");
  ("err.restorefull_stop_timeout", "restorefull: Timeout beim Stoppen von MySQL");
  ("err.restorefull_rename", "restorefull: data nach data.old umbenennen: %w");
  ("err.restorefull_copy", "restorefull: backup nach data kopieren: %w");
  ("err.restorefull_start_required", "restorefull: mysql_start_cmd ist nicht gesetzt");
  ("err.restorefull_start", "restorefull: MySQL starten: %w");
  ("err.restorefull_start_timeout", "restorefull: Timeout beim Starten von MySQL");
  ("err.disk_space", "Speicherplatz zu gering: %d Bytes frei, mindestens %d nötig");
  ("err.mysql_start", "MySQL-Start: %w");
  ("err.mysql_timeout", "MySQL nach Start nicht erreichbar (Timeout)");
  ("err.mysql_server", "MySQL-Server: %w");
  ("err.list_databases", "Datenbanken auflisten: %w");
  ("err.backup", "Backup: %w");
  ("err.remote_sync", "Remote-Sync: %w");
  ("err.start_cmd", "Startbefehl: %w");
  ("err.timeout_batch", "Timeout (Batch hängt?): %w (Ausgabe: %s)");
  ("err.sconfig_hw", "sconfig Hardware-ID: %w");
  ("err.sconfig_load", "sconfig laden: %w");
  ("err.sconfig_clean", "sconfig load clean: %w");
  ("err.list_local", "lokal auflisten: %w");
  ("err.ssh_dial", "SSH-Verbindung: %w");
  ("err.sftp", "SFTP: %w");
  ("err.list_remote", "Remote auflisten: %w");
  ("err.upload", "Hochladen %s: %w");
  ("err.rand_salt", "Zufall Salz: %w");
  ("err.rand_nonce", "Zufall Nonce: %w");
  ("err.read_key_file", "Schlüsseldatei lesen: %w");
  ("err.parse_private_key", "Private Key parsen: %w");
  ("err.no_ssh_auth", "Keine SSH-Anmeldung: remote_ssh_key_file oder remote_ssh_password setzen");
  ("err.remote_not_configured", "Remote nicht konfiguriert");
  ("err.getfile_no_path", "Dateiname darf keine Pfade enthalten (nur Basisname, z. B. mysql_backup_*.zip)");
  ("err.remote_list", "Remote auflisten: %w");
  ("err.pattern", "Muster: %w");
  ("err.no_remote_match", "Keine Datei auf Remote passt zu: %s");
  ("err.only_backup_zip", "Nur Backup-ZIP-Dateien (mysql_backup_YYYYMMDD_*.zip) erlaubt");
  ("err.file_failed", "%s: %w");
  ("err.remote_open", "Remote öffnen: %w");
  ("err.remote_read", "Remote lesen: %w");
  ("err.cipher", "Cipher: %w");
  ("err.local_create", "lokal erstellen: %w");
  ("err.decrypt_write", "Entschlüsseln/Schreiben: %w");
  ("err.copy", "Kopieren: %w");
  ("err.task_cmd_not_found", "Task-Befehl in schtasks-Ausgabe nicht gefunden");
  ("err.executable_path", "Executable-Pfad: %w");
  ("err.schtasks_create", "schtasks create: %w (Ausgabe: %s)");
  ("err.home_dir", "Heimatverzeichnis: %w");
  ("err.mkdir_systemd_user", "mkdir systemd user: %w");
  ("err.write_service", "Service schreiben: %w");
  ("err.write_timer", "Timer schreiben: %w");
  ("err.crontab_l", "crontab -l: %w");
  ("err.crontab", "crontab: %w");
  ("err.crontab_manual", "crontab nicht im PATH und System-Crontab nicht lesbar (%v); manuell hinzufügen: %s");
  ("err.write_cron_need_root", "Schreiben %s: %w (root nötig?); manuell hinzufügen: %s");
  ("err.write_path", "Schreiben %s: %w");
  ("err.schtasks_delete", "schtasks delete: %w (Ausgabe: %s)");
  ("err.remove_cron", "Cron-Eintrag entfernen: %w");
  ("err.retention_local", "Retention (lokal): %w");
  ("err.retention_remote", "Retention (Remote): %w");
  ("err.create_backup_dir", "Backup-Verzeichnis anlegen: %w");
  ("err.zip_db", "ZIP %s: %w");
  ("err.dump_db", "Dump %s: %w");
  ("err.zip_user_block", "ZIP %s (Benutzerblock): %w");
  ("err.rename_sav", "Vorhandene Datei nach .sav umbenennen: %w");
  ("err.tls_dial", "TLS-Verbindung: %w");
  ("err.dial", "Verbindung: %w");
  ("err.starttls", "STARTTLS: %w");
  ("log.debug.hardware_id", "Hardware-ID: %d");
  ("log.warn.user_different_passwords", "Benutzer %s: unterschiedliche Passwörter pro Host, nutze erstes")
]%string.

Definition en : list (string * string) := [
  ("header.version", "start: Version %s");
  ("header.executable", "start: Executable %s");
  ("header.arguments", "start: Arguments %v");
  ("usage.title", "MySQL/MariaDB Backup – configured via config.json (janmz/sconfig).");
  ("usage.usage", "Usage: mysqlbackup [options]");
  ("usage.one_action", "Options (only one action per run):");
  ("usage.config", "-config <path>");
  ("usage.config_desc", "Path to JSON config (default: current dir or home)");
  ("usage.verbose", "-v, -verbose");
  ("usage.verbose_desc", "Verbose output with [DEBUG], including all exec calls and their output");
  ("usage.init", "-init");
  ("usage.init_desc", "Create jobs (Task Scheduler / systemd timer)");
  ("usage.cleanconfig", "-cleanconfig");
  ("usage.cleanconfig_desc", "Write config file with plaintext passwords");
  ("usage.remove", "-remove");
  ("usage.remove_desc", "Remove jobs");
  ("usage.status", "-status");
  ("usage.status_desc", "Check config, list backup files and job setting");
  ("usage.backup", "-backup");
  ("usage.backup_desc", "Run backup (invoked by jobs)");
  ("usage.restore", "-restore");
  ("usage.restore_desc", "Restore from latest backup (optional: YYYYMMDD as last argument)");
  ("usage.restorefull", "-restorefull");
  ("usage.restorefull_desc", "Full restore: data->data.old, backup->data, then SQL import (optional YYYYMMDD as last argument)");
  ("usage.getfile", "-getfile <filename>");
  ("usage.getfile_desc", "Download ZIP backup file(s) from remote (decrypt if needed) to current directory.");
  ("usage.getfile_wildcards", "Filename may contain wildcards (*, ?), evaluated on remote; no paths.");
  ("usage.help", "-h, -help");
  ("usage.help_desc", "Show this overview");
  ("error.one_flag", "Specify only one action flag.");
  ("error.config", "Config: %v");
  ("error.init", "init: %v");
  ("error.cleanconfig", "cleanconfig: %v");
  ("error.remove", "remove: %v");
  ("error.restoredate_requires_restore", "A trailing date argument is only allowed with -restore or -restorefull.");
  ("error.restore_too_many_args", "Too many positional arguments. At most one YYYYMMDD date is allowed.");
  ("error.restoredate_format", "date must be YYYYMMDD: %v");
  ("error.restore_select", "restore: backup selection: %v");
  ("error.restore_no_backup_found", "restore: no matching backup found.");
  ("error.restorefull", "restorefull: %v");
  ("error.restore", "restore: %v");
  ("error.getfile_no_path", "getfile: filename must not contain paths (base name only, e.g. mysql_backup_*.zip)");
  ("error.workdir", "Working directory: %v");
  ("error.getfile", "getfile: %v");
  ("msg.jobs_created", "Jobs created. Nightly run: --backup -config %s");
  ("msg.cleanconfig_done", "Config written with plaintext passwords: %s");
  ("msg.jobs_removed", "Jobs removed.");
  ("msg.no_job", "No job configured. Use --init to create one.");
  ("msg.no_backups", "No backup files found.");
  ("msg.saved", "Saved: %s");
  ("msg.files_count", "%d file(s)");
  ("section.config", "=== Config ===");
  ("section.config_file", "Config file: %s");
  ("section.log_file", "Log file: %s");
  ("section.mysql", "MySQL: %s %d");
  ("section.backup_dir", "Backup directory: %s");
  ("section.retention", "Retention: daily %d weekly %d monthly %d yearly %d");
  ("section.start_time", "Start time (job): %s");
  ("section.remote", "Remote: %s @ %s");
  ("section.job", "=== Job ===");
  ("section.backups", "=== Backups (local directory) ===");
  ("section.backup_dir_error", "Backup directory: %v");
  ("retention.daily", "daily");
  ("retention.weekly", "weekly");
  ("retention.monthly", "monthly");
  ("retention.yearly", "yearly");
  ("status.summe", "Total:");
  ("job.windows", "Windows Task: %s (daily at %s)
Command: %s --backup -config %s");
  ("job.systemd", "systemd timer: %s (daily at %s)
Command: %s --backup -config %s");
  ("job.cron", "Cron (daily at %s)
Command: %s --backup -config %s");
  ("log.start.executable", "start: Executable %s");
  ("log.start.version", "start: Version %s");
  ("log.start.arguments", "start: Arguments %v");
  ("log.debug.loadclean", "[DEBUG] LoadClean: reading config and writing back with plaintext passwords (sconfig debug on)");
  ("log.warn.schedule_ensure", "schedule ensure: %v");
  ("log.warn.schedule_platform", "Automatic job setup only on Windows/Linux; run --init manually if needed.");
  ("log.error.backup_failed", "backup failed: %v");
  ("log.msg.backup_ok", "backup completed successfully");
  ("log.msg.restore_ok", "restore completed successfully");
  ("log.warn.retention_delete", "retention delete %s: %v");
  ("log.msg.deleted_old_backup", "deleted old %s backup %s");
  ("log.warn.disk_check", "disk available check: %v");
  ("log.msg.mysql_port_skip", "MySQL port %s:%d open, skipping start (mysql CLI maybe not in PATH?)");
  ("log.msg.mysql_starting", "MySQL not reachable, starting with: %s");
  ("log.msg.mysql_started", "MySQL started");
  ("log.msg.no_user_dbs", "no user databases to backup");
  ("log.warn.export_users", "export users failed (mysqlpump/mysqldump --system=users): %v; continuing without user grants in dumps");
  ("log.warn.retention", "retention: %v");
  ("log.msg.mysql_stopping", "stopping MySQL (was started by us): %s");
  ("log.warn.mysql_stop", "MySQL stop: %v");
  ("log.msg.mysql_start_background", "MySQL start command started in background (waiting for port in waitForMySQL)");
  ("log.msg.mysql_lifecycle", "mysql lifecycle: %s");
  ("log.warn.email", "sending error email: %v");
  ("log.warn.sftp_mkdir", "sftp mkdir %s: %v");
  ("log.msg.remote_aes_on", "Remote: AES encryption enabled");
  ("log.msg.remote_aes_off", "Remote: no AES encryption");
  ("log.msg.uploaded", "uploaded %s to remote");
  ("log.warn.remote_remove", "remote remove %s: %v");
  ("log.msg.removed_remote", "removed from remote (no longer local): %s");
  ("log.msg.remote_decrypt", "Remote file decrypted: %s");
  ("log.warn.powershell_settings", "PowerShell task settings (WakeToRun, StartWhenAvailable, TimeLimit): %v");
  ("log.msg.windows_task_settings", "Windows task settings applied");
  ("log.warn.powershell_workdir", "PowerShell set task WorkingDirectory: %v");
  ("log.msg.windows_task_workdir", "Windows task WorkingDirectory set to config dir");
  ("log.msg.windows_task_uptodate", "Windows task %s already up to date");
  ("log.msg.windows_task_updating", "Windows task paths changed, updating task");
  ("log.msg.windows_task_created", "Windows task %s created (daily at %s)");
  ("log.msg.systemd_exists", "systemd timer %s already exists");
  ("log.warn.systemd_fallback", "systemd user session not available (e.g. no D-Bus), using cron as fallback");
  ("log.msg.systemd_created", "systemd timer and service created in %s; run: systemctl --user daemon-reload && systemctl --user enable --now %s.timer");
  ("log.msg.cron_present", "cron entry for mysqlbackup already present");
  ("log.msg.cron_added", "cron entry added (daily %02d:%02d); remove with: crontab -e");
  ("log.msg.cron_present_file", "cron entry for mysqlbackup already present in %s");
  ("log.msg.cron_added_file", "cron entry added to %s (daily %02d:%02d); remove with: --remove");
  ("log.msg.users_found", "found %d user(s): %s");
  ("log.msg.dumped_db", "dumped database %s");
  ("log.msg.created_zip", "created %s");
  ("log.msg.restore_zip", "importing backup zip: %s");
  ("log.msg.restore_done", "restore finished (%d ZIP file(s) imported)");
  ("log.msg.restorefull_rename", "full restore: renaming %s -> %s");
  ("log.msg.restorefull_copy", "full restore: copying %s -> %s");
  ("log.warn.recover_sav_read", "recover .sav: read dir: %v");
  ("log.warn.recover_sav_rename", "recover .sav: rename %s -> %s: %v");
  ("log.msg.recovered", "recovered %s from .sav");
  ("log.msg.recovered_larger", "recovered %s from .sav (kept larger)");
  ("log.warn.recover_sav_remove", "recover .sav: remove %s: %v");
  ("log.warn.recover_sav_rename2", "recover .sav: rename %s -> %s: %v");
  ("log.msg.removed_sav", "removed obsolete .sav %s (kept .zip)");
  ("log.warn.restore_sav", "restore from .sav after failure: %v");
  ("log.warn.restored_sav", "restored %s from .sav after failure");
  ("email.subject.disk", "MySQL Backup: insufficient disk space");
  ("email.subject.mysql_start", "MySQL Backup: MySQL start failed");
  ("email.subject.mysql_timeout", "MySQL Backup: MySQL not reachable after start");
  ("email.subject.mysql_server", "MySQL Backup: server not reachable");
  ("email.subject.list_dbs", "MySQL Backup: list databases failed");
  ("email.subject.dump", "MySQL Backup: dump failed");
  ("email.subject.remote", "MySQL Backup: remote sync failed");
  ("email.body.mysql_timeout", "Timeout waiting for MySQL");
  ("err.mysql_reachable", "mysql reachable: %w (output: %s)");
  ("err.mysql_version", "mysql version: %w (output: %s)");
  ("err.show_databases", "show databases: %w (output: %s)");
  ("err.mysqlpump_users", "mysqlpump --users: %w (output: %s)");
  ("err.mysqldump_system_users", "mysqldump --system=users: %w (output: %s)");
  ("err.mysql_user_list", "mysql user list: %w (output: %s)");
  ("err.scan_user_list", "scan user list: %w");
  ("err.mysqldump_db", "mysqldump %s: %w (output: %s)");
  ("err.mysql_import", "mysql import: %w (output: %s)");
  ("err.user_differing_password", "user %s @ %s: differing password hashes, using first");
  ("err.restore_no_backups", "no backup files selected for restore");
  ("err.restore_zip", "restore from %s failed: %w");
  ("err.restore_sql_missing", "ZIP contains no SQL file: %s");
  ("err.restorefull_data_dir", "restorefull: mysql_data_dir is not set");
  ("err.restorefull_backup_dir", "restorefull: invalid mysql_backup_dir: %w");
  ("err.restorefull_data_old_exists", "restorefull: %s already exists");
  ("err.restorefull_data_old_stat", "restorefull: checking data.old: %w");
  ("err.restorefull_data_dir_missing", "restorefull: data directory missing or unreadable: %w");
  ("err.restorefull_stop_required", "restorefull: MySQL is running but mysql_stop_cmd is not set");
  ("err.restorefull_stop", "restorefull: stopping MySQL: %w");
  ("err.restorefull_stop_timeout", "restorefull: timeout while stopping MySQL");
  ("err.restorefull_rename", "restorefull: renaming data to data.old: %w");
  ("err.restorefull_copy", "restorefull: copying backup to data: %w");
  ("err.restorefull_start_required", "restorefull: mysql_start_cmd is not set");
  ("err.restorefull_start", "restorefull: starting MySQL: %w");
  ("err.restorefull_start_timeout", "restorefull: timeout while starting MySQL");
  ("err.disk_space", "insufficient disk space: %d bytes available, need at least %d");
  ("err.mysql_start", "mysql start: %w");
  ("err.mysql_timeout", "mysql not reachable after start (timeout)");
  ("err.mysql_server", "mysql server: %w");
  ("err.list_databases", "list databases: %w");
  ("err.backup", "backup: %w");
  ("err.remote_sync", "remote sync: %w");
  ("err.start_cmd", "start command: %w");
  ("err.timeout_batch", "timeout (batch hung?): %w (output: %s)");
  ("err.sconfig_hw", "sconfig hardware id: %w");
  ("err.sconfig_load", "sconfig load: %w");
  ("err.sconfig_clean", "sconfig load clean: %w");
  ("err.list_local", "list local: %w");
  ("err.ssh_dial", "ssh dial: %w");
  ("err.sftp", "sftp: %w");
  ("err.list_remote", "list remote: %w");
  ("err.upload", "upload %s: %w");
  ("err.rand_salt", "rand salt: %w");
  ("err.rand_nonce", "rand nonce: %w");
  ("err.read_key_file", "read key file: %w");
  ("err.parse_private_key", "parse private key: %w");
  ("err.no_ssh_auth", "no SSH auth: set remote_ssh_key_file or remote_ssh_password");
  ("err.remote_not_configured", "remote not configured");
  ("err.getfile_no_path", "filename must not contain paths (base name only, e.g. mysql_backup_*.zip)");
  ("err.remote_list", "list remote: %w");
  ("err.pattern", "pattern: %w");
  ("err.no_remote_match", "no file on remote matches: %s");
  ("err.only_backup_zip", "only backup ZIP files (mysql_backup_YYYYMMDD_*.zip) allowed");
  ("err.file_failed", "%s: %w");
  ("err.remote_open", "open remote: %w");
  ("err.remote_read", "read remote: %w");
  ("err.cipher", "cipher: %w");
  ("err.local_create", "create local: %w");
  ("err.decrypt_write", "decrypt/write: %w");
  ("err.copy", "copy: %w");
  ("err.task_cmd_not_found", "task command not found in schtasks output");
  ("err.executable_path", "executable path: %w");
  ("err.schtasks_create", "schtasks create: %w (output: %s)");
  ("err.home_dir", "home dir: %w");
  ("err.mkdir_systemd_user", "mkdir systemd user: %w");
  ("err.write_service", "write service: %w");
  ("err.write_timer", "write timer: %w");
  ("err.crontab_l", "crontab -l: %w");
  ("err.crontab", "crontab: %w");
  ("err.crontab_manual", "crontab not in PATH and could not read system crontab (%v); add manually: %s");
  ("err.write_cron_need_root", "write %s: %w (need root?); add manually: %s");
  ("err.write_path", "write %s: %w");
  ("err.schtasks_delete", "schtasks delete: %w (output: %s)");
  ("err.remove_cron", "remove cron entry: %w");
  ("err.retention_local", "retention local: %w");
  ("err.retention_remote", "retention remote: %w");
  ("err.create_backup_dir", "create backup dir: %w");
  ("err.zip_db", "zip %s: %w");
  ("err.dump_db", "dump %s: %w");
  ("err.zip_user_block", "zip %s (user block): %w");
  ("err.rename_sav", "rename existing to .sav: %w");
  ("err.tls_dial", "tls dial: %w");
  ("err.dial", "dial: %w");
  ("err.starttls", "starttls: %w");
  ("log.debug.hardware_id", "Hardware ID: %d");
  ("log.warn.user_different_passwords", "user %s: different passwords per host, using first")
]%string.

Definition fr : list (string * string) := [
  ("header.version", "start: Version %s");
  ("header.executable", "start: Exécutable %s");
  ("header.arguments", "start: Arguments %v");
  ("usage.title", "MySQL/MariaDB Backup – configuré via config.json (janmz/sconfig).");
  ("usage.usage", "Utilisation : mysqlbackup [options]");
  ("usage.one_action", "Options (une seule action par exécution) :");
  ("usage.config", "-config <chemin>");
  ("usage.config_desc", "Chemin vers la config JSON (par défaut : répertoire courant ou home)");
  ("usage.verbose", "-v, -verbose");
  ("usage.verbose_desc", "Sortie détaillée avec [DEBUG], y compris tous les appels exec et leur sortie");
  ("usage.init", "-init");
  ("usage.init_desc", "Créer les tâches planifiées (Task Scheduler / timer systemd)");
  ("usage.cleanconfig", "-cleanconfig");
  ("usage.cleanconfig_desc", "Écrire le fichier de config avec mots de passe en clair");
  ("usage.remove", "-remove");
  ("usage.remove_desc", "Supprimer les tâches");
  ("usage.status", "-status");
  ("usage.status_desc", "Vérifier la config, lister les sauvegardes et le job");
  ("usage.backup", "-backup");
  ("usage.backup_desc", "Exécuter la sauvegarde (appelé par les jobs)");
  ("usage.restore", "-restore");
  ("usage.restore_desc", "Restaurer depuis la derniere sauvegarde (option: YYYYMMDD en dernier argument)");
  ("usage.restorefull", "-restorefull");
  ("usage.restorefull_desc", "Restauration complete : data->data.old, backup->data, puis import SQL (option YYYYMMDD en dernier argument)");
  ("usage.getfile", "-getfile <fichier>");
  ("usage.getfile_desc", "Télécharger le(s) fichier(s) ZIP de sauvegarde depuis le distant (déchiffrer si besoin) dans le répertoire courant.");
  ("usage.getfile_wildcards", "Le nom peut contenir des wildcards (*, ?), évalués côté distant ; pas de chemins.");
  ("usage.help", "-h, -help");
  ("usage.help_desc", "Afficher cette aide");
  ("error.one_flag", "Indiquer une seule option d'action.");
  ("error.config", "Config : %v");
  ("error.init", "init : %v");
  ("error.cleanconfig", "cleanconfig : %v");
  ("error.remove", "remove : %v");
  ("error.restoredate_requires_restore", "Un argument date final est autorise uniquement avec -restore ou -restorefull.");
  ("error.restore_too_many_args", "Trop d'arguments positionnels. Un seul YYYYMMDD optionnel est autorise.");
  ("error.restoredate_format", "la date doit etre YYYYMMDD : %v");
  ("error.restore_select", "restore : selection de sauvegarde : %v");
  ("error.restore_no_backup_found", "restore : aucune sauvegarde correspondante trouvee.");
  ("error.restorefull", "restorefull : %v");
  ("error.restore", "restore : %v");
  ("error.getfile_no_path", "getfile : le nom ne doit pas contenir de chemin (nom seul, ex. mysql_backup_*.zip)");
  ("error.workdir", "Répertoire de travail : %v");
  ("error.getfile", "getfile : %v");
  ("msg.jobs_created", "Tâches créées. Exécution nocturne : --backup -config %s");
  ("msg.cleanconfig_done", "Config écrite avec mots de passe en clair : %s");
  ("msg.jobs_removed", "Tâches supprimées.");
  ("msg.no_job", "Aucune tâche configurée. Utilisez --init pour en créer une.");
  ("msg.no_backups", "Aucun fichier de sauvegarde trouvé.");
  ("msg.saved", "Enregistré : %s");
  ("msg.files_count", "%d fichier(s)");
  ("section.config", "=== Config ===");
  ("section.config_file", "Fichier config : %s");
  ("section.log_file", "Fichier log : %s");
  ("section.mysql", "MySQL : %s %d");
  ("section.backup_dir", "Répertoire de sauvegarde : %s");
  ("section.retention", "Rétention : quotidien %d hebdo %d mensuel %d annuel %d");
  ("section.start_time", "Heure de début (job) : %s");
  ("section.remote", "Distant : %s @ %s");
  ("section.job", "=== Job ===");
  ("section.backups", "=== Sauvegardes (répertoire local) ===");
  ("section.backup_dir_error", "Répertoire de sauvegarde : %v");
  ("retention.daily", "quotidien");
  ("retention.weekly", "hebdomadaire");
  ("retention.monthly", "mensuel");
  ("retention.yearly", "annuel");
  ("status.summe", "Total :");
  ("job.windows", "Tâche Windows : %s (quotidien à %s)
Commande : %s --backup -config %s");
  ("job.systemd", "Timer systemd : %s (quotidien à %s)
Commande : %s --backup -config %s");
  ("job.cron", "Cron (quotidien à %s)
Commande : %s --backup -config %s");
  ("log.start.executable", "start: Exécutable %s");
  ("log.start.version", "start: Version %s");
  ("log.start.arguments", "start: Arguments %v");
  ("log.debug.loadclean", "[DEBUG] LoadClean: lecture config et réécriture avec mots de passe en clair (sconfig debug on)");
  ("log.warn.schedule_ensure", "schedule ensure: %v");
  ("log.warn.schedule_platform", "Configuration des tâches automatique uniquement sous Windows/Linux; exécuter --init manuellement si besoin.");
  ("log.error.backup_failed", "échec backup: %v");
  ("log.msg.backup_ok", "backup terminé avec succès");
  ("log.msg.restore_ok", "restauration terminee avec succes");
  ("log.warn.retention_delete", "retention delete %s: %v");
  ("log.msg.deleted_old_backup", "supprimé (ancien): %s backup %s");
  ("log.warn.disk_check", "vérification espace disque: %v");
  ("log.msg.mysql_port_skip", "Port MySQL %s:%d ouvert, ignore le démarrage (mysql CLI peut-être pas dans PATH?)");
  ("log.msg.mysql_starting", "MySQL non joignable, démarrage avec: %s");
  ("log.msg.mysql_started", "MySQL démarré");
  ("log.msg.no_user_dbs", "Aucune base utilisateur à sauvegarder.");
  ("log.warn.export_users", "export utilisateurs échoué (mysqlpump/mysqldump --system=users): %v; poursuite sans droits utilisateur dans les dumps");
  ("log.warn.retention", "retention: %v");
  ("log.msg.mysql_stopping", "Arrêt MySQL (démarré par nous): %s");
  ("log.warn.mysql_stop", "MySQL stop: %v");
  ("log.msg.mysql_start_background", "Commande de démarrage MySQL lancée en arrière-plan (attente du port dans waitForMySQL)");
  ("log.msg.mysql_lifecycle", "mysql lifecycle: %s");
  ("log.warn.email", "envoi email d'erreur: %v");
  ("log.warn.sftp_mkdir", "sftp mkdir %s: %v");
  ("log.msg.remote_aes_on", "Remote: chiffrement AES activé");
  ("log.msg.remote_aes_off", "Remote: pas de chiffrement AES");
  ("log.msg.uploaded", "envoyé %s vers remote");
  ("log.warn.remote_remove", "remote remove %s: %v");
  ("log.msg.removed_remote", "supprimé du remote (plus en local): %s");
  ("log.msg.remote_decrypt", "Fichier remote déchiffré: %s");
  ("log.warn.powershell_settings", "Paramètres tâche PowerShell (WakeToRun, StartWhenAvailable, TimeLimit): %v");
  ("log.msg.windows_task_settings", "Paramètres tâche Windows appliqués");
  ("log.warn.powershell_workdir", "PowerShell set task WorkingDirectory: %v");
  ("log.msg.windows_task_workdir", "WorkingDirectory de la tâche Windows définie sur le répertoire config");
  ("log.msg.windows_task_uptodate", "Tâche Windows %s déjà à jour");
  ("log.msg.windows_task_updating", "Chemins tâche Windows modifiés, mise à jour");
  ("log.msg.windows_task_created", "Tâche Windows %s créée (quotidien à %s)");
  ("log.msg.systemd_exists", "Timer systemd %s existe déjà");
  ("log.warn.systemd_fallback", "Session utilisateur systemd non disponible (ex. pas de D-Bus), utilisation de cron en repli");
  ("log.msg.systemd_created", "Timer et service systemd créés dans %s; exécuter: systemctl --user daemon-reload && systemctl --user enable --now %s.timer");
  ("log.msg.cron_present", "Entrée cron pour mysqlbackup déjà présente");
  ("log.msg.cron_added", "Entrée cron ajoutée (quotidien %02d:%02d); supprimer avec: crontab -e");
  ("log.msg.cron_present_file", "Entrée cron pour mysqlbackup déjà présente dans %s");
  ("log.msg.cron_added_file", "Entrée cron ajoutée à %s (quotidien %02d:%02d); supprimer avec: --remove");
  ("log.msg.users_found", "%d utilisateur(s) trouvé(s): %s");
  ("log.msg.dumped_db", "Base dumpée: %s");
  ("log.msg.created_zip", "créé: %s");
  ("log.msg.restore_zip", "import du zip de sauvegarde : %s");
  ("log.msg.restore_done", "restauration terminee (%d fichier(s) ZIP importe(s))");
  ("log.msg.restorefull_rename", "restauration complete : renommage %s -> %s");
  ("log.msg.restorefull_copy", "restauration complete : copie %s -> %s");
  ("log.warn.recover_sav_read", "recover .sav: lecture répertoire: %v");
  ("log.warn.recover_sav_rename", "recover .sav: renommer %s -> %s: %v");
  ("log.msg.recovered", "récupéré: %s depuis .sav");
  ("log.msg.recovered_larger", "récupéré: %s depuis .sav (conservé le plus grand)");
  ("log.warn.recover_sav_remove", "recover .sav: supprimer %s: %v");
  ("log.warn.recover_sav_rename2", "recover .sav: renommer %s -> %s: %v");
  ("log.msg.removed_sav", ".sav obsolète %s supprimé (conservé .zip)");
  ("log.warn.restore_sav", "Restauration depuis .sav après échec: %v");
  ("log.warn.restored_sav", "%s restauré depuis .sav après échec");
  ("email.subject.disk", "MySQL Backup: espace disque insuffisant");
  ("email.subject.mysql_start", "MySQL Backup: démarrage MySQL échoué");
  ("email.subject.mysql_timeout", "MySQL Backup: MySQL non joignable après démarrage");
  ("email.subject.mysql_server", "MySQL Backup: serveur non joignable");
  ("email.subject.list_dbs", "MySQL Backup: liste des bases échouée");
  ("email.subject.dump", "MySQL Backup: dump échoué");
  ("email.subject.remote", "MySQL Backup: synchronisation remote échouée");
  ("email.body.mysql_timeout", "Délai d'attente de MySQL dépassé");
  ("err.mysql_reachable", "MySQL joignable: %w (sortie: %s)");
  ("err.mysql_version", "version MySQL: %w (sortie: %s)");
  ("err.show_databases", "SHOW DATABASES: %w (sortie: %s)");
  ("err.mysqlpump_users", "mysqlpump --users: %w (sortie: %s)");
  ("err.mysqldump_system_users", "mysqldump --system=users: %w (sortie: %s)");
  ("err.mysql_user_list", "liste utilisateurs MySQL: %w (sortie: %s)");
  ("err.scan_user_list", "lecture liste utilisateurs: %w");
  ("err.mysqldump_db", "mysqldump %s: %w (sortie: %s)");
  ("err.mysql_import", "import mysql: %w (sortie: %s)");
  ("err.user_differing_password", "utilisateur %s @ %s: hashes de mot de passe différents, utilisation du premier");
  ("err.restore_no_backups", "aucun fichier de sauvegarde selectionne pour la restauration");
  ("err.restore_zip", "restauration depuis %s echouee : %w");
  ("err.restore_sql_missing", "le ZIP ne contient aucun fichier SQL : %s");
  ("err.restorefull_data_dir", "restorefull : mysql_data_dir n'est pas defini");
  ("err.restorefull_backup_dir", "restorefull : mysql_backup_dir invalide : %w");
  ("err.restorefull_data_old_exists", "restorefull : %s existe deja");
  ("err.restorefull_data_old_stat", "restorefull : verification data.old : %w");
  ("err.restorefull_data_dir_missing", "restorefull : dossier data absent ou illisible : %w");
  ("err.restorefull_stop_required", "restorefull : MySQL est actif mais mysql_stop_cmd n'est pas defini");
  ("err.restorefull_stop", "restorefull : arret MySQL : %w");
  ("err.restorefull_stop_timeout", "restorefull : timeout pendant l'arret de MySQL");
  ("err.restorefull_rename", "restorefull : renommage data vers data.old : %w");
  ("err.restorefull_copy", "restorefull : copie backup vers data : %w");
  ("err.restorefull_start_required", "restorefull : mysql_start_cmd n'est pas defini");
  ("err.restorefull_start", "restorefull : demarrage MySQL : %w");
  ("err.restorefull_start_timeout", "restorefull : timeout pendant le demarrage de MySQL");
  ("err.disk_space", "espace disque insuffisant: %d octets disponibles, au moins %d requis");
  ("err.mysql_start", "démarrage MySQL: %w");
  ("err.mysql_timeout", "MySQL non joignable après démarrage (délai dépassé)");
  ("err.mysql_server", "serveur MySQL: %w");
  ("err.list_databases", "liste des bases: %w");
  ("err.backup", "backup: %w");
  ("err.remote_sync", "sync remote: %w");
  ("err.start_cmd", "commande de démarrage: %w");
  ("err.timeout_batch", "délai dépassé (batch bloqué?): %w (sortie: %s)");
  ("err.sconfig_hw", "sconfig hardware id: %w");
  ("err.sconfig_load", "sconfig load: %w");
  ("err.sconfig_clean", "sconfig load clean: %w");
  ("err.list_local", "liste local: %w");
  ("err.ssh_dial", "connexion SSH: %w");
  ("err.sftp", "sftp: %w");
  ("err.list_remote", "liste remote: %w");
  ("err.upload", "envoi %s: %w");
  ("err.rand_salt", "sel aléatoire: %w");
  ("err.rand_nonce", "nonce aléatoire: %w");
  ("err.read_key_file", "lecture fichier clé: %w");
  ("err.parse_private_key", "parser clé privée: %w");
  ("err.no_ssh_auth", "pas d'auth SSH: définir remote_ssh_key_file ou remote_ssh_password");
  ("err.remote_not_configured", "remote non configuré");
  ("err.getfile_no_path", "le nom de fichier ne doit pas contenir de chemin (nom seul, ex. mysql_backup_*.zip)");
  ("err.remote_list", "liste remote: %w");
  ("err.pattern", "motif: %w");
  ("err.no_remote_match", "aucun fichier sur remote ne correspond à: %s");
  ("err.only_backup_zip", "seuls les ZIP de backup (mysql_backup_YYYYMMDD_*.zip) autorisés");
  ("err.file_failed", "%s: %w");
  ("err.remote_open", "ouvrir remote: %w");
  ("err.remote_read", "lire remote: %w");
  ("err.cipher", "cipher: %w");
  ("err.local_create", "créer local: %w");
  ("err.decrypt_write", "déchiffrer/écrire: %w");
  ("err.copy", "copie: %w");
  ("err.task_cmd_not_found", "commande de tâche introuvable dans la sortie schtasks");
  ("err.executable_path", "chemin exécutable: %w");
  ("err.schtasks_create", "schtasks create: %w (sortie: %s)");
  ("err.home_dir", "répertoire home: %w");
  ("err.mkdir_systemd_user", "mkdir systemd user: %w");
  ("err.write_service", "écrire service: %w");
  ("err.write_timer", "écrire timer: %w");
  ("err.crontab_l", "crontab -l: %w");
  ("err.crontab", "crontab: %w");
  ("err.crontab_manual", "crontab pas dans PATH et lecture crontab système impossible (%v); ajouter manuellement: %s");
  ("err.write_cron_need_root", "écrire %s: %w (root requis?); ajouter manuellement: %s");
  ("err.write_path", "écrire %s: %w");
  ("err.schtasks_delete", "schtasks delete: %w (sortie: %s)");
  ("err.remove_cron", "supprimer entrée cron: %w");
  ("err.retention_local", "retention (local): %w");
  ("err.retention_remote", "retention (remote): %w");
  ("err.create_backup_dir", "créer répertoire backup: %w");
  ("err.zip_db", "zip %s: %w");
  ("err.dump_db", "dump %s: %w");
  ("err.zip_user_block", "zip %s (bloc utilisateur): %w");
  ("err.rename_sav", "renommer existant en .sav: %w");
  ("err.tls_dial", "connexion TLS: %w");
  ("err.dial", "connexion: %w");
  ("err.starttls", "STARTTLS: %w");
  ("log.debug.hardware_id", "ID matériel: %d");
  ("log.warn.user_different_passwords", "utilisateur %s: mots de passe différents par host, utilisation du premier")
]%string.

Definition nl : list (string * string) := [
  ("header.version", "start: Versie %s");
  ("header.executable", "start: Uitvoerbaar %s");
  ("header.arguments", "start: Argumenten %v");
  ("usage.title", "MySQL/MariaDB Backup – geconfigureerd via config.json (janmz/sconfig).");
  ("usage.usage", "Gebruik: mysqlbackup [opties]");
  ("usage.one_action", "Opties (slechts één actie per run):");
  ("usage.config", "-config <pad>");
  ("usage.config_desc", "Pad naar JSON-config (standaard: huidige map of home)");
  ("usage.verbose", "-v, -verbose");
  ("usage.verbose_desc", "Uitgebreide uitvoer met [DEBUG], inclusief alle exec-aanroepen en hun uitvoer");
  ("usage.init", "-init");
  ("usage.init_desc", "Jobs aanmaken (Task Scheduler / systemd-timer)");
  ("usage.cleanconfig", "-cleanconfig");
  ("usage.cleanconfig_desc", "Config-bestand met wachtwoorden in platte tekst schrijven");
  ("usage.remove", "-remove");
  ("usage.remove_desc", "Jobs verwijderen");
  ("usage.status", "-status");
  ("usage.status_desc", "Config controleren, back-upbestanden en job tonen");
  ("usage.backup", "-backup");
  ("usage.backup_desc", "Back-up uitvoeren (wordt door jobs aangeroepen)");
  ("usage.restore", "-restore");
  ("usage.restore_desc", "Herstellen vanaf laatste back-up (optioneel: YYYYMMDD als laatste argument)");
  ("usage.restorefull", "-restorefull");
  ("usage.restorefull_desc", "Volledige restore: data->data.old, backup->data, daarna SQL-import (optioneel YYYYMMDD als laatste argument)");
  ("usage.getfile", "-getfile <bestandsnaam>");
  ("usage.getfile_desc", "ZIP-back-upbestand(en) van remote ophalen (indien nodig ontcijferen) naar huidige map.");
  ("usage.getfile_wildcards", "Bestandsnaam mag wildcards (*, ?) bevatten, wordt op remote geëvalueerd; geen paden.");
  ("usage.help", "-h, -help");
  ("usage.help_desc", "Deze overzicht tonen");
  ("error.one_flag", "Geef slechts één actie-flag op.");
  ("error.config", "Config: %v");
  ("error.init", "init: %v");
  ("error.cleanconfig", "cleanconfig: %v");
  ("error.remove", "remove: %v");
  ("error.restoredate_requires_restore", "Een datum als laatste argument is alleen toegestaan met -restore of -restorefull.");
  ("error.restore_too_many_args", "Te veel positionele argumenten. Maximaal een optionele YYYYMMDD-datum is toegestaan.");
  ("error.restoredate_format", "datum moet YYYYMMDD zijn: %v");
  ("error.restore_select", "restore: back-upselectie: %v");
  ("error.restore_no_backup_found", "restore: geen passende back-up gevonden.");
  ("error.restorefull", "restorefull: %v");
  ("error.restore", "restore: %v");
  ("error.getfile_no_path", "getfile: bestandsnaam mag geen paden bevatten (alleen basisnaam, bijv. mysql_backup_*.zip)");
  ("error.workdir", "Werkmap: %v");
  ("error.getfile", "getfile: %v");
  ("msg.jobs_created", "Jobs aangemaakt. Nachtelijke run: --backup -config %s");
  ("msg.cleanconfig_done", "Config geschreven met wachtwoorden in platte tekst: %s");
  ("msg.jobs_removed", "Jobs verwijderd.");
  ("msg.no_job", "Geen job geconfigureerd. Gebruik --init om er een aan te maken.");
  ("msg.no_backups", "Geen back-upbestanden gevonden.");
  ("msg.saved", "Opgeslagen: %s");
  ("msg.files_count", "%d bestand(en)");
  ("section.config", "=== Config ===");
  ("section.config_file", "Config-bestand: %s");
  ("section.log_file", "Logbestand: %s");
  ("section.mysql", "MySQL: %s %d");
  ("section.backup_dir", "Back-upmap: %s");
  ("section.retention", "Retentie: dagelijks %d wekelijks %d maandelijks %d jaarlijks %d");
  ("section.start_time", "Starttijd (job): %s");
  ("section.remote", "Remote: %s @ %s");
  ("section.job", "=== Job ===");
  ("section.backups", "=== Back-ups (lokale map) ===");
  ("section.backup_dir_error", "Back-upmap: %v");
  ("retention.daily", "dagelijkse");
  ("retention.weekly", "wekelijkse");
  ("retention.monthly", "maandelijkse");
  ("retention.yearly", "jaarlijkse");
  ("status.summe", "Totaal:");
  ("job.windows", "Windows-taak: %s (dagelijks om %s)
Opdracht: %s --backup -config %s");
  ("job.systemd", "systemd-timer: %s (dagelijks om %s)
Opdracht: %s --backup -config %s");
  ("job.cron", "Cron (dagelijks om %s)
Opdracht: %s --backup -config %s");
  ("log.start.executable", "start: Uitvoerbaar %s");
  ("log.start.version", "start: Versie %s");
  ("log.start.arguments", "start: Argumenten %v");
  ("log.debug.loadclean", "[DEBUG] LoadClean: config lezen en terugschrijven met wachtwoorden in platte tekst (sconfig debug aan)");
  ("log.warn.schedule_ensure", "schedule ensure: %v");
  ("log.warn.schedule_platform", "Automatische jobconfiguratie alleen op Windows/Linux; voer indien nodig --init handmatig uit.");
  ("log.error.backup_failed", "backup mislukt: %v");
  ("log.msg.backup_ok", "backup succesvol voltooid");
  ("log.msg.restore_ok", "restore succesvol voltooid");
  ("log.warn.retention_delete", "retention delete %s: %v");
  ("log.msg.deleted_old_backup", "verwijderd (oud): %s backup %s");
  ("log.warn.disk_check", "controle vrije schijfruimte: %v");
  ("log.msg.mysql_port_skip", "MySQL-poort %s:%d open, start overslaan (mysql-CLI misschien niet in PATH?)");
  ("log.msg.mysql_starting", "MySQL niet bereikbaar, starten met: %s");
  ("log.msg.mysql_started", "MySQL gestart");
  ("log.msg.no_user_dbs", "Geen gebruikersdatabanken om te back-uppen.");
  ("log.warn.export_users", "export gebruikers mislukt (mysqlpump/mysqldump --system=users): %v; doorgaan zonder gebruikersrechten in dumps");
  ("log.warn.retention", "retention: %v");
  ("log.msg.mysql_stopping", "MySQL stoppen (was door ons gestart): %s");
  ("log.warn.mysql_stop", "MySQL stop: %v");
  ("log.msg.mysql_start_background", "MySQL-startopdracht in achtergrond gestart (wachten op poort in waitForMySQL)");
  ("log.msg.mysql_lifecycle", "mysql lifecycle: %s");
  ("log.warn.email", "fout-e-mail verzenden: %v");
  ("log.warn.sftp_mkdir", "sftp mkdir %s: %v");
  ("log.msg.remote_aes_on", "Remote: AES-versleuteling actief");
  ("log.msg.remote_aes_off", "Remote: geen AES-versleuteling");
  ("log.msg.uploaded", "geüpload %s naar remote");
  ("log.warn.remote_remove", "remote remove %s: %v");
  ("log.msg.removed_remote", "verwijderd van remote (niet meer lokaal): %s");
  ("log.msg.remote_decrypt", "Remote-bestand gedecrypt: %s");
  ("log.warn.powershell_settings", "PowerShell-taakinstellingen (WakeToRun, StartWhenAvailable, TimeLimit): %v");
  ("log.msg.windows_task_settings", "Windows-taakinstellingen toegepast");
  ("log.warn.powershell_workdir", "PowerShell set task WorkingDirectory: %v");
  ("log.msg.windows_task_workdir", "Windows-taak WorkingDirectory ingesteld op config-map");
  ("log.msg.windows_task_uptodate", "Windows-taak %s al up-to-date");
  ("log.msg.windows_task_updating", "Windows-taakpaden gewijzigd, taak bijwerken");
  ("log.msg.windows_task_created", "Windows-taak %s aangemaakt (dagelijks om %s)");
  ("log.msg.systemd_exists", "systemd-timer %s bestaat al");
  ("log.warn.systemd_fallback", "systemd-gebruikerssessie niet beschikbaar (bijv. geen D-Bus), cron als fallback");
  ("log.msg.systemd_created", "systemd-timer en service aangemaakt in %s; uitvoeren: systemctl --user daemon-reload && systemctl --user enable --now %s.timer");
  ("log.msg.cron_present", "cron-entry voor mysqlbackup al aanwezig");
  ("log.msg.cron_added", "cron-entry toegevoegd (dagelijks %02d:%02d); verwijderen met: crontab -e");
  ("log.msg.cron_present_file", "cron-entry voor mysqlbackup al aanwezig in %s");
  ("log.msg.cron_added_file", "cron-entry toegevoegd aan %s (dagelijks %02d:%02d); verwijderen met: --remove");
  ("log.msg.users_found", "%d gebruiker(s) gevonden: %s");
  ("log.msg.dumped_db", "Database gedumpt: %s");
  ("log.msg.created_zip", "aangemaakt: %s");
  ("log.msg.restore_zip", "back-up ZIP importeren: %s");
  ("log.msg.restore_done", "restore voltooid (%d ZIP-bestand(en) geimporteerd)");
  ("log.msg.restorefull_rename", "full restore: hernoemen %s -> %s");
  ("log.msg.restorefull_copy", "full restore: kopieren %s -> %s");
  ("log.warn.recover_sav_read", "recover .sav: map lezen: %v");
  ("log.warn.recover_sav_rename", "recover .sav: hernoemen %s -> %s: %v");
  ("log.msg.recovered", "hersteld: %s uit .sav");
  ("log.msg.recovered_larger", "hersteld: %s uit .sav (grotere behouden)");
  ("log.warn.recover_sav_remove", "recover .sav: verwijderen %s: %v");
  ("log.warn.recover_sav_rename2", "recover .sav: hernoemen %s -> %s: %v");
  ("log.msg.removed_sav", "verouderde .sav %s verwijderd (.zip behouden)");
  ("log.warn.restore_sav", "Herstellen uit .sav na fout: %v");
  ("log.warn.restored_sav", "%s hersteld uit .sav na fout");
  ("email.subject.disk", "MySQL Backup: onvoldoende schijfruimte");
  ("email.subject.mysql_start", "MySQL Backup: MySQL-start mislukt");
  ("email.subject.mysql_timeout", "MySQL Backup: MySQL niet bereikbaar na start");
  ("email.subject.mysql_server", "MySQL Backup: server niet bereikbaar");
  ("email.subject.list_dbs", "MySQL Backup: databases oplijsten mislukt");
  ("email.subject.dump", "MySQL Backup: dump mislukt");
  ("email.subject.remote", "MySQL Backup: remote-sync mislukt");
  ("email.body.mysql_timeout", "Timeout bij wachten op MySQL");
  ("err.mysql_reachable", "MySQL bereikbaar: %w (uitvoer: %s)");
  ("err.mysql_version", "MySQL-versie: %w (uitvoer: %s)");
  ("err.show_databases", "SHOW DATABASES: %w (uitvoer: %s)");
  ("err.mysqlpump_users", "mysqlpump --users: %w (uitvoer: %s)");
  ("err.mysqldump_system_users", "mysqldump --system=users: %w (uitvoer: %s)");
  ("err.mysql_user_list", "MySQL-gebruikerslijst: %w (uitvoer: %s)");
  ("err.scan_user_list", "gebruikerslijst scannen: %w");
  ("err.mysqldump_db", "mysqldump %s: %w (uitvoer: %s)");
  ("err.mysql_import", "mysql import: %w (uitvoer: %s)");
  ("err.user_differing_password", "gebruiker %s @ %s: verschillende wachtwoord-hashes, eerste wordt gebruikt");
  ("err.restore_no_backups", "geen back-upbestanden geselecteerd voor restore");
  ("err.restore_zip", "restore vanuit %s mislukt: %w");
  ("err.restore_sql_missing", "ZIP bevat geen SQL-bestand: %s");
  ("err.restorefull_data_dir", "restorefull: mysql_data_dir is niet ingesteld");
  ("err.restorefull_backup_dir", "restorefull: ongeldige mysql_backup_dir: %w");
  ("err.restorefull_data_old_exists", "restorefull: %s bestaat al");
  ("err.restorefull_data_old_stat", "restorefull: data.old controleren: %w");
  ("err.restorefull_data_dir_missing", "restorefull: data-map ontbreekt of is onleesbaar: %w");
  ("err.restorefull_stop_required", "restorefull: MySQL draait maar mysql_stop_cmd is niet ingesteld");
  ("err.restorefull_stop", "restorefull: MySQL stoppen: %w");
  ("err.restorefull_stop_timeout", "restorefull: timeout tijdens stoppen van MySQL");
  ("err.restorefull_rename", "restorefull: data naar data.old hernoemen: %w");
  ("err.restorefull_copy", "restorefull: backup naar data kopieren: %w");
  ("err.restorefull_start_required", "restorefull: mysql_start_cmd is niet ingesteld");
  ("err.restorefull_start", "restorefull: MySQL starten: %w");
  ("err.restorefull_start_timeout", "restorefull: timeout tijdens starten van MySQL");
  ("err.disk_space", "onvoldoende schijfruimte: %d bytes beschikbaar, minstens %d nodig");
  ("err.mysql_start", "MySQL-start: %w");
  ("err.mysql_timeout", "MySQL na start niet bereikbaar (timeout)");
  ("err.mysql_server", "MySQL-server: %w");
  ("err.list_databases", "databases oplijsten: %w");
  ("err.backup", "backup: %w");
  ("err.remote_sync", "remote-sync: %w");
  ("err.start_cmd", "startopdracht: %w");
  ("err.timeout_batch", "timeout (batch hangt?): %w (uitvoer: %s)");
  ("err.sconfig_hw", "sconfig hardware-id: %w");
  ("err.sconfig_load", "sconfig load: %w");
  ("err.sconfig_clean", "sconfig load clean: %w");
  ("err.list_local", "lokaal oplijsten: %w");
  ("err.ssh_dial", "SSH-verbinding: %w");
  ("err.sftp", "sftp: %w");
  ("err.list_remote", "remote oplijsten: %w");
  ("err.upload", "upload %s: %w");
  ("err.rand_salt", "willekeurig zout: %w");
  ("err.rand_nonce", "willekeurige nonce: %w");
  ("err.read_key_file", "sleutelbestand lezen: %w");
  ("err.parse_private_key", "private key parsen: %w");
  ("err.no_ssh_auth", "geen SSH-auth: stel remote_ssh_key_file of remote_ssh_password in");
  ("err.remote_not_configured", "remote niet geconfigureerd");
  ("err.getfile_no_path", "bestandsnaam mag geen paden bevatten (alleen basisnaam, bijv. mysql_backup_*.zip)");
  ("err.remote_list", "remote oplijsten: %w");
  ("err.pattern", "patroon: %w");
  ("err.no_remote_match", "geen bestand op remote komt overeen met: %s");
  ("err.only_backup_zip", "alleen backup-ZIP-bestanden (mysql_backup_YYYYMMDD_*.zip) toegestaan");
  ("err.file_failed", "%s: %w");
  ("err.remote_open", "remote openen: %w");
  ("err.remote_read", "remote lezen: %w");
  ("err.cipher", "cipher: %w");
  ("err.local_create", "lokaal aanmaken: %w");
  ("err.decrypt_write", "decrypten/schrijven: %w");
  ("err.copy", "kopiëren: %w");
  ("err.task_cmd_not_found", "taakopdracht niet gevonden in schtasks-uitvoer");
  ("err.executable_path", "uitvoerbaar pad: %w");
  ("err.schtasks_create", "schtasks create: %w (uitvoer: %s)");
  ("err.home_dir", "home-map: %w");
  ("err.mkdir_systemd_user", "mkdir systemd user: %w");
  ("err.write_service", "service schrijven: %w");
  ("err.write_timer", "timer schrijven: %w");
  ("err.crontab_l", "crontab -l: %w");
  ("err.crontab", "crontab: %w");
  ("err.crontab_manual", "crontab niet in PATH en systeem-crontab niet leesbaar (%v); handmatig toevoegen: %s");
  ("err.write_cron_need_root", "schrijven %s: %w (root nodig?); handmatig toevoegen: %s");
  ("err.write_path", "schrijven %s: %w");
  ("err.schtasks_delete", "schtasks delete: %w (uitvoer: %s)");
  ("err.remove_cron", "cron-entry verwijderen: %w");
  ("err.retention_local", "retention (lokaal): %w");
  ("err.retention_remote", "retention (remote): %w");
  ("err.create_backup_dir", "backup-map aanmaken: %w");
  ("err.zip_db", "zip %s: %w");
  ("err.dump_db", "dump %s: %w");
  ("err.zip_user_block", "zip %s (gebruikersblok): %w");
  ("err.rename_sav", "bestaand hernoemen naar .sav: %w");
  ("err.tls_dial", "TLS-verbinding: %w");
  ("err.dial", "verbinding: %w");
  ("err.starttls", "STARTTLS: %w");
  ("log.debug.hardware_id", "Hardware-ID: %d");
  ("log.warn.user_different_passwords", "gebruiker %s: verschillende wachtwoorden per host, eerste wordt gebruikt")
]%string.

End Translations.
