(* ===== verification/GoGlob.v ===== *)
(** * Go's filepath.Match on Unix.

    The translation follows the package: a pattern is cut into chunks at its stars, a
    chunk is matched at a position, and a star tries the later positions.  The loops over
    the pattern have its length as fuel.  [Match_glob] shows that on patterns of letters, stars and question marks
    it decides the declarative [glob]. *)

From S2P Require Import Prelude GoStrings Regexp GoPath World.
Import GoStrings World.

Module GoGlob.

Definition ErrBadPattern : err := Errorf "syntax error in pattern" [] None.

(** [utf8.DecodeRuneInString]: the code point, its width and the rest. *)
Definition DecodeRune (s : gostring) : Z * nat * gostring :=
  match Regexp.runes s with
  | [] => (Regexp.RuneError, O, [])
  | t :: _ => (Regexp.rune t, length (Regexp.bytes t), drop (length (Regexp.bytes t)) s)
  end.

(** A code point of a class, with its escape. *)
Definition getEsc (chunk : gostring) : err + (Z * gostring) :=
  let decode (chunk : gostring) :=
    let '(r, n, nchunk) := DecodeRune chunk in
    if (r =? Regexp.RuneError)%Z && (n =? 1)%nat then inl ErrBadPattern
    else if nchunk ==? [] then inl ErrBadPattern
    else inr (r, nchunk) in
  match chunk with
  | [] => inl ErrBadPattern
  | c :: chunk' =>
      if (c ==? "-"%char) || (c ==? "]"%char) then inl ErrBadPattern
      else if c ==? backslash then
        match chunk' with [] => inl ErrBadPattern | _ => decode chunk' end
      else decode chunk
  end.

(** The ranges of a class up to its closing bracket: whether the code point is in one,
    and the rest of the chunk. *)
Fixpoint ranges (fuel : nat) (chunk : gostring) (r : Z) (nrange : nat) (match_ : bool) : err + (bool * gostring) :=
  match fuel with
  | O => inl ErrBadPattern
  | S fuel' =>
      match chunk with
      | c :: chunk' =>
          if (c ==? "]"%char) && (0 <? nrange)%nat then inr (match_, chunk')
          else
            match getEsc chunk with
            | inl e => inl e
            | inr (lo, chunk1) =>
                let continue hi chunk2 :=
                  ranges fuel' chunk2 r (S nrange) (match_ || ((lo <=? r)%Z && (r <=? hi)%Z)) in
                match chunk1 with
                | c1 :: chunk1' =>
                    if c1 ==? "-"%char then
                      match getEsc chunk1' with
                      | inl e => inl e
                      | inr (hi, chunk2) => continue hi chunk2
                      end
                    else continue lo chunk1
                | [] => inl ErrBadPattern
                end
            end
      | [] => inl ErrBadPattern
      end
  end.

(** [matchChunk]: [None] for no match; [s] is [None] once the match has failed. *)
Fixpoint matchChunk_go (fuel : nat) (chunk : gostring) (s0 : option gostring) : err + option gostring :=
  match fuel with
  | O => match chunk with [] => inr s0 | _ => inl ErrBadPattern end
  | S fuel' =>
      match chunk with
      | [] => inr s0
      | c :: chunk' =>
          let s := match s0 with Some [] => None | _ => s0 end in
          let literal (c : ascii) (chunk' : gostring) :=
            matchChunk_go fuel' chunk'
              match s with
              | Some (d :: s') => if c ==? d then Some s' else None
              | _ => None
              end in
          if c ==? "["%char then
            let '(r, s') := match s with
                            | Some s => let '(r, _, s') := DecodeRune s in (r, Some s')
                            | None => (0%Z, None)
                            end in
            let '(negated, chunk1) := match chunk' with
                                      | d :: chunk'' => if d ==? "^"%char then (true, chunk'') else (false, chunk')
                                      | [] => (false, chunk')
                                      end in
            match ranges (S (length chunk1)) chunk1 r 0 false with
            | inl e => inl e
            | inr (match_, chunk2) =>
                matchChunk_go fuel' chunk2 (if Bool.eqb match_ negated then None else s')
            end
          else if c ==? "?"%char then
            matchChunk_go fuel' chunk'
              match s with
              | Some (d :: s') => if d ==? GoPath.slash then None else Some (snd (DecodeRune (d :: s')))
              | _ => None
              end
          else if c ==? backslash then
            match chunk' with
            | [] => inl ErrBadPattern
            | d :: chunk'' => literal d chunk''
            end
          else literal c chunk'
      end
  end.

Definition matchChunk (chunk s : gostring) : err + option gostring := matchChunk_go (length chunk) chunk (Some s).

(** The stars at the start of a pattern. *)
Fixpoint drop_stars (pattern : gostring) : bool * gostring :=
  match pattern with
  | c :: p' => if c ==? "*"%char then (true, snd (drop_stars p')) else (false, pattern)
  | [] => (false, [])
  end.

(** A chunk up to the next star outside of a class. *)
Fixpoint cut_chunk (inrange : bool) (p : gostring) : gostring * gostring :=
  match p with
  | [] => ([], [])
  | c :: p' =>
      if c ==? backslash then
        match p' with
        | d :: p'' => let '(a, b) := cut_chunk inrange p'' in (c :: d :: a, b)
        | [] => ([c], [])
        end
      else if (c ==? "*"%char) && negb inrange then ([], p)
      else
        let '(a, b) := cut_chunk (if c ==? "["%char then true else if c ==? "]"%char then false else inrange) p' in
        (c :: a, b)
  end.

(** [scanChunk] *)
Definition scanChunk (pattern : gostring) : bool * gostring * gostring :=
  let '(star, p) := drop_stars pattern in
  let '(chunk, rest) := cut_chunk false p in
  (star, chunk, rest).

(** The positions after the first one, up to a separator: the rest of the name after the
    first that matches. *)
Fixpoint skip_search (chunk : gostring) (last : bool) (name : gostring) : err + option gostring :=
  match name with
  | [] => inr None
  | c :: name' =>
      if c ==? GoPath.slash then inr None
      else
        match matchChunk chunk name' with
        | inl e => inl e
        | inr (Some t) => if last && negb (t ==? []) then skip_search chunk last name' else inr (Some t)
        | inr None => skip_search chunk last name'
        end
  end.

(** Whether the rest of a pattern is well formed. *)
Fixpoint rest_ok (fuel : nat) (pattern : gostring) : option err :=
  match fuel, pattern with
  | O, _ | _, [] => None
  | S fuel', _ =>
      let '(_, chunk, rest) := scanChunk pattern in
      match matchChunk chunk [] with
      | inl e => Some e
      | inr _ => rest_ok fuel' rest
      end
  end.

Fixpoint match_go (fuel : nat) (pattern name : gostring) : err + bool :=
  match fuel, pattern with
  | _, [] => inr (name ==? [])
  | O, _ => inl ErrBadPattern
  | S fuel', _ =>
      let '(star, chunk, rest) := scanChunk pattern in
      if star && (chunk ==? []) then inr (negb (Contains name [GoPath.slash]))
      else
        let no_match := match rest_ok (length rest) rest with Some e => inl e | None => inr false end in
        let search :=
          if star then
            match skip_search chunk (rest ==? []) name with
            | inl e => inl e
            | inr (Some t) => match_go fuel' rest t
            | inr None => no_match
            end
          else no_match in
        match matchChunk chunk name with
        | inr (Some t) => if (t ==? []) || negb (rest ==? []) then match_go fuel' rest t else search
        | inl e => inl e
        | inr None => search
        end
  end.

Definition Match (pattern name : gostring) : err + bool := match_go (length pattern) pattern name.

Example match_star : Match "mysql_backup_2024*_shop.zip" "mysql_backup_20240115_db1_shop.zip" = inr true.
Proof. reflexivity. Qed.

Example match_class : Match "a[b-d]?*" "acxyz" = inr true.
Proof. reflexivity. Qed.

Example match_bad : Match "*[" "abc" = inl ErrBadPattern.
Proof. reflexivity. Qed.

(** ** The meaning of patterns without classes and escapes *)

Fixpoint glob (p s : gostring) : bool :=
  match p with
  | [] => s ==? []
  | c :: p' =>
      if c ==? "*"%char then
        (fix star (s : gostring) : bool :=
           glob p' s || match s with
                        | d :: s' => negb (d ==? GoPath.slash) && star s'
                        | [] => false
                        end) s
      else
        match s with
        | [] => false
        | d :: s' => (if c ==? "?"%char then negb (d ==? GoPath.slash) else c ==? d) && glob p' s'
        end
  end.

(** Bytes without a meaning of their own besides the star and the question mark. *)
Definition simple (c : ascii) : Prop := c <> "["%char /\ c <> backslash.
Definition starless (c : ascii) : Prop := c <> "*"%char.

(** A byte of a name: ASCII, no separator. *)
Definition nameByte (c : ascii) : Prop := (code c < 128)%Z /\ c <> GoPath.slash.

#[global] Instance simple_dec c : Decision (simple c).
Proof. unfold simple. apply _. Defined.
#[global] Instance nameByte_dec c : Decision (nameByte c).
Proof. unfold nameByte. apply _. Defined.

(** A chunk at the start of a name, and what is left of the name. *)
Fixpoint fits (k s : gostring) : option gostring :=
  match k with
  | [] => Some s
  | c :: k' =>
      match s with
      | [] => None
      | d :: s' => if (c ==? "?"%char) || (c ==? d) then fits k' s' else None
      end
  end.

Lemma DecodeRune_ascii d s : (code d < 128)%Z -> snd (DecodeRune (d :: s)) = s.
Proof. intros H. unfold DecodeRune. by rewrite Regexp.runes_ascii. Qed.

Lemma matchChunk_failed fuel k : Forall simple k -> length k <= fuel -> matchChunk_go fuel k None = inr None.
Proof.
  intros Hk. revert fuel. induction Hk as [|c k [H1 H2] _ IH]; intros [|fuel] Hf; simpl in *; try done; [lia|].
  rewrite (bool_decide_eq_false_2 (c = "["%char)), (bool_decide_eq_false_2 (c = backslash)) by done.
  case_if; apply IH; lia.
Qed.

Lemma matchChunk_fits_go fuel k s :
  Forall simple k -> Forall nameByte s -> length k <= fuel -> matchChunk_go fuel k (Some s) = inr (fits k s).
Proof.
  intros Hk. revert fuel s. induction Hk as [|c k [H1 H2] Hk IH]; intros [|fuel] s Hs Hf; simpl in *; try done; [lia|].
  rewrite (bool_decide_eq_false_2 (c = "["%char)), (bool_decide_eq_false_2 (c = backslash)) by done.
  destruct s as [|d s]; [case_if; apply matchChunk_failed; (done || lia)|].
  apply Forall_cons in Hs as [[Hd Hsl] Hs]. destruct (c ==? "?"%char) eqn:Eq; simpl.
  - rewrite (bool_decide_eq_false_2 (d = _)) by done. rewrite DecodeRune_ascii by done. apply IH; [done|lia].
  - destruct (c ==? d); [apply IH; [done|lia]|apply matchChunk_failed; [done|lia]].
Qed.

Lemma matchChunk_fits k s : Forall simple k -> Forall nameByte s -> matchChunk k s = inr (fits k s).
Proof. intros Hk Hs. by apply matchChunk_fits_go. Qed.

(** A fitting chunk takes as many bytes as it has. *)
Lemma fits_split k s t : fits k s = Some t -> exists a, s = a ++ t /\ length a = length k.
Proof.
  revert s. induction k as [|c k IH]; intros [|d s]; simpl; try done; [by intros [= <-]; exists []..|].
  case_if; [|done]. intros (a & -> & Hl)%IH. exists (d :: a). simpl. by rewrite Hl.
Qed.

Lemma glob_chunk k rest s :
  Forall starless k -> Forall nameByte s ->
  glob (k ++ rest) s = match fits k s with Some t => glob rest t | None => false end.
Proof.
  intros Hk. revert s. induction Hk as [|c k Hc Hk IH]; intros s Hs; [done|]. simpl.
  rewrite (bool_decide_eq_false_2 (c = _)) by done. destruct s as [|d s]; [done|]. apply Forall_cons in Hs as [[Hd Hsl] Hs].
  destruct (c ==? "?"%char); simpl; [by rewrite (bool_decide_eq_false_2 (d = _)), IH|].
  destruct (c ==? d); simpl; [by apply IH|done].
Qed.

Lemma glob_star p s :
  glob ("*"%char :: p) s =
  glob p s || match s with d :: s' => negb (d ==? GoPath.slash) && glob ("*"%char :: p) s' | [] => false end.
Proof. destruct s; done. Qed.

(** A star absorbs a byte more. *)
Lemma glob_star_cons p d s : nameByte d -> glob ("*"%char :: p) s = true -> glob ("*"%char :: p) (d :: s) = true.
Proof. intros [_ Hd] H. rewrite glob_star, H, (bool_decide_eq_false_2 (d = _)) by done. apply orb_true_r. Qed.

Lemma glob_star_app p a s : Forall nameByte a -> glob ("*"%char :: p) s = true -> glob ("*"%char :: p) (a ++ s) = true.
Proof. intros Ha H. induction Ha; [done|]. by apply glob_star_cons. Qed.

Lemma glob_star_star p s : Forall nameByte s -> glob ("*"%char :: "*"%char :: p) s = glob ("*"%char :: p) s.
Proof.
  intros Hs. induction Hs as [|d s Hd Hs IH]; rewrite glob_star; [by rewrite orb_false_r|].
  destruct Hd as [Ha Hd]. rewrite IH, (bool_decide_eq_false_2 (d = _)) by done. rewrite !(glob_star p (d :: s)).
  rewrite (bool_decide_eq_false_2 (d = _)) by done. simpl negb. rewrite andb_true_l.
  by destruct (glob p (d :: s)), (glob ("*"%char :: p) s).
Qed.

(** A match of the chunk further right leaves a suffix of what the first one leaves. *)
Lemma glob_star_mono k rest d s t :
  Forall starless k -> Forall nameByte (d :: s) -> fits k (d :: s) = Some t ->
  glob ("*"%char :: k ++ "*"%char :: rest) s = true -> glob ("*"%char :: rest) t = true.
Proof.
  intros Hk Hs Hf Hg.
  assert (forall s', Forall nameByte s' -> glob ("*"%char :: k ++ "*"%char :: rest) s' = true ->
    exists a u, s' = a ++ u /\ length k <= length a /\ glob ("*"%char :: rest) u = true) as Hex.
  { clear - Hk. intros s' Hs'. induction Hs' as [|e s' He Hs' IH]; rewrite glob_star, glob_chunk by (done || by constructor).
    - destruct (fits k []) as [u|] eqn:E; [|done]. destruct k; [|done]. injection E as <-. rewrite orb_false_r.
      intros Hu. by exists [], [].
    - intros [Hu|Hu]%orb_true_iff.
      + destruct (fits k (e :: s')) as [u|] eqn:E; [|done].
        apply fits_split in E as (a & Ea & Hl).
        exists a, u. split; [done|]. split; [lia|done].
      + apply andb_true_iff in Hu as [_ Hu]. destruct (IH Hu) as (a & u & -> & Hl & Hu'). exists (e :: a), u. simpl. auto. }
  pose proof Hs as [Hd Hs']%Forall_cons.
  destruct (Hex s Hs' Hg) as (a & u & -> & Hl & Hu). apply fits_split in Hf as (b & Eb & Hlb).
  rewrite app_comm_cons in Eb, Hs. destruct (app_eq_app _ _ _ _ Eb) as (c & [[Ec ->]|[Ec ->]]).
  - rewrite Ec, <- app_assoc, Forall_app in Hs. destruct Hs as [_ [Hc _]%Forall_app]. by apply glob_star_app.
  - destruct c; [done|]. apply (f_equal length) in Ec. rewrite length_app in Ec. simpl in Ec. lia.
Qed.

(** The rest of a pattern after a chunk: nothing, or a star and more. *)
Definition at_star (rest : gostring) : Prop := rest = [] \/ exists r, rest = "*"%char :: r.

Lemma cut_chunk_spec p :
  Forall simple p -> forall k rest, cut_chunk false p = (k, rest) -> p = k ++ rest /\ Forall starless k /\ at_star rest.
Proof.
  induction 1 as [|c p [H1 H2] Hp IH]; intros k rest; simpl; [intros [= <- <-]; split_and!; [done|constructor|by left]|].
  rewrite (bool_decide_eq_false_2 (c = backslash)) by done. rewrite andb_true_r. case_if.
  { bool_prop. subst. intros [= <- <-]. split_and!; [done|constructor|right; eauto]. }
  rewrite (bool_decide_eq_false_2 (c = "["%char)) by done. replace (if c ==? "]"%char then false else false) with false by (by case_if).
  destruct (cut_chunk false p) as [a b]. intros [= <- <-]. destruct (IH a b eq_refl) as (-> & Ha & Hb).
  bool_prop. split_and!; [done|by constructor|done].
Qed.

Lemma glob_star_ext p q :
  (forall s, Forall nameByte s -> glob p s = glob q s) ->
  forall s, Forall nameByte s -> glob ("*"%char :: p) s = glob ("*"%char :: q) s.
Proof.
  intros H s Hs. induction Hs as [|d s Hd Hs IH]; rewrite (glob_star p), (glob_star q), H by (by constructor); [done|].
  by rewrite IH.
Qed.

Lemma drop_stars_spec p star q :
  drop_stars p = (star, q) ->
  (forall s, Forall nameByte s -> glob p s = glob (if star then "*"%char :: q else q) s) /\
  (star = false -> q = p) /\ length q <= length p /\ (star = true -> length q < length p) /\
  (forall r, q <> "*"%char :: r) /\ (Forall simple p -> Forall simple q).
Proof.
  revert star q. induction p as [|c p IH]; intros star q.
  { intros [= <- <-]. split_and!; try done. }
  cbn [drop_stars]. destruct (c ==? "*"%char) eqn:E; bool_prop.
  - subst c. destruct (drop_stars p) as [b r] eqn:E. cbn [snd]. intros [= <- <-].
    destruct (IH _ _ eq_refl) as (Hg & Hb & Hl & Hl' & Hr & Hsi). split_and!; simpl; try done; try lia.
    + intros s Hs. destruct b; [|by rewrite (Hb eq_refl)].
      etrans; [apply (glob_star_ext _ _ Hg s Hs)|]. by apply glob_star_star.
    + intros [_ ?]%Forall_cons. auto.
  - intros [= <- <-]. split_and!; try done. intros r Hr. by simplify_eq.
Qed.

Lemma rest_ok_simple fuel p : Forall simple p -> rest_ok fuel p = None.
Proof.
  revert p. induction fuel as [|fuel IH]; intros p Hp; [done|]. destruct p as [|c p]; [done|]. cbn [rest_ok].
  unfold scanChunk. destruct (drop_stars (c :: p)) as [star q] eqn:E1. destruct (cut_chunk false q) as [k rest] eqn:E2.
  apply drop_stars_spec in E1 as (_ & _ & _ & _ & _ & Hq). destruct (cut_chunk_spec q (Hq Hp) k rest E2) as (-> & _).
  apply Hq, Forall_app in Hp as [Hk Hr]. rewrite matchChunk_fits by (done || constructor). by apply IH.
Qed.

(** The search of a star for its chunk finds a match of the whole rest if there is one. *)
Lemma skip_search_spec k rest s :
  Forall simple k -> Forall starless k -> at_star rest -> Forall nameByte s ->
  exists o, skip_search k (rest ==? []) s = inr o /\
    (forall t, o = Some t -> Forall nameByte t) /\
    match fits k s with
    | Some t => if (t ==? []) || negb (rest ==? []) then glob rest t else from_option (glob rest) false o
    | None => from_option (glob rest) false o
    end = glob ("*"%char :: k ++ rest) s.
Proof.
  intros Hk Hks Hr Hs. induction Hs as [|d s Hd Hs (o & Ho & Hn & IH)].
  { exists None. split; [done|]. split; [done|]. rewrite glob_star, glob_chunk, orb_false_r by (done || constructor).
    destruct (fits k []) as [t|] eqn:E; [|done]. destruct k; [|done]. by injection E as <-. }
  assert (Forall nameByte (d :: s)) as Hds by (by constructor).
  cbn [skip_search]. pose proof Hd as [_ Hsl]. rewrite (bool_decide_eq_false_2 (d = _)) by done. rewrite matchChunk_fits by done.
  rewrite glob_star, glob_chunk by done. rewrite (bool_decide_eq_false_2 (d = _)) by done. cbn [negb andb]. rewrite Ho.
  set (o' := match fits k s with
             | Some t => if (rest ==? []) && negb (t ==? []) then (inr o : err + option gostring) else inr (Some t)
             | None => inr o
             end).
  assert (exists u, o' = inr u /\ (forall t, u = Some t -> Forall nameByte t) /\
    from_option (glob rest) false u = match fits k s with
      | Some t => if (t ==? []) || negb (rest ==? []) then glob rest t else from_option (glob rest) false o
      | None => from_option (glob rest) false o end) as (u & Eu & Hu & Hgu).
  { unfold o'. destruct (fits k s) as [t|] eqn:Ef; [|eauto]. apply fits_split in Ef as (a & -> & _).
    apply Forall_app in Hs as [_ Ht]. destruct (t ==? []), (rest ==? []); simpl; eexists; split_and!; eauto;
      intros ? [= <-]; done. }
  rewrite Eu. exists u. split; [done|]. split; [done|]. rewrite Hgu, IH.
  destruct (fits k (d :: s)) as [t|] eqn:Ef; [|by rewrite orb_false_l].
  destruct Hr as [->|(r & ->)].
  - rewrite (bool_decide_eq_true_2 (@nil ascii = [])) by done. rewrite orb_false_r. destruct (t ==? []) eqn:Et; [|simpl; by rewrite Et].
    bool_prop. subst t. done.
  - rewrite (bool_decide_eq_false_2 (_ :: _ = [])) by done. rewrite orb_true_r.
    destruct (glob ("*"%char :: k ++ "*"%char :: r) s) eqn:Eg; [|by rewrite orb_false_r].
    by rewrite (glob_star_mono k r d s t Hks Hds Ef Eg).
Qed.

Lemma match_go_glob fuel p s :
  length p <= fuel -> Forall simple p -> Forall nameByte s -> match_go fuel p s = inr (glob p s).
Proof.
  revert p s. induction fuel as [|fuel IH]; intros p s Hf Hp Hs; [by destruct p; [|simpl in Hf; lia]|].
  destruct p as [|c p]; [done|]. cbn [match_go]. unfold scanChunk.
  destruct (drop_stars (c :: p)) as [star q] eqn:E1. destruct (cut_chunk false q) as [k rest] eqn:E2.
  apply drop_stars_spec in E1 as (Hg & Hq & Hl & Hl' & Hns & Hsi). pose proof (Hsi Hp) as Hsq.
  destruct (cut_chunk_spec q Hsq k rest E2) as (-> & Hks & Hat). rewrite (Hg s Hs).
  apply Forall_app in Hsq as [Hk Hrs]. rewrite length_app in *.
  assert (star = false -> k <> []) as Hne.
  { intros Hst ->. destruct Hat as [->|(r & ->)]; [by specialize (Hq Hst)|by eapply Hns]. }
  rewrite rest_ok_simple, matchChunk_fits by done.
  assert (forall t, fits k s = Some t -> (star = true \/ k <> []) -> Forall nameByte t) as Htail.
  { intros t (a & -> & _)%fits_split _. by apply Forall_app in Hs as [_ Ht]. }
  assert (length rest <= fuel) as Hfr.
  { destruct star; [specialize (Hl' eq_refl); lia|]. destruct k; [by destruct (Hne eq_refl)|]. simpl in *. lia. }
  destruct star; cbn [andb].
  - destruct (k ==? []) eqn:Ek.
    { bool_prop. subst k. destruct Hat as [->|(r & ->)]; [|by destruct (Hns r)]. f_equal. symmetry. cbn [app].
      transitivity true.
      - rewrite <- (app_nil_r s). apply glob_star_app; [done|reflexivity].
      - symmetry. apply negb_true_iff, not_true_is_false. rewrite Contains_true. intros (a & b & ->).
        apply Forall_app in Hs as [_ [[_ Hb] _]%Forall_app%proj1%Forall_cons]. done. }
    destruct (skip_search_spec k rest s Hk Hks Hat Hs) as (o & -> & Hn & <-).
    assert (match o with Some t => match_go fuel rest t | None => inr false end = inr (from_option (glob rest) false o)) as Ho.
    { destruct o as [t|]; [|done]. apply IH; [done..|by apply Hn]. }
    destruct (fits k s) as [t|] eqn:Ef; [|done]. case_if; [|done]. apply IH; [done..|by apply Htail; [|left]].
  - rewrite glob_chunk by done. destruct (fits k s) as [t|] eqn:Ef; [|done]. case_if.
    + apply IH; [done..|by apply Htail; [|right; apply Hne]].
    + bool_prop. destruct Hat as [->|(r & ->)]; [|done]. simpl. by rewrite bool_decide_eq_false_2.
Qed.

(** On patterns without classes and escapes, [Match] decides [glob]. *)
Lemma Match_glob p s : Forall simple p -> Forall nameByte s -> Match p s = inr (glob p s).
Proof. intros Hp Hs. by apply match_go_glob. Qed.

(** A pattern without wildcards matches itself only. *)
Lemma glob_literal p s : "*"%char ∉ p -> "?"%char ∉ p -> glob p s = (p ==? s).
Proof.
  revert s. induction p as [|c p IH]; intros s H1 H2; [simpl; by apply bool_decide_ext|].
  apply not_elem_of_cons in H1 as [N1 H1]. apply not_elem_of_cons in H2 as [N2 H2]. simpl.
  rewrite (bool_decide_eq_false_2 (c = "*"%char)), (bool_decide_eq_false_2 (c = "?"%char)) by congruence.
  destruct s as [|d s]; [by rewrite bool_decide_eq_false_2|]. rewrite IH by done.
  destruct (decide (c = d)) as [->|Hne].
  - rewrite (bool_decide_eq_true_2 (d = d)) by done. apply bool_decide_ext. naive_solver.
  - rewrite (bool_decide_eq_false_2 (c = d)), (bool_decide_eq_false_2 (c :: p = d :: s)) by congruence. done.
Qed.

End GoGlob.
