(* ===== verification/CrashLogic.v ===== *)
(** * A crash Hoare logic for file operations.

    [spec I P m Q]: started with files satisfying [P], the action [m] ends with files
    and a result satisfying [Q], and after every single system call it makes the
    files satisfy the crash invariant [I], so that an interruption at any point leaves
    files satisfying [I].  The rules are over every pattern of I/O errors: each call
    may fail and change nothing, or succeed. *)

From S2P Require Import Prelude GoStrings GoTime GoPath World.
Import GoStrings GoTime World.

Module CrashLogic.

Abbreviation files := (gmap gostring Node).

Definition spec {A : Type} (I P : files -> Prop) (m : M A) (Q : A -> files -> Prop) : Prop :=
  forall w, P (w_fs w) ->
    (exists h, w_hist (snd (m w)) = h ++ w_hist w /\ Forall I h) /\ Q (fst (m w)) (w_fs (snd (m w))).

Lemma spec_ret {A : Type} (I P : files -> Prop) (x : A) (Q : A -> files -> Prop) :
  (forall fs : files, P fs -> Q x fs) -> spec I P (mret x) Q.
Proof. intros H w Hw. split; [by exists []|]. by apply H. Qed.

Lemma spec_bind {A B : Type} (I P : files -> Prop) (m : M A) (f : A -> M B) (R : A -> files -> Prop) (Q : B -> files -> Prop) :
  spec I P m R -> (forall x, spec I (R x) (f x) Q) -> spec I P (m ≫= f) Q.
Proof.
  intros Hm Hf w Hw. destruct (Hm w Hw) as [(h1 & E1 & F1) HR]. unfold mbind, M_bind.
  destruct (m w) as [x w1]. simpl in *. destruct (Hf x w1 HR) as [(h2 & E2 & F2) HQ].
  split; [|done]. exists (h2 ++ h1). rewrite E2, E1, app_assoc, Forall_app. done.
Qed.

Lemma spec_conseq {A : Type} (I P P' : files -> Prop) (m : M A) (Q Q' : A -> files -> Prop) :
  (forall fs : files, P' fs -> P fs) -> (forall x (fs : files), Q x fs -> Q' x fs) -> spec I P m Q -> spec I P' m Q'.
Proof. intros HP HQ Hs w Hw. destruct (Hs w (HP _ Hw)). auto. Qed.

(** A consequence with the precondition kept as a pure fact. *)
Lemma spec_pre {A : Type} (I P : files -> Prop) (m : M A) (Q : A -> files -> Prop) :
  (forall fs : files, P fs -> spec I (eq fs) m Q) -> spec I P m Q.
Proof. intros H w Hw. by apply (H (w_fs w) Hw). Qed.

Lemma spec_log (I P : files -> Prop) (l : Level) (key : gostring) (args : list Arg) (Q : unit -> files -> Prop) :
  (forall fs : files, P fs -> Q tt fs) -> spec I P (log_at l key args) Q.
Proof. intros H w Hw. split; [by exists []|]. by apply H. Qed.

Section Calls.
Context {FT : Faults}.

(** The rule behind the rules: a call that fails without effect or acts. *)
Lemma spec_syscall {A : Type} (I P : files -> Prop) (act : World -> (err + A) * World) (Q : (err + A) -> files -> Prop) :
  (forall fs : files, P fs -> I fs) ->
  (forall (fs : files) n, P fs -> Q (inl (EIO n)) fs) ->
  (forall w, P (w_fs w) -> w_hist (snd (act w)) = w_hist w /\ I (w_fs (snd (act w))) /\ Q (fst (act w)) (w_fs (snd (act w)))) ->
  spec I P (syscall act) Q.
Proof.
  intros HI He Ha w Hw. unfold syscall. destruct (fault (w_tick w)) as [n|].
  - simpl. split; [exists [w_fs w]; split; [done|by repeat constructor; apply HI]|]. by apply He.
  - destruct (Ha (tick w) Hw) as (Hh & Hi & Hq). destruct (act (tick w)) as [r w']. simpl in *.
    split; [|done]. exists [w_fs w']. rewrite Hh. split; [done|by repeat constructor].
Qed.

Lemma spec_Stat (I P : files -> Prop) (p : gostring) (Q : (err + Node) -> files -> Prop) :
  (forall fs : files, P fs -> I fs) -> (forall (fs : files) e, P fs -> Q (inl e) fs) ->
  (forall (fs : files) n, P fs -> fs !! p = Some n -> Q (inr n) fs) ->
  spec I P (Stat p) Q.
Proof.
  intros HI He Hok. apply spec_syscall; auto. intros w Hw. simpl. split; [done|]. split; [auto|].
  destruct (w_fs w !! p) eqn:E; auto.
Qed.

Lemma spec_Remove (I P : files -> Prop) (p : gostring) (Q : (err + unit) -> files -> Prop) :
  (forall fs : files, P fs -> I fs) -> (forall (fs : files) e, P fs -> Q (inl e) fs) ->
  (forall fs : files, P fs -> I (delete p fs) /\ Q (inr tt) (delete p fs)) ->
  spec I P (Remove p) Q.
Proof.
  intros HI He Hok. apply spec_syscall; auto. intros w Hw.
  destruct (w_fs w !! p) as [[|d m]|]; try case_if; simpl; auto using conj.
Qed.

Lemma spec_Rename (I P : files -> Prop) (p q : gostring) (Q : (err + unit) -> files -> Prop) :
  (forall fs : files, P fs -> I fs) -> (forall (fs : files) e, P fs -> Q (inl e) fs) ->
  (forall (fs : files) n, P fs -> fs !! p = Some n -> I (<[q := n]> (delete p fs)) /\ Q (inr tt) (<[q := n]> (delete p fs))) ->
  spec I P (Rename p q) Q.
Proof.
  intros HI He Hok. apply spec_syscall; auto. intros w Hw.
  destruct (w_fs w !! p) as [n|] eqn:E; simpl; auto using conj.
  case_if; simpl; auto using conj.
Qed.

Lemma spec_Create (I P : files -> Prop) (p : gostring) (Q : (err + unit) -> files -> Prop) :
  (forall fs : files, P fs -> I fs) -> (forall (fs : files) e, P fs -> Q (inl e) fs) ->
  (forall (fs : files) t, P fs -> I (<[p := NFile (Raw []) t]> fs) /\ Q (inr tt) (<[p := NFile (Raw []) t]> fs)) ->
  spec I P (Create p) Q.
Proof.
  intros HI He Hok. apply spec_syscall; auto. intros w Hw. repeat case_if; simpl; auto using conj.
Qed.

Lemma spec_Write (I P : files -> Prop) (p : gostring) (d : Data) (Q : (err + unit) -> files -> Prop) :
  (forall fs : files, P fs -> I fs) -> (forall (fs : files) e, P fs -> Q (inl e) fs) ->
  (forall (fs : files) t, P fs -> I (<[p := NFile d t]> fs) /\ Q (inr tt) (<[p := NFile d t]> fs)) ->
  spec I P (Write p d) Q.
Proof. intros HI He Hok. apply spec_syscall; auto. intros w Hw. simpl. auto. Qed.

(** An action that changes files through one call whose argument depends on them. *)
Lemma spec_world {A : Type} (I P : files -> Prop) (m : World -> A * World) (Q : A -> files -> Prop) :
  (forall w, P (w_fs w) -> exists m', m w = m' w /\ spec I (eq (w_fs w)) m' Q) -> spec I P m Q.
Proof. intros H w Hw. destruct (H w Hw) as (m' & E & Hs). rewrite E. by apply Hs. Qed.

End Calls.

Lemma spec_run_cmd {EX : Exec} (I P : files -> Prop) (cmd : gostring) (args : list gostring) (stdin : gostring) (Q : ExecResult -> files -> Prop) :
  (forall t (fs : files), P fs -> Q (exec t cmd args stdin) fs) -> spec I P (run_cmd cmd args stdin) Q.
Proof. intros H w Hw. split; [by exists []|]. by apply H. Qed.

Lemma spec_inv {A : Type} (I J P : files -> Prop) (m : M A) (Q : A -> files -> Prop) : (forall fs : files, J fs -> I fs) -> spec J P m Q -> spec I P m Q.
Proof.
  intros HI Hs w Hw. destruct (Hs w Hw) as [(h & E & F) HQ]. split; [|done]. exists h. split; [done|].
  eapply Forall_impl; [exact F|]. auto.
Qed.

(** ** Runs without I/O errors

    [does m now fs x fs']: in a world with the clock at [now] and the files [fs] in
    which no call fails from here on, [m] returns [x] and leaves the files [fs']. *)

Section Runs.
Context {FT : Faults}.

Definition fine (w : World) : Prop := forall t, w_tick w <= t -> fault t = None.

Definition does {A : Type} (m : M A) (now : Time) (fs : files) (x : A) (fs' : files) : Prop :=
  forall w, fine w -> w_fs w = fs -> w_now w = now ->
    exists w', m w = (x, w') /\ fine w' /\ w_fs w' = fs' /\ w_now w' = now.

Lemma does_ret {A : Type} (x : A) now (fs : files) : does (mret x) now fs x fs.
Proof. intros w ? ? ?. by exists w. Qed.

Lemma does_bind {A B : Type} (m : M A) (f : A -> M B) now (fs fs1 fs2 : files) x y :
  does m now fs x fs1 -> does (f x) now fs1 y fs2 -> does (m ≫= f) now fs y fs2.
Proof.
  intros Hm Hf w Hw Hfs Hn. destruct (Hm w Hw Hfs Hn) as (w1 & E & Hw1 & Hfs1 & Hn1).
  unfold mbind, M_bind. rewrite E. by apply Hf.
Qed.

Lemma does_log l key args now (fs : files) : does (log_at l key args) now fs tt fs.
Proof. intros w ? ? ?. eexists. split; [reflexivity|]. done. Qed.

Lemma does_now now (fs : files) : does get_now now fs now fs.
Proof. intros w ? ? <-. by exists w. Qed.

Lemma does_syscall {A : Type} (act : World -> (err + A) * World) now (fs fs' : files) r :
  (forall w, w_fs w = fs -> w_now w = now ->
     fst (act w) = r /\ w_fs (snd (act w)) = fs' /\ w_tick (snd (act w)) = w_tick w /\ w_now (snd (act w)) = now) ->
  does (syscall act) now fs r fs'.
Proof.
  intros H w Hw Hfs Hn. destruct (H (tick w) Hfs Hn) as (Hr & Hf & Ht & Hn'). unfold syscall.
  rewrite (Hw (w_tick w)) by lia. destruct (act (tick w)) as [r' w']. simpl in *. subst r'.
  eexists. split; [reflexivity|]. split; [|done]. intros t Hle. apply Hw. simpl in Hle. lia.
Qed.

Lemma does_Stat p now (fs : files) :
  does (Stat p) now fs (match fs !! p with Some n => inr n | None => inl ENOENT end) fs.
Proof. apply does_syscall. intros w <- <-. done. Qed.

Lemma does_Remove p now (fs : files) :
  fs !! p <> Some NDir ->
  does (Remove p) now fs (match fs !! p with Some _ => inr tt | None => inl ENOENT end) (delete p fs).
Proof.
  intros Hp. apply does_syscall. intros w <- <-. destruct (w_fs w !! p) as [[|d m]|] eqn:E; [done|done|].
  simpl. by rewrite delete_id.
Qed.

Lemma does_Rename p q n now (fs : files) :
  fs !! p = Some n -> fs !! q <> Some NDir -> does (Rename p q) now fs (inr tt) (<[q := n]> (delete p fs)).
Proof.
  intros Hp Hq. apply does_syscall. intros w <- <-. rewrite Hp. by rewrite bool_decide_eq_false_2.
Qed.

Lemma does_Create p now (fs : files) :
  fs !! p <> Some NDir -> fs !! GoPath.Dir p = Some NDir ->
  does (Create p) now fs (inr tt) (<[p := NFile (Raw []) now]> fs).
Proof.
  intros Hp Hd. apply does_syscall. intros w <- <-. by rewrite bool_decide_eq_false_2, bool_decide_eq_true_2.
Qed.

Lemma does_Write p d now (fs : files) : does (Write p d) now fs (inr tt) (<[p := NFile d now]> fs).
Proof. apply does_syscall. intros w <- <-. done. Qed.

Lemma does_run_cmd {EX : Exec} cmd args stdin r now (fs : files) :
  (forall t, exec t cmd args stdin = r) -> does (run_cmd cmd args stdin) now fs r fs.
Proof.
  intros Hr w Hw Hfs Hn. exists (tick w). unfold run_cmd. rewrite Hr. split; [done|]. split; [|done].
  intros t Hle. apply Hw. simpl in Hle. lia.
Qed.

(** An action that looks at the files first. *)
Lemma does_world {A : Type} (m m' : M A) now (fs fs' : files) x :
  (forall w, w_fs w = fs -> m w = m' w) -> does m' now fs x fs' -> does m now fs x fs'.
Proof. intros H Hm w Hw Hfs Hn. rewrite H by done. by apply Hm. Qed.

Lemma does_eq {A : Type} (m : M A) now (fs fs1 fs2 : files) x : does m now fs x fs1 -> fs1 = fs2 -> does m now fs x fs2.
Proof. by intros ? <-. Qed.

(** The result in a concrete world. *)
Lemma does_run {A : Type} (m : M A) w now (fs fs' : files) x :
  does m now fs x fs' -> fine w -> w_fs w = fs -> w_now w = now -> fst (m w) = x /\ w_fs (snd (m w)) = fs'.
Proof. intros H Hw Hfs Hn. destruct (H w Hw Hfs Hn) as (w' & E & _ & Hf & _). by rewrite E. Qed.

Lemma does_ReadDir d now (fs : files) :
  fs !! d = Some NDir -> does (ReadDir d) now fs (inr (merge_sort name_leb (dir_entries fs d))) fs.
Proof. intros Hd. apply does_syscall. intros w <- <-. by rewrite Hd. Qed.

Lemma does_MkdirAll d now (fs : files) : fs !! d = Some NDir -> does (MkdirAll d) now fs (inr tt) fs.
Proof. intros Hd. apply does_syscall. intros w <- <-. by rewrite Hd. Qed.

Lemma does_Open p now (fs : files) :
  does (Open p) now fs (match fs !! p with Some n => inr n | None => inl ENOENT end) fs.
Proof. apply does_syscall. intros w <- <-. done. Qed.

Lemma does_ReadAll `{ArchiveBytes} d t now (fs : files) : does (ReadAll (NFile d t)) now fs (inr (data_bytes d)) fs.
Proof. apply does_syscall. intros w <- <-. done. Qed.

Lemma fine_forward {A : Type} (m : M A) w : forward m -> fine w -> fine (snd (m w)).
Proof. intros Hm Hw t Ht. apply Hw. specialize (Hm w). lia. Qed.

(** A loop whose rounds compute [step] on files satisfying [inv]. *)
Lemma does_for_each {A : Type} (inv : files -> Prop) (step : files -> A -> files) (xs : list A) body now (fs : files) :
  (forall x (fs : files), x ∈ xs -> inv fs -> does (body x) now fs tt (step fs x) /\ inv (step fs x)) ->
  inv fs -> does (for_each xs body) now fs tt (fold_left step xs fs).
Proof.
  revert fs. induction xs as [|x xs IH]; intros fs Hb Hi; [apply does_ret|]. simpl.
  destruct (Hb x fs) as [Hd Hi']; [left|done|]. eapply does_bind; [exact Hd|].
  apply IH; [|done]. intros y fs' Hy. apply Hb. by right.
Qed.

End Runs.

(** ** The history

    Every call adds to the points at which the program may be interrupted. *)

Definition grows {A : Type} (m : M A) : Prop := forall w, exists h, w_hist (snd (m w)) = h ++ w_hist w.

Lemma grows_ret {A : Type} (x : A) : grows (mret x).
Proof. intros w. by exists []. Qed.

Lemma grows_bind {A B : Type} (m : M A) (f : A -> M B) : grows m -> (forall x, grows (f x)) -> grows (m ≫= f).
Proof.
  intros Hm Hf w. unfold mbind, M_bind. destruct (Hm w) as [h1 E1]. destruct (m w) as [x w1]. destruct (Hf x w1) as [h2 E2].
  exists (h2 ++ h1). simpl in *. by rewrite E2, E1, app_assoc.
Qed.

Lemma grows_log l key args : grows (log_at l key args).
Proof. intros w. by exists []. Qed.

Section History.
Context {FT : Faults}.

Lemma grows_syscall {A : Type} (act : World -> (err + A) * World) : (forall w, w_hist (snd (act w)) = w_hist w) -> grows (syscall act).
Proof.
  intros H w. unfold syscall. destruct (fault (w_tick w)) as [n|]; [by eexists [_]|].
  specialize (H (tick w)). destruct (act (tick w)) as [r w']. simpl in *. rewrite H. by eexists [_].
Qed.

Lemma grows_Stat p : grows (Stat p).
Proof. by apply grows_syscall. Qed.

Lemma grows_Remove p : grows (Remove p).
Proof. apply grows_syscall. intros w. by repeat case_match. Qed.

Lemma grows_Rename p q : grows (Rename p q).
Proof. apply grows_syscall. intros w. by repeat case_match. Qed.

Lemma grows_Create p : grows (Create p).
Proof. apply grows_syscall. intros w. by repeat case_match. Qed.

Lemma grows_Write p d : grows (Write p d).
Proof. by apply grows_syscall. Qed.

(** The files after a call are recorded. *)
Lemma syscall_recorded {A : Type} (act : World -> (err + A) * World) w : w_fs (snd (syscall act w)) ∈ w_hist (snd (syscall act w)).
Proof. unfold syscall. destruct (match fault (w_tick w) with Some n => _ | None => _ end) as [r w']. left. Qed.

End History.

#[export] Hint Resolve grows_ret grows_log grows_Stat grows_Remove grows_Rename grows_Create grows_Write : grows.

Ltac solve_grows := repeat (intros; cbv zeta; first [solve [eauto 2 with grows] | apply grows_log | apply grows_bind | case_match]).

End CrashLogic.
