(* ===== verification/FileTree.v ===== *)
(** * Trees of files: relative paths, moving and walking directories.

    [filepath.Rel], [filepath.WalkDir] and the renaming of a directory, on files keyed by
    path.  Lemmas view an absolute path as the list of its elements.  There are no
    symbolic links in the model. *)

From S2P Require Import Prelude GoStrings GoTime GoPath World CrashLogic.
Import GoStrings GoTime World CrashLogic.

Module FileTree.

(** ** Relative paths *)

Fixpoint skip_common (be te : list gostring) : list gostring * list gostring :=
  match be, te with
  | b :: be', t :: te' => if b ==? t then skip_common be' te' else (be, te)
  | _, _ => (be, te)
  end.

Definition ErrRel (base targ : gostring) : err := Errorf "Rel: can't make relative" [targ; base] None.

(** [filepath.Rel]: what is left of the target after the common elements, below one ".."
    for each element left of the base. *)
Definition Rel (basepath targpath : gostring) : err + gostring :=
  let base := GoPath.Clean basepath in
  let targ := GoPath.Clean targpath in
  if targ ==? base then inr (str ".")
  else if negb (Bool.eqb (GoPath.IsRooted base) (GoPath.IsRooted targ)) then inl (ErrRel basepath targpath)
  else
    let '(be, te) := skip_common (GoPath.clean_elems base) (if targ ==? str "." then [str "."] else GoPath.clean_elems targ) in
    if bool_decide (head be = Some (str "..")) then inl (ErrRel basepath targpath)
    else inr (GoStrings.Join (replicate (length be) (str "..") ++ te) [GoPath.slash]).

(** ** Moving a directory *)

(** The elements below a directory. *)
Fixpoint below (ds es : list gostring) : option (list gostring) :=
  match ds, es with
  | [], _ => Some es
  | d :: ds', e :: es' => if d ==? e then below ds' es' else None
  | _ :: _, [] => None
  end.

(** Where a path goes when [p] becomes [q]. *)
Definition relocate (p q k : gostring) : option gostring :=
  if (GoPath.Clean k ==? k) && Bool.eqb (GoPath.IsRooted k) (GoPath.IsRooted p) then
    foldl GoPath.Join q <$> below (GoPath.clean_elems p) (GoPath.clean_elems k)
  else None.

Definition moved (p q : gostring) (fs : files) : files :=
  list_to_map (omap (fun '(k, n) => (fun k' => (k', n)) <$> relocate p q k) (map_to_list fs))
  ∪ filter (fun kn => relocate p q (fst kn) = None) fs.

(** [os.Rename], with the contents of a directory.  The kernel refuses to move the root,
    a path that ends in a dot element, and a directory into itself. *)
Definition RenameTree {FT : Faults} (p q : gostring) : M (err + unit) :=
  syscall (fun w =>
    match w_fs w !! p with
    | None => (inl ENOENT, w)
    | Some NDir =>
        if w_fs w !! q ==? Some NDir then (inl EEXIST, w)
        else if bool_decide (GoPath.Base p ∈ [str "."; str ".."; [GoPath.slash]]) then (inl (EIO 16), w)
        else if bool_decide (is_Some (relocate p p q)) then (inl (EIO 22), w)
        else if bool_decide (is_Some (w_fs w !! q)) then (inl (EIO 20), w)
        else (inr tt, set_fs (moved p q) w)
    | Some (NFile d t) =>
        if w_fs w !! q ==? Some NDir then (inl EEXIST, w)
        else (inr tt, set_fs (fun fs => <[q := NFile d t]> (delete p fs)) w)
    end).

(** ** Walking *)

(** [for _, x := range xs { if err := body(x); err != nil { return err } }] *)
Fixpoint until_error {A : Type} (xs : list A) (body : A -> M (option err)) : M (option err) :=
  match xs with
  | [] => mret None
  | x :: xs' =>
      e ← body x;
      match e with
      | Some e => mret (Some e)
      | None => until_error xs' body
      end
  end.

(** The longest path the kernel takes, in bytes, and its error for a longer one. *)
Definition PATH_MAX : nat := Z.to_nat 4096.
Definition ENAMETOOLONG : err := EIO 36.

Section Walk.
Context {FT : Faults}.

(** The walk below a path whose entry has been read; the function is called with the
    entry, or with the error of reading its contents.  Every level makes the path at least
    two bytes longer, so that the fuel [PATH_MAX] stands for the length of the path. *)
Fixpoint walkDir (fuel : nat) (path : gostring) (d : Node) (fn : gostring -> err + Node -> M (option err)) : M (option err) :=
  match fuel with
  | O => mret (Some ENAMETOOLONG)
  | S fuel' =>
      e ← fn path (inr d);
      match e, d with
      | Some e, _ => mret (Some e)
      | None, NFile _ _ => mret None
      | None, NDir =>
          r ← ReadDir path;
          match r with
          | inl e => fn path (inl e)
          | inr es => until_error es (fun '(name, d1) => walkDir fuel' (GoPath.Join path name) d1 fn)
          end
      end
  end.

(** [filepath.WalkDir] with a function that never asks to skip. *)
Definition WalkDir (root : gostring) (fn : gostring -> err + Node -> M (option err)) : M (option err) :=
  info ← Stat root;
  match info with
  | inl e => fn root (inl e)
  | inr d => walkDir PATH_MAX root d fn
  end.

End Walk.

(** ** Lemmas: absolute paths by their elements *)

Definition pathOf (es : list gostring) : gostring := GoPath.slash :: GoStrings.Join es [GoPath.slash].

Abbreviation names es := (Forall GoPath.plain es).

Lemma names_app es r : names es -> names r -> names (es ++ r).
Proof. intros. by apply Forall_app. Qed.

Lemma names_snoc es n : names es -> GoPath.plain n -> names (es ++ [n]).
Proof. intros. apply Forall_app. split; [done|by apply Forall_singleton]. Qed.

#[local] Hint Resolve names_app names_snoc : tree.

Lemma names_good es : names es -> GoPath.good true (reverse es).
Proof. intros H. exists (reverse es), 0. split_and!; [by rewrite app_nil_r|by apply Forall_reverse|done]. Qed.

Lemma IsRooted_pathOf es : GoPath.IsRooted (pathOf es) = true.
Proof. reflexivity. Qed.

Lemma clean_elems_pathOf es : names es -> GoPath.clean_elems (pathOf es) = es.
Proof.
  intros H. pose proof (GoPath.clean_elems_of_good true false es (names_good es H) (or_intror eq_refl)) as E. by rewrite app_nil_r in E.
Qed.

Lemma Clean_pathOf es : names es -> GoPath.Clean (pathOf es) = pathOf es.
Proof. intros H. by rewrite GoPath.Clean_cases, IsRooted_pathOf, clean_elems_pathOf. Qed.

Lemma pathOf_inj es es' : names es -> names es' -> pathOf es = pathOf es' -> es = es'.
Proof. intros H H' E. by rewrite <- (clean_elems_pathOf es), <- (clean_elems_pathOf es'), E by done. Qed.

Lemma Clean_rooted p : GoPath.IsRooted p = true -> GoPath.Clean p = pathOf (GoPath.clean_elems p) /\ names (GoPath.clean_elems p).
Proof.
  intros Hr. split; [by rewrite GoPath.Clean_cases, Hr|]. destruct (GoPath.clean_elems_good p) as (ps & k & E & Hp & Hk).
  rewrite (Hk Hr), app_nil_r in E. rewrite <- (reverse_involutive (GoPath.clean_elems p)), E. by apply Forall_reverse.
Qed.

Lemma Join_pathOf es n : names es -> GoPath.plain n -> GoPath.Join (pathOf es) n = pathOf (es ++ [n]).
Proof.
  intros He Hn. unfold GoPath.Join. rewrite bool_decide_eq_false_2 by done.
  rewrite GoPath.Clean_cases, GoPath.IsRooted_app, GoPath.clean_elems_snoc, clean_elems_pathOf by done. done.
Qed.

Lemma foldl_Join_pathOf es r : names es -> names r -> foldl GoPath.Join (pathOf es) r = pathOf (es ++ r).
Proof.
  intros He Hr. revert es He. induction Hr as [|n r Hn _ IH]; intros es He; [by rewrite app_nil_r|].
  simpl. rewrite Join_pathOf, IH by auto with tree. by rewrite <- app_assoc.
Qed.

Lemma Dir_pathOf es n : names es -> GoPath.plain n -> GoPath.Dir (pathOf (es ++ [n])) = pathOf es.
Proof. intros He Hn. by rewrite <- Join_pathOf, GoPath.Dir_Join, Clean_pathOf by done. Qed.

Lemma Join_last (r : list gostring) n sep : r <> [] -> GoStrings.Join (r ++ [n]) sep = GoStrings.Join r sep ++ sep ++ n.
Proof. intros Hr. by rewrite Join_snoc, bool_decide_eq_false_2. Qed.

Lemma Join_rel es r : names es -> names r -> r <> [] -> GoPath.Join (pathOf es) (GoStrings.Join r [GoPath.slash]) = pathOf (es ++ r).
Proof.
  intros He Hr Hne. unfold GoPath.Join. rewrite bool_decide_eq_false_2 by done. rewrite GoPath.Clean_cases, GoPath.IsRooted_app by done.
  rewrite IsRooted_pathOf. unfold pathOf at 2. do 2 f_equal.
  induction r as [|n r IH] using rev_ind; [done|]. apply Forall_app in Hr as [Hr [Hn _]%Forall_cons].
  destruct (decide (r = [])) as [->|Hr0].
  { change (GoStrings.Join ([] ++ [n]) [GoPath.slash]) with n. by rewrite GoPath.clean_elems_snoc, clean_elems_pathOf. }
  rewrite Join_last by done.
  replace (pathOf es ++ [GoPath.slash] ++ GoStrings.Join r [GoPath.slash] ++ [GoPath.slash] ++ n)
    with ((pathOf es ++ [GoPath.slash] ++ GoStrings.Join r [GoPath.slash]) ++ [GoPath.slash] ++ n) by by rewrite <- !app_assoc.
  rewrite GoPath.clean_elems_snoc, IH by done. by rewrite <- app_assoc.
Qed.

Lemma skip_common_app bs r : skip_common bs (bs ++ r) = ([], r).
Proof. induction bs as [|b bs IH]; [by destruct r|]. simpl. by rewrite bool_decide_eq_true_2. Qed.

Lemma Rel_pathOf bs r : names bs -> names r ->
  Rel (pathOf bs) (pathOf (bs ++ r)) = inr (if bool_decide (r = []) then str "." else GoStrings.Join r [GoPath.slash]).
Proof.
  intros Hb Hr. assert (names (bs ++ r)) as Hbr by auto with tree. unfold Rel. rewrite !Clean_pathOf by done.
  destruct (decide (r = [])) as [->|Hne]; [by rewrite app_nil_r, !bool_decide_eq_true_2|].
  rewrite (bool_decide_eq_false_2 (pathOf (bs ++ r) = pathOf bs)), (bool_decide_eq_false_2 (r = [])), (bool_decide_eq_false_2 (_ = str ".")) by
    (done || (intros E; apply pathOf_inj in E; [|done|done]; apply (f_equal length) in E; rewrite length_app in E; destruct r; [done|simpl in E; lia])).
  rewrite !IsRooted_pathOf, !clean_elems_pathOf by done. cbn [Bool.eqb negb]. by rewrite skip_common_app.
Qed.

(** *** Below *)

Lemma below_Some ds es r : below ds es = Some r <-> es = ds ++ r.
Proof.
  revert es. induction ds as [|d ds IH]; intros es; simpl; [naive_solver|]. destruct es as [|e es]; [naive_solver|].
  case_bool_decide; [subst; rewrite IH; naive_solver|naive_solver].
Qed.

Lemma below_app ds r : below ds (ds ++ r) = Some r.
Proof. by apply below_Some. Qed.

Lemma relocate_pathOf ps qs es : names ps -> names qs -> names es ->
  relocate (pathOf ps) (pathOf qs) (pathOf es) = (fun r => pathOf (qs ++ r)) <$> below ps es.
Proof.
  intros Hp Hq He. unfold relocate. rewrite Clean_pathOf, bool_decide_eq_true_2, !IsRooted_pathOf, !clean_elems_pathOf by done. simpl.
  destruct (below ps es) as [r|] eqn:E; [|done]. simpl. apply below_Some in E as ->. apply Forall_app in He as [_ Hr]. by rewrite foldl_Join_pathOf.
Qed.

(** What is moved is absolute and clean if the directories are. *)
Lemma relocate_inv ps qs k k' : names ps -> names qs -> relocate (pathOf ps) (pathOf qs) k = Some k' ->
  exists r, names r /\ k = pathOf (ps ++ r) /\ k' = pathOf (qs ++ r).
Proof.
  intros Hp Hq H. unfold relocate in H. destruct (_ && _) eqn:E; [|done]. apply andb_true_iff in E as [E1%bool_decide_eq_true_1 E2].
  rewrite IsRooted_pathOf in E2. apply eqb_prop in E2. destruct (Clean_rooted k E2) as [Ek Hk].
  apply fmap_Some in H as (r & Hb & ->). rewrite clean_elems_pathOf in Hb by done. apply below_Some in Hb. exists r.
  rewrite Hb in Hk. apply Forall_app in Hk as [_ Hr]. split_and!; [done|by rewrite <- Hb, <- Ek|by rewrite foldl_Join_pathOf].
Qed.

Lemma lookup_moved ps qs r n (fs : files) : names ps -> names qs -> names r ->
  fs !! pathOf (ps ++ r) = Some n -> moved (pathOf ps) (pathOf qs) fs !! pathOf (qs ++ r) = Some n.
Proof.
  intros Hp Hq Hr Hn. unfold moved. apply lookup_union_Some_l. apply elem_of_list_to_map_1'.
  - intros n' Hin. apply list_elem_of_omap in Hin as ([k m] & Hin & E). apply elem_of_map_to_list in Hin.
    apply fmap_Some in E as (k' & E & [= <- <-]). apply relocate_inv in E as (r' & Hr' & -> & E); [|done|done].
    apply pathOf_inj in E; [|auto with tree..]. apply app_inv_head in E as ->. congruence.
  - apply list_elem_of_omap. exists (pathOf (ps ++ r), n). split; [by apply elem_of_map_to_list|].
    by rewrite relocate_pathOf, below_app by auto with tree.
Qed.

Lemma lookup_moved_other p q k (fs : files) :
  (forall k1 n, fs !! k1 = Some n -> relocate p q k1 <> Some k) ->
  moved p q fs !! k = if decide (relocate p q k = None) then fs !! k else None.
Proof.
  intros Hno. unfold moved. rewrite lookup_union_r.
  - destruct (decide _) as [E|E]; [|by apply map_lookup_filter_None; right; intros x ? ?].
    destruct (fs !! k) as [n|] eqn:Ek; [by apply map_lookup_filter_Some|]. apply map_lookup_filter_None. by left.
  - apply not_elem_of_list_to_map_1. intros ([k1 n] & -> & Hin)%list_elem_of_fmap.
    apply list_elem_of_omap in Hin as ([k0 m] & Hin & E). apply elem_of_map_to_list in Hin.
    apply fmap_Some in E as (k' & E & [= -> ->]). by apply (Hno k0 m).
Qed.

(** Moving a directory to a new place: what was below it is below the new one, nothing is
    left, and everything else stays. *)
Lemma moved_facts ps qs (fs : files) :
  names ps -> names qs -> (forall r r', ps ++ r <> qs ++ r') -> (forall r, names r -> fs !! pathOf (qs ++ r) = None) ->
  let fs' := moved (pathOf ps) (pathOf qs) fs in
  (forall r, names r -> fs' !! pathOf (qs ++ r) = fs !! pathOf (ps ++ r)) /\
  (forall r, names r -> fs' !! pathOf (ps ++ r) = None) /\
  (forall k, (forall r, names r -> k <> pathOf (ps ++ r) /\ k <> pathOf (qs ++ r)) -> fs' !! k = fs !! k).
Proof.
  intros Hp Hq Hapart Hfree fs'.
  assert (forall k, (forall r, names r -> fs !! pathOf (ps ++ r) <> None -> k <> pathOf (qs ++ r)) ->
    fs' !! k = if decide (relocate (pathOf ps) (pathOf qs) k = None) then fs !! k else None) as Hother.
  { intros k Hk. apply lookup_moved_other. intros k1 n Hk1 (r & Hr & -> & ->)%relocate_inv; [|done|done]. apply (Hk r); [done| |done]. by rewrite Hk1. }
  split_and!.
  - intros r Hr. destruct (fs !! pathOf (ps ++ r)) as [n|] eqn:E; [by apply lookup_moved|].
    rewrite Hother, Hfree by (done || (intros r' Hr' Hn E'; apply pathOf_inj in E'; [|auto with tree..]; apply app_inv_head in E' as ->; done)).
    by destruct (decide _).
  - intros r Hr. rewrite Hother; [|intros r' Hr' _ E'; apply pathOf_inj in E'; [|auto with tree..]; by apply Hapart in E'].
    destruct (decide _) as [E|]; [|done]. rewrite relocate_pathOf, below_app in E by auto with tree. done.
  - intros k Hk. rewrite Hother by (intros r Hr _; by apply Hk). destruct (decide _) as [|E]; [done|]. exfalso.
    destruct (relocate (pathOf ps) (pathOf qs) k) as [k'|] eqn:Er; [|done]. apply relocate_inv in Er as (r & Hr & -> & _); [|done|done]. by destruct (Hk r Hr).
Qed.

(** *** Making directories *)

(** The directories on the way from [ds] down to [ds ++ es]. *)
Fixpoint tops (ds es : list gostring) : list gostring :=
  match es with
  | [] => []
  | e :: es' => pathOf (ds ++ [e]) :: tops (ds ++ [e]) es'
  end.

Definition upTo (ds : list gostring) : gostring := if bool_decide (ds = []) then [GoPath.slash] else pathOf ds ++ [GoPath.slash].

Lemma upTo_app ds e : upTo ds ++ e = pathOf (ds ++ [e]).
Proof.
  unfold upTo. case_bool_decide as E; [by subst|]. unfold pathOf. rewrite Join_last by done. simpl. by rewrite <- app_assoc.
Qed.

Lemma Base_pathOf es x : GoPath.plain x -> GoPath.Base (pathOf (es ++ [x])) = x.
Proof.
  intros Hx. pose proof Hx as (Hs & Hne & _). unfold GoPath.Base. rewrite bool_decide_eq_false_2 by done. rewrite <- upTo_app.
  assert (TrimRightByte (upTo es ++ x) GoPath.slash = upTo es ++ x) as ->.
  { unfold TrimRightByte. destruct x as [|c x _] using rev_ind; [done|]. rewrite app_assoc, reverse_snoc. cbn [drop_byte].
    rewrite bool_decide_eq_false_2; [|intros ->; apply Hs, elem_of_app; right; left]. by rewrite <- reverse_snoc, reverse_involutive. }
  rewrite GoPath.split_last_plain; [cbn [snd]; by rewrite bool_decide_eq_false_2|done|]. right. unfold upTo. case_bool_decide; by eexists; try (by instantiate (1 := [])).
Qed.

Lemma ancestors_word pre e q : GoPath.slash ∉ e -> ancestors pre (e ++ q) = ancestors (pre ++ e) q.
Proof.
  revert pre. induction e as [|c e IH]; intros pre He; [by rewrite app_nil_r|]. apply not_elem_of_cons in He as [Hc He].
  simpl. rewrite bool_decide_eq_false_2 by congruence. simpl. rewrite IH by done. by rewrite <- app_assoc.
Qed.

Lemma ancestors_tops ds es : es <> [] -> names es -> ancestors (upTo ds) (GoStrings.Join es [GoPath.slash]) = tops ds es.
Proof.
  intros Hne Hes. revert ds Hne. induction Hes as [|e es (He & _) Hes IH]; intros ds Hne; [done|]. destruct es as [|e2 es].
  - cbn [GoStrings.Join tops]. rewrite <- (app_nil_r e), ancestors_word, app_nil_r, upTo_app by done. done.
  - change (GoStrings.Join (e :: e2 :: es) [GoPath.slash]) with (e ++ [GoPath.slash] ++ GoStrings.Join (e2 :: es) [GoPath.slash]).
    rewrite ancestors_word, upTo_app by done.
    change (pathOf (ds ++ [e]) :: ancestors (pathOf (ds ++ [e]) ++ [GoPath.slash]) (GoStrings.Join (e2 :: es) [GoPath.slash]) = tops ds (e :: e2 :: es)).
    transitivity (pathOf (ds ++ [e]) :: tops (ds ++ [e]) (e2 :: es)); [|done]. f_equal. rewrite <- IH by done.
    unfold upTo. by rewrite bool_decide_eq_false_2 by by destruct ds.
Qed.

Lemma ancestors_pathOf es : es <> [] -> names es -> ancestors [] (pathOf es) = tops [] es.
Proof. intros. by rewrite <- ancestors_tops. Qed.

Lemma tops_snoc ds es x : tops ds (es ++ [x]) = tops ds es ++ [pathOf (ds ++ es ++ [x])].
Proof. revert ds. induction es as [|e es IH]; intros ds; [done|]. simpl. rewrite IH. by rewrite <- app_assoc. Qed.

Lemma elem_of_tops p ds es : p ∈ tops ds es -> exists es1 es2, es1 <> [] /\ es = es1 ++ es2 /\ p = pathOf (ds ++ es1).
Proof.
  revert ds. induction es as [|e es IH]; intros ds Hin; [by apply not_elem_of_nil in Hin|].
  cbn [tops] in Hin. apply elem_of_cons in Hin as [->|Hin]; [by exists [e], es|].
  apply IH in Hin as (es1 & es2 & _ & -> & ->). exists (e :: es1), es2. by rewrite <- app_assoc.
Qed.

Lemma mkdirs_app l l' w : Forall (fun p => w_fs w !! p = Some NDir) l -> mkdirs (l ++ l') w = mkdirs l' w.
Proof. induction 1 as [|p l Hp _ IH]; [done|]. simpl. by rewrite Hp. Qed.

(** What is there stays. *)
Lemma mkdirs_keeps ps w : w_fs w ⊆ w_fs (snd (mkdirs ps w)) /\ w_hist (snd (mkdirs ps w)) = w_hist w.
Proof.
  revert w. induction ps as [|p ps IH]; intros w; [done|]. cbn [mkdirs]. destruct (w_fs w !! p) as [[|d t]|] eqn:E; [done..|].
  destruct (IH (set_fs <[p:=NDir]> w)) as [H1 H2]. split; [|exact H2]. etrans; [|exact H1]. by apply insert_subseteq.
Qed.

(** Each directory of the tree is there before what is in it. *)
Definition well_formed (fs : files) : Prop :=
  forall es x n, names es -> GoPath.plain x -> fs !! pathOf (es ++ [x]) = Some n -> fs !! pathOf es = Some NDir.

Lemma well_formed_up (fs : files) es r n : well_formed fs -> names es -> names r -> r <> [] -> fs !! pathOf (es ++ r) = Some n -> fs !! pathOf es = Some NDir.
Proof.
  intros Hwf He Hr. revert n. induction r as [|x r IH] using rev_ind; intros n Hne H; [done|]. apply Forall_app in Hr as [Hr [Hx _]%Forall_cons].
  rewrite app_assoc in H. apply Hwf in H; [|by auto with tree|done]. destruct (decide (r = [])) as [->|Hr0]; [by rewrite app_nil_r in H|].
  by apply (IH Hr NDir Hr0).
Qed.

Section Trees.
Context {FT : Faults}.

Lemma does_MkdirAll_new es x now (fs : files) :
  names es -> GoPath.plain x -> fs !! pathOf (es ++ [x]) = None ->
  (forall es1 es2, es1 <> [] -> es = es1 ++ es2 -> fs !! pathOf es1 = Some NDir) ->
  does (MkdirAll (pathOf (es ++ [x]))) now fs (inr tt) (<[pathOf (es ++ [x]) := NDir]> fs).
Proof.
  intros He Hx Hnone Hdirs. apply does_syscall. intros w <- <-. rewrite Hnone.
  rewrite ancestors_pathOf by (auto with tree || by destruct es). rewrite tops_snoc, mkdirs_app.
  - cbn [mkdirs app]. by rewrite Hnone.
  - apply Forall_forall. intros p (es1 & es2 & Hne & -> & ->)%elem_of_tops. simpl. by apply (Hdirs es1 es2).
Qed.

End Trees.

End FileTree.
