(* ===== verification/Polling.v ===== *)
(** * Waiting for a condition with a deadline.

    [for time.Now().Before(deadline) { if check() { return true }; time.Sleep(interval) };
    return false], the loop of the code that waits for the database server, and the state
    of TCP ports.  The check takes time of its own. *)

From S2P Require Import Prelude GoStrings GoTime World.
Import GoStrings GoTime World.

Module Polling.

(** Whether a TCP connection to a port is accepted at a tick, and how many nanoseconds pass
    while a poll that begins at a tick looks at the server. *)
Class Net := mkNet { port_open : nat -> gostring -> Z -> bool; check_time : nat -> N }.

(** [net.DialTimeout], without what it returns. *)
Definition Dials {NT : Net} (host : gostring) (port : Z) : M bool :=
  fun w => (port_open (w_tick w) host port, tick w).

(** A check and the time it takes. *)
Definition timed {NT : Net} (check : M bool) : M bool := fun w =>
  let '(ok, w') := check w in (ok, snd (Sleep (Z.of_N (check_time (w_tick w))) w')).

Fixpoint poll {NT : Net} (fuel : nat) (deadline : Time) (interval : Z) (check : M bool) : M bool :=
  match fuel with
  | O => mret false
  | S fuel' =>
      now ← get_now;
      if Before now deadline then
        ok ← timed check;
        if (ok : bool) then mret true
        else _ ← Sleep interval; poll fuel' deadline interval check
      else mret false
  end.

(** Enough rounds for any polling at this interval. *)
Definition pollFuel (timeout interval : Z) : nat := S (Z.to_nat (timeout / interval + 1)).

(** [deadline := time.Now().Add(timeout)], then the loop. *)
Definition poll_for {NT : Net} (timeout interval : Z) (check : M bool) : M bool :=
  now ← get_now;
  poll (pollFuel timeout interval) (Add now timeout) interval check.

(** ** Lemmas *)

(** The number of polls before a deadline, if none takes time. *)
Definition polls (left interval : Z) : nat := Z.to_nat ((left + interval - 1) / interval).

Lemma polls_pos left interval : (0 < interval -> 0 < left -> polls left interval = S (polls (left - interval) interval))%Z.
Proof.
  intros Hi Hl. unfold polls. replace (left - interval + interval - 1)%Z with (left + interval - 1 + (-1) * interval)%Z by lia.
  rewrite Z.div_add by lia. assert (1 <= (left + interval - 1) / interval)%Z by (apply Z.div_le_lower_bound; lia). lia.
Qed.

Lemma polls_mono left left' interval : (0 < interval)%Z -> (left <= left')%Z -> polls left interval <= polls left' interval.
Proof. intros Hi Hl. unfold polls. assert ((left + interval - 1) / interval <= (left' + interval - 1) / interval)%Z by (apply Z.div_le_mono; lia). lia. Qed.

Section Spec.
Context {NT : Net} (check : M bool) (answers : nat -> bool).
Hypothesis check_answers : forall w, check w = (answers (w_tick w), tick w).

(** The time from the first poll, at tick [t], to the beginning of the [i]th next one. *)
Fixpoint begins (interval : Z) (t i : nat) : Z :=
  match i with
  | O => 0
  | S i' => Z.of_N (check_time t) + interval + begins interval (S t) i'
  end.

Lemma begins_pos interval t i : (0 <= interval -> 0 <= begins interval t i)%Z.
Proof using Type. intros Hi. revert t. induction i as [|i IH]; intros t; simpl; [lia|]. specialize (IH (S t)). lia. Qed.

Lemma begins_const interval c t i : (forall t, check_time t = c) -> begins interval t i = (Z.of_nat i * (Z.of_N c + interval))%Z.
Proof using Type. intros Hc. revert t. induction i as [|i IH]; intros t; [done|]. cbn [begins]. rewrite IH, Hc. lia. Qed.

(** Some poll that begins within the time left is answered. *)
Definition answered (interval left : Z) (t : nat) : Prop := exists i, (begins interval t i < left)%Z /\ answers (t + i) = true.

Lemma answered_step interval left t : (0 < interval)%Z -> (0 < left)%Z ->
  answered interval left t <-> answers t = true \/ answered interval (left - Z.of_N (check_time t) - interval) (S t).
Proof using Type.
  intros Hi Hl. split.
  - intros ([|i] & Hb & Ha); [left; by rewrite Nat.add_0_r in Ha|right]. exists i. rewrite Nat.add_succ_l, <- Nat.add_succ_r. simpl in Hb. split; [lia|done].
  - intros [Ha|(i & Hb & Ha)]; [exists 0; by rewrite Nat.add_0_r|]. exists (S i). rewrite Nat.add_succ_r, <- Nat.add_succ_l. simpl. split; [lia|done].
Qed.

Lemma answered_over interval left t : (0 < interval -> left <= 0 -> ~ answered interval left t)%Z.
Proof using Type. intros Hi Hl (i & Hb & _). pose proof (begins_pos interval t i). lia. Qed.

Lemma poll_spec deadline interval fuel w :
  proper (w_now w) -> proper deadline -> (0 < interval)%Z ->
  let left := (instant deadline - instant (w_now w))%Z in
  polls left interval <= fuel ->
  (fst (poll fuel deadline interval check w) = true <-> answered interval left (w_tick w)) /\
  forall fuel', polls left interval <= fuel' -> poll fuel' deadline interval check w = poll fuel deadline interval check w.
Proof using check_answers.
  intros Hw Hd Hi. revert w Hw. induction fuel as [|fuel IH]; intros w Hw left Hn;
    (assert (Before (w_now w) deadline = (0 <? left)%Z) as HB by (rewrite Before_instant by done; apply eq_true_iff_eq; rewrite !Z.ltb_lt; unfold left; lia)).
  - destruct (0 <? left)%Z eqn:El; bool_prop; [rewrite polls_pos in Hn by lia; lia|].
    split; [split; [done|intros H; by apply answered_over in H]|]. intros [|fuel'] _; [done|]. cbn [poll]. unfold mbind, M_bind, get_now. by rewrite HB.
  - destruct (0 <? left)%Z eqn:El; bool_prop.
    2: { assert (forall k, poll k deadline interval check w = (false, w)) as E by (intros [|k]; [done|]; cbn [poll]; unfold mbind, M_bind, get_now; by rewrite HB).
         split; [rewrite E; split; [done|intros H; by apply answered_over in H]|intros; by rewrite !E]. }
    set (w0 := snd (Sleep (Z.of_N (check_time (w_tick w))) (tick w))). set (w1 := snd (Sleep interval w0)).
    assert (instant (w_now w1) = instant (w_now w) + Z.of_N (check_time (w_tick w)) + interval /\ proper (w_now w1))%Z as [Hin Hp1].
    { destruct (Add_instant (w_now w0) interval) as [E1 P1]. destruct (Add_instant (w_now w) (Z.of_N (check_time (w_tick w)))) as [E0 _].
      split; [|exact P1]. change (w_now w1) with (Add (w_now w0) interval). rewrite E1. change (w_now w0) with (Add (w_now w) (Z.of_N (check_time (w_tick w)))). lia. }
    assert (S (polls (instant deadline - instant (w_now w1)) interval) <= polls left interval) as En.
    { rewrite (polls_pos left) by lia. apply le_n_S, polls_mono; [done|]. unfold left. lia. }
    destruct (IH w1 Hp1) as [IH1 IH2]; [lia|].
    assert (forall k, poll (S k) deadline interval check w = if answers (w_tick w) then (true, w0) else poll k deadline interval check w1) as Estep.
    { intros k. cbn [poll]. unfold mbind, M_bind, get_now, timed. rewrite HB, check_answers. by destruct (answers (w_tick w)). }
    rewrite Estep, answered_step by done. replace (left - _ - interval)%Z with (instant deadline - instant (w_now w1))%Z by (unfold left; lia). split.
    + destruct (answers (w_tick w)); [split; auto|]. rewrite IH1. split; [by right|by intros [|]].
    + intros [|fuel'] Hf; [lia|]. rewrite Estep. destruct (answers (w_tick w)); [done|]. apply IH2. lia.
Qed.

Lemma poll_for_spec timeout interval w :
  proper (w_now w) -> (0 < interval)%Z -> (0 <= timeout)%Z ->
  (fst (poll_for timeout interval check w) = true <-> answered interval timeout (w_tick w)) /\
  forall fuel, pollFuel timeout interval <= fuel ->
    poll fuel (Add (w_now w) timeout) interval check w = poll_for timeout interval check w.
Proof using check_answers.
  intros Hw Hi Ht. destruct (Add_instant (w_now w) timeout) as [Ea Hp].
  assert (instant (Add (w_now w) timeout) - instant (w_now w) = timeout)%Z as El by lia.
  assert (polls timeout interval <= pollFuel timeout interval) as Hf.
  { unfold polls, pollFuel. assert ((timeout + interval - 1) / interval <= timeout / interval + 1)%Z; [|lia].
    rewrite <- Z.div_add with (b := 1%Z) (c := interval) by lia. apply Z.div_le_mono; lia. }
  destruct (poll_spec (Add (w_now w) timeout) interval (pollFuel timeout interval) w Hw Hp Hi) as [H1 H2]; [by rewrite El|].
  rewrite El in H1, H2. split; [exact H1|]. intros fuel Hfuel. apply H2. lia.
Qed.

End Spec.

(** Polling leaves the files alone. *)
Lemma poll_fs {NT : Net} fuel deadline interval check w : quiet check -> w_fs (snd (poll fuel deadline interval check w)) = w_fs w.
Proof.
  intros Hq. revert w. induction fuel as [|fuel IH]; intros w; [done|]. cbn [poll]. unfold mbind, M_bind, get_now, timed.
  destruct (Before (w_now w) deadline); [|done]. pose proof (quiet_fs check w Hq) as H. destruct (check w) as [[|] w1]; [done|].
  cbn [Sleep fst snd]. by rewrite IH.
Qed.

Lemma forward_poll_for {NT : Net} timeout interval check : forward check -> forward (poll_for timeout interval check).
Proof.
  intros Hc w. unfold poll_for, mbind, M_bind, get_now. generalize (Add (w_now w) timeout) as deadline. intros deadline. revert w.
  induction (pollFuel timeout interval) as [|fuel IH]; intros w; [done|]. cbn [poll]. unfold mbind, M_bind, get_now, timed.
  destruct (Before (w_now w) deadline); [|done]. specialize (Hc w). destruct (check w) as [[|] w1]; [done|].
  simpl in Hc. cbn [Sleep fst snd]. etrans; [exact Hc|]. apply (IH (mkWorld _ _ _ _ _)).
Qed.

(** A network that accepts no connection and answers at once. *)
Definition noNet : Net := mkNet (fun _ _ _ => false) (fun _ => 0%N).

End Polling.
