(* ===== verification/I18n.v ===== *)
(** * internal/i18n: translated messages.

    Detection of the language, loading, lookup and formatting.  [translations_agree]
    compares the four embedded files. *)

From S2P Require Import Prelude GoStrings World GoFmt Translations.
Import GoStrings World GoFmt.

Module I18n.

Definition LangEN : gostring := "en".

(** The translations loaded for the current language. *)
Class Messages := messages : gmap gostring gostring.

(** A missing or empty translation yields the key. *)
Definition T `{Messages} (key : gostring) : gostring :=
  match messages !! key with
  | Some s => if s ==? [] then key else s
  | None => key
  end.

(** The translation with the arguments in their places. *)
Definition Tf `{Messages} `{ErrorText} `{ErrorPrint} (key : gostring) (a : list Arg) : option gostring := Sprintf (T key) a.

(** [fmt.Errorf(i18n.Tf(key, a...), b...)], as the errors that name a file or a database are
    made: the text and the wrapped errors. *)
Definition ErrorfTf `{Messages} `{ErrorText} `{ErrorPrint} (key : gostring) (a b : list Arg) : option (gostring * list err) :=
  format ← Tf key a; FmtErrorf format b.

(** One locale variable: the part before the first dot, underscore or at sign. *)
Fixpoint lang_part (v : gostring) : gostring :=
  match v with
  | [] => []
  | c :: v' => if (c ==? "."%char) || (c ==? "_"%char) || (c ==? "@"%char) then [] else c :: lang_part v'
  end.

Definition lang_of (v : gostring) : option gostring :=
  let part := ToLower (TrimSpace (lang_part v)) in
  if (part ==? str "de") || (part ==? str "en") || (part ==? str "fr") || (part ==? str "nl") then Some part
  else if (part ==? str "en_gb") || (part ==? str "en_us") || (part ==? str "en_au") then Some LangEN
  else None.

Fixpoint detect_in (getenv : gostring -> gostring) (vars : list gostring) : gostring :=
  match vars with
  | [] => LangEN
  | env :: vars' =>
      let v := getenv env in
      if v ==? [] then detect_in getenv vars'
      else match lang_of v with
           | Some l => l
           | None => detect_in getenv vars'
           end
  end.

Definition detectLang (getenv : gostring -> gostring) : gostring :=
  detect_in getenv [str "LC_ALL"; str "LANG"; str "LANGUAGE"].

(** ** Loading

    The embedded files and the decoding of their JSON are parameters: [ReadFile] gives a
    file's contents, [Unmarshal] the map it holds, [None] for contents that leave the map nil. *)

Record State := mkState { lang : gostring; loaded : option (gmap gostring gostring) }.

Section Load.
Variables (ReadFile : gostring -> option gostring) (Unmarshal : gostring -> option (gmap gostring gostring)).

Definition fileOf (l : gostring) : gostring := "translations/" ++ l ++ ".json".

Definition loadLang (l : gostring) : State :=
  let '(l', data) :=
    match ReadFile (fileOf l) with
    | Some data => (l, Some data)
    | None =>
        if l ==? LangEN then (l, None)
        else match ReadFile (fileOf LangEN) with
             | Some data => (LangEN, Some data)
             | None => (l, None)
             end
    end in
  match data with
  | None => mkState l' (Some ∅)
  | Some data => mkState l' (Some (default ∅ (Unmarshal data)))
  end.

Definition init (getenv : gostring -> gostring) : State := loadLang (detectLang getenv).

Definition Lang (st : State) : gostring := lang st.

(** A language is one of the four whatever the environment says. *)
Lemma detectLang_supported getenv : detectLang getenv ∈ [str "de"; str "en"; str "fr"; str "nl"].
Proof.
  unfold detectLang. generalize [str "LC_ALL"; str "LANG"; str "LANGUAGE"]. intros vars.
  induction vars as [|v vars IH]; [right; left|]. cbn [detect_in]. case_bool_decide; [done|].
  destruct (lang_of (getenv v)) as [l|] eqn:E; [|done]. unfold lang_of in E.
  destruct (_ || _) eqn:E1 in E.
  - injection E as <-. rewrite !orb_true_iff, !bool_decide_eq_true in E1.
    destruct E1 as [[[-> | ->] | ->] | ->]; apply (bool_decide_eq_true_1 _); reflexivity.
  - destruct (_ || _) in E; [|done]. injection E as <-. right. left.
Qed.

(** There always is a map of messages; with the embedded files the language is the
    detected one, and without its file but with the English one, English. *)
Lemma loadLang_loaded l : is_Some (loaded (loadLang l)) /\
  Lang (loadLang l) = if ReadFile (fileOf l) then l else if ReadFile (fileOf LangEN) then LangEN else l.
Proof.
  unfold loadLang, Lang. destruct (ReadFile (fileOf l)); [by eauto|]. case_bool_decide.
  - subst. destruct (ReadFile (fileOf LangEN)); eauto.
  - destruct (ReadFile (fileOf LangEN)); eauto.
Qed.

End Load.

(** ** The embedded files *)

Abbreviation table := (list (string * string)).

Definition embedded : list (gostring * table) :=
  [(str "de", Translations.de); (str "en", Translations.en); (str "fr", Translations.fr); (str "nl", Translations.nl)].

Definition messagesOf (t : table) : Messages := (list_to_map ((fun '(k, v) => (str k, str v)) <$> t) : gmap gostring gostring).

(** The first entry of a key. *)
Fixpoint entry (t : table) (key : gostring) : option gostring :=
  match t with
  | [] => None
  | (k, v) :: t' => if str k ==? key then Some (str v) else entry t' key
  end.

Definition text (t : table) (key : gostring) : gostring :=
  match entry t key with
  | Some v => if v ==? [] then key else v
  | None => key
  end.

Lemma messagesOf_entry t key : @messages (messagesOf t) !! key = entry t key.
Proof.
  unfold messages, messagesOf. induction t as [|[k v] t IH]; [done|]. cbn [fmap list_fmap list_to_map foldr curry entry fst snd].
  case_bool_decide as E; [subst; by rewrite lookup_insert_eq|]. by rewrite lookup_insert_ne.
Qed.

Lemma T_text t key : @T (messagesOf t) key = text t key.
Proof. unfold T, text. by rewrite messagesOf_entry. Qed.

(** Two files with the same keys whose texts have the same directives. *)
Fixpoint agree (t u : table) : bool :=
  match t, u with
  | [], [] => true
  | (k, v) :: t', (k', v') :: u' =>
      (str k ==? str k') && (directives (str v) ==? directives (str v')) && negb (str v ==? []) && negb (str v' ==? []) && agree t' u'
  | _, _ => false
  end.

Lemma agree_text t u key : agree t u = true -> directives (text t key) = directives (text u key).
Proof.
  revert u. induction t as [|[k v] t IH]; intros [|[k' v'] u] H; try done. cbn [agree] in H. bool_prop.
  unfold text in *. cbn [entry]. match goal with H : str k = str k' |- _ => rewrite <- H end.
  case_bool_decide; [|by apply IH]. by rewrite !bool_decide_eq_false_2.
Qed.

Lemma embedded_agree : Forall (fun '(_, t) => agree t Translations.en = true) embedded.
Proof. repeat constructor; vm_compute; reflexivity. Qed.

(** The directives of a message are the same in every language. *)
Lemma translations_agree l t key : (l, t) ∈ embedded -> directives (@T (messagesOf t) key) = directives (@T (messagesOf Translations.en) key).
Proof.
  intros H. rewrite !T_text. apply agree_text. pose proof embedded_agree as HF. rewrite Forall_forall in HF. exact (HF _ H).
Qed.

(** ** Messages with arguments their texts take *)

Definition typed (key : gostring) (a : list Arg) : bool := fits false (text Translations.en key) (kind <$> a).

Lemma typed_fits l t key a : (l, t) ∈ embedded -> typed key a = true -> fits false (@T (messagesOf t) key) (kind <$> a) = true.
Proof. intros H. unfold typed, fits. by rewrite (translations_agree l t key H), T_text. Qed.

(** Formatting such a message gives its text with the arguments in the holes. *)
Lemma Tf_typed `{ErrorText} `{ErrorPrint} l t key a : (l, t) ∈ embedded -> typed key a = true ->
  exists ps, cut (@T (messagesOf t) key) = Some ps /\ @Tf (messagesOf t) _ _ key a = Some (fill ps a).
Proof. intros Ht Ha. apply Sprintf_fits. by eapply typed_fits. Qed.

(** ** Errors formatted twice *)

(** The text up to the next directive, and the rest. *)
Fixpoint upto (ps : list Piece) : gostring * list Piece :=
  match ps with
  | Text c :: ps' => let '(s, r) := upto ps' in (c :: s, r)
  | _ => ([], ps)
  end.

(** What surrounds the name and the cause in a text with just these two directives. *)
Definition around (f : gostring) : gostring * gostring * gostring :=
  let '(pre, r) := upto (default [] (cut f)) in
  let '(mid, r) := upto (tail r) in
  (pre, mid, fst (upto (tail r))).

Definition named (f : gostring) : bool :=
  let '(pre, mid, post) := around f in
  bool_decide (f = pre ++ "%s" ++ mid ++ "%w" ++ post) && bool_decide (percent ∉ pre ++ mid ++ post).

(** The errors with a name and a cause as their only arguments.  (Two more have a third one:
    err.mysqldump_db and err.write_cron_need_root.) *)
Definition namedErrors : list gostring :=
  [str "err.zip_db"; str "err.dump_db"; str "err.zip_user_block"; str "err.upload"; str "err.file_failed"; str "err.restore_zip"; str "err.write_path"].

Lemma namedErrors_named : Forall (fun '(_, t) => forallb (fun key => named (text t key)) namedErrors = true) embedded.
Proof. repeat constructor; vm_compute; reflexivity. Qed.

Section Twice.
Context {ET : ErrorText} {EP : ErrorPrint}.

Lemma doPrintf_skip wrap s f a : percent ∉ s -> doPrintf wrap Literal (s ++ f) a = before s (doPrintf wrap Literal f a).
Proof.
  induction s as [|c s IH]; intros H; [cbn; by destruct (doPrintf wrap Literal f a) as [[]|]|].
  apply not_elem_of_cons in H as [Hc H]. cbn [app doPrintf]. rewrite bool_decide_eq_false_2 by congruence. rewrite IH by done.
  by destruct (doPrintf wrap Literal f a) as [[]|].
Qed.

Lemma Sprintf_named pre mid post name :
  percent ∉ pre -> percent ∉ mid -> percent ∉ post ->
  Sprintf (pre ++ "%s" ++ mid ++ "%w" ++ post) [AStr name] = Some (pre ++ name ++ mid ++ "%!w(MISSING)" ++ post).
Proof.
  intros H1 H2 H3. unfold Sprintf. rewrite doPrintf_skip by done. change ("%s" ++ mid ++ "%w" ++ post) with (directive VS ++ mid ++ "%w" ++ post).
  rewrite doPrintf_hole by done. rewrite doPrintf_skip by done.
  change (doPrintf false Literal (str "%w" ++ post) []) with (before "%!w(MISSING)" (doPrintf false Literal post [])).
  rewrite <- (app_nil_r post) at 1. rewrite doPrintf_skip by done. cbn. by rewrite app_nil_r.
Qed.

Lemma FmtErrorf_missing pre post e :
  percent ∉ pre -> percent ∉ post ->
  FmtErrorf (pre ++ "%!w(MISSING)" ++ post) [AErr e] = Some (pre ++ error_verb e "!" ++ "w(MISSING)" ++ post, []).
Proof.
  intros H1 H2. unfold FmtErrorf. rewrite doPrintf_skip by done.
  change (doPrintf true Literal (str "%!w(MISSING)" ++ post) [AErr e]) with
    ((fun '(t, ws) => (error_verb e "!" ++ t, ws)) <$> doPrintf true Literal (str "w(MISSING)" ++ post) []).
  rewrite doPrintf_skip by (apply (bool_decide_eq_true_1 _); reflexivity).
  rewrite <- (app_nil_r post) at 1. rewrite doPrintf_skip by done. cbn. by rewrite app_nil_r.
Qed.

End Twice.

(** ** Theorems *)

(** C39: An error made from a name and a cause loses the cause: for each of the seven keys with
    just these two arguments, which fmt.Errorf is given as an already formatted text, in every
    language the error's text shows the cause as a value with "w(MISSING)" behind it, not as its
    message, and the error wraps nothing.  (The name has no percent sign.) *)
Theorem named_error_loses_cause (ET : ErrorText) (EP : ErrorPrint) lang t key name e :
  (lang, t) ∈ embedded -> key ∈ namedErrors -> percent ∉ name ->
  exists pre mid post, @T (messagesOf t) key = pre ++ "%s" ++ mid ++ "%w" ++ post /\
    @ErrorfTf (messagesOf t) _ _ key [AStr name] [AErr e] = Some (pre ++ name ++ mid ++ error_verb e "!" ++ "w(MISSING)" ++ post, []).
Proof.
  intros Ht Hk Hn. pose proof namedErrors_named as HF. rewrite Forall_forall in HF. specialize (HF _ Ht). cbn beta iota in HF.
  rewrite forallb_forall in HF. specialize (HF key (proj1 (list_elem_of_In _ _) Hk)). unfold named in HF.
  destruct (around (text t key)) as [[pre mid] post]. bool_prop. exists pre, mid, post. rewrite <- T_text in *. split; [done|].
  match goal with H : percent ∉ _ |- _ => rewrite !not_elem_of_app in H; destruct H as (H1 & H2 & H3) end.
  unfold ErrorfTf, Tf. match goal with H : T key = _ |- _ => rewrite H end. rewrite Sprintf_named by done. cbn [mbind option_bind].
  pose proof (FmtErrorf_missing (pre ++ name ++ mid) post e) as HM. rewrite <- !(assoc_L (++)) in HM. rewrite HM; [done| |done].
  rewrite !not_elem_of_app. done.
Qed.

(** ** Witnesses *)

Lemma named_error_loses_cause_witness :
  exists pre mid post, @T (messagesOf Translations.fr) "err.dump_db" = pre ++ "%s" ++ mid ++ "%w" ++ post /\
    @ErrorfTf (messagesOf Translations.fr) (fun _ => []) (mkPrint (fun _ => []) (fun _ _ => [])) "err.dump_db" [AStr "shop"] [AErr ENOENT]
    = Some (pre ++ "shop" ++ mid ++ [] ++ "w(MISSING)" ++ post, []).
Proof.
  apply (named_error_loses_cause (fun _ => []) (mkPrint (fun _ => []) (fun _ _ => [])) (str "fr") Translations.fr "err.dump_db" "shop" ENOENT).
  - do 2 right. left.
  - right. left.
  - apply (bool_decide_eq_true_1 _). reflexivity.
Defined.

End I18n.
