(* ===== verification/Config.v ===== *)
(** * internal/config: the settings and where they come from.

    The JSON reader with its password encryption (github.com/janmz/sconfig) is a
    parameter: it turns the defaults and a path into an error or a configuration. *)

From S2P Require Import Prelude GoStrings GoPath World.
Import GoStrings World.

Module Config.

Record Config := mkConfig {
  Version : Z;
  MySQLHost : gostring;
  MySQLHostname : gostring;
  MySQLPort : Z;
  MySQLBin : gostring;
  MySQLDataDir : gostring;
  MySQLBackupDir : gostring;
  MySQLAutoStartStop : bool;
  MySQLStartCmd : gostring;
  MySQLStopCmd : gostring;
  RootPassword : gostring;
  RootSecurePassword : gostring;
  RetainDaily : Z;
  RetainWeekly : Z;
  RetainMonthly : Z;
  RetainYearly : Z;
  BackupDir : gostring;
  LogFilename : gostring;
  AdminEmail : gostring;
  AdminSMTPServer : gostring;
  AdminSMTPPort : Z;
  AdminSMTPUser : gostring;
  AdminSMTPTLS : gostring;
  AdminSMTPPassword : gostring;
  AdminSMTPSecurePassword : gostring;
  RemoteBackupDir : gostring;
  RemoteSSHHost : gostring;
  RemoteSSHPort : Z;
  RemoteSSHUser : gostring;
  RemoteSSHPassword : gostring;
  RemoteSSHSecurePassword : gostring;
  RemoteSSHKeyFile : gostring;
  RemoteAESPassword : gostring;
  RemoteAESSecurePassword : gostring;
  StartTime : gostring
}.

Definition DefaultConfig : Config := {|
  Version := 0;
  MySQLHost := [];
  MySQLHostname := [];
  MySQLPort := 3306;
  MySQLBin := [];
  MySQLDataDir := [];
  MySQLBackupDir := [];
  MySQLAutoStartStop := false;
  MySQLStartCmd := [];
  MySQLStopCmd := [];
  RootPassword := [];
  RootSecurePassword := [];
  RetainDaily := 14;
  RetainWeekly := 3;
  RetainMonthly := 3;
  RetainYearly := 3;
  BackupDir := [];
  LogFilename := [];
  AdminEmail := [];
  AdminSMTPServer := [];
  AdminSMTPPort := 587;
  AdminSMTPUser := [];
  AdminSMTPTLS := [];
  AdminSMTPPassword := [];
  AdminSMTPSecurePassword := [];
  RemoteBackupDir := [];
  RemoteSSHHost := [];
  RemoteSSHPort := 22;
  RemoteSSHUser := [];
  RemoteSSHPassword := [];
  RemoteSSHSecurePassword := [];
  RemoteSSHKeyFile := [];
  RemoteAESPassword := [];
  RemoteAESSecurePassword := [];
  StartTime := "22:00"
|}.

(** The settings with other values for the seven paths. *)
Definition with_paths (c : Config) (bin dataDir myBackupDir backupDir logFilename remoteDir keyFile : gostring) : Config := {|
  Version := Version c;
  MySQLHost := MySQLHost c;
  MySQLHostname := MySQLHostname c;
  MySQLPort := MySQLPort c;
  MySQLBin := bin;
  MySQLDataDir := dataDir;
  MySQLBackupDir := myBackupDir;
  MySQLAutoStartStop := MySQLAutoStartStop c;
  MySQLStartCmd := MySQLStartCmd c;
  MySQLStopCmd := MySQLStopCmd c;
  RootPassword := RootPassword c;
  RootSecurePassword := RootSecurePassword c;
  RetainDaily := RetainDaily c;
  RetainWeekly := RetainWeekly c;
  RetainMonthly := RetainMonthly c;
  RetainYearly := RetainYearly c;
  BackupDir := backupDir;
  LogFilename := logFilename;
  AdminEmail := AdminEmail c;
  AdminSMTPServer := AdminSMTPServer c;
  AdminSMTPPort := AdminSMTPPort c;
  AdminSMTPUser := AdminSMTPUser c;
  AdminSMTPTLS := AdminSMTPTLS c;
  AdminSMTPPassword := AdminSMTPPassword c;
  AdminSMTPSecurePassword := AdminSMTPSecurePassword c;
  RemoteBackupDir := remoteDir;
  RemoteSSHHost := RemoteSSHHost c;
  RemoteSSHPort := RemoteSSHPort c;
  RemoteSSHUser := RemoteSSHUser c;
  RemoteSSHPassword := RemoteSSHPassword c;
  RemoteSSHSecurePassword := RemoteSSHSecurePassword c;
  RemoteSSHKeyFile := keyFile;
  RemoteAESPassword := RemoteAESPassword c;
  RemoteAESSecurePassword := RemoteAESSecurePassword c;
  StartTime := StartTime c
|}.

Definition cleanPath (p : gostring) : gostring := GoPath.FromSlash (GoPath.Clean p).

(** An optional path stays empty. *)
Definition cleanOptional (p : gostring) : gostring := if p ==? [] then p else cleanPath p.

Definition normalizePaths (c : Config) : Config :=
  with_paths c (cleanOptional (MySQLBin c)) (cleanOptional (MySQLDataDir c)) (cleanOptional (MySQLBackupDir c))
    (cleanPath (BackupDir c)) (cleanPath (LogFilename c)) (cleanPath (RemoteBackupDir c))
    (cleanOptional (RemoteSSHKeyFile c)).

Section Load.
(** [sconfig.LoadConfig(cfg, version, path, cleanConfig, debug)]. *)
Variable sconfig_LoadConfig : Config -> Z -> gostring -> bool -> bool -> err + Config.

Definition Load (path : gostring) (cleanConfig : bool) : err + Config :=
  let cfg := DefaultConfig in
  match sconfig_LoadConfig cfg (Version cfg) path cleanConfig false with
  | inl e => inl (Errorf "err.sconfig_load" [] (Some e))
  | inr cfg => inr (normalizePaths cfg)
  end.

Definition LoadClean (path : gostring) (debug : bool) : option err :=
  let cfg := DefaultConfig in
  match sconfig_LoadConfig cfg (Version cfg) path true debug with
  | inl e => Some (Errorf "err.sconfig_clean" [] (Some e))
  | inr _ => None
  end.

End Load.

Definition HostnameForBackup (c : Config) : gostring :=
  let h := TrimSpace (MySQLHost c) in
  if ((h ==? str "localhost") || (h ==? str "127.0.0.1")) && negb (TrimSpace (MySQLHostname c) ==? [])
  then TrimSpace (MySQLHostname c)
  else if h ==? [] then str "localhost" else h.

(** What the process can ask about itself; each question may fail. *)
Record ProcEnv := mkEnv {
  Executable : err + gostring;
  Getwd : err + gostring;
  UserHomeDir : err + gostring
}.

Definition configName : gostring := "config.json".

Definition ConfigPath `{Faults} (env : ProcEnv) (flagPath invokedDir : gostring) : M gostring :=
  if negb (flagPath ==? []) then mret (GoPath.FromSlash (GoPath.Clean flagPath))
  else if negb (invokedDir ==? []) then
    let p := GoPath.Join invokedDir configName in
    r ← Stat p;
    match r with inr _ => mret p | inl _ => mret p end
  else match Executable env with
  | inr exe =>
      let p := GoPath.Join (GoPath.Dir exe) configName in
      r ← Stat p;
      match r with inr _ => mret p | inl _ => mret p end
  | inl _ =>
      r ← Stat configName;
      match r with
      | inr _ => mret configName
      | inl _ =>
          let home := match UserHomeDir env with
                      | inr h => GoPath.Join h configName
                      | inl _ => configName
                      end in
          match Getwd env with
          | inr dir =>
              let p := GoPath.Join dir configName in
              r ← Stat p;
              match r with inr _ => mret p | inl _ => mret home end
          | inl _ => mret home
          end
      end
  end.

(** ** Theorems *)

(** After [Load], the backup directory, the log file name and the remote directory are never
    empty, whatever the file says: an unset one has become ".". *)
Theorem Load_paths_never_empty sconfig path clean cfg :
  Load sconfig path clean = inr cfg ->
  BackupDir cfg <> [] /\ LogFilename cfg <> [] /\ RemoteBackupDir cfg <> [].
Proof.
  unfold Load. destruct (sconfig _ _ _ _ _) as [e|c]; [done|]. intros [= <-]. simpl.
  unfold cleanPath, GoPath.FromSlash. auto using GoPath.Clean_nonempty.
Qed.

(** ** Witnesses *)

Lemma Load_paths_never_empty_witness :
  exists cfg, Load (fun c _ _ _ _ => inr c) "mysqlbackup.json" false = inr cfg /\ LogFilename cfg <> [].
Proof.
  exists (normalizePaths DefaultConfig). split; [reflexivity|].
  exact (proj1 (proj2 (Load_paths_never_empty (fun c _ _ _ _ => inr c) "mysqlbackup.json" false (normalizePaths DefaultConfig) eq_refl))).
Defined.

End Config.
