(* ===== verification/Mysql.v ===== *)
(** * internal/mysql: the command lines of the MySQL client programs.

    The programs are external: [Exec] gives their output.  The Unix build is
    modelled, where executables have no suffix. *)

From S2P Require Import Prelude GoStrings GoTime GoPath World.
Import GoStrings GoTime World.

Module Mysql.

Record Conn := mkConn {
  Host : gostring;
  Port : Z;
  User : gostring;
  Password : gostring;
  BinDir : gostring
}.

Definition binPath (c : Conn) (name : gostring) : gostring :=
  if TrimSpace (BinDir c) ==? [] then name else GoPath.Join (BinDir c) name.

Definition baseArgs (c : Conn) : list gostring :=
  let args := [str "-h"; Host c; str "-P"; Itoa (Port c); str "-u"; User c] in
  if negb (Password c ==? []) then args ++ ["-p" ++ Password c] else args.

Section Commands.
Context {EX : Exec}.
Variable c : Conn.

Definition Reachable : M (option err) :=
  r ← run_cmd (binPath c "mysql") (baseArgs c ++ [str "-e"; str "SELECT 1"]) [];
  mret match x_err r with
       | Some e => Some (Errorf "err.mysql_reachable" [x_combined r] (Some e))
       | None => None
       end.

Definition IsMariaDB : M (err + bool) :=
  r ← run_cmd (binPath c "mysql") (baseArgs c ++ [str "-e"; str "SELECT @@version"]) [];
  mret match x_err r with
       | Some e => inl (Errorf "err.mysql_version" [x_combined r] (Some e))
       | None => inr (Contains (ToLower (x_combined r)) "mariadb")
       end.

(** A line of the listing that is not a database to back up. *)
Definition skipped (line : gostring) : bool :=
  (line ==? []) || (line ==? str "Database") || (line ==? str "information_schema")
  || (line ==? str "performance_schema") || (line ==? str "mysql") || (line ==? str "sys").

(** The names in the output of SHOW DATABASES, and the scanner's error. *)
Definition parse_databases (out : gostring) : list gostring * option err :=
  let '(lines, ok) := ScanLines MaxScanTokenSize out in
  (filter (fun l => skipped l = false) (TrimSpace <$> lines), if ok then None else Some ErrTooLong).

Definition ListDatabases : M (list gostring * option err) :=
  r ← run_cmd (binPath c "mysql") (baseArgs c ++ [str "-e"; str "SHOW DATABASES"]) [];
  mret match x_err r with
       | Some e => ([], Some (Errorf "err.show_databases" [x_combined r] (Some e)))
       | None => parse_databases (x_combined r)
       end.

Definition escapeName (s : gostring) : gostring :=
  ReplaceAllByte (ReplaceAllByte s backslash "\\") squote "''".

Definition userQuery : gostring :=
  "SELECT user, host, plugin, COALESCE(authentication_string,'') FROM mysql.user WHERE user != '' AND user NOT IN ('root','mysql.sys','mysql.session','mariadb.sys')".

(** The CREATE USER statement for a row of mysql.user. *)
Definition createUserLine (user host plugin auth : gostring) : gostring :=
  let userEsc := escapeName user in
  let hostEsc := escapeName host in
  if negb (plugin ==? []) && negb (plugin ==? str "mysql_native_password") then
    "CREATE USER '" ++ userEsc ++ "'@'" ++ hostEsc ++ "' IDENTIFIED WITH " ++ plugin ++ " AS '"
    ++ escapeName auth ++ "';" ++ [LF]
  else if negb (auth ==? []) then
    "CREATE USER '" ++ userEsc ++ "'@'" ++ hostEsc ++ "' IDENTIFIED BY PASSWORD '" ++ escapeName auth
    ++ "';" ++ [LF]
  else "CREATE USER '" ++ userEsc ++ "'@'" ++ hostEsc ++ "';" ++ [LF].

(** The GRANT statements as SHOW GRANTS printed them. *)
Definition grantLines (out : gostring) : gostring :=
  fst (ScanLines MaxScanTokenSize out) ≫= fun l =>
    let g := TrimSpace l in
    if g ==? [] then [] else g ++ (if HasSuffix g ";" then [] else str ";") ++ [LF].

(** One row: the statements it contributes. *)
Definition exportRow (line : gostring) : M gostring :=
  match SplitN line TAB 4 with
  | [user; host; plugin0; auth] =>
      let plugin := TrimSpace plugin0 in
      let showQ := "SHOW GRANTS FOR '" ++ escapeName user ++ "'@'" ++ escapeName host ++ "'" in
      r ← run_cmd (binPath c "mysql") (baseArgs c ++ [str "-N"; str "-e"; showQ]) [];
      mret (createUserLine user host plugin auth
            ++ match x_err r with Some _ => [] | None => grantLines (x_combined r) end)
  | _ => mret []
  end.

Fixpoint exportRows (lines : list gostring) : M gostring :=
  match lines with
  | [] => mret []
  | l :: ls => a ← exportRow l; b ← exportRows ls; mret (a ++ b)
  end.

Definition exportUsersMariaDBFallback : M (err + gostring) :=
  r ← run_cmd (binPath c "mysql") (baseArgs c ++ [str "-N"; str "-e"; userQuery]) [];
  match x_err r with
  | Some e => mret (inl (Errorf "err.mysql_user_list" [x_combined r] (Some e)))
  | None =>
      let '(lines, ok) := ScanLines (512 * 1024) (x_combined r) in
      buf ← exportRows lines;
      if (ok : bool) then mret (inr buf) else mret (inl (Errorf "err.scan_user_list" [] (Some ErrTooLong)))
  end.

Definition exportUsersMariaDB : M (err + gostring) :=
  r ← run_cmd (binPath c "mysqldump") (baseArgs c ++ [str "--system=users"]) [];
  match x_err r with
  | None => mret (inr (x_combined r))
  | Some e =>
      let errStr := ToLower (x_combined r) in
      if Contains errStr "unknown" || Contains errStr "unrecognized" || Contains errStr "unknown variable"
         || Contains errStr "invalid"
      then exportUsersMariaDBFallback
      else mret (inl (Errorf "err.mysqldump_system_users" [x_combined r] (Some e)))
  end.

Definition ExportUsers (isMariaDB : bool) : M (err + gostring) :=
  if isMariaDB then exportUsersMariaDB
  else
    r ← run_cmd (binPath c "mysqlpump") (baseArgs c ++ [str "--exclude-databases=%"; str "--users"]) [];
    mret match x_err r with
         | Some e => inl (Errorf "err.mysqlpump_users" [x_combined r] (Some e))
         | None => inr (x_combined r)
         end.

Definition dumpArgs (db : gostring) (isMariaDB : bool) : list gostring :=
  baseArgs c ++ [str "--single-transaction"; str "--routines"; str "--triggers"; str "--events"]
  ++ (if isMariaDB then [] else [str "--set-gtid-purged=OFF"]) ++ [str "--databases"; db].

(** The dump goes to [dest] as it is produced; a failed write fails the command. *)
Definition DumpDatabase (db : gostring) (isMariaDB : bool) (dest : gostring -> M (err + unit)) : M (option err) :=
  r ← run_cmd (binPath c "mysqldump") (dumpArgs db isMariaDB) [];
  wr ← dest (x_out r);
  mret match x_err r, wr with
       | Some e, _ => Some (Errorf "err.mysqldump_db" [db; x_stderr r] (Some e))
       | None, inl e => Some (Errorf "err.mysqldump_db" [db; x_stderr r] (Some e))
       | None, inr _ => None
       end.

Definition ImportSQL (src : gostring) : M (option err) :=
  r ← run_cmd (binPath c "mysql") (baseArgs c) src;
  mret match x_err r with
       | Some e => Some (Errorf "err.mysql_import" [x_stderr r] (Some e))
       | None => None
       end.

End Commands.

Definition MysqldumpPath : gostring := "mysqldump".

(** ** Lemmas *)

(** The export of the users changes no file. *)
Lemma ExportUsers_quiet `{Exec} c b : quiet (ExportUsers c b) /\ forward (ExportUsers c b).
Proof.
  unfold ExportUsers, exportUsersMariaDB, exportUsersMariaDBFallback.
  assert (forall ls, quiet (exportRows c ls) /\ forward (exportRows c ls)) as Hrows.
  { induction ls as [|l ls [IHq IHf]]; cbn [exportRows]; [eauto with go|]. unfold exportRow.
    split; [solve_quiet|solve_forward]. }
  split; [solve_quiet|solve_forward]; by apply Hrows.
Qed.

Definition system_dbs : list gostring := [str "information_schema"; str "performance_schema"; str "mysql"; str "sys"].

Lemma skipped_spec l : skipped l = true <-> l = [] \/ l = str "Database" \/ l ∈ system_dbs.
Proof.
  unfold skipped, system_dbs. rewrite !orb_true_iff, !bool_decide_eq_true, !elem_of_cons. split; [tauto|].
  intros [?|[?|[?|[?|[?|[?|H]]]]]]; try tauto. by apply elem_of_nil in H.
Qed.

(** The lines delivered are taken apart from the short output. *)
Lemma parse_databases_unlines ls :
  Forall (fun l => LF ∉ l /\ (Z.of_nat (length l) < MaxScanTokenSize)%Z) ls ->
  parse_databases (unlines ls) = (filter (fun l => skipped l = false) ((TrimSpace ∘ drop_cr) <$> ls), None).
Proof.
  intros [H1 H2]%Forall_and. unfold parse_databases, ScanLines. rewrite raw_lines_unlines, scan_raw_ok by done.
  by rewrite list_fmap_compose.
Qed.

(** A name as the listing prints it. *)
Definition db_line (l : gostring) : Prop :=
  LF ∉ l /\ (Z.of_nat (length l) < MaxScanTokenSize)%Z /\ TrimSpace l = l /\ drop_cr l = l /\ l <> [].

Lemma db_lines_fmap ls : Forall db_line ls -> (TrimSpace ∘ drop_cr) <$> ls = ls.
Proof.
  induction 1 as [|l ls (_ & _ & Ht & Hc & _) _ IH]; [done|]. cbn [fmap list_fmap]. rewrite IH. simpl. by rewrite Hc, Ht.
Qed.

(** ** Theorems *)

(** From the output of SHOW DATABASES (a header line and the names) exactly the
    databases that are not system databases are listed, in order, without error, except
    that a database named "Database" is taken for the header and left out too. *)
Theorem ListDatabases_spec (EX : Exec) c w ls :
  let r := exec (w_tick w) (binPath c "mysql") (baseArgs c ++ [str "-e"; str "SHOW DATABASES"]) [] in
  x_err r = None -> x_combined r = unlines (str "Database" :: ls) -> Forall db_line ls ->
  fst (ListDatabases c w) = (filter (fun l => l ∉ system_dbs /\ l <> str "Database") ls, None).
Proof.
  intros r Hr Ho Hls. unfold ListDatabases, run_cmd, mbind, M_bind. fold r. rewrite Hr, Ho. cbn [fst mret M_ret].
  rewrite parse_databases_unlines.
  2: { constructor; [by apply (bool_decide_eq_true_1 _)|]. eapply Forall_impl; [exact Hls|]. by intros l (? & ? & _). }
  rewrite fmap_cons, db_lines_fmap by done. f_equal. rewrite filter_cons_False by done.
  apply list_filter_iff_in. eapply Forall_impl; [exact Hls|]. intros l (_ & _ & _ & _ & Hne). simpl.
  rewrite <- not_true_iff_false, skipped_spec. naive_solver.
Qed.

(** A line the client prints on its error stream becomes a database: standard output
    and standard error are read together, so a warning among the first lines is listed
    like a name. *)
Theorem ListDatabases_takes_warnings (EX : Exec) c w warning ls :
  let r := exec (w_tick w) (binPath c "mysql") (baseArgs c ++ [str "-e"; str "SHOW DATABASES"]) [] in
  x_err r = None -> x_combined r = unlines (warning :: ls) ->
  Forall (fun l => LF ∉ l /\ (Z.of_nat (length l) < MaxScanTokenSize)%Z) (warning :: ls) ->
  db_line warning -> skipped warning = false ->
  warning ∈ fst (fst (ListDatabases c w)).
Proof.
  intros r Hr Ho Hls (_ & _ & Ht & Hc & _) Hs. unfold ListDatabases, run_cmd, mbind, M_bind. fold r. rewrite Hr, Ho.
  cbn [fst mret M_ret]. rewrite parse_databases_unlines by done. cbn [fst fmap list_fmap].
  apply list_elem_of_filter. simpl. rewrite Hc, Ht. split; [done|left].
Qed.

(** ** Witnesses *)

Definition sampleConn : Conn := mkConn "localhost" 3306 "root" [] [].
Definition listing (out : gostring) : Exec := fun _ _ _ _ => mkExec out [] out None.
Definition atStart : World := mkWorld ∅ (mkTime 738000 0) 0 [] [].

Definition sampleDbs : list gostring := [str "crm"; str "information_schema"; str "mysql"; str "shop"].

Lemma sampleDbs_lines : Forall db_line sampleDbs.
Proof. repeat constructor; try discriminate; apply (bool_decide_eq_true_1 _); vm_compute; reflexivity. Qed.

Lemma ListDatabases_spec_witness :
  fst (@ListDatabases (listing (unlines (str "Database" :: sampleDbs))) sampleConn atStart) = ([str "crm"; str "shop"], None).
Proof.
  apply (ListDatabases_spec (listing (unlines (str "Database" :: sampleDbs))) sampleConn atStart sampleDbs);
    [reflexivity|reflexivity|apply sampleDbs_lines].
Defined.

Definition sampleWarning : gostring := "mysql: [Warning] Using a password on the command line interface can be insecure.".

Lemma ListDatabases_takes_warnings_witness :
  sampleWarning ∈ fst (fst (@ListDatabases (listing (unlines (sampleWarning :: str "Database" :: sampleDbs))) sampleConn atStart)).
Proof.
  apply (ListDatabases_takes_warnings (listing (unlines (sampleWarning :: str "Database" :: sampleDbs))) sampleConn atStart
    sampleWarning (str "Database" :: sampleDbs)).
  - reflexivity.
  - reflexivity.
  - apply (bool_decide_eq_true_1 _). vm_compute. reflexivity.
  - repeat split; try discriminate; apply (bool_decide_eq_true_1 _); vm_compute; reflexivity.
  - reflexivity.
Defined.

End Mysql.
