(* ===== verification/Retention.v ===== *)
(** * internal/retention: listing, selecting and pruning backups.

    [Apply] is the whole pruning run.  [retained] is the policy its comment documents, which
    it implements for at most one Sunday ([oneSunday]). *)

From S2P Require Import Prelude GoStrings Regexp GoTime GoPath GoRuntime World I18n.
Import GoStrings GoTime GoRuntime World I18n.

Module Retention.

Local Open Scope Z_scope.

(** ** Data *)

Definition backupPrefix : gostring := "mysql_backup_".

(** The pattern [mysql_backup_(\d{8})_]. *)
Definition dateInFilename : Regexp.re :=
  Regexp.Cat (Regexp.lit backupPrefix)
    (Regexp.Cat (Regexp.Grp 1 (Regexp.times 8 Regexp.cls_d)) (Regexp.lit "_")).

(** The pattern [^mysql_backup_\d{8}_]. *)
Definition namePattern : Regexp.re :=
  Regexp.Cat (Regexp.lit backupPrefix) (Regexp.Cat (Regexp.times 8 Regexp.cls_d) (Regexp.lit "_")).

Record BackupFile := mkBackup { Path : gostring; BDate : Time; ModTime : Time; Size : Z }.

(** ** Classification *)

Definition isLastDayOfMonth (t : Time) : bool :=
  let next := AddDate t 0 0 1 in
  negb (Month next =? Month t).

Definition Classify `{Messages} (t : Time) : gostring :=
  if (Month t =? 12) && (Day t =? 31) then T "retention.yearly"
  else if isLastDayOfMonth t then T "retention.monthly"
  else if Weekday t =? Sunday then T "retention.weekly"
  else T "retention.daily".

(** ** Listing *)

(** The tests a directory entry's name has to pass, and the date it carries. *)
Definition name_ok (name : gostring) : bool :=
  negb (bool_decide (length name < length backupPrefix + 8 + 2)%nat)
  && Regexp.MatchAnchored namePattern name
  && (GoPath.Ext name ==? str ".zip").

Definition name_date (name : gostring) : option Time :=
  if name_ok name then
    match Regexp.FindStringSubmatch dateInFilename 1 name with
    | Some (_ :: d :: _) => ParseDate d
    | _ => None
    end
  else None.

(** The zero [time.Time]. *)
Definition zeroTime : Time := mkTime 0 0.

Definition dateKey (t : Time) : gostring := FormatDate t.

Section Retention.
Context {FT : Faults} {AS : ArchiveSize} {SS : SliceSort} {MSG : Messages}.

(** One entry of the directory: skipped, or a file with what [Stat] says of it. *)
Definition list_entry (dir : gostring) (e : gostring * Node) : M (option BackupFile) :=
  match snd e with
  | NDir => mret None
  | NFile _ _ =>
      let name := fst e in
      match name_date name with
      | None => mret None
      | Some t =>
          let fullPath := GoPath.Join dir name in
          r ← Stat fullPath;
          match r with
          | inr (NFile d mt) => mret (Some (mkBackup fullPath t mt (data_size d)))
          | inr NDir => mret (Some (mkBackup fullPath t zeroTime dir_size))
          | inl _ => mret (Some (mkBackup fullPath t zeroTime 0))
          end
      end
  end.

Fixpoint list_loop (dir : gostring) (es : list (gostring * Node)) : M (list BackupFile) :=
  match es with
  | [] => mret []
  | e :: es' =>
      b ← list_entry dir e;
      rest ← list_loop dir es';
      mret (match b with Some f => f :: rest | None => rest end)
  end.

Definition older (a b : BackupFile) : bool := Before (BDate a) (BDate b).

Definition ListBackups (dir : gostring) : M (err + list BackupFile) :=
  let dir := GoPath.FromSlash dir in
  r ← ReadDir dir;
  match r with
  | inl e => if IsNotExist e then mret (inr []) else mret (inl e)
  | inr entries =>
      files ← list_loop dir entries;
      mret (inr (sort_slice older files))
  end.

(** ** Selecting a backup day *)

(** The scan from the newest file down for one dated before the limit. *)
Fixpoint scan_before (beforeDate : Time) (newest_first : list BackupFile) : option Time :=
  match newest_first with
  | [] => None
  | f :: fs => if Before (BDate f) beforeDate then Some (BDate f) else scan_before beforeDate fs
  end.

Definition target_date (files : list BackupFile) (beforeDate : option Time) : option Time :=
  match beforeDate with
  | None => BDate <$> last files
  | Some b => scan_before b (reverse files)
  end.

Definition same_key (key : gostring) (f : BackupFile) : Prop := dateKey (BDate f) = key.

#[global] Instance same_key_dec key f : Decision (same_key key f).
Proof. unfold same_key. apply _. Defined.

Definition LastBackupBefore (dir : gostring) (beforeDate : option Time) : M (err + list BackupFile) :=
  r ← ListBackups dir;
  match r with
  | inl e => mret (inl e)
  | inr [] => mret (inr [])
  | inr files =>
      match target_date files beforeDate with
      | None => mret (inr [])
      | Some target => mret (inr (filter (same_key (dateKey target)) files))
      end
  end.

(** ** Pruning *)

(** [for lastSunday.Weekday() != time.Sunday { lastSunday = lastSunday.AddDate(0, 0, -1) }] *)
Fixpoint lastSunday_loop (fuel : nat) (t : Time) : Time :=
  match fuel with
  | O => t
  | S f => if Weekday t =? Sunday then t else lastSunday_loop f (AddDate t 0 0 (-1))
  end.

(** Seven rounds reach a Sunday from any day. *)
Definition lastSunday (today : Time) : Time := lastSunday_loop 7 today.

(** [n] rounds left, [i] is the loop variable. *)
Fixpoint sundays_loop (n : nat) (i : Z) (last : Time) (keep : gset gostring) : gset gostring :=
  match n with
  | O => keep
  | S n' =>
      let sunday := AddDate last 0 0 (7 * i) in
      let keep := {[dateKey sunday]} ∪ keep in
      if Year sunday <? 2000 then keep else sundays_loop n' (i + 1) last keep
  end.

Definition keepSundays (today : Time) (retainWeekly : Z) : gset gostring :=
  sundays_loop (Z.to_nat retainWeekly) 0 (lastSunday today) ∅.

Definition monthEnd (m : Time) : Time :=
  let firstOfNextMonth := AddDate (Date (Year m) (Month m) 1 0) 0 1 0 in
  AddDate firstOfNextMonth 0 0 (-1).

Fixpoint months_loop (n : nat) (m : Time) (keep : gset gostring) : gset gostring :=
  match n with
  | O => keep
  | S n' =>
      let me := monthEnd m in
      let keep := {[dateKey me]} ∪ keep in
      if Year me <? 2000 then keep else months_loop n' (AddDate m 0 (-1) 0) keep
  end.

Definition keepMonthEnds (today : Time) (retainMonthly : Z) : gset gostring :=
  months_loop (Z.to_nat retainMonthly) today ∅.

Fixpoint years_loop (n : nat) (y : Z) (keep : gset gostring) : gset gostring :=
  match n with
  | O => keep
  | S n' =>
      if 2000 <=? y then years_loop n' (y - 1) ({[dateKey (Date y 12 31 0)]} ∪ keep) else keep
  end.

Definition keepYearEnds (today : Time) (retainYearly : Z) : gset gostring :=
  years_loop (Z.to_nat retainYearly) (Year today) ∅.

(** The four retention settings. *)
Record Retain := mkRetain { rDaily : Z; rWeekly : Z; rMonthly : Z; rYearly : Z }.

(** [today]: the midnight that starts the day of [now]. *)
Definition today_of (now : Time) : Time := Date (Year now) (Month now) (Day now) 0.

Definition keep (today : Time) (r : Retain) (d : Time) : bool :=
  let dailyCutoff := AddDate today 0 0 (- rDaily r) in
  let key := dateKey d in
  negb (Before d dailyCutoff)
  || bool_decide (key ∈ keepSundays today (rWeekly r))
  || bool_decide (key ∈ keepMonthEnds today (rMonthly r))
  || bool_decide (key ∈ keepYearEnds today (rYearly r)).

Definition prune_one (today : Time) (r : Retain) (f : BackupFile) : M unit :=
  if keep today r (BDate f) then mret tt
  else
    res ← Remove (Path f);
    match res with
    | inl e => Warn "log.warn.retention_delete" [AStr (Path f); AErr e]
    | inr _ => Info "log.msg.deleted_old_backup" [AStr (Classify (BDate f)); AStr (GoPath.Base (Path f))]
    end.

Definition Apply (dir : gostring) (r : Retain) : M (option err) :=
  res ← ListBackups dir;
  match res with
  | inl e => mret (Some e)
  | inr [] => mret None
  | inr files =>
      now ← get_now;
      _ ← for_each files (prune_one (today_of now) r);
      mret None
  end.

Definition ApplyToDirs (backupDir remoteBackupDir : gostring) (r : Retain) : M (option err) :=
  e ← Apply backupDir r;
  match e with
  | Some e => mret (Some (Errorf "err.retention_local" [] (Some e)))
  | None =>
      if remoteBackupDir ==? [] then mret None
      else
        e ← Apply remoteBackupDir r;
        match e with
        | Some e => mret (Some (Errorf "err.retention_remote" [] (Some e)))
        | None => mret None
        end
  end.

(** ** The abstract policy *)

(** The documented policy: a backup of day [d] is retained on day [today] if it is within
    the daily window, on one of the last Sundays, on one of the month ends counted back
    from this month's, or on one of the year ends counted back from this year's (both
    not beyond the year 2000). *)
Definition retained (today : Time) (r : Retain) (d : Time) : Prop :=
  t_day today - rDaily r <= t_day d
  \/ (exists i, 0 <= i < rWeekly r /\ t_day d = t_day today - Weekday today - 7 * i)
  \/ (exists i, 0 <= i < rMonthly r /\ t_day d = monthEndDay (monthIndex today - i)
        /\ (i = 0 \/ 2000 <= (monthIndex today - (i - 1)) / 12))
  \/ (exists i, 0 <= i < rYearly r /\ 2000 <= Year today - i
        /\ t_day d = dayNumber (Year today - i) 12 31).

(** The settings with at most one Sunday. *)
Definition oneSunday (r : Retain) : Retain := mkRetain (rDaily r) (Z.min 1 (rWeekly r)) (rMonthly r) (rYearly r).

(** ** Lemmas: the calendar loops *)

Lemma lastSunday_loop_spec fuel t :
  Weekday t < Z.of_nat fuel -> lastSunday_loop fuel t = mkTime (t_day t - Weekday t) (t_nsec t).
Proof.
  revert t. induction fuel as [|fuel IH]; intros t Ht; [unfold Weekday in Ht; zdiv|].
  simpl. case_if; bool_prop.
  - rewrite E. unfold Sunday. rewrite Z.sub_0_r. by destruct t.
  - rewrite AddDate_days.
    assert (Weekday (mkTime (t_day t + -1) (t_nsec t)) = Weekday t - 1) as Hw
      by (unfold Weekday, Sunday in *; simpl; zdiv).
    rewrite IH, Hw by lia. simpl. f_equal. lia.
Qed.

Lemma lastSunday_spec t : lastSunday t = mkTime (t_day t - Weekday t) (t_nsec t).
Proof. apply lastSunday_loop_spec. unfold Weekday. zdiv. Qed.

Lemma sundays_loop_sound n i l keep k :
  k ∈ sundays_loop n i l keep ->
  k ∈ keep \/ exists j, i <= j < i + Z.of_nat n /\ k = dateKey (AddDate l 0 0 (7 * j)).
Proof.
  revert i keep. induction n as [|n IH]; intros i kp; cbn [sundays_loop]; [by left|].
  case_if.
  - intros Hk. apply elem_of_union in Hk as [->%elem_of_singleton|Hk]; [right; exists i; split; [lia|done]|by left].
  - intros Hk. apply IH in Hk as [[->%elem_of_singleton|Hk]%elem_of_union|(j & Hj & ->)].
    + right. exists i. split; [lia|done].
    + by left.
    + right. exists j. split; [lia|done].
Qed.

Lemma sundays_loop_keeps n i l keep k : k ∈ keep -> k ∈ sundays_loop n i l keep.
Proof.
  revert i keep. induction n as [|n IH]; intros i kp Hk; cbn [sundays_loop]; [done|].
  case_if; [set_solver|]. apply IH. set_solver.
Qed.

Lemma sundays_loop_complete n i l keep j :
  2000 <= Year l -> 0 <= i -> i <= j < i + Z.of_nat n ->
  dateKey (AddDate l 0 0 (7 * j)) ∈ sundays_loop n i l keep.
Proof.
  intros Hy. revert i keep. induction n as [|n IH]; intros i kp Hi Hj; [lia|].
  cbn [sundays_loop]. rewrite (proj2 (Z.ltb_ge _ 2000)).
  - destruct (decide (i = j)) as [->|]; [apply sundays_loop_keeps; set_solver|]. apply IH; lia.
  - etrans; [exact Hy|]. apply Year_mono. rewrite AddDate_days. simpl. lia.
Qed.

Lemma monthEnd_spec m : monthEnd m = mkTime (monthEndDay (monthIndex m)) 0.
Proof.
  unfold monthEnd, monthEndDay. destruct (monthIndex_year m) as [-> ->].
  pose proof (Month_range m) as Hm. replace (Month m - 1 + 1) with (Month m) by lia.
  rewrite Date_in_range by done.
  assert (validDate (Year m) (Month m) 1) as Hv.
  { split; [done|]. rewrite daysIn_unfold. pose proof (leap_range (Year m)). on_month (Month m); lia. }
  rewrite AddDate_days. f_equal. unfold AddDate at 1.
  destruct (civil_of_dayNumber _ _ _ 0 Hv) as (-> & -> & ->). unfold Date. cbn [t_day].
  rewrite !Z.add_0_r. replace (Month m + 1 - 1) with (Month m) by lia.
  rewrite dayNumber_next_month by done. lia.
Qed.

Lemma dateKey_midnight a b : dateKey a = dateKey b <-> t_day a = t_day b.
Proof. apply FormatDate_inj. Qed.

Lemma monthEnd_Year m : Year (monthEnd m) = Year m.
Proof.
  rewrite monthEnd_spec. unfold monthEndDay. destruct (monthIndex_year m) as [-> ->].
  replace (Month m - 1 + 1) with (Month m) by lia. apply civil_of_dayNumber.
  split; [apply Month_range|]. rewrite daysIn_unfold. pose proof (leap_range (Year m)).
  pose proof (Month_range m). on_month (Month m); lia.
Qed.

Lemma months_loop_spec n m keep k :
  Day m <= 28 ->
  k ∈ months_loop n m keep <->
  k ∈ keep \/ exists i, 0 <= i < Z.of_nat n /\ k = dateKey (mkTime (monthEndDay (monthIndex m - i)) 0)
    /\ (i = 0 \/ 2000 <= (monthIndex m - (i - 1)) / 12).
Proof.
  revert m keep. induction n as [|n IH]; intros m kp Hd; cbn [months_loop].
  { split; [by left|]. intros [?|(i & ? & _)]; [done|lia]. }
  destruct (monthIndex_year m) as [HY _].
  rewrite monthEnd_Year. case_if; bool_prop.
  - rewrite elem_of_union, elem_of_singleton, monthEnd_spec. split.
    + intros [->|Hk]; [right; exists 0; rewrite Z.sub_0_r; split; [lia|auto]|by left].
    + intros [Hk|(i & Hi & -> & Hc)]; [by right|left]. 
      assert (i = 0) as ->; [|by rewrite Z.sub_0_r]. destruct Hc as [|Hc]; [done|].
      destruct (decide (i = 0)); [done|]. zdiv.
  - destruct (AddDate_month_back m Hd) as (Hi1 & Hd1 & _). rewrite IH by lia.
    rewrite elem_of_union, elem_of_singleton, monthEnd_spec, Hi1. split.
    + intros [[->|Hk]|(i & Hi & -> & Hc)]; [right; exists 0; rewrite Z.sub_0_r; split; [lia|auto]|by left|].
      right. exists (i + 1). split; [lia|].
      replace (monthIndex m - (i + 1)) with (monthIndex m - 1 - i) by lia. split; [done|]. right.
      replace (i + 1 - 1) with i by lia. destruct Hc as [->|Hc]; [rewrite Z.sub_0_r; lia|].
      replace (monthIndex m - 1 - (i - 1)) with (monthIndex m - i) in Hc by lia. done.
    + intros [Hk|(i & Hi & -> & Hc)]; [by left; right|].
      destruct (decide (i = 0)) as [->|Hi0]; [left; left; by rewrite Z.sub_0_r|].
      right. exists (i - 1). split; [lia|].
      replace (monthIndex m - 1 - (i - 1)) with (monthIndex m - i) by lia. split; [done|].
      destruct Hc as [|Hc]; [done|]. destruct (decide (i = 1)); [left; lia|right].
      replace (monthIndex m - 1 - (i - 1 - 1)) with (monthIndex m - (i - 1)) by lia. done.
Qed.

Lemma years_loop_spec n y keep k :
  k ∈ years_loop n y keep <->
  k ∈ keep \/ exists i, 0 <= i < Z.of_nat n /\ 2000 <= y - i /\ k = dateKey (mkTime (dayNumber (y - i) 12 31) 0).
Proof.
  revert y keep. induction n as [|n IH]; intros y kp; cbn [years_loop].
  { split; [by left|]. intros [?|(i & ? & _)]; [done|lia]. }
  case_if; bool_prop.
  - rewrite IH, elem_of_union, elem_of_singleton, Date_in_range by lia. split.
    + intros [[->|Hk]|(i & Hi & Hy & ->)]; [right; exists 0; rewrite Z.sub_0_r; split; [lia|auto]|by left|].
      right. exists (i + 1). replace (y - (i + 1)) with (y - 1 - i) by lia. split; [lia|done].
    + intros [Hk|(i & Hi & Hy & ->)]; [by left; right|].
      destruct (decide (i = 0)) as [->|Hi0]; [left; left; by rewrite Z.sub_0_r|].
      right. exists (i - 1). replace (y - 1 - (i - 1)) with (y - i) by lia. split; [lia|done].
  - split; [by left|]. intros [?|(i & Hi & Hy & _)]; [done|lia].
Qed.

Lemma keepSundays_spec today n k :
  2000 <= Year (lastSunday today) ->
  k ∈ keepSundays today n <->
  exists i, 0 <= i < n /\ k = dateKey (mkTime (t_day today - Weekday today + 7 * i) (t_nsec today)).
Proof.
  intros Hy. unfold keepSundays. split.
  - intros [Hk|(j & Hj & ->)]%sundays_loop_sound; [set_solver|].
    exists j. split; [lia|]. rewrite lastSunday_spec, AddDate_days. done.
  - intros (i & Hi & ->). replace (mkTime _ _) with (AddDate (lastSunday today) 0 0 (7 * i))
      by (rewrite lastSunday_spec, AddDate_days; done).
    apply sundays_loop_complete; lia || done.
Qed.

Lemma Before_cutoff d today k :
  t_nsec d = t_nsec today -> negb (Before d (AddDate today 0 0 k)) = (t_day today + k <=? t_day d).
Proof. intros H. rewrite AddDate_days, Before_midnight by done. simpl. lia. Qed.

(** Of the Sundays the loop counts forward, those after the last one are in the daily window. *)
Lemma sundays_forward today daily n d :
  0 <= daily ->
  (t_day today - daily <= t_day d \/ exists i, 0 <= i < n /\ t_day d = t_day today - Weekday today + 7 * i) <->
  (t_day today - daily <= t_day d \/ exists i, 0 <= i < Z.min 1 n /\ t_day d = t_day today - Weekday today - 7 * i).
Proof.
  intros Hd. assert (0 <= Weekday today <= 6) by (unfold Weekday; zdiv). split; (intros [?|(i & Hi & E)]; [by left|]).
  - destruct (decide (i = 0)) as [->|Hne]; [right; exists 0; lia|left; lia].
  - right. exists 0. lia.
Qed.

(** The executable test decides the documented policy for at most one Sunday. *)
Lemma keep_retained today r d :
  0 <= rDaily r -> Day today <= 28 -> 2000 <= Year (lastSunday today) -> t_nsec d = t_nsec today ->
  keep today r d = true <-> retained today (oneSunday r) d.
Proof.
  intros H0 Hd Hy Hn. unfold keep, retained. rewrite (assoc or), <- (sundays_forward today (rDaily r) (rWeekly r) d H0).
  rewrite !orb_true_iff, !bool_decide_eq_true, Before_cutoff, Z.leb_le by done.
  rewrite keepSundays_spec by done. unfold keepMonthEnds, keepYearEnds.
  rewrite months_loop_spec, years_loop_spec by done. setoid_rewrite dateKey_midnight. cbn [t_day oneSunday rDaily rMonthly rYearly].
  replace (t_day today + - rDaily r) with (t_day today - rDaily r) by lia.
  split.
  - intros [[[?|?]|[?|(i & Hi & Hk)]]|[?|(i & Hi & Hk)]]; [by left; left|by left; right|set_solver| |set_solver|].
    + right; left. exists i. split; [lia|done].
    + right; right. exists i. split; [lia|done].
  - intros [[?|?]|[(i & Hi & Hk)|(i & Hi & Hk)]]; [by do 3 left|by do 2 left; right| |].
    + left; right; right. exists i. split; [lia|done].
    + right; right. exists i. split; [lia|done].
Qed.

(** That is all of the policy when the Sundays asked for are in the daily window. *)
Lemma oneSunday_enough today r d : 7 * rWeekly r <= rDaily r + 1 -> retained today (oneSunday r) d <-> retained today r d.
Proof.
  intros Hr. unfold retained. cbn [oneSunday rDaily rWeekly rMonthly rYearly]. assert (0 <= Weekday today <= 6) by (unfold Weekday; zdiv).
  split; (intros [?|[(i & Hi & E)|?]]; [by left| |by right; right]); [right; left; exists i; lia|left; lia].
Qed.

(** Every Sunday the weekly rule keeps is at most six days old. *)
Lemma keepSundays_recent today n d :
  dateKey d ∈ keepSundays today n -> t_day today - 6 <= t_day d.
Proof.
  unfold keepSundays. intros [Hk|(j & Hj & Hk)]%sundays_loop_sound; [set_solver|].
  apply dateKey_midnight in Hk. rewrite lastSunday_spec, AddDate_days in Hk. simpl in Hk.
  assert (Weekday today <= 6) by (unfold Weekday; zdiv). lia.
Qed.

Lemma keep_weekly_irrelevant today d w w' m y t :
  6 <= d -> t_nsec t = t_nsec today ->
  keep today (mkRetain d w m y) t = keep today (mkRetain d w' m y) t.
Proof.
  intros Hd Hn. unfold keep. simpl. rewrite Before_cutoff by done.
  destruct (t_day today + - d <=? t_day t) eqn:E; [done|]. bool_prop. simpl.
  assert (forall n, bool_decide (dateKey t ∈ keepSundays today n) = false) as Hs.
  { intros n. apply bool_decide_eq_false_2. intros Hk%keepSundays_recent. lia. }
  by rewrite !Hs.
Qed.

Lemma isLastDayOfMonth_spec t : isLastDayOfMonth t = bool_decide (Day t = daysIn (Month t) (Year t)).
Proof.
  unfold isLastDayOfMonth. rewrite AddDate_days. cbv zeta.
  pose proof (civil_valid t) as [Hm Hd]. rewrite <- (dayNumber_civil t). case_bool_decide as E.
  - rewrite E, <- dayNumber_next_month by done.
    destruct (civil_of_dayNumber (Year t + Month t / 12) (Month t mod 12 + 1) 1 (t_nsec t)) as (_ & -> & _).
    + split; [zdiv|]. rewrite daysIn_unfold. pose proof (leap_range (Year t + Month t / 12)).
      assert (1 <= Month t mod 12 + 1 <= 12) by zdiv. on_month (Month t mod 12 + 1); lia.
    + apply negb_true_iff, Z.eqb_neq. zdiv.
  - replace (dayNumber (Year t) (Month t) (Day t) + 1) with (dayNumber (Year t) (Month t) (Day t + 1))
      by (unfold dayNumber; lia).
    destruct (civil_of_dayNumber (Year t) (Month t) (Day t + 1) (t_nsec t)) as (_ & -> & _);
      [split; lia|]. by rewrite Z.eqb_refl.
Qed.

(** ** Lemmas: listing *)

Lemma older_total : Total (not_after older).
Proof.
  intros a b. unfold not_after, older, Before.
  destruct (t_day (BDate a)), (t_nsec (BDate a)), (t_day (BDate b)), (t_nsec (BDate b)); lia.
Qed.

Lemma older_trans : Transitive (not_after older).
Proof. intros a b c. unfold not_after, older, Before. lia. Qed.

(** Path and date of a listed entry. *)
Definition entry_key (dir : gostring) (e : gostring * Node) : option (gostring * Time) :=
  match snd e with
  | NDir => None
  | NFile _ _ => (fun t => (GoPath.Join dir (fst e), t)) <$> name_date (fst e)
  end.

Definition file_key (f : BackupFile) : gostring * Time := (Path f, BDate f).

Lemma quiet_list_entry dir e : quiet (list_entry dir e).
Proof. unfold list_entry. solve_quiet. Qed.

Lemma quiet_list_loop dir es : quiet (list_loop dir es).
Proof. induction es; cbn [list_loop]; solve_quiet; auto using quiet_list_entry. Qed.

Lemma quiet_ListBackups dir : quiet (ListBackups dir).
Proof. unfold ListBackups. solve_quiet; auto using quiet_list_loop. Qed.

Lemma list_entry_key dir e w : file_key <$> fst (list_entry dir e w) = entry_key dir e.
Proof.
  destruct e as [name [|d mt]]; [done|]. unfold list_entry, entry_key. cbn [snd fst].
  destruct (name_date name); [|done]. unfold mbind, M_bind.
  destruct (Stat _ w) as [[?|[|]] ?]; done.
Qed.

(** Whatever [Stat] does, the listed paths and dates are those of the names. *)
Lemma list_loop_keys dir es w : file_key <$> fst (list_loop dir es w) = omap (entry_key dir) es.
Proof.
  revert w. induction es as [|e es IH]; intros w; [done|]. cbn [list_loop]. unfold mbind, M_bind.
  pose proof (list_entry_key dir e w) as He. destruct (list_entry dir e w) as [b w1]. simpl in He.
  specialize (IH w1). destruct (list_loop dir es w1) as [rest w2]. simpl in IH. cbn [omap list_omap].
  rewrite <- He, <- IH. by destruct b.
Qed.

(** [p] is an archive of [dir] whose name carries the date [t]. *)
Definition dated_archive (fs : gmap gostring Node) (dir p : gostring) (t : Time) : Prop :=
  fs !! dir = Some NDir /\ exists name d mt,
    GoPath.plain name /\ p = GoPath.Join dir name /\ fs !! p = Some (NFile d mt) /\ name_date name = Some t.

Lemma elem_of_entries dir fs p t (es : list (gostring * Node)) :
  es ≡ₚ dir_entries fs dir -> fs !! dir = Some NDir ->
  (p, t) ∈ omap (entry_key dir) es <-> dated_archive fs dir p t.
Proof.
  intros Hp Hdir. rewrite list_elem_of_omap. split.
  - intros ([name [|d mt]] & Hin & He); [done|]. rewrite Hp in Hin.
    apply elem_of_dir_entries in Hin as [Hpl Hfs]. unfold entry_key in He. simpl in He.
    apply fmap_Some in He as (t' & Hn & [= -> ->]). split; [done|]. exists name, d, mt. done.
  - intros (_ & name & d & mt & Hpl & -> & Hfs & Hn). exists (name, NFile d mt). split.
    + rewrite Hp. by apply elem_of_dir_entries.
    + unfold entry_key. simpl. by rewrite Hn.
Qed.

(** What a successful listing returns: sorted by date, and exactly the dated
    archives of the directory. *)
Lemma ListBackups_spec dir w files w' :
  ListBackups dir w = (inr files, w') ->
  StronglySorted (not_after older) files /\
  forall p t, (p, t) ∈ file_key <$> files <-> dated_archive (w_fs w) dir p t.
Proof.
  unfold ListBackups, mbind, M_bind, GoPath.FromSlash.
  pose proof (ReadDir_result dir w) as Hr. destruct (ReadDir dir w) as [r w0]. simpl in Hr. subst r.
  destruct (fault (w_tick w)); [done|].
  destruct (w_fs w !! dir) as [[|d0 m0]|] eqn:Hd; [|done|].
  - set (es := merge_sort _ _).
    pose proof (list_loop_keys dir es w0) as Hk. destruct (list_loop dir es w0) as [fl w1].
    intros [= <- <-]. split; [apply sort_slice_sorted; [apply older_total|apply older_trans]|].
    intros p t. rewrite sort_slice_perm. simpl in Hk. rewrite Hk.
    apply elem_of_entries; [apply merge_sort_Permutation|done].
  - intros [= <- <-]. split; [constructor|]. intros p t. split; [by intros ?%not_elem_of_nil|].
    intros [Hc _]. congruence.
Qed.

(** Listing an existing directory without I/O errors succeeds. *)
Lemma ListBackups_ok dir w :
  w_fs w !! dir = Some NDir -> fault (w_tick w) = None -> exists files w', ListBackups dir w = (inr files, w').
Proof.
  intros Hd Hf. unfold ListBackups, mbind, M_bind, GoPath.FromSlash.
  pose proof (ReadDir_result dir w) as Hr. rewrite Hf, Hd in Hr.
  destruct (ReadDir dir w) as [r w0]. simpl in Hr. subst r. destruct (list_loop _ _ _). eauto.
Qed.

Lemma name_date_midnight name t : name_date name = Some t -> t_nsec t = 0.
Proof.
  unfold name_date. destruct (name_ok name); [|done].
  destruct (Regexp.FindStringSubmatch _ _ _) as [[|? [|d ?]]|]; try done.
  intros (_ & _ & y & m & dd & _ & _ & ->)%ParseDate_Some. done.
Qed.

Lemma today_of_spec now : today_of now = mkTime (t_day now) 0.
Proof. unfold today_of. rewrite Date_in_range by apply Month_range. by rewrite dayNumber_civil. Qed.

(** The name of an archive written on a day carries that day. *)
Lemma name_date_written t rest :
  0 <= Year t <= 9999 ->
  name_date (backupPrefix ++ FormatDate t ++ "_" ++ rest ++ ".zip") = Some (mkTime (t_day t) 0).
Proof.
  intros Hy. destruct (FormatDate_digits t Hy) as [Hlen Hdig]. unfold name_date.
  set (name := backupPrefix ++ FormatDate t ++ "_" ++ rest ++ ".zip").
  assert (Regexp.runes name = (Regexp.tok1 <$> backupPrefix) ++ (Regexp.tok1 <$> FormatDate t) ++ (Regexp.tok1 <$> str "_")
    ++ Regexp.runes (rest ++ ".zip")) as Er.
  { unfold name. rewrite (Regexp.runes_ascii_app backupPrefix), (Regexp.runes_ascii_app (FormatDate t)), (Regexp.runes_ascii_app (str "_"));
      [done| | |]; try (apply (bool_decide_eq_true_1 _); reflexivity).
    eapply Forall_impl; [exact Hdig|]. unfold is_digit. intros c Hc. lia. }
  assert (forall s, Regexp.run (Regexp.times 8 Regexp.cls_d) ((Regexp.tok1 <$> FormatDate t) ++ s) =
    [(Regexp.tok1 <$> FormatDate t, s, [])]) as Ed.
  { intros s. rewrite <- Hlen, <- (length_fmap Regexp.tok1). apply Regexp.run_times, Forall_fmap.
    eapply Forall_impl; [exact Hdig|]. intros c Hc. exact Hc. }
  assert (name_ok name = true) as ->.
  { unfold name_ok, Regexp.MatchAnchored. rewrite Er. unfold namePattern. erewrite Regexp.run_Cat_det by apply Regexp.run_lit.
    erewrite Regexp.run_Cat_det by apply Ed. rewrite Regexp.run_lit. rewrite bool_decide_eq_false_2.
    - apply bool_decide_eq_true_2. unfold name. rewrite !app_assoc. apply (GoPath.Ext_app _ "zip"); apply (bool_decide_eq_true_1 _); reflexivity.
    - unfold name. rewrite !length_app, Hlen. simpl. lia. }
  unfold Regexp.FindStringSubmatch. rewrite Er. unfold dateInFilename. erewrite Regexp.find_here.
  2: { erewrite Regexp.run_Cat_det by apply Regexp.run_lit. erewrite (Regexp.run_Cat_det (Regexp.Grp 1 _)).
       2: { cbn [Regexp.run]. rewrite Ed. reflexivity. }
       rewrite Regexp.run_lit. reflexivity. }
  cbn [fmap option_fmap option_map Regexp.submatches seq list_fmap]. cbn -[FormatDate ParseDate]. rewrite Regexp.text_tok1. by apply ParseDate_FormatDate.
Qed.

(** ** Lemmas: pruning *)

Lemma prune_one_touches today r f w :
  touches (fun p => p = Path f /\ keep today r (BDate f) = false) w (snd (prune_one today r f w)).
Proof.
  unfold prune_one. destruct (keep today r (BDate f)); [done|]. unfold mbind, M_bind.
  pose proof (Remove_touches (Path f) w) as Ht. destruct (Remove (Path f) w) as [[e|u] w1];
    (eapply touches_mono; [|exact Ht]); intros p <-; done.
Qed.

(** Under any I/O errors, pruning touches only archives the policy does not keep. *)
Lemma Apply_touches dir r w :
  touches (fun p => exists t, dated_archive (w_fs w) dir p t /\ keep (today_of (w_now w)) r t = false)
    w (snd (Apply dir r w)).
Proof.
  unfold Apply, mbind, M_bind.
  pose proof (quiet_ListBackups dir w) as Hq. destruct (ListBackups dir w) as [[e|files] w1] eqn:E.
  { eapply touches_mono; [|exact Hq]. done. }
  apply ListBackups_spec in E as [_ Hmem]. simpl in Hq.
  destruct files as [|f0 files0] eqn:Ef; [eapply touches_mono; [|exact Hq]; done|]. rewrite <- Ef in *.
  unfold get_now. destruct (for_each _ _ w1) as [[] w2] eqn:E2. simpl.
  etrans; [eapply touches_mono; [|exact Hq]; done|].
  replace w2 with (snd (for_each files (prune_one (today_of (w_now w1)) r) w1)) by (by rewrite E2).
  apply for_each_rel; try apply _. intros f w3 Hf. eapply touches_mono; [|apply prune_one_touches].
  intros p [-> Hk]. exists (BDate f). rewrite (proj2 Hq) in Hk. split; [|done].
  apply Hmem. change (Path f, BDate f) with (file_key f). by apply list_elem_of_fmap_2.
Qed.

Lemma prune_one_shrinks today r f w : shrinks w (snd (prune_one today r f w)).
Proof.
  unfold prune_one. destruct (keep today r (BDate f)); [done|]. unfold mbind, M_bind.
  pose proof (Remove_shrinks (Path f) w) as Hs. by destruct (Remove (Path f) w) as [[e|u] w1].
Qed.

Lemma prune_one_removes today r f w :
  (forall n, fault n = None) -> w_fs w !! Path f <> Some NDir -> keep today r (BDate f) = false ->
  w_fs (snd (prune_one today r f w)) !! Path f = None.
Proof.
  intros Hnf Hnd Hk. unfold prune_one. rewrite Hk. unfold mbind, M_bind, Remove, syscall. rewrite Hnf. simpl.
  destruct (w_fs w !! Path f) as [[|d m]|] eqn:E; simpl; [done| |done]. apply lookup_delete_eq.
Qed.

(** Without I/O errors, pruning removes every listed file it does not keep. *)
Lemma prune_removes today r files w :
  (forall n, fault n = None) ->
  (forall f, f ∈ files -> w_fs w !! Path f <> Some NDir) ->
  forall f, f ∈ files -> keep today r (BDate f) = false ->
  w_fs (snd (for_each files (prune_one today r) w)) !! Path f = None.
Proof.
  intros Hnf. revert w. induction files as [|g files IH]; intros w Hfile f Hf Hk; [by apply not_elem_of_nil in Hf|].
  cbn [for_each]. unfold mbind, M_bind.
  pose proof (prune_one_shrinks today r g w) as Hs.
  pose proof (prune_one_removes today r g w Hnf (Hfile g ltac:(by left))) as Hg.
  destruct (prune_one today r g w) as [[] w1]. simpl in *.
  apply elem_of_cons in Hf as [->|Hf].
  - specialize (Hg Hk).
    assert (shrinks w1 (snd (for_each files (prune_one today r) w1))) as Hs2
      by (apply for_each_rel; try apply _; intros; apply prune_one_shrinks).
    destruct (w_fs (snd _) !! Path g) as [d|] eqn:E; [|done].
    eapply lookup_weaken in E; [|exact Hs2]. congruence.
  - apply IH; [|done|done]. intros h Hh Hd. eapply lookup_weaken in Hd; [|exact Hs].
    apply (Hfile h); [by right|done].
Qed.

Lemma Apply_removes dir r w p t :
  (forall n, fault n = None) -> dated_archive (w_fs w) dir p t -> keep (today_of (w_now w)) r t = false ->
  w_fs (snd (Apply dir r w)) !! p = None.
Proof.
  intros Hnf Ha Hk. destruct (ListBackups_ok dir w (proj1 Ha) (Hnf _)) as (files & w1 & E).
  pose proof (quiet_fs _ w (quiet_ListBackups dir)) as Hfs.
  pose proof (quiet_now _ w (quiet_ListBackups dir)) as Hnow.
  pose proof (ListBackups_spec _ _ _ _ E) as [_ Hmem].
  unfold Apply, mbind, M_bind. rewrite E in *. simpl in Hfs, Hnow.
  apply Hmem in Ha as Hin. apply list_elem_of_fmap in Hin as (f & [= -> ->] & Hf).
  destruct files as [|f0 files0] eqn:Ef; [by apply not_elem_of_nil in Hf|]. rewrite <- Ef in *.
  unfold get_now. destruct (for_each _ _ w1) as [[] w2] eqn:E2. simpl.
  replace w2 with (snd (for_each files (prune_one (today_of (w_now w1)) r) w1)) by (by rewrite E2).
  rewrite Hnow. apply prune_removes; try done.
  intros g Hg Hd. rewrite Hfs in Hd.
  assert (dated_archive (w_fs w) dir (Path g) (BDate g)) as (_ & name & dd & mt & _ & _ & Hx & _); [|congruence].
  apply Hmem. change (Path g, BDate g) with (file_key g). by apply list_elem_of_fmap_2.
Qed.

Lemma Apply_result dir r w : fst (Apply dir r w) = match fst (ListBackups dir w) with inl e => Some e | inr _ => None end.
Proof.
  unfold Apply, mbind, M_bind. destruct (ListBackups dir w) as [[e|[|f fs]] w1]; [done|done|].
  unfold get_now. by destruct (for_each _ _ _).
Qed.

(** Today's archives are kept. *)
Lemma keep_today now r t : t_nsec t = 0 -> 0 <= rDaily r -> t_day now <= t_day t -> keep (today_of now) r t = true.
Proof.
  intros Ht Hr Hd. unfold keep. rewrite today_of_spec, Before_cutoff by done. simpl.
  rewrite (proj2 (Z.leb_le (t_day now + - rDaily r) (t_day t))) by lia. done.
Qed.

Lemma Apply_shrinks dir r w : shrinks w (snd (Apply dir r w)).
Proof.
  unfold Apply, mbind, M_bind. pose proof (quiet_fs _ w (quiet_ListBackups dir)) as Hq.
  destruct (ListBackups dir w) as [[e|files] w1]; simpl in Hq; [unfold shrinks; simpl; by rewrite Hq|].
  destruct files as [|f0 files0]; [unfold shrinks; simpl; by rewrite Hq|]. unfold get_now.
  assert (shrinks w1 (snd (for_each (f0 :: files0) (prune_one (today_of (w_now w1)) r) w1))) as Hs
    by (apply for_each_rel; try apply _; intros; apply prune_one_shrinks).
  destruct (for_each _ _ w1) as [[] w2]. unfold shrinks in *. simpl in *. by rewrite <- Hq.
Qed.

(** Pruning both directories touches only archives the policy does not keep. *)
Lemma ApplyToDirs_touches d1 d2 r w :
  touches (fun p => exists dir name t d mt, GoPath.plain name /\ p = GoPath.Join dir name /\ name_date name = Some t
             /\ w_fs w !! p = Some (NFile d mt) /\ keep (today_of (w_now w)) r t = false) w (snd (ApplyToDirs d1 d2 r w)).
Proof.
  assert (forall dir w', w_now w' = w_now w -> w_fs w' ⊆ w_fs w ->
    touches (fun p => exists dir name t d mt, GoPath.plain name /\ p = GoPath.Join dir name /\ name_date name = Some t
             /\ w_fs w !! p = Some (NFile d mt) /\ keep (today_of (w_now w)) r t = false) w' (snd (Apply dir r w'))) as HA.
  { intros dir w' Hn Hsub. eapply touches_mono; [|apply Apply_touches]. rewrite Hn.
    intros p (t & (_ & name & d & mt & Hp & -> & Hf & Ht) & Hk). exists dir, name, t, d, mt. split_and!; try done. by eapply lookup_weaken. }
  unfold ApplyToDirs, mbind, M_bind. pose proof (HA d1 w eq_refl ltac:(done)) as H1. pose proof (Apply_shrinks d1 r w) as Hs1.
  destruct (Apply d1 r w) as [[e|] w1]; [done|].
  destruct (d2 ==? []); [done|]. pose proof (HA d2 w1 (proj2 H1) Hs1) as H2. destruct (Apply d2 r w1) as [[e|] w2];
    (etrans; [exact H1|exact H2]).
Qed.

(** What it leaves alone: everything that is not an archive file, and today's archives. *)
Lemma ApplyToDirs_keeps d1 d2 r w p :
  0 <= rDaily r ->
  (forall d mt, w_fs w !! p <> Some (NFile d mt)) \/
  (exists dir name, GoPath.plain name /\ p = GoPath.Join dir name /\ name_date name = Some (mkTime (t_day (w_now w)) 0)) ->
  w_fs (snd (ApplyToDirs d1 d2 r w)) !! p = w_fs w !! p.
Proof.
  intros Hr Hp. apply ApplyToDirs_touches. intros (dir & name & t & d & mt & Hpl & -> & Hn & Hf & Hk).
  destruct Hp as [Hp|(dir' & name' & Hpl' & E & Hn')]; [by apply (Hp d mt)|].
  apply GoPath.Join_plain_last in E as <-; [|done|done]. rewrite Hn in Hn'. injection Hn' as ->.
  rewrite keep_today in Hk; done.
Qed.

Lemma list_loop_forward dir es : forward (list_loop dir es).
Proof. induction es as [|e es IH]; cbn [list_loop]; [eauto with go|]. unfold list_entry. solve_forward. Qed.

Lemma LastBackupBefore_forward dir b : forward (LastBackupBefore dir b).
Proof.
  unfold LastBackupBefore, ListBackups.
  repeat (intros; cbv zeta; first [solve [eauto 2 with go] | apply list_loop_forward | apply forward_bind | case_match]).
Qed.

Lemma ApplyToDirs_forward d1 d2 r : forward (ApplyToDirs d1 d2 r).
Proof.
  assert (forall dir, forward (Apply dir r)) as HA.
  { intros dir. unfold Apply, ListBackups.
    repeat (intros; cbv zeta; first [solve [eauto 2 with go] | apply list_loop_forward | apply forward_for_each; unfold prune_one; solve_forward
      | apply forward_bind | case_match]). }
  unfold ApplyToDirs. repeat (intros; first [apply HA | solve [eauto 2 with go] | apply forward_bind | case_match]).
Qed.

(** ** Lemmas: selecting *)

(** A backup dated [t] may be selected. *)
Definition eligible (beforeDate : option Time) (t : Time) : Prop :=
  match beforeDate with
  | None => True
  | Some b => Before t b = true
  end.

Lemma scan_before_spec b l :
  StronglySorted (fun f g => not_after older g f) l ->
  match scan_before b l with
  | Some t => exists f, f ∈ l /\ BDate f = t /\ Before t b = true /\
      forall g, g ∈ l -> Before (BDate g) b = true -> not_after older g f
  | None => forall g, g ∈ l -> Before (BDate g) b = false
  end.
Proof.
  induction 1 as [|f l Hs IH Hf]; simpl; [by intros g ?%not_elem_of_nil|]. case_if.
  - exists f. split; [by left|]. split; [done|]. split; [done|]. intros g Hg _.
    apply elem_of_cons in Hg as [->|Hg]; [unfold not_after, older, Before; lia|].
    by eapply Forall_forall in Hf.
  - destruct (scan_before b l) as [t|].
    + destruct IH as (h & Hh & <- & Hb & Hmax). exists h. split; [by right|]. split; [done|]. split; [done|].
      intros g Hg Hgb. apply elem_of_cons in Hg as [->|Hg]; [congruence|by apply Hmax].
    + intros g Hg. apply elem_of_cons in Hg as [->|Hg]; [done|by apply IH].
Qed.

Lemma StronglySorted_reverse {A} (R : A -> A -> Prop) l :
  StronglySorted R l -> StronglySorted (fun a b => R b a) (reverse l).
Proof.
  induction 1 as [|x l Hs IH Hx]; [constructor|]. rewrite reverse_cons.
  apply StronglySorted_app_2; [|done|repeat constructor].
  intros a b Ha Hb. apply list_elem_of_singleton in Hb as ->. rewrite elem_of_reverse in Ha.
  by eapply Forall_forall in Hx.
Qed.

Lemma target_date_spec files b :
  StronglySorted (not_after older) files ->
  match target_date files b with
  | Some t => exists f, f ∈ files /\ BDate f = t /\ eligible b t /\
      forall g, g ∈ files -> eligible b (BDate g) -> not_after older g f
  | None => forall g, g ∈ files -> ~ eligible b (BDate g)
  end.
Proof.
  intros Hs%StronglySorted_reverse. destruct b as [b|]; simpl.
  - pose proof (scan_before_spec b _ Hs) as Hsc. destruct (scan_before b (reverse files)).
    + destruct Hsc as (f & Hf & Hd & Hb & Hmax). exists f. rewrite <- elem_of_reverse.
      split; [done|]. split; [done|]. split; [done|]. intros g Hg. apply Hmax. by rewrite elem_of_reverse.
    + intros g Hg. rewrite Hsc; [done|by rewrite elem_of_reverse].
  - destruct files as [|f files _] using rev_ind; [by intros g ?%not_elem_of_nil|].
    rewrite last_snoc. simpl. rewrite reverse_app in Hs. simpl in Hs. inversion Hs as [|? ? ? Hall]; subst.
    exists f. split; [apply elem_of_app; right; by left|]. split; [done|]. split; [done|].
    intros g Hg _. apply elem_of_app in Hg as [Hg| ->%list_elem_of_singleton];
      [|unfold not_after, older, Before; lia].
    eapply Forall_forall in Hall; [exact Hall|by rewrite elem_of_reverse].
Qed.

End Retention.

(** The members of a selection. *)
Lemma LastBackupBefore_members {FT : Faults} {AS : ArchiveSize} {SS : SliceSort} dir b w sel w' :
  LastBackupBefore dir b w = (inr sel, w') ->
  forall p t, (p, t) ∈ file_key <$> sel <->
    dated_archive (w_fs w) dir p t /\ eligible b t /\
    forall p' t', dated_archive (w_fs w) dir p' t' -> eligible b t' -> t_day t' <= t_day t.
Proof.
  unfold LastBackupBefore, mbind, M_bind. destruct (ListBackups dir w) as [[e|files] w1] eqn:E; [done|].
  apply ListBackups_spec in E as [Hs Hmem]. intros Hsel p t. unfold mret, M_ret in Hsel.
  pose proof (target_date_spec files b Hs) as Ht.
  assert (forall f, f ∈ files -> t_nsec (BDate f) = 0) as Hmid.
  { intros f Hf. destruct (proj1 (Hmem (Path f) (BDate f))) as (_ & name & ? & ? & _ & _ & _ & Hn);
      [by apply (list_elem_of_fmap_2 file_key)|by apply name_date_midnight in Hn]. }
  assert (forall p' t', dated_archive (w_fs w) dir p' t' <-> exists f, f ∈ files /\ file_key f = (p', t')) as Hmem'.
  { intros p' t'. rewrite <- Hmem, list_elem_of_fmap. split; intros (f & H1 & H2); exists f; by split. }
  destruct (target_date files b) as [tt|].
  - destruct Ht as (f & Hf & <- & Hb & Hmax).
    assert (sel = filter (same_key (dateKey (BDate f))) files) as ->.
    { destruct files; [by apply not_elem_of_nil in Hf|]. by simplify_eq. }
    rewrite list_elem_of_fmap. setoid_rewrite list_elem_of_filter. unfold same_key.
    setoid_rewrite dateKey_midnight. split.
    + intros (g & [= -> ->] & Hday & Hg). split; [apply Hmem'; eauto|].
      assert (BDate g = BDate f) as -> by (pose proof (Hmid g Hg); pose proof (Hmid f Hf);
        destruct (BDate g), (BDate f); simpl in *; congruence).
      split; [done|]. intros p' t' (h & Hh & [= <- <-])%Hmem' He.
      pose proof (Hmax h Hh He) as Hle. unfold not_after, older, Before in Hle. lia.
    + intros ((g & Hg & [= <- <-])%Hmem' & He & Hall). exists g. split; [done|]. split; [|done].
      pose proof (Hmax g Hg He) as Hle. unfold not_after, older, Before in Hle.
      pose proof (Hall (Path f) (BDate f) ltac:(apply Hmem'; eauto) Hb). lia.
  - assert (sel = []) as -> by (destruct files; by simplify_eq). split; [by intros ?%not_elem_of_nil|].
    intros ((g & Hg & [= <- <-])%Hmem' & He & _). by destruct (Ht g Hg).
Qed.

(** ** Theorems *)


(** C17: Under every pattern of I/O errors, a pruning run leaves untouched every file
    that is not a dated archive of the directory and every archive whose date is
    within the daily window. *)
Theorem Apply_never_deletes_recent (FT : Faults) (AS : ArchiveSize) (SS : SliceSort) (MSG : Messages) dir r w p :
  (forall t, dated_archive (w_fs w) dir p t -> t_day (w_now w) - rDaily r <= t_day t) ->
  w_fs (snd (Apply dir r w)) !! p = w_fs w !! p.
Proof.
  intros Hw. apply Apply_touches. intros (t & Ha & Hk). specialize (Hw t Ha).
  destruct Ha as (_ & name & d & mt & _ & _ & _ & Hn). apply name_date_midnight in Hn.
  unfold keep in Hk. rewrite today_of_spec, Before_cutoff in Hk by done. bool_prop. simpl in *. lia.
Qed.

(** C35: With a daily window of six days or more the weekly setting has no effect at
    all: the whole run, files, log and result, is the same for any two values of
    [retain_weekly], because the Sundays kept are the last one and future ones. *)
Theorem Apply_weekly_no_effect (FT : Faults) (AS : ArchiveSize) (SS : SliceSort) (MSG : Messages) dir d wk wk' m y w :
  6 <= d -> Apply dir (mkRetain d wk m y) w = Apply dir (mkRetain d wk' m y) w.
Proof.
  intros Hd. unfold Apply, mbind, M_bind. destruct (ListBackups dir w) as [[e|files] w1] eqn:E; [done|].
  apply ListBackups_spec in E as [_ Hmem]. destruct files as [|f0 fs]; [done|]. unfold get_now.
  rewrite (for_each_ext _ _ (prune_one (today_of (w_now w1)) (mkRetain d wk' m y))); [done|].
  intros f w2 Hf. unfold prune_one. rewrite (keep_weekly_irrelevant _ _ _ wk'); [done|done|].
  rewrite today_of_spec. destruct (proj1 (Hmem (Path f) (BDate f))) as (_ & name & ? & ? & _ & _ & _ & Hn).
  - change (Path f, BDate f) with (file_key f). by apply list_elem_of_fmap_2.
  - by apply name_date_midnight in Hn.
Qed.

(** On a day of the month that the previous month does not have (such as 31 March),
    the step back by one month stays in the current month: asking for two month ends
    keeps no more than asking for one. *)
Theorem keepMonthEnds_overflow today :
  let k := monthIndex today - 1 in
  daysIn (k mod 12 + 1) (k / 12) < Day today -> 2000 <= Year today ->
  keepMonthEnds today 2 = keepMonthEnds today 1.
Proof.
  intros k Hov Hy. unfold keepMonthEnds.
  change (Z.to_nat 2) with 2%nat. change (Z.to_nat 1) with 1%nat. cbn [months_loop].
  assert (monthEnd (AddDate today 0 (-1) 0) = monthEnd today) as E
    by (rewrite !monthEnd_spec, AddDate_month_overflow; done).
  rewrite E, monthEnd_Year. case_if; [done|]. by rewrite (assoc_L (∪)), (idemp_L (∪)).
Qed.

(** C18: A successful selection returns exactly the archives of the latest backup day
    that is before the given date (or of the latest day, without one): all of them and
    nothing else. *)
Theorem LastBackupBefore_spec (FT : Faults) (AS : ArchiveSize) (SS : SliceSort) dir b w sel w' :
  LastBackupBefore dir b w = (inr sel, w') ->
  forall p t, (p, t) ∈ file_key <$> sel <->
    dated_archive (w_fs w) dir p t /\ eligible b t /\
    forall p' t', dated_archive (w_fs w) dir p' t' -> eligible b t' -> t_day t' <= t_day t.
Proof. apply LastBackupBefore_members. Qed.

(** [isLastDayOfMonth] holds exactly on the last day of the month of the Gregorian
    calendar, leap years included, so [Classify] yields "yearly" on 31 December,
    "monthly" on the other month ends, "weekly" on the remaining Sundays and "daily"
    otherwise. *)
Theorem Classify_spec (MSG : Messages) t :
  Classify t = T (if decide (Month t = 12 /\ Day t = 31) then str "retention.yearly"
                  else if decide (Day t = daysIn (Month t) (Year t)) then str "retention.monthly"
                  else if decide ((t_day t + 1) mod 7 = 0) then str "retention.weekly"
                  else str "retention.daily").
Proof.
  unfold Classify. rewrite isLastDayOfMonth_spec. unfold Weekday, Sunday.
  repeat case_decide; repeat case_if; bool_prop; try done; lia.
Qed.

(** The loop that looks for the last Sunday stops within seven rounds on any day: every
    larger bound gives the same answer, a Sunday at most six days before. *)
Theorem lastSunday_terminates t fuel :
  (7 <= fuel)%nat ->
  lastSunday_loop fuel t = lastSunday t /\ Weekday (lastSunday t) = Sunday
  /\ t_day t - 6 <= t_day (lastSunday t) <= t_day t.
Proof.
  intros Hf. rewrite lastSunday_spec, lastSunday_loop_spec by (unfold Weekday; zdiv).
  split; [done|]. unfold Weekday, Sunday. simpl. zdiv.
Qed.

(** ** Witnesses *)

Definition noMessages : Messages := (∅ : gmap gostring gostring).
Definition zeroSizes : ArchiveSize := mkSizes (fun _ _ => 0) 0.

(** A directory with an archive of 10 June and one of 2 January 2024, on 15 June 2024. *)
Definition recentZip : gostring := "/b/mysql_backup_20240610_db1_shop.zip".
Definition oldZip : gostring := "/b/mysql_backup_20240102_db1_shop.zip".
Definition dayFs : gmap gostring Node :=
  <[str "/b" := NDir]> (<[recentZip := NFile (Raw []) zeroTime]> (<[oldZip := NFile (Raw []) zeroTime]> ∅)).
Definition onDay (y m d : Z) : World := mkWorld dayFs (Date y m d 0) 0 [] [].

Lemma dated_archive_check dir p name t :
  GoPath.plain name -> p = GoPath.Join dir name -> (exists d mt, dayFs !! p = Some (NFile d mt)) ->
  dayFs !! dir = Some NDir -> name_date name = Some t -> dated_archive dayFs dir p t.
Proof. intros Hp He (d & mt & Hl) Hd Hn. split; [done|]. by exists name, d, mt. Qed.

Lemma oldZip_dated : dated_archive dayFs "/b" oldZip (Date 2024 1 2 0).
Proof.
  apply (dated_archive_check _ _ "mysql_backup_20240102_db1_shop.zip"); try reflexivity.
  - apply (bool_decide_eq_true_1 _). reflexivity.
  - exists (Raw []), zeroTime. reflexivity.
Qed.

(** The date of an archive of the sample directory is the one in its name. *)
Lemma dated_archive_fun dir p t t' fs : dated_archive fs dir p t -> dated_archive fs dir p t' -> t = t'.
Proof.
  intros (_ & n & d & mt & Hp & -> & _ & Hn) (_ & n' & d' & mt' & Hp' & E & _ & Hn').
  apply GoPath.Join_plain_inj in E as <-; [|done|done]. congruence.
Qed.


Lemma Apply_never_deletes_recent_witness :
  w_fs (snd (@Apply NoFaults zeroSizes _ noMessages "/b" (mkRetain 14 3 3 3) (onDay 2024 1 10))) !! oldZip
  = Some (NFile (Raw []) zeroTime).
Proof.
  apply (Apply_never_deletes_recent NoFaults zeroSizes _ noMessages "/b" (mkRetain 14 3 3 3) (onDay 2024 1 10) oldZip).
  intros t Ht. rewrite (dated_archive_fun _ _ _ _ _ Ht oldZip_dated). vm_compute. discriminate.
Defined.

Lemma Apply_weekly_no_effect_witness :
  @Apply NoFaults zeroSizes _ noMessages "/b" (mkRetain 14 3 3 3) (onDay 2024 6 15)
  = @Apply NoFaults zeroSizes _ noMessages "/b" (mkRetain 14 0 3 3) (onDay 2024 6 15).
Proof.
  apply (Apply_weekly_no_effect NoFaults zeroSizes _ noMessages "/b" 14 3 0 3 3 (onDay 2024 6 15)). lia.
Defined.

Lemma keepMonthEnds_overflow_witness : keepMonthEnds (Date 2024 3 31 0) 2 = keepMonthEnds (Date 2024 3 31 0) 1.
Proof. apply (keepMonthEnds_overflow (Date 2024 3 31 0)); vm_compute; [reflexivity|discriminate]. Defined.

(** Whether a run of an action gives a result. *)
Definition succeeds {A} (m : (err + A) * World) : bool := match fst m with inr _ => true | inl _ => false end.

Lemma succeeds_pair {A} (m : (err + A) * World) : succeeds m = true -> exists x, m = (inr x, snd m).
Proof. destruct m as [[e|x] w]; [discriminate|]. intros _. by exists x. Qed.

Lemma LastBackupBefore_spec_witness :
  exists sel w', @LastBackupBefore NoFaults zeroSizes _ "/b" None (onDay 2024 6 15) = (inr sel, w') /\
    (oldZip, Date 2024 1 2 0) ∉ file_key <$> sel.
Proof.
  destruct (succeeds_pair (@LastBackupBefore NoFaults zeroSizes _ "/b" None (onDay 2024 6 15))) as [sel E];
    [vm_compute; reflexivity|]. exists sel. eexists. split; [exact E|]. intros H.
  apply (LastBackupBefore_spec NoFaults zeroSizes _ "/b" None (onDay 2024 6 15) sel _ E) in H as (_ & _ & Hmax).
  assert (dated_archive dayFs "/b" recentZip (Date 2024 6 10 0)) as Hr.
  { apply (dated_archive_check _ _ "mysql_backup_20240610_db1_shop.zip"); try reflexivity.
    - apply (bool_decide_eq_true_1 _). reflexivity.
    - exists (Raw []), zeroTime. reflexivity. }
  specialize (Hmax _ _ Hr I). vm_compute in Hmax. apply Hmax. reflexivity.
Defined.

Lemma lastSunday_terminates_witness : lastSunday_loop 10 (Date 2024 6 15 0) = lastSunday (Date 2024 6 15 0).
Proof. apply (lastSunday_terminates (Date 2024 6 15 0) 10). lia. Defined.

End Retention.
