(* ===== verification/UserSQL.v ===== *)
(** * internal/backup/usersql.go: the exported users, split by database. *)

From S2P Require Import Prelude GoStrings Regexp GoRuntime World.
Import GoStrings Regexp GoRuntime World.

Module UserSQL.

(** ** Patterns *)

(** [[a-zA-Z0-9$_\x{80}-\x{FFFF}]] *)
Definition ident (r : Z) : bool := cls_w r || (r =? 36)%Z || ((128 <=? r) && (r <=? 65535))%Z.

(** A name in one kind of quotes, captured as group [n]. *)
Definition quoted (c : ascii) (n : nat) : re :=
  Cat (Cls (is_byte c)) (Cat (Grp n (plus (not_byte c))) (Cls (is_byte c))).

(** The four ways of writing a name, captured as groups [n] to [n+3]. *)
Definition name_re (n : nat) : re :=
  Alt (quoted backtick n) (Alt (quoted dquote (n + 1)) (Alt (quoted squote (n + 2)) (Grp (n + 3) (plus ident)))).

Definition userHostRe : re :=
  Cat (name_re 1) (Cat (Rep cls_s) (Cat (Cls (is_byte "@")) (Cat (Rep cls_s) (name_re 5)))).

(** A possibly empty quoted text, captured as group [n]. *)
Definition quoted0 (c : ascii) (n : nat) : re :=
  Cat (Cls (is_byte c)) (Cat (Grp n (Rep (not_byte c))) (Cls (is_byte c))).

Definition ident_by : re :=
  Cat (lit_ci "IDENTIFIED") (Cat (plus cls_s) (Cat (lit_ci "BY") (Cat (plus cls_s)
    (Cat (lit_ci "PASSWORD") (plus cls_s))))).

Definition identifiedByRe : re :=
  Cat ident_by (Alt (quoted0 backtick 1) (Alt (quoted0 dquote 2) (quoted0 squote 3))).

Definition grantOnDbRe : re :=
  Cat (lit_ci "ON") (Cat (plus cls_s) (Cat (name_re 1)
    (Cat (Rep cls_s) (Cat (Cls (is_byte ".")) (Cat (Rep cls_s) (Cls (is_byte "*"))))))).

Definition stripIdentRe : re := Cat (Rep cls_s) identifiedByRe.

(** Element [i] of a submatch slice, which is nil when there is no match. *)
Definition sub (m : list gostring) (i : nat) : gostring := default [] (m !! i).

Definition FindSub (r : re) (n : nat) (s : gostring) : list gostring := default [] (FindStringSubmatch r n s).

Definition extractUserHost (m : list gostring) : gostring * gostring :=
  if bool_decide (length m < 9) then ([], [])
  else (TrimSpace (sub m 1 ++ sub m 2 ++ sub m 3 ++ sub m 4),
        TrimSpace (sub m 5 ++ sub m 6 ++ sub m 7 ++ sub m 8)).

Definition extractIdentPassword (m : list gostring) : gostring :=
  if bool_decide (length m < 4) then [] else TrimSpace (sub m 1 ++ sub m 2 ++ sub m 3).

Definition extractGrantDb (m : list gostring) : gostring :=
  if bool_decide (length m < 5) then []
  else let db := TrimSpace (sub m 1 ++ sub m 2 ++ sub m 3 ++ sub m 4) in
       if db ==? str "*" then [] else db.

(** ** User records *)

Record grantLine := mkGrant { raw : gostring; gdb : gostring }.

#[global] Instance grantLine_eq_dec : EqDecision grantLine.
Proof. solve_decision. Defined.

Record userRecord := mkUser {
  name : gostring;
  hosts : list gostring;
  hostSet : gmap gostring bool;
  password : gostring;
  pwByHost : gmap gostring gostring;
  grants : list grantLine;
  dbs : gmap gostring bool
}.

Definition newUserRecord (n : gostring) : userRecord := mkUser n [] ∅ [] ∅ [] ∅.

Definition addHost (u : userRecord) (host : gostring) : userRecord :=
  if default false (hostSet u !! host) then u
  else mkUser (name u) (hosts u ++ [host]) (<[host := true]> (hostSet u)) (password u) (pwByHost u)
         (grants u) (dbs u).

(** The error value says that the host already has another hash. *)
Definition setPassword (u : userRecord) (host hash : gostring) : option err * userRecord :=
  if hash ==? [] then (None, u)
  else if match pwByHost u !! host with Some prev => negb (prev ==? hash) | None => false end
  then (Some (Errorf "err.user_differing_password" [name u; host] None), u)
  else (None,
        mkUser (name u) (hosts u) (hostSet u) (if password u ==? [] then hash else password u)
          (<[host := hash]> (pwByHost u)) (grants u) (dbs u)).

Definition addDb (u : userRecord) (db : gostring) : userRecord :=
  mkUser (name u) (hosts u) (hostSet u) (password u) (pwByHost u) (grants u) (<[db := true]> (dbs u)).

Definition addGrant (u : userRecord) (g : grantLine) : userRecord :=
  mkUser (name u) (hosts u) (hostSet u) (password u) (pwByHost u) (grants u ++ [g]) (dbs u).

(** The loop of [hasDifferentPasswords]: [first] is "" until a hash has been seen. *)
Fixpoint diff_loop (first : gostring) (ps : list gostring) : bool :=
  match ps with
  | [] => false
  | p :: ps' =>
      if first ==? [] then diff_loop p ps'
      else if negb (p ==? first) then true
      else diff_loop first ps'
  end.

Definition hasDifferentPasswords `{MapOrder} (u : userRecord) : bool :=
  if bool_decide (size (pwByHost u) <= 1) then false
  else diff_loop [] (snd <$> range_map (pwByHost u)).

(** ** Parsing *)

(** What the parser has so far: the records and the warnings given. *)
Definition pstate : Type := gmap gostring userRecord * list LogEntry.

Definition lookupUser (users : gmap gostring userRecord) (n : gostring) : userRecord :=
  default (newUserRecord n) (users !! n).

(** The part both statements share: host and password of the line. *)
Definition noteHost (u : userRecord) (host trimmed : gostring) : userRecord * list LogEntry :=
  let u := addHost u host in
  let subm := FindSub identifiedByRe 3 trimmed in
  if bool_decide (4 <= length subm) then
    let pw := extractIdentPassword subm in
    if pw ==? [] then (u, [])
    else match setPassword u host pw with
         | (Some e, u') => (u', [mkLog LWarn "%v" [AErr e]])
         | (None, u') => (u', [])
         end
  else (u, []).

Definition parseCreate (trimmed : gostring) (st : pstate) : pstate :=
  let '(n, host) := extractUserHost (FindSub userHostRe 8 trimmed) in
  if negb (n ==? []) && negb (host ==? []) then
    let '(u, ws) := noteHost (lookupUser (fst st) n) host trimmed in
    (<[n := u]> (fst st), snd st ++ ws)
  else st.

Definition parseGrant (line trimmed : gostring) (st : pstate) : pstate :=
  let '(n, host) := extractUserHost (FindSub userHostRe 8 trimmed) in
  if (n ==? []) || (host ==? []) then st
  else
    let '(u, ws) := noteHost (lookupUser (fst st) n) host trimmed in
    let onDb := FindSub grantOnDbRe 4 trimmed in
    let db := if bool_decide (5 <= length onDb) then extractGrantDb onDb else [] in
    let u := if db ==? [] then u else addDb u db in
    (<[n := addGrant u (mkGrant line db)]> (fst st), snd st ++ ws).

Definition parseLine (st : pstate) (line : gostring) : pstate :=
  let trimmed := TrimSpace line in
  if trimmed ==? [] then st
  else
    let upper := ToUpper trimmed in
    if HasPrefix upper "CREATE USER " then parseCreate trimmed st
    else if HasPrefix upper "GRANT " then parseGrant line trimmed st
    else st.

(** [sc.Buffer(nil, 1024*1024)]; the scanner's error is not looked at. *)
Definition maxLine : Z := 1024 * 1024.

Definition parseUserRecords (sql : gostring) : pstate :=
  fold_left parseLine (fst (ScanLines maxLine sql)) (∅, []).

(** ** Output *)

Definition escapeSQL (s : gostring) : gostring :=
  ReplaceAllByte (ReplaceAllByte s backslash "\\") squote "''".

Definition createLine (u : userRecord) (h : gostring) : gostring :=
  if negb (password u ==? []) then
    "CREATE USER IF NOT EXISTS '" ++ escapeSQL (name u) ++ "'@'" ++ escapeSQL h
    ++ "' IDENTIFIED BY PASSWORD '" ++ escapeSQL (password u) ++ "';" ++ [LF]
  else "CREATE USER IF NOT EXISTS '" ++ escapeSQL (name u) ++ "'@'" ++ escapeSQL h ++ "';" ++ [LF].

Definition grantText (g : grantLine) : gostring :=
  let stripped := TrimSpace (ReplaceAllString stripIdentRe (raw g) []) in
  if stripped ==? [] then []
  else (if HasSuffix stripped ";" then stripped else stripped ++ ";") ++ [LF].

Definition grantFor (db : gostring) (g : grantLine) : gostring :=
  if gdb g ==? db then grantText g else [].

(** The statements for one user and one database. *)
Definition userBlock (u : userRecord) (db : gostring) : gostring :=
  (hosts u ≫= createLine u) ++ (grants u ≫= grantFor db).

Definition addBlock (u : userRecord) (dbToSQL : gmap gostring gostring) (db0 : gostring) : gmap gostring gostring :=
  let db := TrimSpace db0 in
  if db ==? [] then dbToSQL
  else
    let s := userBlock u db in
    if s ==? [] then dbToSQL
    else
      let existing := default [] (dbToSQL !! db) in
      let existing := if existing ==? [] then existing else existing ++ [LF; LF] in
      <[db := existing ++ TrimRightByte s LF]> dbToSQL.

Section Output.
Context {MO : MapOrder}.

Definition addUser (acc : gmap gostring gostring * list LogEntry) (u : userRecord) : gmap gostring gostring * list LogEntry :=
  if bool_decide (size (dbs u) = 0) then acc
  else
    let ws := if hasDifferentPasswords u then [mkLog LWarn "log.warn.user_different_passwords" [AStr (name u)]] else [] in
    (fold_left (addBlock u) (fst <$> range_map (dbs u)) (fst acc), snd acc ++ ws).

(** The list "user@host", without repetitions. *)
Fixpoint names_loop (keys : list gostring) (seen : gset gostring) : list gostring :=
  match keys with
  | [] => []
  | k :: keys' => if bool_decide (k ∈ seen) then names_loop keys' seen else k :: names_loop keys' ({[k]} ∪ seen)
  end.

Definition userNamesFromUsers (users : gmap gostring userRecord) : list gostring :=
  names_loop ((snd <$> range_map users) ≫= fun u => (fun h => name u ++ "@" ++ h) <$> hosts u) ∅.

(** Result: SQL by database, user names, warnings. *)
Definition ParseUserSQL (sql : gostring) : gmap gostring gostring * list gostring * list LogEntry :=
  if bool_decide (length sql = 0) then (∅, [], [])
  else
    let '(users, ws) := parseUserRecords sql in
    let userNames := userNamesFromUsers users in
    let '(dbToSQL, ws') := fold_left addUser (snd <$> range_map users) (∅, ws) in
    (dbToSQL, userNames, ws').

End Output.

(** ** Lemmas: records *)

(** A well-formed record: its collections agree with each other. *)
Record user_inv (n : gostring) (u : userRecord) : Prop := {
  inv_name : name u = n;
  inv_hosts_NoDup : NoDup (hosts u);
  inv_hostSet : forall h, h ∈ hosts u <-> hostSet u !! h = Some true;
  inv_dbs : forall db, is_Some (dbs u !! db) <-> db <> [] /\ exists g, g ∈ grants u /\ gdb g = db;
  inv_trimmed : forall g, g ∈ grants u -> TrimSpace (gdb g) = gdb g;
  inv_pw_host : forall h p, pwByHost u !! h = Some p -> p <> [] /\ h ∈ hosts u;
  inv_pw_empty : password u = [] <-> pwByHost u = ∅;
  inv_pw_used : password u <> [] -> exists h, pwByHost u !! h = Some (password u)
}.

Lemma new_inv n : user_inv n (newUserRecord n).
Proof.
  constructor; simpl; try done; try by (intros; set_solver).
  - constructor.
  - intros db. rewrite lookup_empty. split; [by intros []|]. by intros (_ & g & Hg%elem_of_nil & _).
Qed.

Lemma addHost_inv n u h : user_inv n u -> user_inv n (addHost u h) /\ h ∈ hosts (addHost u h).
Proof.
  intros [Hn Hnd Hs Hd Ht Hph Hpe Hpu]. unfold addHost. destruct (default false (hostSet u !! h)) eqn:E.
  - split; [done|]. apply Hs. destruct (hostSet u !! h) as [[]|]; done.
  - assert (hostSet u !! h <> Some true) as Hh by (intros H; by rewrite H in E).
    split; [|set_solver]. constructor; simpl; try done.
    + apply NoDup_app. split; [done|]. split; [|apply NoDup_singleton].
      intros x Hx%Hs ->%list_elem_of_singleton. done.
    + intros h'. rewrite elem_of_app, Hs, list_elem_of_singleton. destruct (decide (h' = h)) as [->|]; simplify_map_eq; naive_solver.
    + intros h' p H. destruct (Hph h' p H). set_solver.
Qed.

Lemma setPassword_inv n u h p : user_inv n u -> h ∈ hosts u -> user_inv n (snd (setPassword u h p)).
Proof.
  intros Hu Hh. pose proof Hu as [Hn Hnd Hs Hd Ht Hph Hpe Hpu]. unfold setPassword.
  case_bool_decide as Hp; [done|]. case_if; [done|]. simpl. constructor; simpl; try done.
  - intros h' p'. destruct (decide (h' = h)) as [->|]; simplify_map_eq; [naive_solver|apply Hph].
  - split; [by case_bool_decide|]. intros H. by apply insert_non_empty in H.
  - intros _. case_bool_decide as He; [exists h; by simplify_map_eq|]. destruct (Hpu He) as [h' Hh'].
    destruct (decide (h' = h)) as [->|]; [|exists h'; by simplify_map_eq]. rewrite Hh' in E. bool_prop. subst. exists h. by simplify_map_eq.
Qed.

Lemma addDb_addGrant_inv n u g :
  user_inv n u -> TrimSpace (gdb g) = gdb g ->
  user_inv n (addGrant (if gdb g ==? [] then u else addDb u (gdb g)) g).
Proof.
  intros [Hn Hnd Hs Hd Ht Hph Hpe Hpu] Hg. case_bool_decide as He; constructor; simpl; try done.
  - intros db. rewrite Hd. split; intros [H1 (g' & H2 & H3)]; (split; [done|]); exists g'; set_solver.
  - set_solver.
  - intros db. destruct (decide (db = gdb g)) as [->|Hne]; simplify_map_eq.
    + split; [|by eexists]. intros _. split; [done|]. exists g. set_solver.
    + rewrite Hd. split; intros [H1 (g' & H2 & H3)]; (split; [done|]); exists g'; set_solver.
  - set_solver.
Qed.

(** ** Lemmas: the parser *)

Definition user_ok (n : gostring) (u : userRecord) : Prop := n <> [] /\ hosts u <> [] /\ user_inv n u.

Definition users_ok (users : gmap gostring userRecord) : Prop := map_Forall user_ok users.

Lemma setPassword_hosts u h p : hosts (snd (setPassword u h p)) = hosts u.
Proof. unfold setPassword. case_bool_decide; [done|]. by case_if. Qed.

Lemma noteHost_inv n u h line :
  user_inv n u -> user_inv n (fst (noteHost u h line)) /\ h ∈ hosts (fst (noteHost u h line)).
Proof.
  intros Hu. destruct (addHost_inv n u h Hu) as [Ha Hh]. unfold noteHost. cbv zeta.
  case_if; [|done]. case_if; [done|].
  pose proof (setPassword_inv n (addHost u h) h (extractIdentPassword (FindSub identifiedByRe 3 line)) Ha Hh) as Hs.
  pose proof (setPassword_hosts (addHost u h) h (extractIdentPassword (FindSub identifiedByRe 3 line))) as He.
  destruct (setPassword _ _ _) as [[] u']; simpl in *; by rewrite He.
Qed.

Lemma lookupUser_inv users n : users_ok users -> user_inv n (lookupUser users n).
Proof.
  intros H. unfold lookupUser. destruct (users !! n) as [u|] eqn:E; simpl; [by apply (H n u E)|apply new_inv].
Qed.

Lemma extractGrantDb_trimmed m : TrimSpace (extractGrantDb m) = extractGrantDb m.
Proof. unfold extractGrantDb. repeat case_if; try done. apply TrimSpace_idem. Qed.

Lemma parseCreate_ok line st : users_ok (fst st) -> users_ok (fst (parseCreate line st)).
Proof.
  intros H. unfold parseCreate. destruct (extractUserHost _) as [n h]. case_if; [|done]. bool_prop.
  destruct (noteHost_inv n (lookupUser (fst st) n) h line) as [Hi Hh]; [by apply lookupUser_inv|].
  destruct (noteHost _ _ _) as [u ws]. simpl in *. apply map_Forall_insert_2; [|done].
  split; [done|]. split; [|done]. by intros E; rewrite E in Hh; apply elem_of_nil in Hh.
Qed.

Lemma parseGrant_ok line trimmed st : users_ok (fst st) -> users_ok (fst (parseGrant line trimmed st)).
Proof.
  intros H. unfold parseGrant. destruct (extractUserHost _) as [n h]. case_if; [done|]. bool_prop.
  destruct (noteHost_inv n (lookupUser (fst st) n) h trimmed) as [Hi Hh]; [by apply lookupUser_inv|].
  destruct (noteHost _ _ _) as [u ws]. cbn [fst snd] in *.
  set (db := if bool_decide (5 <= _) then _ else _).
  assert (TrimSpace db = db) as Hdb by (subst db; case_if; [apply extractGrantDb_trimmed|done]).
  apply map_Forall_insert_2; [|done]. split; [done|].
  pose proof (addDb_addGrant_inv n u (mkGrant line db) Hi Hdb) as Hg. split; [|exact Hg].
  simpl. by case_if; simpl; intros E'; rewrite E' in Hh; apply elem_of_nil in Hh.
Qed.

Lemma parseLine_ok st line : users_ok (fst st) -> users_ok (fst (parseLine st line)).
Proof.
  intros H. unfold parseLine. cbv zeta. repeat case_if; auto using parseCreate_ok, parseGrant_ok.
Qed.

Lemma parseLines_ok ls st : users_ok (fst st) -> users_ok (fst (fold_left parseLine ls st)).
Proof. revert st. induction ls; simpl; auto using parseLine_ok. Qed.

Lemma parse_ok sql : users_ok (fst (parseUserRecords sql)).
Proof. apply parseLines_ok. apply map_Forall_empty. Qed.

(** *** The first password stays *)

Lemma setPassword_first u h p : password u <> [] -> password (snd (setPassword u h p)) = password u.
Proof. intros H. unfold setPassword. repeat (case_if; simpl; try done). bool_prop. done. Qed.

Lemma noteHost_first u h line : password u <> [] -> password (fst (noteHost u h line)) = password u.
Proof.
  intros H. assert (password (addHost u h) = password u) as Ha by (unfold addHost; by case_if).
  unfold noteHost. cbv zeta. repeat case_if; try done.
  pose proof (setPassword_first (addHost u h) h (extractIdentPassword (FindSub identifiedByRe 3 line))) as Hs.
  rewrite Ha in Hs. specialize (Hs H). by destruct (setPassword _ _ _) as [[] u'].
Qed.

Definition has_password (users : gmap gostring userRecord) (n p : gostring) : Prop :=
  p <> [] /\ exists u, users !! n = Some u /\ password u = p.

Lemma has_password_insert users n p m u' :
  has_password users n p -> (m = n -> password u' = p) -> has_password (<[m := u']> users) n p.
Proof.
  intros [Hp (u & Hu & <-)] H. split; [done|]. destruct (decide (m = n)) as [->|]; simplify_map_eq; eauto.
Qed.

Lemma parseLine_first st line n p : has_password (fst st) n p -> has_password (fst (parseLine st line)) n p.
Proof.
  intros H. assert (forall m h tr, m = n -> password (fst (noteHost (lookupUser (fst st) m) h tr)) = p) as Hn.
  { intros m h tr ->. destruct H as [Hp (u & Hu & <-)]. unfold lookupUser. rewrite Hu. by apply noteHost_first. }
  unfold parseLine. cbv zeta. case_if; [done|]. case_if; [|case_if; [|done]].
  - unfold parseCreate. destruct (extractUserHost _) as [m h]. case_if; [|done].
    specialize (Hn m h (TrimSpace line)). destruct (noteHost _ _ _) as [u ws]. by apply has_password_insert.
  - unfold parseGrant. destruct (extractUserHost _) as [m h]. case_if; [done|].
    specialize (Hn m h (TrimSpace line)). destruct (noteHost _ _ _) as [u ws]. apply has_password_insert; [done|].
    intros Hm. simpl. by case_if; apply Hn.
Qed.

(** ** Lemmas: the output *)

Definition blank : gostring := [LF; LF].

(** What a user contributes to the block of a database. *)
Definition block (u : userRecord) (db : gostring) : gostring := TrimRightByte (userBlock u db) LF.

(** The blocks of the users that have a grant on the database. *)
Definition blocks (us : list userRecord) (db : gostring) : list gostring :=
  (fun u => block u db) <$> filter (fun u => is_Some (dbs u !! db)) us.

Definition joined (bs : list gostring) : option gostring :=
  match bs with [] => None | _ => Some (Join bs blank) end.

Lemma userBlock_head u db : hosts u <> [] -> "C"%char ∈ userBlock u db.
Proof.
  intros Hh. unfold userBlock. destruct (hosts u) as [|h hs]; [done|]. rewrite bind_cons, !elem_of_app. left. left.
  unfold createLine. case_if; left.
Qed.

Lemma block_nonempty u db : hosts u <> [] -> block u db <> [].
Proof. intros Hh. by apply (TrimRightByte_nonempty _ "C"%char); [|apply userBlock_head]. Qed.

Lemma addBlock_lookup u m db0 db :
  hosts u <> [] -> TrimSpace db0 = db0 -> db0 <> [] ->
  addBlock u m db0 !! db =
    if db0 ==? db then Some ((if default [] (m !! db) ==? [] then [] else default [] (m !! db) ++ blank) ++ block u db)
    else m !! db.
Proof.
  intros Hh Ht Hne. unfold addBlock. rewrite Ht. rewrite (bool_decide_eq_false_2 (db0 = [])) by done.
  rewrite bool_decide_eq_false_2.
  2: { intros E. pose proof (userBlock_head u db0 Hh) as H. rewrite E in H. by apply elem_of_nil in H. }
  cbv zeta. destruct (decide (db0 = db)) as [->|E].
  - rewrite lookup_insert_eq, (bool_decide_eq_true_2 (db = db)) by done. unfold block, blank.
    do 2 f_equal. case_bool_decide as E; [by rewrite E|done].
  - by rewrite lookup_insert_ne, (bool_decide_eq_false_2 (db0 = db)).
Qed.

Lemma addBlocks_lookup u ks m db :
  hosts u <> [] -> Forall (fun k => TrimSpace k = k /\ k <> []) ks -> NoDup ks ->
  fold_left (addBlock u) ks m !! db =
    if bool_decide (db ∈ ks)
    then Some ((if default [] (m !! db) ==? [] then [] else default [] (m !! db) ++ blank) ++ block u db)
    else m !! db.
Proof.
  intros Hh Hk. revert m. induction Hk as [|k ks [Ht Hne] _ IH]; intros m Hnd; [done|]. simpl.
  apply NoDup_cons in Hnd as [Hni Hnd]. rewrite IH, addBlock_lookup by done.
  destruct (decide (k = db)) as [->|Hkd].
  - rewrite (bool_decide_eq_false_2 (db ∈ ks)), (bool_decide_eq_true_2 (db = db)), (bool_decide_eq_true_2 (db ∈ db :: ks)); [done|left|done|done].
  - rewrite (bool_decide_eq_false_2 (k = db)) by done. rewrite (bool_decide_ext (db ∈ k :: ks) (db ∈ ks)); [done|]. set_solver.
Qed.

Section Blocks.
Context {MO : MapOrder}.

Lemma addUser_lookup acc u db :
  hosts u <> [] -> (forall k, is_Some (dbs u !! k) -> TrimSpace k = k /\ k <> []) ->
  fst (addUser acc u) !! db =
    if bool_decide (is_Some (dbs u !! db))
    then Some ((if default [] (fst acc !! db) ==? [] then [] else default [] (fst acc !! db) ++ blank) ++ block u db)
    else fst acc !! db.
Proof.
  intros Hh Hk. unfold addUser. case_bool_decide as Hs.
  - apply map_size_empty_inv in Hs. rewrite Hs, bool_decide_eq_false_2; [done|]. rewrite lookup_empty. by intros [].
  - cbn [fst]. rewrite addBlocks_lookup; [|done| |apply NoDup_range_map].
    + rewrite (bool_decide_ext (db ∈ (range_map (dbs u)).*1) (is_Some (dbs u !! db))); [done|].
      rewrite list_elem_of_fmap. split.
      * intros ([k v] & -> & Hin%elem_of_range_map). by eexists.
      * intros [v Hv]. exists (db, v). by rewrite elem_of_range_map.
    + apply Forall_fmap, Forall_forall. intros [k v] Hin%elem_of_range_map. apply Hk. by eexists.
Qed.

Lemma addUsers_lookup us acc done_ db :
  Forall (fun u => exists n, user_ok n u) us -> Forall (fun u => exists n, user_ok n u) done_ ->
  fst acc !! db = joined (blocks done_ db) ->
  fst (fold_left addUser us acc) !! db = joined (blocks (done_ ++ us) db).
Proof.
  intros Hus. revert acc done_. induction Hus as [|u us [n Hu] Hus IH]; intros acc ds Hds Hacc; simpl.
  - by rewrite app_nil_r.
  - replace (ds ++ u :: us) with ((ds ++ [u]) ++ us) by (by rewrite <- app_assoc). apply IH.
    { apply Forall_snoc. eauto. }
    destruct Hu as (Hne & Hh & [_ _ _ Hd Ht _ _ _]). rewrite addUser_lookup; [|done|].
    2: { intros k [Hk (g & Hg & <-)]%Hd. auto. }
    unfold blocks in *. rewrite filter_app, fmap_app. cbn [filter list_filter]. rewrite Hacc.
    case_bool_decide as E; [rewrite decide_True by done|by rewrite decide_False, app_nil_r by done].
    cbn [fmap list_fmap]. set (bs := (fun u0 => block u0 db) <$> _).
    assert (Forall (fun e => e <> []) bs) as Hbs.
    { apply Forall_fmap, Forall_forall. intros v [_ Hv]%list_elem_of_filter. rewrite Forall_forall in Hds.
      destruct (Hds v Hv) as (m & _ & Hh' & _). by apply block_nonempty. }
    unfold joined. destruct (bs ++ [block u db]) as [|x l] eqn:El; [by destruct bs|]. rewrite <- El, Join_snoc.
    destruct bs as [|b0 bs]; [done|]. rewrite bool_decide_eq_false_2 by (by apply Join_nonempty).
    rewrite (bool_decide_eq_false_2 (b0 :: bs = [])) by done. by rewrite <- app_assoc.
Qed.

Lemma users_values_ok users : users_ok users -> Forall (fun u => exists n, user_ok n u) (snd <$> range_map users).
Proof.
  intros H. apply Forall_fmap, Forall_forall. intros [n u] Hin%elem_of_range_map. exists n. by apply (H n u).
Qed.

Lemma ParseUserSQL_lookup sql db :
  fst (fst (ParseUserSQL sql)) !! db = joined (blocks (snd <$> range_map (fst (parseUserRecords sql))) db).
Proof.
  unfold ParseUserSQL. case_bool_decide as E.
  - apply length_zero_iff_nil in E as ->. replace (fst (parseUserRecords [])) with (∅ : gmap gostring userRecord) by done.
    assert (range_map (∅ : gmap gostring userRecord) = []) as ->; [|cbn [fst]; by rewrite lookup_empty].
    apply Permutation_nil_r. rewrite range_map_perm. by rewrite map_to_list_empty.
  - pose proof (parse_ok sql) as Hok. destruct (parseUserRecords sql) as [users ws]. cbn [fst] in *.
    pose proof (addUsers_lookup (snd <$> range_map users) (∅, ws) [] db (users_values_ok _ Hok) (Forall_nil_2 _)) as H.
    cbn [fst] in H. rewrite lookup_empty in H. specialize (H eq_refl). cbn [app] in H.
    destruct (fold_left addUser _ _) as [m ws']. exact H.
Qed.

End Blocks.

(** ** Lemmas: passwords and names *)

Lemma diff_loop_true first ps :
  Forall (fun p => p <> []) ps ->
  diff_loop first ps = true <->
  if first ==? [] then exists p q, p ∈ ps /\ q ∈ ps /\ p <> q else exists p, p ∈ ps /\ p <> first.
Proof.
  intros Hps. revert first. induction Hps as [|p ps Hp _ IH]; intros first; simpl.
  - split; [done|]. case_bool_decide; intros; set_solver.
  - case_bool_decide as Hf.
    + rewrite IH, bool_decide_eq_false_2 by done. split.
      * intros (q & Hq & Hne). exists q, p. set_solver.
      * intros (a & c & [->|Ha]%elem_of_cons & [->|Hc]%elem_of_cons & Hne); [done|by exists c|by exists a|].
        destruct (decide (a = p)) as [->|]; [|by exists a]. by exists c.
    + destruct (decide (p = first)) as [->|Hpf].
      * rewrite bool_decide_eq_true_2 by done. simpl. rewrite IH, bool_decide_eq_false_2 by done. set_solver.
      * rewrite bool_decide_eq_false_2 by done. simpl. split; [|done]. intros _. exists p. set_solver.
Qed.

Lemma names_loop_elem keys seen k : k ∈ names_loop keys seen <-> k ∈ keys /\ k ∉ seen.
Proof.
  revert seen. induction keys as [|k' keys IH]; intros seen; simpl; [set_solver|].
  case_bool_decide as Hs; rewrite ?elem_of_cons, IH; [set_solver|]. destruct (decide (k = k')) as [->|]; set_solver.
Qed.

Lemma names_loop_NoDup keys seen : NoDup (names_loop keys seen).
Proof.
  revert seen. induction keys as [|k keys IH]; intros seen; simpl; [constructor|]. case_bool_decide; [done|].
  constructor; [|done]. rewrite names_loop_elem. set_solver.
Qed.

(** ** Lemmas: quoting *)

(** Reading a string literal after its opening quote: a doubled quote stands for a
    quote, a backslash for the byte after it; the result and what follows. *)
Fixpoint read_literal (s : gostring) : option (gostring * gostring) :=
  match s with
  | [] => None
  | c :: s' =>
      if c ==? backslash then
        match s' with
        | [] => None
        | d :: s'' => (fun '(v, r) => (d :: v, r)) <$> read_literal s''
        end
      else if c ==? squote then
        match s' with
        | d :: s'' => if d ==? squote then (fun '(v, r) => (squote :: v, r)) <$> read_literal s'' else Some ([], s')
        | [] => Some ([], [])
        end
      else (fun '(v, r) => (c :: v, r)) <$> read_literal s'
  end.

Lemma escapeSQL_cons c s :
  escapeSQL (c :: s) =
    (if c ==? backslash then [backslash; backslash] else if c ==? squote then [squote; squote] else [c]) ++ escapeSQL s.
Proof.
  unfold escapeSQL. unfold ReplaceAllByte at 2. rewrite bind_cons. fold (ReplaceAllByte s backslash "\\").
  rewrite ReplaceAllByte_app. f_equal. case_bool_decide; [done|]. unfold ReplaceAllByte. simpl.
  case_bool_decide; done.
Qed.

Lemma read_literal_escapeSQL s rest :
  (forall r, rest <> squote :: r) -> read_literal (escapeSQL s ++ squote :: rest) = Some (s, rest).
Proof.
  intros Hr. induction s as [|c s IH].
  - cbn -[squote backslash]. destruct rest as [|d rest]; [done|]. simpl. rewrite bool_decide_eq_false_2; [done|]. intros ->. by apply (Hr rest).
  - rewrite escapeSQL_cons. case_bool_decide as Hb; [|case_bool_decide as Hq]; rewrite <- app_assoc; cbn [app read_literal].
    + rewrite bool_decide_eq_true_2 by done. rewrite IH. by subst.
    + rewrite bool_decide_eq_false_2, !bool_decide_eq_true_2 by done. rewrite IH. by subst.
    + rewrite !bool_decide_eq_false_2 by done. by rewrite IH.
Qed.

(** ** Theorems *)

(** C25: Whatever text is parsed, every record is well formed: it is filed under its
    non-empty name, has at least one host and each host once, its databases are exactly
    those of its grants, its hashes are non-empty and belong to its hosts, and its
    password is one of them (empty only if there is none). *)
Theorem parseUserRecords_wf sql : map_Forall user_ok (fst (parseUserRecords sql)).
Proof. apply parse_ok. Qed.

(** C11: In whatever order the maps are visited, the text for a database is the blocks of
    exactly the users with a grant on it, each with its CREATE USER lines and its own
    GRANTs on that database, separated by an empty line; a database without such users
    has no text. *)
Theorem ParseUserSQL_spec (MO : MapOrder) sql db :
  exists us, us ≡ₚ snd <$> map_to_list (fst (parseUserRecords sql)) /\
    fst (fst (ParseUserSQL sql)) !! db =
      joined ((fun u => TrimRightByte ((hosts u ≫= createLine u) ++ (filter (fun g => gdb g = db) (grants u) ≫= grantText)) LF)
              <$> filter (fun u => is_Some (dbs u !! db)) us).
Proof.
  exists (snd <$> range_map (fst (parseUserRecords sql))). split; [by rewrite range_map_perm|].
  rewrite ParseUserSQL_lookup. unfold blocks. f_equal. apply list_fmap_ext. intros i u _. unfold block, userBlock.
  do 2 f_equal. induction (grants u) as [|g gs IH]; [done|]. rewrite bind_cons, IH, filter_cons. unfold grantFor.
  case_bool_decide; [by rewrite decide_True|by rewrite decide_False].
Qed.

(** The first password stays: once a user has a password, no later line of the
    export changes it. *)
Theorem first_password_wins ls rest n p :
  Forall (fun l => LF ∉ l /\ (Z.of_nat (length l) < maxLine)%Z) ls ->
  has_password (fst (parseUserRecords (unlines ls))) n p ->
  has_password (fst (parseUserRecords (unlines ls ++ rest))) n p.
Proof.
  intros [H1 H2]%Forall_and H. unfold parseUserRecords, ScanLines in *.
  rewrite raw_lines_unlines_app, scan_raw_app, fold_left_app by done.
  rewrite raw_lines_unlines, scan_raw_ok in H by done. cbn [fst] in H. revert H.
  generalize (fold_left parseLine (drop_cr <$> ls) (∅, [])) as st. generalize (fst (scan_raw maxLine (raw_lines rest))) as more.
  intros more. induction more as [|l more IH]; intros st H; [done|]. simpl. apply IH. by apply parseLine_first.
Qed.

(** A line of a mebibyte or more silently ends the parsing: that line and everything
    after it is dropped, without error or warning. *)
Theorem long_line_truncates ls long rest :
  Forall (fun l => LF ∉ l /\ (Z.of_nat (length l) < maxLine)%Z) ls ->
  LF ∉ long -> (maxLine <= Z.of_nat (length long))%Z ->
  parseUserRecords (unlines ls ++ long ++ LF :: rest) = parseUserRecords (unlines ls).
Proof.
  intros [H1 H2]%Forall_and Hn Hl. unfold parseUserRecords, ScanLines.
  rewrite raw_lines_unlines_app, raw_lines_app, scan_raw_app by done.
  rewrite raw_lines_unlines, (scan_raw_ok maxLine ls) by done. cbn [scan_raw]. rewrite (proj2 (Z.leb_le _ _)) by done.
  cbn [fst]. by rewrite app_nil_r.
Qed.

(** The test for different passwords does not depend on the order of the map: for a
    parsed record it holds exactly when two hosts have different hashes. *)
Theorem hasDifferentPasswords_spec (MO : MapOrder) sql n u :
  fst (parseUserRecords sql) !! n = Some u ->
  hasDifferentPasswords u = true <->
  exists h1 h2 p1 p2, pwByHost u !! h1 = Some p1 /\ pwByHost u !! h2 = Some p2 /\ p1 <> p2.
Proof.
  intros Hu. destruct (parse_ok sql n u Hu) as (_ & _ & [_ _ _ _ _ Hph _ _]).
  assert (Forall (fun p => p <> []) (snd <$> range_map (pwByHost u))) as Hall.
  { apply Forall_fmap, Forall_forall. intros [h p] Hin%elem_of_range_map. by apply (Hph h p). }
  assert ((exists p q, p ∈ (range_map (pwByHost u)).*2 /\ q ∈ (range_map (pwByHost u)).*2 /\ p <> q) <->
    exists h1 h2 p1 p2, pwByHost u !! h1 = Some p1 /\ pwByHost u !! h2 = Some p2 /\ p1 <> p2) as Hiff.
  { setoid_rewrite list_elem_of_fmap. split.
    - intros (p & q & ([h1 p1] & -> & H1%elem_of_range_map) & ([h2 p2] & -> & H2%elem_of_range_map) & Hne). by exists h1, h2, p1, p2.
    - intros (h1 & h2 & p1 & p2 & H1 & H2 & Hne). exists p1, p2. split; [|split; [|done]].
      + exists (h1, p1). by rewrite elem_of_range_map.
      + exists (h2, p2). by rewrite elem_of_range_map. }
  rewrite <- Hiff. unfold hasDifferentPasswords. case_bool_decide as Hs.
  - split; [done|]. rewrite Hiff. intros (h1 & h2 & p1 & p2 & H1 & H2 & Hne). exfalso.
    destruct (decide (h1 = h2)) as [->|Hh]; [congruence|].
    assert (2 <= size (pwByHost u)); [|lia]. rewrite <- (insert_delete_id _ _ _ H1), map_size_insert_None by apply lookup_delete_eq.
    rewrite <- (insert_delete_id (delete h1 (pwByHost u)) h2 p2), map_size_insert_None; [lia|apply lookup_delete_eq|by rewrite lookup_delete_ne].
  - rewrite diff_loop_true by done. done.
Qed.

(** The list of users for the log has each "user@host" of the parsed records exactly
    once and nothing else. *)
Theorem userNames_spec (MO : MapOrder) users :
  NoDup (userNamesFromUsers users) /\
  forall k, k ∈ userNamesFromUsers users <->
    exists n u h, users !! n = Some u /\ h ∈ hosts u /\ k = name u ++ "@" ++ h.
Proof.
  split; [apply names_loop_NoDup|]. intros k. unfold userNamesFromUsers. rewrite names_loop_elem, list_elem_of_bind. split.
  - intros [(u & (h & -> & Hh)%list_elem_of_fmap & ([n v] & -> & Hu%elem_of_range_map)%list_elem_of_fmap) _]. by exists n, v, h.
  - intros (n & u & h & Hu & Hh & ->). split; [|set_solver]. exists u. split.
    + apply list_elem_of_fmap. by exists h.
    + apply list_elem_of_fmap. exists (n, u). by rewrite elem_of_range_map.
Qed.

(** Escaping round-trips: reading the literal written between quotes gives back the
    text, with nothing of it outside the quotes. *)
Theorem escapeSQL_roundtrip s rest :
  (forall r, rest <> squote :: r) -> read_literal (escapeSQL s ++ squote :: rest) = Some (s, rest).
Proof. apply read_literal_escapeSQL. Qed.

(** ** Witnesses *)

Definition sampleLines : list gostring :=
  [str "CREATE USER `app`@`%` IDENTIFIED BY PASSWORD '*AB';";
   str "GRANT ALL PRIVILEGES ON `shop`.* TO `app`@`10.0.0.1` IDENTIFIED BY PASSWORD '*CD';"].

Lemma sampleLines_ok : Forall (fun l => LF ∉ l /\ (Z.of_nat (length l) < maxLine)%Z) sampleLines.
Proof. apply (bool_decide_eq_true_1 _). vm_compute. reflexivity. Qed.

Lemma first_password_wins_witness :
  has_password (fst (parseUserRecords (unlines sampleLines ++ "CREATE USER `app`@`%` IDENTIFIED BY PASSWORD '*EF';"))) "app" "*AB".
Proof.
  apply (first_password_wins sampleLines).
  - apply sampleLines_ok.
  - split; [discriminate|]. eexists. split; vm_compute; reflexivity.
Defined.

Lemma long_line_truncates_witness :
  parseUserRecords (unlines sampleLines ++ replicate (Z.to_nat maxLine) "x"%char ++ LF :: str "GRANT USAGE ON *.* TO `x`@`%`;")
  = parseUserRecords (unlines sampleLines).
Proof.
  apply (long_line_truncates sampleLines (replicate (Z.to_nat maxLine) "x"%char)).
  - apply sampleLines_ok.
  - intros [H _]%elem_of_replicate. discriminate.
  - rewrite length_replicate, Z2Nat.id by (unfold maxLine; lia). apply Z.le_refl.
Defined.

Lemma hasDifferentPasswords_spec_witness :
  exists u, fst (parseUserRecords (unlines sampleLines)) !! str "app" = Some u /\ hasDifferentPasswords u = true.
Proof.
  destruct (fst (parseUserRecords (unlines sampleLines)) !! str "app") as [u|] eqn:E; [|exfalso; vm_compute in E; discriminate E].
  exists u. split; [reflexivity|]. apply (hasDifferentPasswords_spec default_map_order (unlines sampleLines) (str "app") u E).
  exists (str "%"), (str "10.0.0.1"), (str "*AB"), (str "*CD"). vm_compute in E. injection E as <-.
  split; [|split]; [reflexivity|reflexivity|discriminate].
Defined.

Lemma escapeSQL_roundtrip_witness : read_literal (escapeSQL "o'brien\" ++ squote :: str ";") = Some (str "o'brien\", str ";").
Proof. apply (escapeSQL_roundtrip "o'brien\" ";"). intros r. discriminate. Defined.

End UserSQL.
