(* ===== verification/UserStatements.v ===== *)
(** * The statements of accounts, parsed.

    What the regular expressions of the user parser find in CREATE USER and GRANT
    statements of accounts with plain names: the account, its password hash and the
    database of the grant, and nothing earlier in the statement. *)

From S2P Require Import Prelude GoStrings Regexp GoRuntime World Mysql UserSQL.
Import GoStrings Regexp GoRuntime World UserSQL.

Module UserStatements.

(** ** Matching *)

Abbreviation toks := (fmap tok1).

Lemma run_Cat_nil a b s : run a s = [] -> run (Cat a b) s = [].
Proof. intros H. cbn [run]. by rewrite H. Qed.

(** A hit of a concatenation is a hit of its first part and then one of its second. *)
Lemma Cat_hit a b s c s' k : (c, s', k) ∈ run (Cat a b) s ->
  exists c1 s1 k1 c2 k2, (c1, s1, k1) ∈ run a s /\ (c2, s', k2) ∈ run b s1 /\ c = c1 ++ c2.
Proof.
  cbn [run]. intros ([[c1 s1] k1] & H & H1)%list_elem_of_bind. apply list_elem_of_fmap in H as ([[c2 s2] k2] & ? & H2). simplify_eq.
  by eexists _, _, _, _, _.
Qed.

Lemma Cls_hit p s c s' k : (c, s', k) ∈ run (Cls p) s -> exists t, s = t :: s' /\ c = [t] /\ p (rune t) = true.
Proof.
  cbn [run]. destruct s as [|t s]; [by intros ?%not_elem_of_nil|]. destruct (p (rune t)) eqn:E; [|by intros ?%not_elem_of_nil].
  intros H%list_elem_of_singleton. simplify_eq. eauto.
Qed.

Lemma Grp_hit n a s c s' k : (c, s', k) ∈ run (Grp n a) s -> exists k', (c, s', k') ∈ run a s.
Proof. cbn [run]. intros ([[c1 s1] k1] & ? & H)%list_elem_of_fmap. simplify_eq. eauto. Qed.

Lemma plus_hit p s c s' k : (c, s', k) ∈ run (plus p) s -> c <> [] /\ Forall (fun t => p (rune t) = true) c.
Proof.
  intros (c1 & s1 & k1 & c2 & k2 & (t & -> & -> & Ht)%Cls_hit & H2 & ->)%Cat_hit. apply rep_split in H2 as (_ & H2 & _).
  split; [done|]. by constructor.
Qed.

Lemma no_hits r s : (forall c s' k, (c, s', k) ∉ run r s) -> run r s = [].
Proof. intros H. destruct (run r s) as [|[[c s'] k] l]; [done|]. destruct (H c s' k). left. Qed.

(** A name as the patterns accept it: in quotes, or of identifier characters. *)
Definition is_quote (q : ascii) : Prop := q = backtick \/ q = dquote \/ q = squote.

Definition inQuotes (q : ascii) (x : list tok) : Prop :=
  exists t m t', x = t :: m ++ [t'] /\ is_byte q (rune t) = true /\ is_byte q (rune t') = true /\ Forall (fun t => not_byte q (rune t) = true) m.

Lemma quoted_hit q n s c s' k : (c, s', k) ∈ run (quoted q n) s -> inQuotes q c.
Proof.
  intros (c1 & s1 & k1 & c2 & k2 & (t & -> & -> & Ht)%Cls_hit & H & ->)%Cat_hit.
  apply Cat_hit in H as (m & s2 & k3 & c4 & k4 & H & (t' & -> & -> & Ht')%Cls_hit & ->). apply Grp_hit in H as [k' H]. apply plus_hit in H as [_ H].
  by exists t, m, t'.
Qed.

Lemma name_hit n s c s' k : (c, s', k) ∈ run (name_re n) s -> (exists q, is_quote q /\ inQuotes q c) \/ Forall (fun t => ident (rune t) = true) c.
Proof.
  unfold name_re. cbn [run]. rewrite !elem_of_app. unfold is_quote.
  intros [H%quoted_hit|[H%quoted_hit|[H%quoted_hit|H]]]; [left; eauto..|]. right. apply (Grp_hit (n + 3)) in H as [k' H]. by apply plus_hit in H as [_ H].
Qed.

Lemma userHost_hit s c s' k : (c, s', k) ∈ run userHostRe s ->
  exists x sp a y, s = (x ++ sp) ++ a :: y /\ Forall (fun t => cls_s (rune t) = true) sp /\ rune a = 64%Z /\
    ((exists q, is_quote q /\ inQuotes q x) \/ Forall (fun t => ident (rune t) = true) x).
Proof.
  intros (x & s1 & k1 & c2 & k2 & Hx & H & ->)%Cat_hit. apply Cat_hit in H as (sp & s2 & k3 & c4 & k4 & Hsp & H & ->).
  apply Cat_hit in H as (c5 & s3 & k5 & c6 & k6 & (a & -> & -> & Ha)%Cls_hit & _ & ->).
  pose proof (run_split _ _ _ _ _ Hx) as ->. apply rep_split in Hsp as (-> & Hsp & _). exists x, sp, a, s3.
  split; [by rewrite <- app_assoc|]. split; [done|]. split; [by apply Z.eqb_eq in Ha|]. by eapply name_hit.
Qed.

(** *** No match before the account *)

Definition at_sign (t : tok) : Prop := rune t = 64%Z.

Lemma split_first (P : tok -> Prop) l1 b R l2 a y :
  Forall (fun t => ~ P t) l1 -> P a -> l1 ++ b :: R = l2 ++ a :: y -> l2 = l1 \/ exists l3, l2 = l1 ++ b :: l3 /\ R = l3 ++ a :: y.
Proof.
  intros H Ha. revert l2. induction H as [|t l1 Ht _ IH]; intros l2 E.
  - destruct l2 as [|t l2]; [by left|]. right. exists l2. cbn in E. by injection E as -> ->.
  - destruct l2 as [|t' l2]; cbn in E; injection E as <- E; [done|]. destruct (IH l2 E) as [->|(l3 & -> & ->)]; [by left|right; by exists l3].
Qed.

Lemma quote_not_ident q : is_quote q -> ident (code q) = false /\ code q <> 64%Z /\ cls_s (code q) = false /\ (code q < 128)%Z.
Proof. intros [->|[->| ->]]; vm_compute; done. Qed.

(** The quoted name of the account, and what stands before and after it: no at sign
    before, and of the kinds of quotes after it only its own is also before it. *)
Definition lead (q : ascii) (P U : list tok) : list tok := P ++ tok1 q :: U ++ [tok1 q].

Definition only_quote (q : ascii) (P R : list tok) : Prop :=
  Forall (fun t => forall c, is_quote c -> rune t = code c -> c = q \/ Forall (fun p => rune p <> code c) P) R.

(** Blanks at the end do not reach back beyond another token. *)
Lemma split_blanks L z R x sp :
  cls_s (rune z) = false -> Forall (fun t => cls_s (rune t) = true) sp -> x ++ sp = (L ++ [z]) ++ R -> exists rest, x = (L ++ [z]) ++ rest /\ R = rest ++ sp.
Proof.
  intros Hz Hsp E. destruct (app_eq_app _ _ _ _ E) as (l & [[-> ->]|[E1 ->]]); [eauto|]. destruct l as [|t l _] using rev_ind.
  - rewrite app_nil_r in E1. exists []. by rewrite app_nil_r.
  - exfalso. apply (f_equal last) in E1. rewrite app_assoc, !last_snoc in E1. injection E1 as ->.
    rewrite !Forall_app, Forall_singleton in Hsp. destruct Hsp as [[_ Ht] _]. congruence.
Qed.

Lemma inQuotes_long c q P U rest :
  P <> [] -> inQuotes c (lead q P U ++ rest) -> c <> q /\ (exists p, p ∈ P /\ rune p = code c) /\ exists t, t ∈ rest /\ rune t = code c.
Proof.
  intros Hne (t & m & t' & E & Ht & Ht' & Hm). destruct P as [|p P]; [done|]. unfold lead in E. cbn in E. injection E as -> E. rewrite <- app_assoc in E. cbn in E.
  assert (forall m', m = P ++ tok1 q :: m' -> c <> q) as Hc.
  { intros m' -> ->. apply Forall_app in Hm as [_ Hm]. apply Forall_cons in Hm as [Hm _]. unfold not_byte in Hm. cbn in Hm. by rewrite Z.eqb_refl in Hm. }
  unfold is_byte in Ht, Ht'. apply Z.eqb_eq in Ht, Ht'. destruct rest as [|z rest _] using rev_ind.
  - rewrite app_nil_r, app_comm_cons, app_assoc in E. apply app_inj_tail in E as [E <-]. cbn in Ht'. destruct (Hc U); [done|]. rewrite <- (chr_code c), <- (chr_code q). by f_equal.
  - rewrite app_comm_cons, !app_assoc in E. apply app_inj_tail in E as [E ->]. split; [|split; [exists t|exists t']; set_solver].
    apply (Hc ((U ++ [tok1 q]) ++ rest)). by rewrite <- E, <- app_assoc.
Qed.

Lemma userHost_miss q P U a R :
  is_quote q -> P <> [] -> Forall (fun t => ~ at_sign t) (P ++ U) -> at_sign a -> only_quote q P R ->
  run userHostRe (lead q P U ++ a :: R) = [].
Proof.
  intros Hq Hne Hat Ha Hother. destruct (quote_not_ident q Hq) as (Hi & H64 & Hs & _). apply no_hits. intros c s' k H.
  apply userHost_hit in H as (x & sp & a' & y & E & Hsp & Ha' & Hx). apply Forall_app in Hat as [HP HU].
  assert (Forall (fun t => ~ at_sign t) (lead q P U)) as Hlead.
  { apply Forall_app. split; [done|]. constructor; [done|]. apply Forall_app. split; [done|]. by constructor. }
  assert (exists rest, x ++ sp = lead q P U ++ rest /\ forall t, t ∈ rest -> t = a \/ t ∈ R) as (rest & E' & Hrest).
  { destruct (split_first at_sign (lead q P U) a R (x ++ sp) a' y Hlead Ha' E) as [E1|(l3 & E1 & ->)].
    - exists []. rewrite app_nil_r. split; [done|]. by intros t ?%not_elem_of_nil.
    - exists (a :: l3). split; [done|]. intros t [->|Ht]%elem_of_cons; [by left|right; set_solver]. }
  unfold lead in E'. rewrite app_comm_cons, app_assoc in E'. apply split_blanks in E' as (rest' & -> & ->); [|done|done].
  assert ((P ++ tok1 q :: U) ++ [tok1 q] = lead q P U) as El by (unfold lead; by rewrite <- app_assoc). rewrite El in Hx. destruct Hx as [(c' & Hc' & Hx)|Hx].
  - apply inQuotes_long in Hx as (Hne' & (p & Hp & Ep) & t & Ht & Hr); [|done]. destruct (Hrest t) as [->|Hin]; [set_solver| |].
    + destruct (quote_not_ident c' Hc') as (_ & H & _). unfold at_sign in Ha. congruence.
    + unfold only_quote in Hother. rewrite Forall_forall in Hother. destruct (Hother t Hin c' Hc' Hr) as [?|HP']; [done|].
      rewrite Forall_forall in HP'. by apply (HP' p).
  - apply Forall_app in Hx as [Hx _]. unfold lead in Hx. apply Forall_app in Hx as [_ Hx]. apply Forall_cons in Hx as [Hx _]. cbn in Hx. congruence.
Qed.

(** *** The match *)

(** After a repetition that cannot be continued by its own class, only the longest run counts. *)
Lemma rep_bind {B : Type} p w s (G : hit -> list B) :
  Forall (fun t => p (rune t) = true) w -> (forall t s', s = t :: s' -> p (rune t) = false) ->
  (forall c t s', p (rune t) = true -> G (c, t :: s', []) = []) -> rep p (w ++ s) ≫= G = G (w, s, []).
Proof.
  intros Hw Hs. revert G. induction Hw as [|t w Ht Hw IH]; intros G HG.
  - destruct s as [|t s]; cbn; [by rewrite app_nil_r|]. rewrite (Hs t s eq_refl). cbn. by rewrite app_nil_r.
  - cbn [app rep]. rewrite Ht, bind_app, list_fmap_bind. cbn [mbind list_bind]. rewrite HG by done. rewrite !app_nil_r.
    apply (IH (G ∘ (fun '(c, r, k) => (t :: c, r, k)))). intros c t' s' Hp. cbn. by apply HG.
Qed.

Lemma run_quoted q n u U s :
  Forall (fun t => not_byte q (rune t) = true) (u :: U) ->
  run (quoted q n) (tok1 q :: u :: U ++ tok1 q :: s) = [(tok1 q :: u :: U ++ [tok1 q], s, [(n, text (u :: U))])].
Proof.
  intros [Hu HU]%Forall_cons. unfold quoted. erewrite run_Cat_det by (apply run_Cls, Z.eqb_refl).
  unfold plus. cbn [run]. rewrite Hu. rewrite list_fmap_bind. cbn [mbind list_bind]. rewrite app_nil_r, list_fmap_bind.
  rewrite rep_bind.
  - assert (is_byte q (rune (tok1 q)) = true) as E by apply Z.eqb_refl. cbn -[is_byte tok1]. by rewrite E.
  - done.
  - intros t s' [= <- _]. unfold not_byte. by rewrite Z.eqb_refl.
  - intros c t s' Ht. cbn -[is_byte]. unfold not_byte in Ht. apply negb_true_iff in Ht. unfold is_byte. by rewrite Ht.
Qed.

(** The group a kind of quote is captured in. *)
Definition slot (n : nat) (q : ascii) : nat := if q ==? backtick then n else if q ==? dquote then n + 1 else n + 2.

Lemma run_quoted_other q c n s : c <> q -> run (quoted c n) (tok1 q :: s) = [].
Proof.
  intros H. apply run_Cat_nil. cbn -[is_byte]. unfold is_byte. cbn [rune tok1]. rewrite (proj2 (Z.eqb_neq _ _)); [done|]. intros E. apply H.
  rewrite <- (chr_code c), <- (chr_code q). by f_equal.
Qed.

Lemma run_name q n u U s :
  is_quote q -> Forall (fun t => not_byte q (rune t) = true) (u :: U) ->
  run (name_re n) (tok1 q :: u :: U ++ tok1 q :: s) = [(tok1 q :: u :: U ++ [tok1 q], s, [(slot n q, text (u :: U))])].
Proof.
  intros Hq HU. assert (run (Grp (n + 3) (plus ident)) (tok1 q :: u :: U ++ tok1 q :: s) = []) as Hi.
  { cbn [run plus]. cbn [rune tok1]. by rewrite (proj1 (quote_not_ident q Hq)). }
  unfold name_re, slot. cbn [run] in *. destruct Hq as [->|[->| ->]].
  all: repeat (rewrite run_quoted_other by done); rewrite run_quoted by done; cbn [run] in *; rewrite Hi; done.
Qed.

Lemma run_name_blank n t s : cls_s (rune t) = true -> run (name_re n) (t :: s) = [].
Proof.
  intros H. assert (forall q m, is_quote q -> run (quoted q m) (t :: s) = []) as Hq.
  { intros q m Hq. apply run_Cat_nil. cbn -[is_byte]. unfold is_byte. destruct (rune t =? code q)%Z eqn:E; [|done].
    apply Z.eqb_eq in E. rewrite E in H. destruct (quote_not_ident q Hq) as (_ & _ & Hs & _). congruence. }
  unfold name_re. cbn [run]. rewrite !Hq by (unfold is_quote; tauto). cbn [app run plus]. unfold cls_s in H. assert (ident (rune t) = false) as -> by (unfold ident, cls_w; lia).
  done.
Qed.

(** Blanks that are not there. *)
Lemma run_no_blanks r t s : cls_s (rune t) = false -> (forall t s', cls_s (rune t) = true -> run r (t :: s') = []) ->
  run (Cat (Rep cls_s) r) (t :: s) = (fun '(c, s', k) => (c, s', k ++ [])) <$> run r (t :: s).
Proof. intros Ht Hr. apply (run_Rep_Cat cls_s r [] (t :: s)); [constructor|by intros ? ? [= <- <-]|done]. Qed.

Definition account (q : ascii) (u : tok) (U : list tok) (h : tok) (H R : list tok) : list tok :=
  tok1 q :: u :: U ++ tok1 q :: tok1 "@" :: tok1 q :: h :: H ++ tok1 q :: R.

Lemma run_userHost q u U h H R :
  is_quote q -> Forall (fun t => not_byte q (rune t) = true) (u :: U) -> Forall (fun t => not_byte q (rune t) = true) (h :: H) ->
  exists c, run userHostRe (account q u U h H R) = [(c, R, [(slot 5 q, text (h :: H)); (slot 1 q, text (u :: U))])].
Proof.
  intros Hq HU HH. destruct (quote_not_ident q Hq) as (_ & _ & Hs & _). unfold userHostRe, account.
  rewrite (run_Cat_det _ _ _ _ _ _ (run_name q 1 u U _ Hq HU)). rewrite run_no_blanks; [|done|].
  2: { intros t s' Ht. apply run_Cat_nil. cbn -[is_byte]. unfold is_byte. destruct (rune t =? code "@")%Z eqn:E; [|done].
       apply Z.eqb_eq in E. by rewrite E in Ht. }
  rewrite (run_Cat_det _ _ _ _ _ _ (run_Cls (is_byte "@") (tok1 "@") _ eq_refl)).
  rewrite run_no_blanks; [|done|by intros; apply run_name_blank]. rewrite (run_name q 5 h H R Hq HH). cbn. eauto.
Qed.

(** Positions without a match are passed over. *)
Lemma find_skip r P S : (forall P1 P2, P = P1 ++ P2 -> P2 <> [] -> run r (P2 ++ S) = []) -> find r (P ++ S) = find r S.
Proof.
  induction P as [|t P IH]; intros H; [done|]. pose proof (H [] (t :: P) eq_refl ltac:(done)) as E. cbn [app find] in *. rewrite E.
  apply IH. intros P1 P2 -> Hne. by apply (H (t :: P1)).
Qed.

Lemma find_userHost q P u U h H R :
  is_quote q -> Forall (fun t => not_byte q (rune t) = true) (u :: U) -> Forall (fun t => not_byte q (rune t) = true) (h :: H) ->
  Forall (fun t => ~ at_sign t) (P ++ u :: U) -> only_quote q P (tok1 q :: h :: H ++ tok1 q :: R) ->
  exists c, find userHostRe (P ++ account q u U h H R) = Some (c, R, [(slot 5 q, text (h :: H)); (slot 1 q, text (u :: U))]).
Proof.
  intros Hq HU HH Hat Ho. destruct (run_userHost q u U h H R Hq HU HH) as [c E]. exists c. rewrite find_skip; [by eapply find_here|].
  intros P1 P2 -> Hne. unfold account. pose proof (userHost_miss q P2 (u :: U) (tok1 "@") (tok1 q :: h :: H ++ tok1 q :: R) Hq Hne) as Hm.
  unfold lead in Hm. rewrite <- app_assoc in Hm. cbn [app] in Hm. rewrite <- app_assoc in Hm. apply Hm; [|done|].
  - rewrite <- app_assoc in Hat. by apply Forall_app in Hat as [_ Hat].
  - eapply Forall_impl; [exact Ho|]. intros t Ht c' Hc' Et. destruct (Ht c' Hc' Et) as [?|H']; [by left|right]. by apply Forall_app in H' as [_ H'].
Qed.

(** ** Accounts *)

(** Names of visible ASCII characters without quotes, at signs, backslashes and stars. *)
Definition plain_byte (c : ascii) : bool :=
  (33 <=? code c)%Z && (code c <=? 126)%Z && negb (bool_decide (c ∈ [backtick; dquote; squote; "@"%char; backslash; "*"%char])).

Definition plain_name (s : gostring) : Prop := s <> [] /\ Forall (fun c => plain_byte c = true) s.

Definition ascii_text (s : gostring) : Prop := Forall (fun c => (code c < 128)%Z) s.

Lemma plain_byte_facts c : plain_byte c = true ->
  (33 <= code c < 128)%Z /\ c <> "@"%char /\ c <> "*"%char /\ c <> backslash /\ forall q, is_quote q -> c <> q.
Proof.
  unfold plain_byte. rewrite !andb_true_iff, negb_true_iff, bool_decide_eq_false. intros [[H1 H2] H3]. rewrite !not_elem_of_cons in H3.
  split; [lia|]. unfold is_quote. repeat split; try tauto. intros q [->|[->| ->]]; tauto.
Qed.

Lemma plain_ascii s : Forall (fun c => plain_byte c = true) s -> ascii_text s.
Proof. intros H. eapply Forall_impl; [exact H|]. intros c Hc%plain_byte_facts. lia. Qed.

Lemma plain_trimmed s : Forall (fun c => plain_byte c = true) s -> TrimSpace s = s.
Proof. intros H. apply TrimSpace_Forall. eapply Forall_impl; [exact H|]. intros c Hc%plain_byte_facts. unfold solid, is_space1. lia. Qed.

Lemma code_eq c d : code c = code d <-> c = d.
Proof. split; [|by intros ->]. intros E. rewrite <- (chr_code c), <- (chr_code d). by f_equal. Qed.

Lemma plain_not_byte q s : is_quote q -> Forall (fun c => plain_byte c = true) s -> Forall (fun t => not_byte q (rune t) = true) (toks s).
Proof.
  intros Hq H. apply Forall_fmap. eapply Forall_impl; [exact H|]. intros c Hc. destruct (plain_byte_facts c Hc) as (_ & _ & _ & _ & H').
  unfold not_byte. cbn. apply negb_true_iff, Z.eqb_neq. rewrite code_eq. by apply H'.
Qed.

Lemma plain_no_at s : Forall (fun c => plain_byte c = true) s -> "@"%char ∉ s.
Proof. intros H Hin. rewrite Forall_forall in H. by specialize (H _ Hin). Qed.

Lemma no_at_toks s : "@"%char ∉ s -> Forall (fun t => ~ at_sign t) (toks s).
Proof. intros H. apply Forall_fmap, Forall_forall. intros c Hc E. unfold at_sign in E. cbn in E. apply (code_eq c "@") in E. by subst. Qed.

(** A text with an account in it, as the statements have it. *)
Definition accountText (q : ascii) (u h : gostring) : gostring := [q] ++ u ++ [q] ++ "@" ++ [q] ++ h ++ [q].

Lemma runes_ascii_text s : ascii_text s -> runes s = toks s.
Proof. intros H. rewrite <- (app_nil_r s) at 1. rewrite runes_ascii_app by done. by rewrite app_nil_r. Qed.

Lemma account_groups q c R x y :
  is_quote q -> let m := submatches 8 (c, R, [(slot 5 q, y); (slot 1 q, x)]) in
  length m = 9 /\ sub m 1 ++ sub m 2 ++ sub m 3 ++ sub m 4 = x /\ sub m 5 ++ sub m 6 ++ sub m 7 ++ sub m 8 = y.
Proof.
  intros [->|[->| ->]] m; (split; [reflexivity|]);
    (split; [transitivity (x ++ @nil ascii); [reflexivity|apply app_nil_r]|transitivity (y ++ @nil ascii); [reflexivity|apply app_nil_r]]).
Qed.

Lemma extract_account q P u h R :
  is_quote q -> plain_name u -> plain_name h -> ascii_text P -> ascii_text R -> "@"%char ∉ P ->
  (forall c, is_quote c -> c ∈ R -> c = q \/ c ∉ P) ->
  extractUserHost (FindSub userHostRe 8 (P ++ accountText q u h ++ R)) = (u, h).
Proof.
  intros Hq [Hu HU] [Hh HH] HP HR Hat Ho. pose proof (plain_trimmed _ HU) as Tu. pose proof (plain_trimmed _ HH) as Th. destruct (quote_not_ident q Hq) as (_ & _ & _ & Hq128).
  unfold FindSub, FindStringSubmatch. destruct u as [|u0 u]; [done|]. destruct h as [|h0 h]; [done|].
  assert (runes (P ++ accountText q (u0 :: u) (h0 :: h) ++ R) = toks P ++ account q (tok1 u0) (toks u) (tok1 h0) (toks h) (toks R)) as ->.
  { rewrite runes_ascii_text.
    - unfold accountText, account. by rewrite !fmap_app, <- !app_assoc.
    - pose proof (plain_ascii _ HU). pose proof (plain_ascii _ HH). unfold ascii_text, accountText in *. rewrite !Forall_app, !Forall_singleton. repeat split; try done. by repeat constructor. }
  destruct (find_userHost q (toks P) (tok1 u0) (toks u) (tok1 h0) (toks h) (toks R) Hq) as [c ->].
  - by apply (plain_not_byte q (u0 :: u)).
  - by apply (plain_not_byte q (h0 :: h)).
  - apply Forall_app. split; [by apply no_at_toks|]. apply (no_at_toks (u0 :: u)). by apply plain_no_at.
  - assert (Forall (fun c => forall q', is_quote q' -> c = q' -> q' = q \/ q' ∉ P) (q :: h0 :: h ++ q :: R)) as Hb.
    { apply Forall_forall. intros c Hc q' Hq' <-. rewrite Forall_forall in HH. apply elem_of_cons in Hc as [->|Hc]; [by left|]. rewrite app_comm_cons in Hc.
      apply elem_of_app in Hc as [Hc|[->|Hc]%elem_of_cons]; [|by left|auto]. destruct (plain_byte_facts c (HH c Hc)) as (_ & _ & _ & _ & H). by destruct (H c Hq'). }
    assert (tok1 q :: tok1 h0 :: toks h ++ tok1 q :: toks R = toks (q :: h0 :: h ++ q :: R)) as -> by (cbn; by rewrite fmap_app).
    apply Forall_fmap. eapply Forall_impl; [exact Hb|]. intros c Hc c' Hc' E. cbn in E. apply code_eq in E. destruct (Hc c' Hc' E) as [?|H]; [by left|right].
    apply Forall_fmap, Forall_forall. intros d Hd E'. cbn in E'. apply code_eq in E'. by subst.
  - match goal with |- extractUserHost (default [] (_ <$> Some ?H)) = _ => change (extractUserHost (submatches 8 H) = (u0 :: u, h0 :: h)) end. change (tok1 u0 :: toks u) with (toks (u0 :: u)). change (tok1 h0 :: toks h) with (toks (h0 :: h)).
    rewrite !text_tok1. destruct (account_groups q c (toks R) (u0 :: u) (h0 :: h) Hq) as (El & E1 & E2).
    unfold extractUserHost. rewrite El, E1, E2, Tu, Th. done.
Qed.

(** ** Passwords *)

(** The tokens spell a word, whatever the case. *)
Definition spells (w : gostring) (c : list tok) : Prop := Forall2 (fun ch t => fold_byte ch (rune t) = true) w c.

Definition word : gostring := "IDENTIFIED".

(** The word is nowhere in the text. *)
Definition free (s : list tok) : Prop := forall s1 c s2, s = s1 ++ c ++ s2 -> ~ spells word c.

Definition letter (t : tok) : bool := existsb (fun ch => fold_byte ch (rune t)) word.

Lemma lit_ci_hit w s c s' k : (c, s', k) ∈ run (lit_ci w) s -> spells w c.
Proof.
  revert s c k. unfold lit_ci, cats. induction w as [|ch w IH]; intros s c k; cbn [fmap list_fmap foldr].
  - intros H%list_elem_of_singleton. simplify_eq. constructor.
  - intros (c1 & s1 & k1 & c2 & k2 & (t & -> & -> & Ht)%Cls_hit & H & ->)%Cat_hit. constructor; [done|]. by eapply IH.
Qed.

Lemma identified_hit s c s' k : (c, s', k) ∈ run identifiedByRe s -> exists c1 c2, s = c1 ++ c2 /\ spells word c1.
Proof.
  intros (c1 & s1 & k1 & c2 & k2 & H & _ & ->)%Cat_hit. apply Cat_hit in H as (c3 & s3 & k3 & c4 & k4 & H & _ & ->).
  exists c3, s3. split; [by eapply run_split|by eapply lit_ci_hit].
Qed.

Lemma spells_elem w c t : spells w c -> t ∈ c -> existsb (fun ch => fold_byte ch (rune t)) w = true.
Proof.
  induction 1 as [|ch t' w c Ht _ IH]; [by intros ?%not_elem_of_nil|]. intros [->|Hin]%elem_of_cons; cbn [existsb]; [by rewrite Ht|].
  by rewrite (IH Hin), orb_true_r.
Qed.

Lemma spells_letters c t : spells word c -> t ∈ c -> letter t = true.
Proof. apply spells_elem. Qed.

Lemma free_miss s1 s : free (s1 ++ s) -> run identifiedByRe s = [].
Proof. intros H. apply no_hits. intros c s' k (c1 & c2 & -> & Hc)%identified_hit. by apply (H s1 c1 c2). Qed.

Lemma free_find s : free s -> find identifiedByRe s = None.
Proof.
  intros H. rewrite <- (app_nil_r s). rewrite find_skip; [done|]. intros P1 P2 -> _. rewrite app_nil_r. by eapply free_miss.
Qed.

(** Two texts without the word, with something between them that is none of its letters. *)
Lemma free_sep A t B : letter t = false -> free A -> free B -> free (A ++ t :: B).
Proof.
  intros Ht HA HB s1 c s2 E Hc. assert (t ∉ c) as Hin by (intros H; pose proof (spells_letters c t Hc H); congruence).
  destruct (app_eq_app _ _ _ _ E) as (l & [[-> E2]|[-> E2]]).
  - destruct (app_eq_app _ _ _ _ E2) as (l' & [[-> E3]|[-> E3]]).
    + destruct l' as [|t' l']; [|cbn in E3; simplify_eq; set_solver]. rewrite app_nil_r in *. by apply (HA s1 l []); rewrite ?app_nil_r.
    + by apply (HA s1 c l').
  - destruct l as [|t' l]; cbn in E2.
    + destruct c as [|t' c]; [by inversion Hc|]. cbn in E2. simplify_eq. set_solver.
    + simplify_eq. by apply (HB l c s2).
Qed.

(** The match. *)

Lemma run_lit_ci w s : Forall (fun ch => fold_byte ch (code ch) = true) w -> run (lit_ci w) (toks w ++ s) = [(toks w, s, [])].
Proof.
  unfold lit_ci, cats. induction 1 as [|ch w Hc _ IH]; [done|]. cbn [fmap list_fmap foldr app].
  erewrite run_Cat_det by (by apply run_Cls). by rewrite IH.
Qed.

Lemma run_blank t s : cls_s (rune t) = false -> run (plus cls_s) (tok1 " " :: t :: s) = [([tok1 " "], t :: s, [])].
Proof. intros H. unfold plus. erewrite run_Cat_det by (by apply run_Cls). cbn [run rep]. by rewrite H. Qed.

Lemma run_blank_word w s : match w with [] => False | c :: _ => cls_s (code c) = false end ->
  run (plus cls_s) (tok1 " " :: toks w ++ s) = [([tok1 " "], toks w ++ s, [])].
Proof. destruct w as [|c w]; [done|]. intros H. by apply (run_blank (tok1 c)). Qed.

Lemma run_quoted0 q n U s :
  Forall (fun t => not_byte q (rune t) = true) U -> run (quoted0 q n) (tok1 q :: U ++ tok1 q :: s) = [(tok1 q :: U ++ [tok1 q], s, [(n, text U)])].
Proof.
  intros HU. unfold quoted0. erewrite run_Cat_det by (apply run_Cls, Z.eqb_refl). cbn [run]. rewrite list_fmap_bind, rep_bind.
  - assert (is_byte q (rune (tok1 q)) = true) as E by apply Z.eqb_refl. cbn -[is_byte tok1]. by rewrite E.
  - done.
  - intros t s' [= <- _]. unfold not_byte. by rewrite Z.eqb_refl.
  - intros c t s' Ht. cbn -[is_byte]. unfold not_byte in Ht. apply negb_true_iff in Ht. unfold is_byte. by rewrite Ht.
Qed.

(** IDENTIFIED BY PASSWORD with the hash in quotes. *)
Definition identified : gostring := "IDENTIFIED BY PASSWORD ".

Lemma run_identified U R :
  Forall (fun t => not_byte squote (rune t) = true) U ->
  exists c, run identifiedByRe (toks identified ++ tok1 squote :: U ++ tok1 squote :: R) = [(c, R, [(3, text U)])].
Proof.
  intros HU. unfold identifiedByRe.
  assert (run ident_by (toks identified ++ tok1 squote :: U ++ tok1 squote :: R) = [(toks identified, tok1 squote :: U ++ tok1 squote :: R, [])]) as E.
  { unfold ident_by. set (S := tok1 squote :: U ++ tok1 squote :: R).
    change (toks identified ++ S) with (toks (str "IDENTIFIED") ++ tok1 " " :: toks (str "BY") ++ tok1 " " :: toks (str "PASSWORD") ++ tok1 " " :: S).
    assert (forall w, Forall (fun ch => fold_byte ch (code ch) = true) w <-> forallb (fun ch => fold_byte ch (code ch)) w = true) as Hw.
    { intros w. rewrite Forall_forall. rewrite forallb_forall. setoid_rewrite list_elem_of_In. done. }
    rewrite (run_Cat_det _ _ _ _ _ _ (run_lit_ci "IDENTIFIED" _ (proj2 (Hw (str "IDENTIFIED")) eq_refl))). rewrite (run_Cat_det _ _ _ _ _ _ (run_blank_word "BY" _ eq_refl)).
    rewrite (run_Cat_det _ _ _ _ _ _ (run_lit_ci "BY" _ (proj2 (Hw (str "BY")) eq_refl))). rewrite (run_Cat_det _ _ _ _ _ _ (run_blank_word "PASSWORD" _ eq_refl)).
    rewrite (run_Cat_det _ _ _ _ _ _ (run_lit_ci "PASSWORD" _ (proj2 (Hw (str "PASSWORD")) eq_refl))). subst S. by rewrite run_blank. }
  rewrite (run_Cat_det _ _ _ _ _ _ E). cbn [run]. rewrite (run_quoted0 squote 3 U R HU).
  assert (forall q n s, q <> squote -> run (quoted0 q n) (tok1 squote :: s) = []) as Ho.
  { intros q n s Hq. apply run_Cat_nil. cbn -[is_byte]. unfold is_byte. cbn [rune tok1]. rewrite (proj2 (Z.eqb_neq _ _)); [done|]. rewrite code_eq. congruence. }
  rewrite !Ho by done. cbn. eauto.
Qed.

Lemma find_identified P0 t U R :
  letter t = false -> free (P0 ++ [t]) -> Forall (fun t => not_byte squote (rune t) = true) U ->
  exists c, find identifiedByRe ((P0 ++ [t]) ++ toks identified ++ tok1 squote :: U ++ tok1 squote :: R) = Some (c, R, [(3, text U)]).
Proof.
  intros Ht Hf HU. destruct (run_identified U R HU) as [c E]. exists c. rewrite find_skip; [by eapply find_here|].
  intros P1 P2 EP Hne. apply no_hits. intros c' s' k (c1 & c2 & E' & Hc)%identified_hit. destruct (app_eq_app _ _ _ _ E') as (l & [[-> _]|[-> _]]).
  - by apply (Hf P1 c1 l).
  - assert (t ∈ P2) as Hin. { destruct P2 as [|z P2 _] using rev_ind; [done|]. apply (f_equal last) in EP. rewrite app_assoc, !last_snoc in EP. simplify_eq. set_solver. }
    pose proof (spells_letters (P2 ++ l) t Hc) as H. rewrite H in Ht; [done|set_solver].
Qed.

(** A text in which the pattern of the word finds nothing is free of it. *)
Lemma find_none_run r P S : find r (P ++ S) = None -> run r S = [].
Proof.
  induction P as [|t P IH]; cbn [app find].
  - destruct S; cbn [find]; destruct (run r _); done.
  - destruct (run r (t :: P ++ S)); [exact IH|done].
Qed.

Lemma free_check s : find (lit_ci word) s = None -> free s.
Proof.
  intros H s1 c s2 -> Hc. apply find_none_run in H. assert (run (lit_ci word) (c ++ s2) = [(c, s2, [])]) as E; [|by rewrite E in H].
  clear H. unfold spells, lit_ci, cats in *. induction Hc as [|ch t w c Ht _ IH]; [done|]. cbn [fmap list_fmap foldr app].
  erewrite run_Cat_det by (by apply run_Cls). by rewrite IH.
Qed.

(** ** Databases of grants *)

Definition dot (t : tok) : Prop := rune t = 46%Z.
Definition star (t : tok) : Prop := rune t = 42%Z.

Lemma grantOn_hit s c s' k : (c, s', k) ∈ run grantOnDbRe s ->
  exists on sp x sp2 d sp3 st y, s = (on ++ sp ++ x ++ sp2) ++ d :: sp3 ++ st :: y /\ spells "ON" on /\
    Forall (fun t => cls_s (rune t) = true) sp /\ Forall (fun t => cls_s (rune t) = true) sp2 /\ Forall (fun t => cls_s (rune t) = true) sp3 /\
    dot d /\ star st /\ ((exists q, is_quote q /\ inQuotes q x) \/ Forall (fun t => ident (rune t) = true) x).
Proof.
  intros (on & s1 & k1 & c2 & k2 & Hon & H & _)%Cat_hit. apply Cat_hit in H as (sp & s2 & k3 & c4 & k4 & Hsp & H & _).
  apply Cat_hit in H as (x & s3 & k5 & c6 & k6 & Hx & H & _). apply Cat_hit in H as (sp2 & s4 & k7 & c8 & k8 & Hsp2 & H & _).
  apply Cat_hit in H as (c9 & s5 & k9 & c10 & k10 & (d & -> & -> & Hd)%Cls_hit & H & _).
  apply Cat_hit in H as (sp3 & s6 & k11 & c12 & k12 & Hsp3 & (st & -> & -> & Hst)%Cls_hit & _).
  pose proof (run_split _ _ _ _ _ Hon) as ->. pose proof (run_split _ _ _ _ _ Hsp) as ->. pose proof (run_split _ _ _ _ _ Hx) as ->.
  apply lit_ci_hit in Hon. apply plus_hit in Hsp as [_ Hsp]. apply name_hit in Hx. apply rep_split in Hsp2 as (-> & Hsp2 & _). apply rep_split in Hsp3 as (-> & Hsp3 & _).
  exists on, sp, x, sp2, d, sp3, st, s'. split; [by rewrite <- !app_assoc|]. apply Z.eqb_eq in Hd, Hst. done.
Qed.

(** What opens a quoted name or ends a name. *)
Definition special (t : tok) : Prop := rune t = 46%Z \/ exists q, is_quote q /\ rune t = code q.

Lemma ordinary t : (cls_s (rune t) = true \/ ident (rune t) = true) -> ~ special t.
Proof.
  intros H [E|(q & Hq & E)]; [rewrite E in H; vm_compute in H; destruct H; discriminate|].
  rewrite E in H. destruct (quote_not_ident q Hq) as (Hi & _ & Hs & _). destruct H; congruence.
Qed.

Lemma spells_ON on : spells "ON" on -> exists o n, on = [o; n] /\ ident (rune o) = true /\ ident (rune n) = true /\ rune n <> 79%Z.
Proof.
  intros H. inversion H as [|? o ? c Ho H1]; subst. inversion H1 as [|? n ? c' Hn H2]; subst. inversion H2; subst. exists o, n. split; [done|].
  unfold fold_byte in Ho, Hn. change (code (upper_byte "O")) with 79%Z in Ho. change (code (lower_byte "O")) with 111%Z in Ho.
  change (code (upper_byte "N")) with 78%Z in Hn. change (code (lower_byte "N")) with 110%Z in Hn. unfold ident, cls_w. lia.
Qed.

(** No match before the word ON of the statement. *)
Lemma grantOn_miss P b R :
  P <> [] -> Forall (fun t => ~ special t) P -> rune b = code backtick -> run grantOnDbRe (P ++ toks (str "ON ") ++ b :: R) = [].
Proof.
  intros Hne HP Hb. apply no_hits. intros c s' k (on & sp & x & sp2 & d & sp3 & st & y & E & Hon & Hsp & Hsp2 & _ & Hd & _ & Hx)%grantOn_hit.
  apply spells_ON in Hon as (o & n & -> & Ho & Hn & HnO). rewrite app_assoc in E.
  assert (special b) as Hsb by (right; exists backtick; unfold is_quote; auto).
  assert (Forall (fun t => ~ special t) (P ++ toks (str "ON "))) as HL.
  { apply Forall_app. split; [done|]. repeat (constructor; [apply ordinary; (left; reflexivity) || (right; reflexivity)|]). constructor. }
  assert (Forall (fun t => ~ special t) ([o; n] ++ sp)) as Hosp.
  { repeat (constructor; [apply ordinary; by right|]). eapply Forall_impl; [exact Hsp|]. intros t Ht. apply ordinary. by left. }
  assert (forall a y', ([o; n] ++ sp) ++ a :: y' = (P ++ toks (str "ON ")) ++ b :: R -> special a -> False) as Hno.
  { intros a y' Ea Ha. destruct (split_first special _ b R _ a y' HL Ha (eq_sym Ea)) as [E1|(l3 & E1 & _)].
    - assert (tok1 "O" ∈ sp \/ n = tok1 "O") as [H| ->]; [|rewrite Forall_forall in Hsp; by specialize (Hsp _ H)|done].
      destruct P as [|p [|p' P]]; [done|right|left]; cbn in E1; simplify_eq; try done. apply elem_of_app. right. left.
    - rewrite E1 in Hosp. apply Forall_app in Hosp as [_ Hosp]. by apply Forall_cons in Hosp as [Hosp _]. }
  destruct Hx as [(q & Hq & (t & m & t' & -> & Ht & _))|Hx].
  - eapply (Hno t). { rewrite E, <- !app_assoc. cbn. by rewrite <- !app_assoc. } right. exists q. split; [done|]. by apply Z.eqb_eq in Ht.
  - destruct (split_first special _ b R _ d (sp3 ++ st :: y) HL (or_introl Hd) E) as [E1|(l3 & E1 & _)].
    + rewrite E1 in E. apply app_inv_head in E. injection E as -> _. unfold dot in Hd. rewrite Hb in Hd. discriminate Hd.
    + assert (Forall (fun t => ~ special t) ([o; n] ++ sp ++ x ++ sp2)) as H.
      { rewrite app_assoc. apply Forall_app. split; [done|]. apply Forall_app.
        split; (eapply Forall_impl; [eassumption|]); intros t Ht; apply ordinary; auto. }
      rewrite E1 in H. apply Forall_app in H as [_ H]. by apply Forall_cons in H as [H _].
Qed.

Lemma run_no_blanks_Cls c t s : cls_s (rune t) = false -> cls_s (code c) = false -> forall r,
  run (Cat (Rep cls_s) (Cat (Cls (is_byte c)) r)) (t :: s) = (fun '(c, s', k) => (c, s', k ++ [])) <$> run (Cat (Cls (is_byte c)) r) (t :: s).
Proof.
  intros Ht Hc r. apply run_no_blanks; [done|]. intros t' s' Ht'. apply run_Cat_nil. cbn -[is_byte]. unfold is_byte.
  destruct (rune t' =? code c)%Z eqn:E; [|done]. apply Z.eqb_eq in E. congruence.
Qed.

(** The match. *)
Lemma run_grantOn u U R :
  Forall (fun t => not_byte backtick (rune t) = true) (u :: U) ->
  exists c, run grantOnDbRe (toks (str "ON ") ++ tok1 backtick :: u :: U ++ tok1 backtick :: tok1 "." :: tok1 "*" :: R) = [(c, R, [(1, text (u :: U))])].
Proof.
  intros HU. unfold grantOnDbRe. change (toks (str "ON ") ++ tok1 backtick :: u :: U ++ tok1 backtick :: tok1 "." :: tok1 "*" :: R)
    with (toks (str "ON") ++ tok1 " " :: tok1 backtick :: u :: U ++ tok1 backtick :: tok1 "." :: tok1 "*" :: R).
  rewrite (run_Cat_det _ _ _ _ _ _ (run_lit_ci "ON" _ ltac:(repeat constructor))).
  rewrite (run_Cat_det _ _ _ _ _ _ (run_blank (tok1 backtick) _ eq_refl)).
  rewrite (run_Cat_det _ _ _ _ _ _ (run_name backtick 1 u U _ (or_introl eq_refl) HU)).
  rewrite run_no_blanks_Cls by done. rewrite (run_Cat_det _ _ _ _ _ _ (run_Cls (is_byte ".") (tok1 ".") _ eq_refl)).
  rewrite run_no_blanks; [|done|].
  2: { intros t s' Ht. cbn -[is_byte]. unfold is_byte. destruct (rune t =? code "*")%Z eqn:E; [|done]. apply Z.eqb_eq in E. by rewrite E in Ht. }
  rewrite (run_Cls (is_byte "*") (tok1 "*") R eq_refl). cbn. eauto.
Qed.

Lemma find_grantOn P u U R :
  Forall (fun t => ~ special t) P -> Forall (fun t => not_byte backtick (rune t) = true) (u :: U) ->
  exists c, find grantOnDbRe (P ++ toks (str "ON ") ++ tok1 backtick :: u :: U ++ tok1 backtick :: tok1 "." :: tok1 "*" :: R) = Some (c, R, [(1, text (u :: U))]).
Proof.
  intros HP HU. destruct (run_grantOn u U R HU) as [c E]. exists c. rewrite find_skip; [by eapply find_here|].
  intros P1 P2 -> Hne. apply Forall_app in HP as [_ HP]. by apply grantOn_miss.
Qed.

(** In a statement on all databases there is no match: its star is no name, and no other
    star follows a dot or a blank. *)
Definition starless (s : list tok) : Prop := Forall (fun t => ~ star t) s.

Definition calm (B : list tok) : Prop := forall l z st y, B = l ++ z :: st :: y -> star st -> ~ dot z /\ cls_s (rune z) = false.

Lemma calm_starless B : starless B -> calm B.
Proof. intros H l z st y -> Hst. exfalso. apply Forall_app in H as [_ H]. apply Forall_cons in H as [_ H]. by apply Forall_cons in H as [H _]. Qed.

Lemma calm_quoted B0 q H B1 :
  starless (B0 ++ [q]) -> ~ dot q -> cls_s (rune q) = false -> Forall (fun t => ~ dot t /\ cls_s (rune t) = false) H -> starless B1 -> calm ((B0 ++ [q]) ++ H ++ B1).
Proof.
  intros H0 Hd Hs HH H1 l z st y E Hst.
  assert ((B0 ++ [q]) ++ H ++ B1 = (l ++ [z]) ++ st :: y) as E' by (by rewrite <- (app_assoc l)).
  destruct (app_eq_app _ _ _ _ E') as (l' & [[E1 E2]|[E1 E2]]).
  - destruct l' as [|t l']; [rewrite app_nil_r in E1; apply app_inj_tail in E1 as [_ <-]; done|]. cbn in E2. injection E2 as <- _.
    exfalso. rewrite E1 in H0. apply Forall_app in H0 as [_ H0]. by apply Forall_cons in H0 as [H0 _].
  - destruct l' as [|t l' _] using rev_ind; [rewrite app_nil_r in E1; apply app_inj_tail in E1 as [_ ->]; done|].
    rewrite app_assoc in E1. apply app_inj_tail in E1 as [_ ->]. destruct (app_eq_app _ _ _ _ E2) as (l2 & [[-> _]|[_ ->]]).
    + apply Forall_app in HH as [HH _]. by apply Forall_snoc in HH as [_ HH].
    + exfalso. apply Forall_app in H1 as [_ H1]. by apply Forall_cons in H1 as [H1 _].
Qed.

Definition onAll : list tok := toks (str "GRANT USAGE ON *.*").

(** What stands before the dot does not end in a star. *)
Lemma grantOn_before on sp x sp2 :
  spells "ON" on -> Forall (fun t => cls_s (rune t) = true) sp -> Forall (fun t => cls_s (rune t) = true) sp2 ->
  ((exists q, is_quote q /\ inQuotes q x) \/ Forall (fun t => ident (rune t) = true) x) ->
  exists pre z, on ++ sp ++ x ++ sp2 = pre ++ [z] /\ ~ star z.
Proof.
  intros (o & n & -> & Ho & Hn & _)%spells_ON Hsp Hsp2 Hx.
  assert (forall z, (cls_s (rune z) = true \/ ident (rune z) = true) -> ~ star z) as Hz.
  { intros z H E. unfold star in E. rewrite E in H. vm_compute in H. destruct H; discriminate. }
  destruct sp2 as [|z sp2 _] using rev_ind.
  2: { apply Forall_snoc in Hsp2 as [_ H]. exists ([o; n] ++ sp ++ x ++ sp2), z. split; [by rewrite <- !app_assoc|auto]. }
  rewrite app_nil_r. destruct Hx as [(q & Hq & t & m & t' & -> & _ & Ht' & _)|Hx].
  { exists ([o; n] ++ sp ++ t :: m), t'. split; [by rewrite <- !app_assoc|]. intros E. apply Z.eqb_eq in Ht'. unfold star in E. rewrite E in Ht'.
    destruct Hq as [->|[->| ->]]; discriminate Ht'. }
  destruct x as [|z x _] using rev_ind.
  2: { apply Forall_snoc in Hx as [_ H]. exists ([o; n] ++ sp ++ x), z. split; [by rewrite <- !app_assoc|auto]. }
  rewrite app_nil_r. destruct sp as [|z sp _] using rev_ind; [by exists [o], n; auto|].
  apply Forall_snoc in Hsp as [_ H]. exists ([o; n] ++ sp), z. split; [by rewrite <- !app_assoc|auto].
Qed.

Lemma find_onAll b B : ~ star b -> calm (b :: B) -> find grantOnDbRe (onAll ++ b :: B) = None.
Proof.
  intros Hb HB. rewrite <- (app_nil_r (onAll ++ b :: B)). rewrite find_skip; [done|]. intros P1 P2 EP _. rewrite app_nil_r. apply no_hits.
  intros c s' k (on & sp & x & sp2 & d & sp3 & st & y & -> & Hon & Hsp & Hsp2 & Hsp3 & Hd & Hst & Hx)%grantOn_hit.
  destruct (grantOn_before on sp x sp2 Hon Hsp Hsp2 Hx) as (pre & z & E1 & Hz). rewrite E1 in EP. clear E1 Hon Hsp Hsp2 Hx on sp x sp2.
  assert (onAll ++ b :: B = ((P1 ++ pre ++ [z]) ++ d :: sp3) ++ st :: y) as E by (by rewrite EP, <- !app_assoc).
  destruct (app_eq_app _ _ _ _ E) as (l & [[E1 E2]|[E1 E2]]).
  - destruct l as [|t l]; cbn in E2; injection E2 as <- _; [done|].
    assert (Forall (fun t => ~ dot t) (toks (str "GRANT USAGE ON *"))) as H0 by (repeat (constructor; [discriminate|]); constructor).
    rewrite <- app_assoc in E1. cbn [app] in E1. change onAll with (toks (str "GRANT USAGE ON *") ++ tok1 "." :: [tok1 "*"]) in E1.
    destruct (split_first dot _ _ _ _ _ _ H0 Hd E1) as [E3|(l3 & _ & E3)].
    + apply (f_equal last) in E3. rewrite app_assoc, last_snoc in E3. injection E3 as ->. by apply Hz.
    + destruct l3 as [|t l3]; cbn in E3; [injection E3 as <- _; discriminate Hd|]. destruct l3; discriminate E3.
  - destruct l as [|t l _] using rev_ind; [cbn in E2; injection E2 as -> _; done|]. rewrite <- app_assoc in E2.
    destruct (HB l t st y E2 Hst) as [Hnd Hns]. destruct sp3 as [|w sp3 _] using rev_ind.
    + rewrite !app_assoc in E1. apply app_inj_tail in E1 as [_ ->]. done.
    + rewrite app_comm_cons, !app_assoc in E1. apply app_inj_tail in E1 as [_ ->]. apply Forall_snoc in Hsp3 as [_ H]. congruence.
Qed.

(** ** Statements *)

(** An account: its hash may be empty; the grants by privileges and database. *)
Record Account := mkAccount { a_user : gostring; a_host : gostring; a_hash : gostring; a_grants : list (gostring * gostring) }.

Definition identifiedPart (hash : gostring) : gostring := if hash ==? [] then [] else " " ++ identified ++ [squote] ++ hash ++ [squote].

Definition createStmt (a : Account) : gostring := ("CREATE USER " ++ accountText squote (a_user a) (a_host a)) ++ identifiedPart (a_hash a) ++ ";".

(** As SHOW GRANTS prints them, the account in quotes of the kind [q]. *)
Definition usageStmt (q : ascii) (a : Account) : gostring :=
  ("GRANT USAGE ON *.* TO " ++ accountText q (a_user a) (a_host a)) ++ identifiedPart (a_hash a) ++ ";".

Definition grantPrefix (privs db : gostring) : gostring := "GRANT " ++ privs ++ " ON " ++ [backtick] ++ db ++ [backtick] ++ ".* TO ".

Definition grantStmt (q : ascii) (a : Account) (g : gostring * gostring) : gostring :=
  (grantPrefix (fst g) (snd g) ++ accountText q (a_user a) (a_host a)) ++ ";".

Definition statements (q : ascii) (a : Account) : list gostring := createStmt a :: usageStmt q a :: (grantStmt q a <$> a_grants a).

(** *** Accounts with plain names *)

Definition plain_free (s : gostring) : Prop := plain_name s /\ free (toks s).

Definition hash_byte (c : ascii) : bool := plain_byte c && negb (c ==? "."%char) || (c ==? "*"%char).

Definition priv_byte (c : ascii) : bool :=
  (32 <=? code c)%Z && (code c <=? 126)%Z && negb (bool_decide (c ∈ [backtick; dquote; squote; "@"%char; "."%char])).

Record plain_account (a : Account) : Prop := {
  pa_user : plain_free (a_user a);
  pa_host : plain_free (a_host a);
  pa_hash : Forall (fun c => hash_byte c = true) (a_hash a);
  pa_grants : Forall (fun '(privs, db) => Forall (fun c => priv_byte c = true) privs /\ free (toks privs) /\ plain_free db) (a_grants a)
}.

Lemma hash_byte_facts c : hash_byte c = true -> (33 <= code c < 128)%Z /\ c <> "."%char /\ c <> squote.
Proof.
  unfold hash_byte. rewrite orb_true_iff, andb_true_iff, negb_true_iff, bool_decide_eq_false, bool_decide_eq_true.
  intros [[Hp Hd]| ->]; [|done]. destruct (plain_byte_facts c Hp) as (? & _ & _ & _ & Hq). split; [lia|]. split; [done|]. apply Hq. unfold is_quote. auto.
Qed.

Lemma priv_byte_facts c : priv_byte c = true -> (32 <= code c < 128)%Z /\ c <> "@"%char /\ c <> "."%char /\ forall q, is_quote q -> c <> q.
Proof.
  unfold priv_byte. rewrite !andb_true_iff, negb_true_iff, bool_decide_eq_false. intros [[H1 H2] H3]. rewrite !not_elem_of_cons in H3.
  split; [lia|]. split; [tauto|]. split; [tauto|]. intros q [->|[->| ->]]; tauto.
Qed.

(** *** The word in the statements *)

Lemma free_nil : free [].
Proof. intros s1 c s2 E Hc. destruct s1, c; try done. inversion Hc. Qed.

Lemma free_sep_text A c B : letter (tok1 c) = false -> free (toks A) -> free (toks B) -> free (toks (A ++ c :: B)).
Proof. intros H HA HB. rewrite fmap_app. by apply free_sep. Qed.

Lemma quote_not_letter q : is_quote q -> letter (tok1 q) = false.
Proof. by intros [->|[->| ->]]. Qed.

Lemma free_account P q u h R :
  is_quote q -> free (toks P) -> free (toks u) -> free (toks h) -> free (toks R) -> free (toks (P ++ accountText q u h ++ R)).
Proof.
  intros Hq HP Hu Hh HR. pose proof (quote_not_letter q Hq) as Hl. unfold accountText. rewrite <- !app_assoc. cbn [app].
  apply free_sep_text; [done|done|]. apply free_sep_text; [done|done|]. apply (free_sep_text []); [done|apply free_nil|].
  apply (free_sep_text []); [done|apply free_nil|]. by apply free_sep_text.
Qed.

(** *** Hosts and passwords *)

(** What a statement notes of an account. *)
Definition noteHash (u : userRecord) (host hash : gostring) : userRecord * list LogEntry :=
  let u := addHost u host in
  if hash ==? [] then (u, [])
  else match setPassword u host hash with
       | (Some e, u') => (u', [mkLog LWarn "%v" [AErr e]])
       | (None, u') => (u', [])
       end.

Lemma noteHost_part u h X hash :
  ascii_text X -> free (toks X) -> Forall (fun c => hash_byte c = true) hash -> noteHost u h (X ++ identifiedPart hash ++ ";") = noteHash u h hash.
Proof.
  intros HX Hf Hh. assert (ascii_text hash) as Ha by (eapply Forall_impl; [exact Hh|]; intros c Hc%hash_byte_facts; lia).
  unfold noteHost, noteHash, identifiedPart, FindSub, FindStringSubmatch. cbv zeta. destruct (decide (hash = [])) as [->|E].
  - rewrite !(bool_decide_eq_true_2 (@nil ascii = [])) by done. rewrite runes_ascii_text by (apply Forall_app; split; [done|by apply (bool_decide_eq_true_1 _)]).
    rewrite (free_find (toks (X ++ [";"%char]))); [done|]. apply free_sep_text; [done|done|apply free_nil].
  - rewrite !(bool_decide_eq_false_2 (hash = [])) by done. rewrite runes_ascii_text.
    2: { unfold ascii_text in *. rewrite !Forall_app. repeat split; try done; by apply (bool_decide_eq_true_1 _). }
    destruct (find_identified (toks X) (tok1 " ") (toks hash) (toks (str ";"))) as [c Ef]; [done|apply free_sep; [done|done|apply free_nil]| |].
    { apply Forall_fmap. eapply Forall_impl; [exact Hh|]. intros d Hd%hash_byte_facts. unfold not_byte. apply negb_true_iff, Z.eqb_neq. cbn. rewrite code_eq. tauto. }
    assert (toks (X ++ (" " ++ identified ++ [squote] ++ hash ++ [squote]) ++ ";")
      = (toks X ++ [tok1 " "]) ++ toks identified ++ tok1 squote :: toks hash ++ tok1 squote :: toks (str ";")) as ->
      by (rewrite !fmap_app, <- !app_assoc; reflexivity).
    rewrite Ef. rewrite text_tok1.
    change (default [] (submatches 3 <$> Some (c, toks (str ";"), [(3, hash)]))) with [text c; []; []; hash].
    assert (TrimSpace hash = hash) as Et by (apply TrimSpace_Forall; eapply Forall_impl; [exact Hh|]; intros d Hd%hash_byte_facts; unfold solid, is_space1; lia).
    rewrite (bool_decide_eq_true_2 (4 <= length [text c; []; []; hash])) by (simpl; lia). unfold extractIdentPassword.
    rewrite (bool_decide_eq_false_2 (length [text c; []; []; hash] < 4)) by (simpl; lia).
    change (sub [text c; []; []; hash] 1 ++ sub [text c; []; []; hash] 2 ++ sub [text c; []; []; hash] 3) with hash. rewrite Et.
    by rewrite bool_decide_eq_false_2.
Qed.

(** *** Statements parsed *)

Definition readCreate (st : pstate) (a : Account) : pstate :=
  let '(u, ws) := noteHash (lookupUser (fst st) (a_user a)) (a_host a) (a_hash a) in
  (<[a_user a := u]> (fst st), snd st ++ ws).

Definition readGrant (st : pstate) (line user host hash db : gostring) : pstate :=
  let '(u, ws) := noteHash (lookupUser (fst st) user) host hash in
  let u := if db ==? [] then u else addDb u db in
  (<[user := addGrant u (mkGrant line db)]> (fst st), snd st ++ ws).

Lemma ToUpper_ascii c s : (code c < 128)%Z -> ToUpper (c :: s) = upper_byte c :: ToUpper s.
Proof.
  intros H. destruct s as [|c2 s]; [done|]. cbn [ToUpper]. rewrite (proj2 (Z.eqb_neq (code c) 196)), (proj2 (Z.eqb_neq (code c) 197)) by lia. done.
Qed.

Lemma ToUpper_prefix p s : ascii_text p -> Forall (fun c => upper_byte c = c) p -> HasPrefix (ToUpper (p ++ s)) p = true.
Proof.
  intros Ha Hu. assert (ToUpper (p ++ s) = p ++ ToUpper s) as ->.
  { induction Ha as [|c p Hc Ha IH]; [done|]. apply Forall_cons in Hu as [Hu1 Hu]. cbn [app]. by rewrite ToUpper_ascii, Hu1, IH. }
  unfold HasPrefix. rewrite strip_prefix_app. by apply bool_decide_eq_true_2.
Qed.

Lemma account_ascii q u h : is_quote q -> plain_name u -> plain_name h -> ascii_text (accountText q u h).
Proof.
  intros Hq [_ Hu%plain_ascii] [_ Hh%plain_ascii]. destruct (quote_not_ident q Hq) as (_ & _ & _ & Hq').
  unfold accountText, ascii_text. rewrite !Forall_app, !Forall_singleton. repeat split; try done. by apply (bool_decide_eq_true_1 _).
Qed.

Lemma identifiedPart_ascii hash : Forall (fun c => hash_byte c = true) hash -> ascii_text (identifiedPart hash ++ ";").
Proof.
  intros H. assert (ascii_text hash) as Ha by (eapply Forall_impl; [exact H|]; intros c Hc%hash_byte_facts; lia).
  unfold identifiedPart, ascii_text in *. rewrite Forall_app. split; [|by apply (bool_decide_eq_true_1 _)]. case_bool_decide; [constructor|].
  rewrite !Forall_app. repeat split; try done; by apply (bool_decide_eq_true_1 _).
Qed.

Lemma identifiedPart_quotes hash c : Forall (fun c => hash_byte c = true) hash -> is_quote c -> c ∈ identifiedPart hash ++ ";" -> c = squote.
Proof.
  intros H Hc Hin. assert (forall s, c ∈ s -> Forall (fun c => ~ is_quote c \/ c = squote) s -> c = squote) as Hs.
  { intros s Hs HF. rewrite Forall_forall in HF. destruct (HF c Hs); done. }
  apply (Hs _ Hin). unfold is_quote. assert (forall s : gostring, forallb (fun c => negb (c ==? backtick) && negb (c ==? dquote)) s = true ->
    Forall (fun c => ~ (c = backtick \/ c = dquote \/ c = squote) \/ c = squote) s) as Hb.
  { intros s E. apply Forall_forall. intros d Hd. rewrite forallb_forall in E. specialize (E d (proj1 (list_elem_of_In _ _) Hd)). bool_prop.
    destruct (decide (d = squote)); tauto. }
  unfold identifiedPart. apply Forall_app. split; [|by apply Hb]. case_bool_decide; [constructor|]. rewrite !Forall_app. split_and!; try (by apply Hb).
  eapply Forall_impl; [exact H|]. intros d Hd. destruct (decide (d = squote)); [by right|left]. unfold hash_byte in Hd.
  apply orb_true_iff in Hd as [[Hd _]%andb_true_iff| ->%bool_decide_eq_true]; [|by intros [|[|]]].
  destruct (plain_byte_facts d Hd) as (_ & _ & _ & _ & Hq). intros Hd'. by apply (Hq d).
Qed.

(** The parts of a statement that has a prefix, an account and perhaps a password. *)
Lemma statement_parts P q u h hash :
  is_quote q -> plain_free u -> plain_free h -> Forall (fun c => hash_byte c = true) hash -> ascii_text P -> free (toks P) -> "@"%char ∉ P -> squote ∉ P \/ hash = [] ->
  let line := (P ++ accountText q u h) ++ identifiedPart hash ++ ";" in
  extractUserHost (FindSub userHostRe 8 line) = (u, h) /\ (forall r, noteHost r h line = noteHash r h hash).
Proof.
  intros Hq [Hu Fu] [Hh Fh] Hhash HP FP Hat Hsq line. split.
  - unfold line. rewrite <- app_assoc. apply extract_account; try done; [by apply identifiedPart_ascii|].
    intros c Hc Hin. right. destruct Hsq as [Hsq| ->].
    + by rewrite (identifiedPart_quotes hash c Hhash Hc Hin).
    + exfalso. apply list_elem_of_singleton in Hin as ->. by destruct Hc as [|[|]].
  - intros r. apply noteHost_part; [|  |done].
    + apply Forall_app. split; [done|]. by apply account_ascii.
    + rewrite <- (app_nil_r (P ++ accountText q u h)), <- app_assoc. apply free_account; try done. apply free_nil.
Qed.

Lemma statement_trimmed c s : solid c = true -> TrimSpace ((c :: s) ++ ";") = (c :: s) ++ ";".
Proof. intros H. by apply TrimSpace_solid. Qed.

(** A statement that starts with a word in capitals and ends in a semicolon is not trimmed. *)
Lemma parseLine_statement st (c : ascii) (s : gostring) :
  solid c = true -> parseLine st ((c :: s) ++ ";") =
    let line := (c :: s) ++ ";" in
    if HasPrefix (ToUpper line) "CREATE USER " then parseCreate line st else if HasPrefix (ToUpper line) "GRANT " then parseGrant line line st else st.
Proof. intros H. unfold parseLine. cbv zeta. by rewrite statement_trimmed. Qed.

Lemma parse_create st a : plain_account a -> parseLine st (createStmt a) = readCreate st a.
Proof.
  intros [Hu Hh Hhash _]. destruct (statement_parts "CREATE USER " squote (a_user a) (a_host a) (a_hash a)) as [E1 E2]; try done.
  { unfold is_quote. auto. } { by apply (bool_decide_eq_true_1 _). } { by apply free_check. } { by apply (bool_decide_eq_true_1 _). } { left. by apply (bool_decide_eq_true_1 _). }
  fold (createStmt a) in E1, E2. assert (exists s, createStmt a = ("C"%char :: s) ++ ";" /\ createStmt a = "CREATE USER " ++ tail (drop 11 (createStmt a))) as (s & Es & Ep).
  { unfold createStmt. eexists. split; [rewrite !app_assoc; reflexivity|]. reflexivity. }
  rewrite Es, parseLine_statement by done. cbv zeta. rewrite <- Es.
  assert (HasPrefix (ToUpper (createStmt a)) "CREATE USER " = true) as ->
    by (rewrite Ep; apply ToUpper_prefix; by apply (bool_decide_eq_true_1 _)).
  unfold parseCreate. rewrite E1, E2. destruct Hu as [[Hu _] _], Hh as [[Hh _] _]. rewrite !bool_decide_eq_false_2 by done. done.
Qed.

(** A GRANT statement whose account and database are known. *)
Lemma parse_grant_statement st P q a hash db :
  let line := (P ++ accountText q (a_user a) (a_host a)) ++ identifiedPart hash ++ ";" in
  is_quote q -> plain_free (a_user a) -> plain_free (a_host a) -> Forall (fun c => hash_byte c = true) hash ->
  (exists s, P = "GRANT " ++ s) -> ascii_text P -> free (toks P) -> "@"%char ∉ P -> squote ∉ P \/ hash = [] ->
  (let onDb := FindSub grantOnDbRe 4 line in if bool_decide (5 <= length onDb) then extractGrantDb onDb else []) = db ->
  parseLine st line = readGrant st line (a_user a) (a_host a) hash db.
Proof.
  intros line Hq Hu Hh Hhash [s Es] HP FP Hat Hsq Hdb. destruct (statement_parts P q (a_user a) (a_host a) hash) as [E1 E2]; try done.
  fold line in E1, E2. assert (exists s, line = ("G"%char :: s) ++ ";" /\ exists s', line = "GRANT " ++ s') as (s1 & Es1 & s2 & Es2).
  { unfold line. rewrite Es. eexists. split; [rewrite !app_assoc; reflexivity|]. eexists. rewrite <- !app_assoc. reflexivity. }
  rewrite Es1, parseLine_statement by done. cbv zeta. rewrite <- Es1.
  assert (HasPrefix (ToUpper line) "CREATE USER " = false) as ->.
  { rewrite Es2. change (str "GRANT " ++ s2) with ("G"%char :: str "RANT " ++ s2). by rewrite ToUpper_ascii. }
  assert (HasPrefix (ToUpper line) "GRANT " = true) as -> by (rewrite Es2; apply ToUpper_prefix; by apply (bool_decide_eq_true_1 _)).
  unfold parseGrant. rewrite E1, E2. destruct Hu as [[Hu _] _], Hh as [[Hh _] _].
  rewrite (bool_decide_eq_false_2 (a_user a = [])), (bool_decide_eq_false_2 (a_host a = [])) by done. cbn [orb]. cbv zeta in Hdb |- *. rewrite Hdb. done.
Qed.

Lemma plain_starless s : Forall (fun c => plain_byte c = true) s -> starless (toks s).
Proof.
  intros H. apply Forall_fmap. eapply Forall_impl; [exact H|]. intros c Hc E. destruct (plain_byte_facts c Hc) as (_ & _ & Hs & _).
  apply Hs. by apply (code_eq c "*").
Qed.

Lemma starless_const s : bool_decide ("*"%char ∉ s) = true -> starless (toks s).
Proof. intros H%bool_decide_eq_true. apply Forall_fmap, Forall_forall. intros c Hc E. apply H. by rewrite <- (proj1 (code_eq c "*") E). Qed.

Lemma account_starless q u h : is_quote q -> plain_name u -> plain_name h -> starless (toks (accountText q u h)).
Proof.
  intros Hq [_ Hu%plain_starless] [_ Hh%plain_starless]. assert (starless (toks [q])) by (apply starless_const; by destruct Hq as [->|[->| ->]]).
  unfold accountText, starless in *. rewrite !fmap_app, !Forall_app. split_and!; try done. by apply starless_const.
Qed.

Lemma usage_db q a : is_quote q -> plain_account a -> FindSub grantOnDbRe 4 (usageStmt q a) = [].
Proof.
  intros Hq [[Hu _] [Hh _] Hhash _]. unfold FindSub, FindStringSubmatch. rewrite runes_ascii_text.
  2: { unfold usageStmt. apply Forall_app. split; [|by apply identifiedPart_ascii]. apply Forall_app. split; [by apply (bool_decide_eq_true_1 _)|by apply account_ascii]. }
  pose proof (account_starless q _ _ Hq Hu Hh) as Ha. set (acc := accountText q (a_user a) (a_host a)) in *.
  assert (toks (usageStmt q a) = onAll ++ tok1 " " :: toks ("TO " ++ acc ++ identifiedPart (a_hash a) ++ ";")) as ->.
  { unfold usageStmt. fold acc. rewrite <- app_assoc. reflexivity. }
  rewrite find_onAll; [done|discriminate|]. unfold identifiedPart. case_bool_decide as E.
  - apply calm_starless. change (tok1 " " :: toks ("TO " ++ acc ++ [] ++ ";")) with (toks (str " TO ") ++ toks (acc ++ ";")).
    rewrite fmap_app. unfold starless. rewrite !Forall_app. split_and!; [by apply starless_const|done|by apply starless_const].
  - assert (tok1 " " :: toks ("TO " ++ acc ++ (" " ++ identified ++ [squote] ++ a_hash a ++ [squote]) ++ ";")
      = ((toks (str " TO ") ++ toks acc ++ toks (" " ++ identified)) ++ [tok1 squote]) ++ toks (a_hash a) ++ toks ([squote] ++ ";")) as ->
      by (rewrite !fmap_app, <- !app_assoc; reflexivity).
    apply calm_quoted; [|discriminate|done| |by apply starless_const].
    + unfold starless. rewrite !Forall_app. split_and!; [by apply starless_const|done|by apply starless_const|by apply (starless_const [squote])].
    + apply Forall_fmap. eapply Forall_impl; [exact Hhash|]. intros c (Hr & Hd & _)%hash_byte_facts. split.
      * intros E'. apply Hd. by apply (code_eq c ".").
      * unfold cls_s. cbn. lia.
Qed.

Lemma parse_usage st q a : is_quote q -> plain_account a -> parseLine st (usageStmt q a) = readGrant st (usageStmt q a) (a_user a) (a_host a) (a_hash a) [].
Proof.
  intros Hq Ha. pose proof Ha as [Hu Hh Hhash _]. apply (parse_grant_statement st "GRANT USAGE ON *.* TO " q a (a_hash a) []); try done.
  - by exists (str "USAGE ON *.* TO ").
  - by apply (bool_decide_eq_true_1 _).
  - by apply free_check.
  - by apply (bool_decide_eq_true_1 _).
  - left. by apply (bool_decide_eq_true_1 _).
  - cbv zeta. fold (usageStmt q a). by rewrite usage_db.
Qed.

Definition plain_grant (g : gostring * gostring) : Prop :=
  Forall (fun c => priv_byte c = true) (fst g) /\ free (toks (fst g)) /\ plain_free (snd g).

Lemma privs_ascii privs : Forall (fun c => priv_byte c = true) privs -> ascii_text privs.
Proof. intros H. eapply Forall_impl; [exact H|]. intros c Hc%priv_byte_facts. lia. Qed.

Lemma grantPrefix_ascii g : plain_grant g -> ascii_text (grantPrefix (fst g) (snd g)).
Proof.
  intros (Hp%privs_ascii & _ & [[_ Hd%plain_ascii] _]). unfold grantPrefix, ascii_text in *. rewrite !Forall_app. split_and!; try done; by apply (bool_decide_eq_true_1 _).
Qed.

Lemma grantPrefix_free g : plain_grant g -> free (toks (grantPrefix (fst g) (snd g))).
Proof.
  intros (_ & Fp & [_ Fd]). unfold grantPrefix. apply (free_sep_text "GRANT"); [done|by apply free_check|]. apply free_sep_text; [done|done|].
  apply (free_sep_text "ON "); [done|by apply free_check|]. apply free_sep_text; [done|done|]. by apply free_check.
Qed.

Lemma grant_db q a g : is_quote q -> plain_account a -> plain_grant g -> exists c,
  FindSub grantOnDbRe 4 (grantStmt q a g) = [text c; snd g; []; []; []].
Proof.
  intros Hq [[Hu _] [Hh _] _ _] Hg. pose proof (grantPrefix_ascii g Hg) as Hpre. unfold FindSub, FindStringSubmatch. rewrite runes_ascii_text.
  2: { unfold grantStmt. apply Forall_app. split; [|by apply (bool_decide_eq_true_1 _)]. apply Forall_app. split; [done|by apply account_ascii]. }
  destruct g as [privs db]. destruct Hg as (Hp & _ & [[Hd HD] _]). cbn [fst snd] in *. destruct db as [|d db]; [done|].
  assert (toks (grantStmt q a (privs, d :: db)) = toks ("GRANT " ++ privs ++ " ") ++ toks (str "ON ") ++ tok1 backtick :: tok1 d :: toks db ++ tok1 backtick ::
    tok1 "." :: tok1 "*" :: toks (" TO " ++ accountText q (a_user a) (a_host a) ++ ";")) as ->.
  { unfold grantStmt, grantPrefix. cbn [fst snd]. rewrite !fmap_app, <- !app_assoc. reflexivity. }
  destruct (find_grantOn (toks ("GRANT " ++ privs ++ " ")) (tok1 d) (toks db) (toks (" TO " ++ accountText q (a_user a) (a_host a) ++ ";"))) as [c ->].
  - assert (forall s, Forall (fun c => priv_byte c = true) s -> Forall (fun t => ~ special t) (toks s)) as Hs.
    { intros s H. apply Forall_fmap. eapply Forall_impl; [exact H|]. intros e (_ & _ & Hdot & Hquote)%priv_byte_facts [E|(q' & Hq' & E)].
      - apply Hdot. by apply (code_eq e ".").
      - apply (Hquote q' Hq'). by apply code_eq. }
    apply Hs. rewrite !Forall_app. split_and!; try done; by apply (bool_decide_eq_true_1 _).
  - apply (plain_not_byte backtick (d :: db)); [by left|done].
  - exists c. change (tok1 d :: toks db) with (toks (d :: db)). rewrite text_tok1. reflexivity.
Qed.

Lemma parse_grant st q a g : is_quote q -> plain_account a -> plain_grant g ->
  parseLine st (grantStmt q a g) = readGrant st (grantStmt q a g) (a_user a) (a_host a) [] (snd g).
Proof.
  intros Hq Ha Hg. pose proof Ha as [Hu Hh _ _]. pose proof Hg as (Hp & _ & [[Hd HD] _]).
  apply (parse_grant_statement st (grantPrefix (fst g) (snd g)) q a [] (snd g)); try done.
  - unfold grantPrefix. eauto.
  - by apply grantPrefix_ascii.
  - by apply grantPrefix_free.
  - unfold grantPrefix. rewrite !not_elem_of_app. split_and!; try by apply (bool_decide_eq_true_1 _).
    + intros H. rewrite Forall_forall in Hp. by specialize (Hp _ H).
    + by apply plain_no_at.
  - by right.
  - cbv zeta. destruct (grant_db q a g Hq Ha Hg) as [c E]. fold (grantStmt q a g).
    change ((grantPrefix (fst g) (snd g) ++ accountText q (a_user a) (a_host a)) ++ identifiedPart [] ++ ";") with (grantStmt q a g). rewrite E.
    rewrite bool_decide_eq_true_2 by (simpl; lia). unfold extractGrantDb. rewrite bool_decide_eq_false_2 by (simpl; lia).
    change (sub [text c; snd g; []; []; []] 1 ++ sub [text c; snd g; []; []; []] 2 ++ sub [text c; snd g; []; []; []] 3 ++ sub [text c; snd g; []; []; []] 4) with (snd g ++ []).
    rewrite app_nil_r, plain_trimmed by done. rewrite bool_decide_eq_false_2; [done|]. intros E'. rewrite E' in HD. by apply Forall_cons in HD as [HD _].
Qed.

(** ** The export parsed back *)

(** Reading an account without looking at texts. *)
Definition readAccount (q : ascii) (st : pstate) (a : Account) : pstate :=
  fold_left (fun st g => readGrant st (grantStmt q a g) (a_user a) (a_host a) [] (snd g)) (a_grants a)
    (readGrant (readCreate st a) (usageStmt q a) (a_user a) (a_host a) (a_hash a) []).

Lemma parse_account st q a : is_quote q -> plain_account a -> fold_left parseLine (statements q a) st = readAccount q st a.
Proof.
  intros Hq Ha. unfold statements, readAccount. cbn [fold_left]. rewrite parse_create, parse_usage by done.
  generalize (readGrant (readCreate st a) (usageStmt q a) (a_user a) (a_host a) (a_hash a) []). intros st'.
  pose proof (pa_grants a Ha) as HG. revert st'. induction HG as [|g gs Hg _ IH]; intros st'; [done|]. cbn [fmap list_fmap fold_left].
  rewrite parse_grant; [apply IH|done|done|]. by destruct g.
Qed.

Lemma parse_accounts st q accs : is_quote q -> Forall plain_account accs -> fold_left parseLine (accs ≫= statements q) st = fold_left (readAccount q) accs st.
Proof.
  intros Hq H. revert st. induction H as [|a accs Ha _ IH]; intros st; [done|]. rewrite bind_cons, fold_left_app, parse_account by done. apply IH.
Qed.

End UserStatements.
