(* ===== verification/UserExport.v ===== *)
(** * Exported accounts, parsed back.

    The export of a server's accounts and the parser of the backup agree: the block of a
    database creates every account with a grant on it, with its hash, and repeats its
    grants. *)

From S2P Require Import Prelude GoStrings Regexp GoTime GoRuntime World Mysql UserSQL UserStatements.
Import GoStrings Regexp GoRuntime World UserSQL UserStatements.

Module UserExport.

(** ** Records of accounts *)

(** The record of an account that is read alone. *)
Definition withGrants (a : Account) (gs : list grantLine) (m : gmap gostring bool) : userRecord :=
  mkUser (a_user a) [a_host a] {[a_host a := true]} (a_hash a) (if a_hash a ==? [] then ∅ else {[a_host a := a_hash a]}) gs m.

Definition grantOf (q : ascii) (a : Account) (g : gostring * gostring) : grantLine := mkGrant (grantStmt q a g) (snd g).

Definition noteDbs (gs : list (gostring * gostring)) (m : gmap gostring bool) : gmap gostring bool := fold_left (fun m g => <[snd g := true]> m) gs m.

Definition recordOf (q : ascii) (a : Account) : userRecord :=
  withGrants a (mkGrant (usageStmt q a) [] :: (grantOf q a <$> a_grants a)) (noteDbs (a_grants a) ∅).

Lemma noteHash_again a gs m hash : hash = [] \/ hash = a_hash a -> noteHash (withGrants a gs m) (a_host a) hash = (withGrants a gs m, []).
Proof.
  intros H. unfold noteHash, addHost. cbn [hostSet withGrants]. rewrite lookup_singleton_eq. cbn [from_option id]. case_bool_decide as E; [done|].
  destruct H as [->| ->]; [done|]. unfold setPassword, withGrants. cbn. rewrite !(bool_decide_eq_false_2 (a_hash a = [])) by done.
  rewrite lookup_singleton_eq. rewrite bool_decide_eq_true_2 by done. cbn. by rewrite insert_singleton_eq.
Qed.

Lemma readCreate_new st a : fst st !! a_user a = None -> readCreate st a = (<[a_user a := withGrants a [] ∅]> (fst st), snd st).
Proof.
  intros H. unfold readCreate, lookupUser. rewrite H. cbn [from_option id]. unfold noteHash, addHost, newUserRecord. cbn [hostSet]. rewrite lookup_empty. cbn.
  case_bool_decide as E; [unfold withGrants; rewrite E, app_nil_r; done|].
  unfold setPassword. cbn. rewrite lookup_empty, (bool_decide_eq_false_2 (a_hash a = [])) by done.
  unfold withGrants. rewrite (bool_decide_eq_false_2 (a_hash a = [])) by done. cbn. by rewrite app_nil_r.
Qed.

Lemma readGrant_again st a gs m line hash db :
  hash = [] \/ hash = a_hash a -> fst st !! a_user a = Some (withGrants a gs m) ->
  readGrant st line (a_user a) (a_host a) hash db =
    (<[a_user a := withGrants a (gs ++ [mkGrant line db]) (if db ==? [] then m else <[db := true]> m)]> (fst st), snd st).
Proof.
  intros Hh H. unfold readGrant, lookupUser. rewrite H. cbn [from_option id]. rewrite noteHash_again by done. rewrite app_nil_r. by case_bool_decide.
Qed.

(** Reading an account whose name is new. *)
Lemma readAccount_new q st a : plain_account a -> fst st !! a_user a = None ->
  readAccount q st a = (<[a_user a := recordOf q a]> (fst st), snd st).
Proof.
  intros Ha H. unfold readAccount. rewrite readCreate_new by done. rewrite (readGrant_again _ a [] ∅) by (cbn; rewrite ?lookup_insert_eq; auto).
  cbn [fst snd app]. rewrite insert_insert_eq. rewrite (bool_decide_eq_true_2 (@nil ascii = [])) by done.
  assert (forall gs l m users ws, Forall plain_grant gs ->
    fold_left (fun st g => readGrant st (grantStmt q a g) (a_user a) (a_host a) [] (snd g)) gs (<[a_user a := withGrants a l m]> users, ws)
    = (<[a_user a := withGrants a (l ++ (grantOf q a <$> gs)) (noteDbs gs m)]> users, ws)) as Hf.
  { intros gs. induction gs as [|g gs IH]; intros l m users ws Hg; [cbn; by rewrite app_nil_r|]. apply Forall_cons in Hg as [Hg Hgs].
    cbn [fold_left]. rewrite (readGrant_again _ a l m) by (cbn; rewrite ?lookup_insert_eq; auto). cbn [fst snd].
    rewrite insert_insert_eq, IH by done. destruct Hg as (_ & _ & [[Hd _] _]). rewrite bool_decide_eq_false_2 by done.
    cbn [fmap list_fmap]. by rewrite <- app_assoc. }
  rewrite Hf.
  2: { eapply Forall_impl; [apply (pa_grants a Ha)|]. by intros [privs db]. }
  done.
Qed.

Lemma noteDbs_lookup gs m db : is_Some (noteDbs gs m !! db) <-> db ∈ snd <$> gs \/ is_Some (m !! db).
Proof.
  revert m. induction gs as [|g gs IH]; intros m; cbn [noteDbs fold_left fmap list_fmap]; [set_solver|]. rewrite IH, elem_of_cons.
  destruct (decide (db = snd g)) as [->|Hne]; [rewrite lookup_insert_eq; split; eauto|]. rewrite lookup_insert_ne by done. tauto.
Qed.

(** The records of accounts with different names. *)
Definition entryOf (q : ascii) (a : Account) : gostring * userRecord := (a_user a, recordOf q a).

Lemma readAccounts q accs m ws :
  Forall plain_account accs -> NoDup (a_user <$> accs) -> Forall (fun a => m !! a_user a = None) accs ->
  fold_left (readAccount q) accs (m, ws) = ((list_to_map (entryOf q <$> accs) : gmap gostring userRecord) ∪ m, ws).
Proof.
  intros Ha. revert m. induction Ha as [|a accs Ha _ IH]; intros m Hnd Hm; [cbn; by rewrite (left_id_L ∅ (∪))|].
  apply Forall_cons in Hm as [Hm Hms]. cbn [fmap list_fmap] in Hnd. apply NoDup_cons in Hnd as [Hn Hnd]. cbn [fold_left].
  rewrite readAccount_new by done. cbn [fst snd]. rewrite IH; [|done|].
  - cbn [fmap list_fmap list_to_map foldr curry entryOf fst snd]. rewrite <- insert_union_r, insert_union_l; [done|].
    apply not_elem_of_list_to_map_1. rewrite <- list_fmap_compose. exact Hn.
  - apply Forall_forall. intros b Hb. rewrite Forall_forall in Hms. rewrite lookup_insert_ne; [auto|]. intros E. apply Hn. rewrite E. by apply list_elem_of_fmap_2.
Qed.

Lemma records_perm {MO : MapOrder} q accs : NoDup (a_user <$> accs) ->
  exists accs', accs' ≡ₚ accs /\ snd <$> range_map (list_to_map (entryOf q <$> accs) : gmap gostring userRecord) = recordOf q <$> accs'.
Proof.
  intros Hnd. assert (snd <$> range_map (list_to_map (entryOf q <$> accs) : gmap gostring userRecord) ≡ₚ recordOf q <$> accs) as H.
  { rewrite range_map_perm, map_to_list_to_map by (rewrite <- list_fmap_compose; exact Hnd). by rewrite <- list_fmap_compose. }
  destruct (Permutation_map_inv _ _ H) as (accs' & E & Hp). exists accs'. split; [by symmetry|exact E].
Qed.

(** ** Blocks *)

Definition createIf (a : Account) : gostring :=
  "CREATE USER IF NOT EXISTS " ++ accountText squote (a_user a) (a_host a) ++ identifiedPart (a_hash a) ++ ";".

(** The lines that bring an account and its grants on a database back. *)
Definition blockLines (q : ascii) (a : Account) (db : gostring) : list gostring :=
  createIf a :: (grantStmt q a <$> filter (fun g => snd g = db) (a_grants a)).

Lemma replace_miss r new s : (forall s1 s2, s = s1 ++ s2 -> run r s2 = []) -> replace_go r new 0 s = text s.
Proof.
  induction s as [|t s IH]; intros H; [done|]. cbn [replace_go]. rewrite (H [] (t :: s)) by done. unfold text. rewrite bind_cons. f_equal.
  apply IH. intros s1 s2 ->. by apply (H (t :: s1)).
Qed.

Lemma strip_free line : ascii_text line -> free (toks line) -> ReplaceAllString stripIdentRe line [] = line.
Proof.
  intros Ha Hf. unfold ReplaceAllString. rewrite runes_ascii_text by done. rewrite replace_miss; [apply text_tok1|].
  intros s1 s2 E. apply no_hits. intros c s' k (c1 & s3 & k1 & c2 & k2 & H1 & H2 & ->)%Cat_hit. pose proof (run_split _ _ _ _ _ H1) as ->.
  rewrite E, app_assoc in Hf. rewrite (free_miss _ _ Hf) in H2. by apply not_elem_of_nil in H2.
Qed.

Lemma grantStmt_text q a g : is_quote q -> plain_account a -> plain_grant g -> grantText (grantOf q a g) = grantStmt q a g ++ [LF].
Proof.
  intros Hq [[Hu Fu] [Hh Fh] _ _] Hg. assert (ascii_text (grantStmt q a g)) as Ha.
  { unfold grantStmt. apply Forall_app. split; [|by apply (bool_decide_eq_true_1 _)]. apply Forall_app. split; [by apply grantPrefix_ascii|by apply account_ascii]. }
  assert (free (toks (grantStmt q a g))) as Hf.
  { unfold grantStmt. rewrite <- app_assoc. apply free_account; [done|by apply grantPrefix_free|done|done|by apply free_check]. }
  unfold grantText, grantOf. cbn [raw]. rewrite strip_free by done. assert (exists s, grantStmt q a g = ("G"%char :: s) ++ ";") as [s Es] by (by eexists).
  rewrite Es, statement_trimmed by done. rewrite HasSuffix_app. by rewrite bool_decide_eq_false_2.
Qed.

Lemma escape_plain s : backslash ∉ s -> squote ∉ s -> escapeSQL s = s.
Proof. intros H1 H2. unfold escapeSQL. by rewrite (ReplaceAllByte_absent s), ReplaceAllByte_absent. Qed.

Lemma plain_escape s : Forall (fun c => plain_byte c = true) s -> escapeSQL s = s.
Proof.
  intros H. rewrite Forall_forall in H. apply escape_plain; intros Hin; specialize (H _ Hin); by vm_compute in H.
Qed.

Lemma hash_escape s : Forall (fun c => hash_byte c = true) s -> escapeSQL s = s.
Proof.
  intros H. rewrite Forall_forall in H. apply escape_plain; intros Hin; specialize (H _ Hin); by vm_compute in H.
Qed.

Lemma userBlock_record q a db : is_quote q -> plain_account a -> db <> [] -> userBlock (recordOf q a) db = unlines (blockLines q a db).
Proof.
  intros Hq Ha Hdb. pose proof Ha as [[[_ Hu] _] [[_ Hh] _] Hhash Hgs]. unfold userBlock, blockLines, unlines. rewrite bind_cons. f_equal.
  - cbn [recordOf withGrants hosts]. rewrite bind_cons. cbn [mbind list_bind]. rewrite app_nil_r. unfold createLine, createIf, identifiedPart. cbn [recordOf withGrants password name].
    rewrite !plain_escape, hash_escape by done. unfold accountText. case_bool_decide; cbn [negb]; rewrite <- !app_assoc; reflexivity.
  - cbn [recordOf withGrants grants]. rewrite bind_cons. unfold grantFor at 1. cbn [gdb]. rewrite (bool_decide_eq_false_2 ([] = db)) by done. cbn [app].
    induction Hgs as [|g gs Hg _ IH]; [done|]. cbn [fmap list_fmap]. rewrite bind_cons, filter_cons, IH. unfold grantFor at 1. cbn [gdb grantOf].
    case_bool_decide as E; [rewrite decide_True by done|by rewrite decide_False].
    cbn [fmap list_fmap]. rewrite bind_cons. f_equal. apply grantStmt_text; [done|done|]. by destruct g.
Qed.

Lemma unlines_Join ls : ls <> [] -> unlines ls = Join ls [LF] ++ [LF].
Proof.
  intros Hne. destruct ls as [|l ls]; [done|]. clear Hne. revert l. induction ls as [|l' ls IH]; intros l; [cbn; by rewrite !app_nil_r|].
  unfold unlines in *. rewrite bind_cons, IH. cbn [Join]. by rewrite <- !app_assoc.
Qed.

Lemma TrimRight_LF s c : c <> LF -> TrimRightByte ((s ++ [c]) ++ [LF]) LF = s ++ [c].
Proof.
  intros Hc. unfold TrimRightByte. rewrite !reverse_app. change (reverse [LF]) with [LF]. change (reverse [c]) with [c]. cbn [app drop_byte].
  rewrite bool_decide_eq_true_2 by done. rewrite bool_decide_eq_false_2 by done. by rewrite reverse_cons, reverse_involutive.
Qed.

Lemma Join_final l ls (sep : gostring) : exists p, Join (ls ++ [l]) sep = p ++ l.
Proof.
  induction ls as [|l' ls [p IH]]; [by exists []|]. destruct ls as [|l2 ls]; [exists (l' ++ sep); cbn; by rewrite <- app_assoc|].
  cbn [app Join] in *. rewrite IH. exists (l' ++ sep ++ p). by rewrite <- !app_assoc.
Qed.

(** Every line of a block ends in a semicolon. *)
Lemma block_record q a db : is_quote q -> plain_account a -> db <> [] -> block (recordOf q a) db = Join (blockLines q a db) [LF].
Proof.
  intros Hq Ha Hdb. unfold block. rewrite userBlock_record, unlines_Join by done.
  assert (exists ls l, blockLines q a db = ls ++ [l ++ ";"]) as (ls & l & E).
  { unfold blockLines. destruct (filter _ (a_grants a)) as [|g gs _] using rev_ind.
    - exists []. eexists. unfold createIf. rewrite !app_assoc. reflexivity.
    - exists (createIf a :: (grantStmt q a <$> gs)). eexists. rewrite fmap_app. reflexivity. }
  rewrite E. destruct (Join_final (l ++ ";") ls [LF]) as [p ->]. rewrite app_assoc. by apply TrimRight_LF.
Qed.

(** ** The export *)

Definition row (a : Account) : gostring := Join [a_user a; a_host a; str "mysql_native_password"; a_hash a] [TAB].

(** What SHOW GRANTS prints: the statements without their semicolons. *)
Definition shown (q : ascii) (a : Account) : list gostring := (fun s => TrimSuffix s ";") <$> tail (statements q a).

Definition showQuery (a : Account) : gostring := "SHOW GRANTS FOR '" ++ a_user a ++ "'@'" ++ a_host a ++ "'".

(** A MariaDB server with these accounts, whose mysqldump has no option for users. *)
Record serves {EX : Exec} (c : Mysql.Conn) (q : ascii) (accs : list Account) : Prop := {
  sv_system : forall t, let r := exec t (Mysql.binPath c "mysqldump") (Mysql.baseArgs c ++ [str "--system=users"]) [] in
    is_Some (x_err r) /\ Contains (ToLower (x_combined r)) "unknown" = true;
  sv_list : forall t, let r := exec t (Mysql.binPath c "mysql") (Mysql.baseArgs c ++ [str "-N"; str "-e"; Mysql.userQuery]) [] in
    x_err r = None /\ x_combined r = unlines (row <$> accs);
  sv_grants : forall t a, a ∈ accs -> let r := exec t (Mysql.binPath c "mysql") (Mysql.baseArgs c ++ [str "-N"; str "-e"; showQuery a]) [] in
    x_err r = None /\ x_combined r = unlines (shown q a)
}.

(** Its lines fit the scanners' buffers. *)
Definition short (q : ascii) (a : Account) : Prop := Forall (fun l => (Z.of_nat (length l) < MaxScanTokenSize)%Z) (row a :: statements q a).

(** A statement between its first letter and its semicolon: it ends in a quote. *)
Definition closed (s : gostring) : Prop :=
  Forall (fun c => (32 <= code c < 128)%Z) s /\ exists d t z, s = ((d :: t) ++ [z]) ++ ";" /\ solid d = true /\ is_quote z.

Lemma printable_const s : forallb (fun c => (32 <=? code c)%Z && (code c <? 128)%Z) s = true -> Forall (fun c => (32 <= code c < 128)%Z) s.
Proof. intros H. apply Forall_forall. intros c Hc. rewrite forallb_forall in H. specialize (H c (proj1 (list_elem_of_In _ _) Hc)). lia. Qed.

Lemma account_printable q a : is_quote q -> plain_account a -> Forall (fun c => (32 <= code c < 128)%Z) (accountText q (a_user a) (a_host a)).
Proof.
  intros Hq [[[_ Hu] _] [[_ Hh] _] _ _]. assert (forall s, Forall (fun c => plain_byte c = true) s -> Forall (fun c => (32 <= code c < 128)%Z) s) as Hp
    by (intros s H; eapply Forall_impl; [exact H|]; intros c Hc%plain_byte_facts; lia).
  unfold accountText. rewrite !Forall_app. split_and!; auto; apply printable_const; [by destruct Hq as [->|[->| ->]]..|done|by destruct Hq as [->|[->| ->]]|by destruct Hq as [->|[->| ->]]].
Qed.

Lemma identifiedPart_printable hash : Forall (fun c => hash_byte c = true) hash -> Forall (fun c => (32 <= code c < 128)%Z) (identifiedPart hash ++ ";").
Proof.
  intros H. unfold identifiedPart. apply Forall_app. split; [|by apply printable_const]. case_bool_decide; [constructor|].
  rewrite !Forall_app. split_and!; try by apply printable_const. eapply Forall_impl; [exact H|]. intros c Hc%hash_byte_facts. lia.
Qed.

(** A prefix, an account and perhaps a password. *)
Lemma closed_statement d P q a hash :
  is_quote q -> plain_account a -> solid d = true -> Forall (fun c => (32 <= code c < 128)%Z) (d :: P) -> Forall (fun c => hash_byte c = true) hash ->
  closed (((d :: P) ++ accountText q (a_user a) (a_host a)) ++ identifiedPart hash ++ ";").
Proof.
  intros Hq Ha Hd HP Hh. split.
  - apply Forall_app. split; [|by apply identifiedPart_printable]. apply Forall_app. split; [done|by apply account_printable].
  - unfold identifiedPart, accountText. case_bool_decide.
    + exists d, (P ++ [q] ++ a_user a ++ [q] ++ "@" ++ [q] ++ a_host a), q. split; [|done]. rewrite app_comm_cons, <- !app_assoc. reflexivity.
    + exists d, (P ++ accountText q (a_user a) (a_host a) ++ " " ++ identified ++ [squote] ++ hash), squote. split; [|unfold is_quote; auto].
      rewrite app_comm_cons, <- !app_assoc. unfold accountText. rewrite <- !app_assoc. reflexivity.
Qed.

Lemma closed_statements q a : is_quote q -> plain_account a -> Forall closed (statements q a).
Proof.
  intros Hq Ha. pose proof Ha as [_ _ Hh Hg]. unfold statements. constructor; [|constructor].
  - apply (closed_statement "C"%char (str "REATE USER ")); try done; [unfold is_quote; auto|]. by apply printable_const.
  - apply (closed_statement "G"%char (str "RANT USAGE ON *.* TO ")); try done. by apply printable_const.
  - apply Forall_fmap. eapply Forall_impl; [exact Hg|]. intros [privs db] (Hp & _ & [[_ Hd] _]).
    apply (closed_statement "G"%char ("RANT " ++ privs ++ " ON " ++ [backtick] ++ db ++ [backtick] ++ ".* TO ") q a []); try done.
    constructor; [by vm_compute|]. rewrite !Forall_app. split_and!; try by apply printable_const.
    + eapply Forall_impl; [exact Hp|]. intros c Hc%priv_byte_facts. lia.
    + eapply Forall_impl; [exact Hd|]. intros c Hc%plain_byte_facts. lia.
Qed.

Lemma closed_line s : closed s -> LF ∉ s /\ drop_cr s = s.
Proof.
  intros [Hp (d & t & z & -> & _ & _)]. split; [|by apply drop_cr_id]. intros H. rewrite Forall_forall in Hp. specialize (Hp _ H). vm_compute in Hp. by destruct Hp.
Qed.

Lemma closed_shown s : closed s -> let l := TrimSuffix s ";" in
  LF ∉ l /\ drop_cr l = l /\ TrimSpace l = l /\ l <> [] /\ HasSuffix l ";" = false /\ s = l ++ ";" /\ length l <= length s.
Proof.
  intros Hc. destruct (closed_line s Hc) as [HLF _]. destruct Hc as [_ (d & t & z & -> & Hd & Hz)]. cbv zeta. rewrite TrimSuffix_app.
  assert (z <> CR /\ solid z = true /\ z <> ";"%char) as (Hcr & Hs & Hsemi) by (by destruct Hz as [->|[->| ->]]). split_and!; try done.
  - set_solver.
  - by apply drop_cr_id.
  - by apply TrimSpace_solid.
  - apply bool_decide_eq_false_2. intros [r E]. apply strip_suffix_Some in E. apply app_inj_tail in E as [_ E]. done.
  - rewrite (length_app (_ ++ _)). lia.
Qed.

(** The GRANT statements of the export. *)
Lemma grantLines_shown q a : is_quote q -> plain_account a -> short q a -> Mysql.grantLines (unlines (shown q a)) = unlines (tail (statements q a)).
Proof.
  intros Hq Ha Hs. pose proof (closed_statements q a Hq Ha) as Hc. unfold short in Hs. apply Forall_cons in Hs as [_ Hs]. unfold shown.
  destruct (statements q a) as [|c l]; [done|]. apply Forall_cons in Hc as [_ Hc]. apply Forall_cons in Hs as [_ Hs]. cbn [tail].
  unfold Mysql.grantLines, ScanLines. rewrite raw_lines_unlines, scan_raw_ok.
  - cbn [fst]. unfold unlines. clear Hs. induction Hc as [|s l Hc _ IH]; [done|]. cbn [fmap list_fmap]. rewrite !bind_cons. f_equal; [|exact IH].
    destruct (closed_shown s Hc) as (_ & Hd & Ht & Hne & Hsuf & Es & _). cbv zeta. rewrite Hd, Ht, Hsuf. rewrite bool_decide_eq_false_2 by done.
    rewrite Es at 2. by rewrite <- app_assoc.
  - apply Forall_fmap. apply Forall_forall. intros s Hin. rewrite Forall_forall in Hs, Hc. destruct (closed_shown s (Hc s Hin)) as (_ & _ & _ & _ & _ & _ & Hl).
    specialize (Hs s Hin). change (Z.of_nat (length (TrimSuffix s ";")) < MaxScanTokenSize)%Z. cbv zeta in Hl. lia.
  - apply Forall_fmap. eapply Forall_impl; [exact Hc|]. intros s Hcs. by apply closed_shown.
Qed.

Lemma createUserLine_plain a : plain_account a -> Mysql.createUserLine (a_user a) (a_host a) "mysql_native_password" (a_hash a) = createStmt a ++ [LF].
Proof.
  intros [[[_ Hu] _] [[_ Hh] _] Hhash _]. unfold Mysql.createUserLine. cbv zeta.
  change (negb (str "mysql_native_password" ==? []) && negb (str "mysql_native_password" ==? str "mysql_native_password")) with false. cbv iota.
  rewrite (plain_escape (a_user a) Hu : Mysql.escapeName _ = _), (plain_escape (a_host a) Hh : Mysql.escapeName _ = _),
    (hash_escape (a_hash a) Hhash : Mysql.escapeName _ = _). unfold createStmt, accountText, identifiedPart.
  case_bool_decide; cbn [negb]; rewrite <- !app_assoc; reflexivity.
Qed.

Section Server.
Context {EX : Exec} (c : Mysql.Conn) (q : ascii).

Lemma split_row a : plain_account a -> SplitN (row a) TAB 4 = [a_user a; a_host a; str "mysql_native_password"; a_hash a].
Proof.
  intros [[[_ Hu] _] [[_ Hh] _] Hhash _].
  assert (TAB ∉ a_user a /\ TAB ∉ a_host a /\ TAB ∉ a_hash a) as (H1 & H2 & H3).
  { rewrite Forall_forall in Hu, Hh, Hhash. split_and!; intros H; [specialize (Hu _ H)|specialize (Hh _ H)|specialize (Hhash _ H)]; discriminate. }
  assert (Split (row a) TAB = [a_user a; a_host a; str "mysql_native_password"; a_hash a]) as E.
  { unfold row. cbn [Join app]. rewrite !Split_app_sep, Split_absent; try done. by apply (bool_decide_eq_true_1 _). }
  unfold SplitN. rewrite E. done.
Qed.

Lemma exportRow_account a w : is_quote q -> plain_account a -> short q a ->
  (forall t, let r := exec t (Mysql.binPath c "mysql") (Mysql.baseArgs c ++ [str "-N"; str "-e"; showQuery a]) [] in x_err r = None /\ x_combined r = unlines (shown q a)) ->
  Mysql.exportRow c (row a) w = (unlines (statements q a), tick w).
Proof.
  intros Hq Ha Hs Hg. pose proof Ha as [[[_ Hu] _] [[_ Hh] _] _ _]. unfold Mysql.exportRow. rewrite split_row by done. cbv zeta.
  rewrite (plain_escape (a_user a) Hu : Mysql.escapeName _ = _), (plain_escape (a_host a) Hh : Mysql.escapeName _ = _). fold (showQuery a).
  unfold mbind, M_bind, run_cmd. destruct (Hg (w_tick w)) as [E1 E2]. rewrite E1, E2, grantLines_shown by done.
  rewrite (plain_trimmed (str "mysql_native_password")) by (by apply (bool_decide_eq_true_1 _)). rewrite createUserLine_plain by done.
  reflexivity.
Qed.

Lemma row_line a : plain_account a -> LF ∉ row a /\ drop_cr (row a) = row a.
Proof.
  intros [[[_ Hu] _] [[_ Hh] _] Hhash _]. split.
  - unfold row. cbn [Join]. rewrite !not_elem_of_app. rewrite Forall_forall in Hu, Hh, Hhash.
    split_and!; try (by apply (bool_decide_eq_true_1 _)); intros H; [specialize (Hu _ H)|specialize (Hh _ H)|specialize (Hhash _ H)]; discriminate.
  - unfold row. cbn [Join]. destruct (a_hash a) as [|z s _] using rev_ind.
    + rewrite app_nil_r, !app_assoc. by apply drop_cr_id.
    + apply Forall_snoc in Hhash as [_ Hz]. rewrite !app_assoc. apply drop_cr_id. intros ->. discriminate Hz.
Qed.

Lemma exportRows_accounts accs : is_quote q -> Forall plain_account accs -> Forall (short q) accs ->
  (forall t a, a ∈ accs -> let r := exec t (Mysql.binPath c "mysql") (Mysql.baseArgs c ++ [str "-N"; str "-e"; showQuery a]) [] in x_err r = None /\ x_combined r = unlines (shown q a)) ->
  forall w, exists w', Mysql.exportRows c (row <$> accs) w = (unlines (accs ≫= statements q), w').
Proof.
  intros Hq Ha. induction Ha as [|a accs Ha _ IH]; intros Hs Hg w; [by eexists|]. apply Forall_cons in Hs as [Hs Hss]. cbn [fmap list_fmap Mysql.exportRows].
  unfold mbind at 1, M_bind at 1. rewrite exportRow_account; [|done|done|done|intros t; apply Hg; left]. unfold mbind at 1, M_bind at 1.
  destruct (IH Hss (fun t b Hb => Hg t b (list_elem_of_further _ _ _ Hb)) (tick w)) as [w' ->]. eexists. unfold mret, M_ret, unlines. by rewrite bind_cons, bind_app.
Qed.

(** The whole export is the statements of the accounts, a line each. *)
Lemma export_text accs w : is_quote q -> Forall plain_account accs -> Forall (short q) accs -> serves c q accs ->
  exists w', Mysql.exportUsersMariaDBFallback c w = (inr (unlines (accs ≫= statements q)), w').
Proof.
  intros Hq Ha Hs [_ Hl Hg]. unfold Mysql.exportUsersMariaDBFallback. unfold mbind at 1, M_bind at 1, run_cmd. destruct (Hl (w_tick w)) as [-> ->].
  unfold ScanLines. rewrite raw_lines_unlines, scan_raw_ok.
  - assert (drop_cr <$> (row <$> accs) = row <$> accs) as ->.
    { clear -Ha. induction Ha as [|a accs Ha _ IH]; [done|]. cbn [fmap list_fmap]. by rewrite (proj2 (row_line a Ha)), IH. }
    unfold mbind, M_bind. destruct (exportRows_accounts accs Hq Ha Hs Hg (tick w)) as [w' ->]. by eexists.
  - apply Forall_fmap. eapply Forall_impl; [exact Hs|]. intros a H. apply Forall_cons in H as [H _]. unfold MaxScanTokenSize in H. cbn -[row]. lia.
  - apply Forall_fmap. eapply Forall_impl; [exact Ha|]. intros a H. by apply row_line.
Qed.

Lemma ExportUsers_text accs w : is_quote q -> Forall plain_account accs -> Forall (short q) accs -> serves c q accs ->
  exists w', Mysql.ExportUsers c true w = (inr (unlines (accs ≫= statements q)), w').
Proof.
  intros Hq Ha Hs Hsv. unfold Mysql.ExportUsers, Mysql.exportUsersMariaDB, mbind, M_bind, run_cmd. destruct (sv_system _ _ _ Hsv (w_tick w)) as [[e ->] ->]. cbn [orb].
  by apply export_text.
Qed.

(** What the parser makes of the exported statements. *)
Lemma parse_export accs : is_quote q -> Forall plain_account accs -> Forall (short q) accs ->
  parseUserRecords (unlines (accs ≫= statements q)) = fold_left (readAccount q) accs (∅, []).
Proof.
  intros Hq Ha Hs. assert (Forall closed (accs ≫= statements q)) as Hc.
  { apply Forall_bind. eapply Forall_impl; [exact Ha|]. intros a H. by apply closed_statements. }
  assert (Forall (fun l => (Z.of_nat (length l) < maxLine)%Z) (accs ≫= statements q)) as Hlen.
  { apply Forall_bind. eapply Forall_impl; [exact Hs|]. intros a H. apply Forall_cons in H as [_ H]. eapply Forall_impl; [exact H|].
    intros l Hl. unfold MaxScanTokenSize, maxLine in *. lia. }
  unfold parseUserRecords, ScanLines. rewrite raw_lines_unlines, scan_raw_ok by (done || (eapply Forall_impl; [exact Hc|]; intros s H; by apply closed_line)).
  cbn [fst]. assert (drop_cr <$> (accs ≫= statements q) = accs ≫= statements q) as ->.
  { clear Hlen. induction Hc as [|s l H _ IH]; [done|]. cbn [fmap list_fmap]. by rewrite IH, (proj2 (closed_line s H)). }
  by apply parse_accounts.
Qed.

End Server.

(** ** Theorems *)

(** C12: Users come back from a MariaDB server whose mysqldump has no option for users, so that
    they are exported with the statements the server prints: when no two accounts have the same
    user name, and all have plain names (visible ASCII characters without quotes, at signs,
    backslashes and stars, and without the word IDENTIFIED), native password hashes or no
    password, and grants on whole databases, the text the backup keeps for a database is made of one block for each
    account with a grant on it, which creates the account with its host and hash and repeats
    exactly its grants on that database; a database without grants has none.  (Accounts of one
    name on several hosts share a block, and the first password found.) *)
Theorem users_roundtrip (EX : Exec) (MO : MapOrder) c q accs w :
  is_quote q -> Forall plain_account accs -> Forall (short q) accs -> NoDup (a_user <$> accs) -> serves c q accs ->
  exists sql w', Mysql.ExportUsers c true w = (inr sql, w') /\
    forall db, db <> [] -> exists accs', accs' ≡ₚ accs /\
      fst (fst (ParseUserSQL sql)) !! db = joined ((fun a => Join (blockLines q a db) [LF]) <$> filter (fun a => db ∈ snd <$> a_grants a) accs').
Proof.
  intros Hq Ha Hs Hnd Hsv. destruct (ExportUsers_text c q accs w Hq Ha Hs Hsv) as [w' E]. exists (unlines (accs ≫= statements q)), w'. split; [exact E|].
  intros db Hdb. destruct (records_perm q accs Hnd) as (accs' & Hp & Er). exists accs'. split; [exact Hp|].
  rewrite ParseUserSQL_lookup, parse_export, readAccounts by (done || by apply Forall_true). cbn [fst]. rewrite (right_id_L ∅ (∪)), Er. f_equal. unfold blocks.
  assert (Forall plain_account accs') as Ha' by (by rewrite Hp). clear Hp Er. induction Ha' as [|a l Hal _ IH]; [done|]. cbn [fmap list_fmap]. rewrite !filter_cons.
  assert (is_Some (dbs (recordOf q a) !! db) <-> db ∈ snd <$> a_grants a) as Hiff.
  { cbn [recordOf withGrants dbs]. rewrite noteDbs_lookup, lookup_empty. split; [by intros [?|[]]|by left]. }
  destruct (decide (db ∈ snd <$> a_grants a)) as [Hin|Hin].
  - rewrite decide_True by (by apply Hiff). cbn [fmap list_fmap]. by rewrite IH, block_record.
  - rewrite decide_False by (by rewrite Hiff). exact IH.
Qed.

(** The hash of an account with an authentication plugin is lost: the export writes it as
    IDENTIFIED WITH plugin AS hash, which the parser does not read, so that the block
    creates the account without a password. *)
Theorem plugin_password_lost :
  let stmt := Mysql.createUserLine "app" "%" "ed25519" "6KNkDGUPWBYxCg" in
  let sql := stmt ++ "GRANT SELECT ON `shop`.* TO `app`@`%`;" ++ [LF] in
  stmt = "CREATE USER 'app'@'%' IDENTIFIED WITH ed25519 AS '6KNkDGUPWBYxCg';" ++ [LF] /\
  fst (fst (ParseUserSQL sql)) !! str "shop" = Some ("CREATE USER IF NOT EXISTS 'app'@'%';" ++ [LF] ++ "GRANT SELECT ON `shop`.* TO `app`@`%`;").
Proof. vm_compute. split; reflexivity. Qed.

(** An at sign in the name of a database is taken for that of an account: the grant of
    app on a@b becomes one of a user a from the host b. *)
Theorem at_sign_in_database :
  fst (fst (ParseUserSQL ("GRANT SELECT ON `a@b`.* TO `app`@`%`;" ++ [LF]))) !! str "a@b" =
    Some ("CREATE USER IF NOT EXISTS 'a'@'b';" ++ [LF] ++ "GRANT SELECT ON `a@b`.* TO `app`@`%`;").
Proof. vm_compute. reflexivity. Qed.

(** ** Witnesses *)

Definition sampleAccounts : list Account :=
  [mkAccount "app" "%" "*94BDCEBE19083CE2A1F959FD02F964C7AF4CFC29" [(str "ALL PRIVILEGES", str "shop")];
   mkAccount "report" "10.0.0.7" [] [(str "SELECT, SHOW VIEW", str "shop"); (str "SELECT", str "crm")]].

Definition sampleServer : Exec := fun _ _ args _ =>
  if bool_decide (str "--system=users" ∈ args) then let out := str "mysqldump: unknown variable 'system=users'" in mkExec [] out out (Some (ExitError 7)) else
  let out := if bool_decide (Mysql.userQuery ∈ args) then unlines (row <$> sampleAccounts)
             else match filter (fun a => showQuery a ∈ args) sampleAccounts with a :: _ => unlines (shown backtick a) | [] => [] end in
  mkExec out [] out None.

Definition sampleConn : Mysql.Conn := Mysql.mkConn "localhost" 3306 "root" [] [].

Lemma sample_plain : Forall plain_account sampleAccounts.
Proof.
  assert (forall s, bool_decide (s <> [] /\ Forall (fun c => plain_byte c = true) s) = true -> find (lit_ci word) (toks s) = None -> plain_free s) as Hp.
  { intros s H1%bool_decide_eq_true H2. split; [done|by apply free_check]. }
  repeat constructor; try (apply Hp; reflexivity); try (apply (bool_decide_eq_true_1 _); reflexivity).
  all: cbn; repeat constructor; try (apply Hp; reflexivity); apply free_check; reflexivity.
Qed.

Lemma users_roundtrip_witness :
  exists sql w', @Mysql.ExportUsers sampleServer sampleConn true (mkWorld ∅ (GoTime.Date 2024 1 15 0) 0 [] []) = (inr sql, w') /\
    forall db, db <> [] -> exists accs', accs' ≡ₚ sampleAccounts /\
      fst (fst (ParseUserSQL sql)) !! db = joined ((fun a => Join (blockLines backtick a db) [LF]) <$> filter (fun a => db ∈ snd <$> a_grants a) accs').
Proof.
  apply (users_roundtrip sampleServer _ sampleConn backtick sampleAccounts).
  - by left.
  - apply sample_plain.
  - repeat constructor.
  - apply (bool_decide_eq_true_1 _). reflexivity.
  - split.
    + intros t. split; [by eexists|vm_compute; reflexivity].
    + intros t. split; vm_compute; reflexivity.
    + intros t a Ha. unfold sampleAccounts in Ha. apply elem_of_cons in Ha as [->|Ha]; [split; vm_compute; reflexivity|].
      apply list_elem_of_singleton in Ha as ->. split; vm_compute; reflexivity.
Defined.

End UserExport.
