(* ===== verification/Backup.v ===== *)
(** * internal/backup/backup.go: dumping databases into archives.

    The archive of a database is replaced in a protected way: the previous one is
    moved to a .sav file, the new one is streamed, and [finish] or [cancel] removes
    or restores the .sav file.  [recoverSavFiles] repairs what an interrupted run
    left behind. *)

From S2P Require Import Prelude GoStrings Regexp GoTime GoPath GoRuntime World CrashLogic Config Mysql UserSQL Retention.
Import GoStrings GoTime GoRuntime World CrashLogic.

Module Backup.

(** ** Names *)

(** The class [[^\w\-.]]. *)
Definition unsafe_rune (r : Z) : bool := negb (Regexp.cls_w r || (r =? 45)%Z || (r =? 46)%Z).

Definition hostnameForFile (host : gostring) : gostring :=
  let host := if host ==? [] then str "localhost" else host in
  Regexp.ReplaceAllString (Regexp.Cls unsafe_rune) host "_".

Definition zipNameOf (dateStr hostPart db : gostring) : gostring :=
  "mysql_backup_" ++ dateStr ++ "_" ++ hostPart ++ "_" ++ db ++ ".zip".

Definition savPathOf (zipPath : gostring) : gostring := TrimSuffix zipPath ".zip" ++ ".sav".

Section Backup.
Context {FT : Faults} {AS : ArchiveSize} {EX : Exec} {MO : MapOrder}.

(** ** Recovery of .sav files *)

Definition recoverOne (backupDir : gostring) (e : gostring * Node) : M unit :=
  match snd e with
  | NDir => mret tt
  | NFile _ _ =>
      let ename := fst e in
      if negb (HasSuffix ename ".sav") then mret tt
      else
        let base := TrimSuffix ename ".sav" in
        let savPath := GoPath.Join backupDir ename in
        let zipPath := GoPath.Join backupDir (base ++ ".zip") in
        savInfo ← Stat savPath;
        match savInfo with
        | inl _ => mret tt
        | inr savNode =>
            zipInfo ← Stat zipPath;
            match zipInfo with
            | inl errZip =>
                if IsNotExist errZip then
                  r ← Rename savPath zipPath;
                  match r with
                  | inl e => Warn "log.warn.recover_sav_rename" [AStr ename; AStr (base ++ ".zip"); AErr e]
                  | inr _ => Info "log.msg.recovered" [AStr (base ++ ".zip")]
                  end
                else mret tt
            | inr zipNode =>
                if (node_size zipNode <=? node_size savNode)%Z then
                  r ← Remove zipPath;
                  match r with
                  | inl e => Warn "log.warn.recover_sav_remove" [AStr (base ++ ".zip"); AErr e]
                  | inr _ =>
                      r ← Rename savPath zipPath;
                      match r with
                      | inl e => Warn "log.warn.recover_sav_rename2" [AStr ename; AStr (base ++ ".zip"); AErr e]
                      | inr _ => Info "log.msg.recovered_larger" [AStr (base ++ ".zip")]
                      end
                  end
                else
                  r ← Remove savPath;
                  match r with
                  | inl e => Warn "log.warn.recover_sav_remove" [AStr ename; AErr e]
                  | inr _ => Info "log.msg.removed_sav" [AStr ename]
                  end
            end
        end
  end.

Definition recoverSavFiles (backupDir : gostring) : M unit :=
  r ← ReadDir backupDir;
  match r with
  | inl e => Warn "log.warn.recover_sav_read" [AErr e]
  | inr entries => for_each entries (recoverOne backupDir)
  end.

(** ** Protected writing of an archive *)

(** [zip.Writer.Create]: starts the entry. *)
Definition zipCreate (p entryName : gostring) : M (err + unit) := Write p (Zip [(entryName, [])] false).

(** A write to the open entry appends to it. *)
Definition append_entry (es : list (gostring * gostring)) (b : gostring) : list (gostring * gostring) :=
  match reverse es with
  | (n, old) :: rest => reverse ((n, old ++ b) :: rest)
  | [] => []
  end.

Definition zipWrite (p b : gostring) : M (err + unit) := fun w =>
  match w_fs w !! p with
  | Some (NFile (Zip es false) _) => Write p (Zip (append_entry es b) false) w
  | _ => (inl (EIO 9), w)
  end.

(** [zip.Writer.Close] writes the central directory; a second call only reports an
    error. *)
Definition zipClose (p : gostring) : M (err + unit) := fun w =>
  match w_fs w !! p with
  | Some (NFile (Zip es false) _) => Write p (Zip es true) w
  | Some (NFile (Raw _) _) => Write p (Zip [] true) w
  | _ => (inl (EIO 9), w)
  end.

(** Closing the file changes nothing but may report an error. *)
Definition fileClose (p : gostring) : M (err + unit) := syscall (fun w => (inr tt, w)).

(** [if _, e := os.Stat(savPath); e == nil { _ = os.Rename(savPath, zipPath) }] *)
Definition restoreSav (savPath zipPath : gostring) : M unit :=
  s ← Stat savPath;
  match s with
  | inr _ => _ ← Rename savPath zipPath; mret tt
  | inl _ => mret tt
  end.

(** What follows the first [os.Stat]. *)
Definition safeWriteFrom (zipPath entryName : gostring) (st : err + Node) : M (option err) :=
  let savPath := savPathOf zipPath in
  rn ← match st with
       | inr _ => Rename zipPath savPath
       | inl _ => mret (inr tt)
       end;
  match rn with
  | inl e => mret (Some (Errorf "err.rename_sav" [] (Some e)))
  | inr _ =>
      cr ← Create zipPath;
      match cr with
      | inl e => _ ← restoreSav savPath zipPath; mret (Some e)
      | inr _ =>
          en ← zipCreate zipPath entryName;
          match en with
          | inl e =>
              _ ← zipClose zipPath;
              _ ← fileClose zipPath;
              _ ← Remove zipPath;
              _ ← restoreSav savPath zipPath;
              mret (Some e)
          | inr _ => mret None
          end
      end
  end.

Definition safeWriteZIPStreaming (zipPath entryName : gostring) : M (option err) :=
  st ← Stat zipPath;
  safeWriteFrom zipPath entryName st.

Definition finish (zipPath : gostring) : M (option err) :=
  r ← zipClose zipPath;
  match r with
  | inl e => mret (Some e)
  | inr _ =>
      r ← fileClose zipPath;
      match r with
      | inl e => mret (Some e)
      | inr _ => _ ← Remove (savPathOf zipPath); mret None
      end
  end.

Definition cancel (zipPath : gostring) : M unit :=
  let savPath := savPathOf zipPath in
  _ ← zipClose zipPath;
  _ ← fileClose zipPath;
  _ ← Remove zipPath;
  s ← Stat savPath;
  match s with
  | inl _ => mret tt
  | inr _ =>
      r ← Rename savPath zipPath;
      match r with
      | inl e => Warn "log.warn.restore_sav" [AErr e]
      | inr _ => Warn "log.warn.restored_sav" [AStr (GoPath.Base zipPath)]
      end
  end.

(** ** The backup of one database *)

(** The pieces written after the dump. *)
Definition userPieces (userBlock : gostring) : list gostring :=
  if userBlock ==? [] then []
  else [[LF; LF]; userBlock; [LF; LF] ++ "FLUSH PRIVILEGES;" ++ [LF]].

Fixpoint writePieces (p : gostring) (pieces : list gostring) : M (option err) :=
  match pieces with
  | [] => mret None
  | b :: bs =>
      r ← zipWrite p b;
      match r with
      | inl e => mret (Some e)
      | inr _ => writePieces p bs
      end
  end.

(** The body of the loop after [safeWriteZIPStreaming]. *)
Definition streamOne (conn : Mysql.Conn) (isMariaDB : bool) (zipPath db userBlock : gostring) (o : option err) : M (option err) :=
  match o with
  | Some e => mret (Some (Errorf "err.zip_db" [db] (Some e)))
  | None =>
      d ← Mysql.DumpDatabase conn db isMariaDB (zipWrite zipPath);
      match d with
      | Some e => _ ← cancel zipPath; mret (Some (Errorf "err.dump_db" [db] (Some e)))
      | None =>
          _ ← Info "log.msg.dumped_db" [AStr db];
          u ← writePieces zipPath (userPieces userBlock);
          match u with
          | Some e => _ ← cancel zipPath; mret (Some (Errorf "err.zip_user_block" [db] (Some e)))
          | None =>
              f ← finish zipPath;
              match f with
              | Some e => _ ← cancel zipPath; mret (Some (Errorf "err.zip_db" [db] (Some e)))
              | None => mret None
              end
          end
      end
  end.

Definition backupOne (conn : Mysql.Conn) (isMariaDB : bool) (zipPath db userBlock : gostring) : M (option err) :=
  o ← safeWriteZIPStreaming zipPath (db ++ ".sql");
  streamOne conn isMariaDB zipPath db userBlock o.

(** The loop over the databases: the files created so far, or the first error. *)
Fixpoint runLoop (conn : Mysql.Conn) (isMariaDB : bool) (backupDir dateStr hostPart : gostring)
    (dbToUserSQL : gmap gostring gostring) (dbs created : list gostring) : M (err + list gostring) :=
  match dbs with
  | [] => mret (inr created)
  | db :: dbs' =>
      let zipName := zipNameOf dateStr hostPart db in
      let zipPath := GoPath.Join backupDir zipName in
      r ← backupOne conn isMariaDB zipPath db (default [] (dbToUserSQL !! db));
      match r with
      | Some e => mret (inl e)
      | None =>
          _ ← Info "log.msg.created_zip" [AStr zipName];
          runLoop conn isMariaDB backupDir dateStr hostPart dbToUserSQL dbs' (created ++ [zipPath])
      end
  end.

Definition log_all (ws : list LogEntry) : M unit :=
  for_each ws (fun l => log_at (l_level l) (l_key l) (l_args l)).

Definition Run (cfg : Config.Config) (conn : Mysql.Conn) (userSQL : gostring) (dbs : list gostring) (isMariaDB : bool)
    : M (err + list gostring) :=
  let backupDir := GoPath.FromSlash (Config.BackupDir cfg) in
  mk ← MkdirAll backupDir;
  match mk with
  | inl e => mret (inl (Errorf "err.create_backup_dir" [] (Some e)))
  | inr _ =>
      _ ← recoverSavFiles backupDir;
      now ← get_now;
      let dateStr := FormatDate now in
      let hostPart := hostnameForFile (Config.HostnameForBackup cfg) in
      let '(dbToUserSQL, userNames, warnings) := UserSQL.ParseUserSQL userSQL in
      _ ← log_all warnings;
      _ ← (if bool_decide (0 < length userNames)
           then Info "log.msg.users_found" [AInt (Z.of_nat (length userNames)); AStr (Join userNames ", ")]
           else mret tt);
      runLoop conn isMariaDB backupDir dateStr hostPart dbToUserSQL dbs []
  end.

(** ** Lemmas: the protocol under I/O errors *)

Lemma savPathOf_ne z : savPathOf z <> z.
Proof.
  unfold savPathOf, TrimSuffix. destruct (strip_suffix ".zip" z) as [b|] eqn:E; simpl.
  - apply strip_suffix_Some in E as ->. intros Heq%app_inj_1; [|done]. by destruct Heq.
  - intros Heq. apply (f_equal length) in Heq. rewrite length_app in Heq. simpl in Heq. lia.
Qed.

Section Protocol.
Variables (z : gostring) (n0 : Node).

(** The previous archive is in the .sav file. *)
Definition Saved (fs : files) : Prop := fs !! savPathOf z = Some n0.

(** The previous archive is somewhere. *)
Definition Kept (fs : files) : Prop := fs !! z = Some n0 \/ fs !! savPathOf z = Some n0.

(** The new archive is open with the given entries. *)
Definition Open (es : list (gostring * gostring)) (fs : files) : Prop :=
  Saved fs /\ exists t, fs !! z = Some (NFile (Zip es false) t).

(** The new archive is complete. *)
Definition Complete (es : list (gostring * gostring)) (fs : files) : Prop :=
  exists t, fs !! z = Some (NFile (Zip es true) t).

Lemma Saved_insert fs n : Saved fs -> Saved (<[z := n]> fs).
Proof. unfold Saved. intros H. rewrite lookup_insert_ne; [done|]. apply not_eq_sym, savPathOf_ne. Qed.

Lemma Saved_delete fs : Saved fs -> Saved (delete z fs).
Proof. unfold Saved. intros H. rewrite lookup_delete_ne; [done|]. apply not_eq_sym, savPathOf_ne. Qed.

Lemma Kept_rename fs n : Saved fs -> fs !! savPathOf z = Some n -> Kept (<[z := n]> (delete (savPathOf z) fs)).
Proof. unfold Saved. intros H Hn. rewrite H in Hn. simplify_eq. left. apply lookup_insert_eq. Qed.

Lemma zipWrite_spec es b :
  spec Saved (Open es) (zipWrite z b) (fun r fs => match r with inl _ => Saved fs | inr _ => Open (append_entry es b) fs end).
Proof.
  apply spec_world. intros w [Hs [t Ht]]. unfold zipWrite. rewrite Ht. eexists. split; [reflexivity|].
  apply spec_Write; intros fs; [intros <-; done|intros e <-; done|].
  intros t' <-. split; [by apply Saved_insert|]. split; [by apply Saved_insert|]. exists t'. apply lookup_insert_eq.
Qed.

Lemma zipClose_keeps : spec Saved Saved (zipClose z) (fun _ fs => Saved fs).
Proof.
  assert (forall (fs : files) d, Saved fs -> spec Saved (eq fs) (Write z d) (fun _ fs => Saved fs)) as Hwr.
  { intros fs d Hs. apply spec_Write; intros fs'; [by intros <-|by intros e <-|].
    intros t' <-. split; by apply Saved_insert. }
  assert (forall fs : files, Saved fs -> spec Saved (eq fs) (mret (inl (EIO 9) : err + unit)) (fun _ fs => Saved fs)) as Hno.
  { intros fs Hs. apply spec_ret. by intros fs' <-. }
  apply spec_world. intros w Hs. unfold zipClose.
  destruct (w_fs w !! z) as [[|[b|es []] t]|]; eexists; (split; [reflexivity|]); auto.
  all: by apply (Hno (w_fs w)).
Qed.

Lemma zipClose_spec es :
  spec (fun fs => Saved fs \/ Complete es fs) (Open es) (zipClose z)
    (fun r fs => match r with inl _ => Saved fs | inr _ => Saved fs /\ Complete es fs end).
Proof.
  apply spec_world. intros w [Hs [t Ht]]. unfold zipClose. rewrite Ht. eexists. split; [reflexivity|].
  apply spec_Write; intros fs; [intros <-; by left|by intros e <-|].
  intros t' <-. split; [left; by apply Saved_insert|]. split; [by apply Saved_insert|]. exists t'. apply lookup_insert_eq.
Qed.

Lemma fileClose_keeps (S : files -> Prop) : spec S S (fileClose z) (fun _ fs => S fs).
Proof. apply spec_syscall; [done|done|]. intros w Hw. done. Qed.

Lemma restoreSav_spec : spec Kept Saved (restoreSav (savPathOf z) z) (fun _ fs => Kept fs).
Proof.
  unfold restoreSav. eapply spec_bind.
  { apply (spec_Stat _ _ _ (fun _ => Saved)); [by right|done|done]. }
  intros [e|n]; [apply spec_ret; by right|]. eapply spec_bind; [|intros r; by apply (spec_ret _ Kept)].
  apply (spec_Rename _ _ _ _ (fun _ => Kept)); [by right|by right|]. intros fs m Hs Hm. split; by apply Kept_rename.
Qed.

Lemma Remove_keeps : spec Saved Saved (Remove z) (fun _ fs => Saved fs).
Proof. apply spec_Remove; [done|done|]. intros fs Hs. split; by apply Saved_delete. Qed.

Lemma cancel_spec : spec Kept Saved (cancel z) (fun _ fs => Kept fs).
Proof.
  unfold cancel. cbv zeta.
  eapply spec_bind; [apply (spec_inv _ Saved); [by right|apply zipClose_keeps]|intros ?].
  eapply spec_bind; [apply (spec_inv _ Saved); [by right|apply fileClose_keeps]|intros ?].
  eapply spec_bind; [apply (spec_inv _ Saved); [by right|apply Remove_keeps]|intros ?].
  eapply spec_bind; [apply (spec_Stat _ _ _ (fun _ => Saved)); [by right|done|done]|].
  intros [e|n]; [apply spec_ret; by right|]. eapply spec_bind.
  - apply (spec_Rename _ _ _ _ (fun _ => Kept)); [by right|by right|].
    intros fs m Hs Hm. split; by apply Kept_rename.
  - intros [e|u]; by apply spec_log.
Qed.

Lemma safeWriteFrom_spec entry n :
  spec Kept (fun fs => fs !! z = Some n0) (safeWriteFrom z entry (inr n))
    (fun r fs => match r with Some _ => Kept fs | None => Open [(entry, [])] fs end).
Proof.
  unfold safeWriteFrom. cbv zeta. eapply spec_bind.
  { apply (spec_Rename _ _ _ _ (fun r fs => match r with inl _ => Kept fs | inr _ => Saved fs end));
      [by left|by left|].
    intros fs m Hz Hm. rewrite Hz in Hm. injection Hm as <-.
    assert (Saved (<[savPathOf z := n0]> (delete z fs))) by apply lookup_insert_eq. split; [by right|done]. }
  intros [e|u]; [by apply spec_ret|]. eapply spec_bind.
  { apply (spec_Create _ _ _ (fun _ => Saved)); [by right|done|].
    intros fs t Hs. split; [right|]; by apply Saved_insert. }
  intros [e|u']; [eapply spec_bind; [apply restoreSav_spec|intros ?; by apply spec_ret]|].
  eapply spec_bind.
  { apply (spec_Write _ _ _ _ (fun r fs => match r with inl _ => Saved fs | inr _ => Open [(entry, [])] fs end));
      [by right|done|].
    intros fs t Hs. split; [right; by apply Saved_insert|]. split; [by apply Saved_insert|].
    exists t. apply lookup_insert_eq. }
  intros [e|u'']; [|by apply spec_ret].
  eapply spec_bind; [apply (spec_inv _ Saved); [by right|apply zipClose_keeps]|intros ?].
  eapply spec_bind; [apply (spec_inv _ Saved); [by right|apply fileClose_keeps]|intros ?].
  eapply spec_bind; [apply (spec_inv _ Saved); [by right|apply Remove_keeps]|intros ?].
  eapply spec_bind; [apply restoreSav_spec|intros ?; by apply spec_ret].
Qed.

Lemma append_entry_one (n old b : gostring) : append_entry [(n, old)] b = [(n, old ++ b)].
Proof. done. Qed.

Lemma writePieces_spec n old bs :
  spec Saved (Open [(n, old)]) (writePieces z bs)
    (fun r fs => match r with Some _ => Saved fs | None => Open [(n, old ++ concat bs)] fs end).
Proof.
  revert old. induction bs as [|b bs IH]; intros old; simpl.
  - apply spec_ret. by rewrite app_nil_r.
  - eapply spec_bind; [apply zipWrite_spec|]. intros [e|u]; [by apply spec_ret|].
    rewrite append_entry_one, app_assoc. apply IH.
Qed.

(** What a completed archive of [db] holds, for the output of the dump at a tick. *)
Definition Written (conn : Mysql.Conn) (isMariaDB : bool) (db userBlock : gostring) (fs : files) : Prop :=
  exists t, let r := exec t (Mysql.binPath conn "mysqldump") (Mysql.dumpArgs conn db isMariaDB) [] in
    x_err r = None /\ Complete [(db ++ ".sql", x_out r ++ concat (userPieces userBlock))] fs.

Lemma Complete_delete es fs : Complete es fs -> Complete es (delete (savPathOf z) fs).
Proof. intros [t Ht]. exists t. rewrite lookup_delete_ne; [done|]. apply savPathOf_ne. Qed.

Lemma finish_spec (es : list (gostring * gostring)) :
  spec (fun fs => Saved fs \/ Complete es fs) (Open es) (finish z)
    (fun r fs => match r with Some _ => Saved fs | None => Complete es fs end).
Proof.
  unfold finish. eapply spec_bind; [apply zipClose_spec|]. intros [e|u]; [by apply spec_ret|].
  eapply spec_bind.
  { apply (spec_inv _ (fun fs => Saved fs /\ Complete es fs)); [by left; apply H|apply fileClose_keeps]. }
  intros [e|u']; [apply spec_ret; by intros fs []|]. eapply spec_bind.
  { apply (spec_Remove _ _ _ (fun _ => Complete es)); [by intros fs []; left|by intros fs e []|].
    intros fs [_ Hc]. apply Complete_delete in Hc. by split; [right|]. }
  intros r. by apply spec_ret.
Qed.

Lemma DumpDatabase_spec (conn : Mysql.Conn) (isMariaDB : bool) (db n : gostring) (Q : option err -> files -> Prop) :
  (forall (fs : files) e, Saved fs -> Q (Some e) fs) ->
  (forall t (fs : files), let r := exec t (Mysql.binPath conn "mysqldump") (Mysql.dumpArgs conn db isMariaDB) [] in
     x_err r = None -> Open [(n, x_out r)] fs -> Q None fs) ->
  spec Saved (Open [(n, [])]) (Mysql.DumpDatabase conn db isMariaDB (zipWrite z)) Q.
Proof.
  intros He Hok. unfold Mysql.DumpDatabase. eapply spec_bind.
  { apply (spec_run_cmd _ _ _ _ _ (fun r fs => (exists t, r = exec t (Mysql.binPath conn "mysqldump") (Mysql.dumpArgs conn db isMariaDB) [])
      /\ Open [(n, [])] fs)). intros t fs Ho. split; [by exists t|done]. }
  intros r. apply spec_pre. intros fs [[t ->] Ho]. eapply spec_bind.
  { eapply (spec_conseq _ (Open [(n, [])])); [by intros fs' <-| |apply zipWrite_spec]. intros x fs' H. exact H. }
  rewrite append_entry_one. intros [e|u]; apply spec_ret; intros fs' H; destruct (x_err _) eqn:E; eauto.
  apply He. apply H.
Qed.

(** From an open archive on: every error restores the previous archive, success
    leaves the new one complete. *)
Lemma streamOne_spec (conn : Mysql.Conn) (isMariaDB : bool) (db userBlock : gostring) (o : option err) :
  spec (fun fs => Kept fs \/ Written conn isMariaDB db userBlock fs)
    (fun fs => match o with Some _ => Kept fs | None => Open [(db ++ ".sql", [])] fs end)
    (streamOne conn isMariaDB z db userBlock o)
    (fun r fs => match r with Some _ => Kept fs | None => Written conn isMariaDB db userBlock fs end).
Proof.
  assert (forall e : err, spec (fun fs => Kept fs \/ Written conn isMariaDB db userBlock fs) Saved
    (_ ← cancel z; mret (Some e)) (fun r fs => match r with Some _ => Kept fs | None => Written conn isMariaDB db userBlock fs end)) as Hcancel.
  { intros e. apply (spec_inv _ Kept); [by left|]. eapply spec_bind; [apply cancel_spec|]. intros ?. by apply spec_ret. }
  assert (forall fs : files, Saved fs -> Kept fs \/ Written conn isMariaDB db userBlock fs) as Hs by (intros; by left; right).
  destruct o as [e|]; simpl; [by apply spec_ret|]. eapply spec_bind.
  { apply (spec_inv _ Saved); [done|]. apply (DumpDatabase_spec _ _ _ _ (fun d fs => match d with Some _ => Saved fs
      | None => exists t, let r := exec t (Mysql.binPath conn "mysqldump") (Mysql.dumpArgs conn db isMariaDB) [] in
        x_err r = None /\ Open [(db ++ ".sql", x_out r)] fs end)); [done|]. intros t fs r Hr Ho. by exists t. }
  intros [e|]; [apply Hcancel|]. apply spec_pre. intros fs (t & Hr & Ho). set (r := exec _ _ _ _) in *.
  eapply spec_bind; [apply (spec_log _ _ _ _ _ (fun _ => Open [(db ++ ".sql", x_out r)])); by intros fs' <-|].
  intros ?. eapply spec_bind; [apply (spec_inv _ Saved); [done|apply writePieces_spec]|].
  intros [e|]; [apply Hcancel|]. eapply spec_bind.
  { eapply (spec_inv _ (fun fs => _ \/ _)); [|apply finish_spec]. intros fs' [H|H]; [auto|]. right. by exists t. }
  intros [e|]; [apply Hcancel|]. apply spec_ret. intros fs' Hc. by exists t.
Qed.

End Protocol.

(** ** Lemmas: runs without I/O errors *)

Section FaultFree.
Variables (now : Time) (z : gostring).
Implicit Types fs : files.

Lemma does_zipWrite n old b fs :
  does (zipWrite z b) now (<[z := NFile (Zip [(n, old)] false) now]> fs) (inr tt)
    (<[z := NFile (Zip [(n, old ++ b)] false) now]> fs).
Proof.
  eapply does_eq; [eapply does_world; [|apply (does_Write z (Zip [(n, old ++ b)] false))]|].
  - intros w Hw. unfold zipWrite. by rewrite Hw, lookup_insert_eq.
  - apply insert_insert_eq.
Qed.

Lemma does_writePieces n old bs fs :
  does (writePieces z bs) now (<[z := NFile (Zip [(n, old)] false) now]> fs) None
    (<[z := NFile (Zip [(n, old ++ concat bs)] false) now]> fs).
Proof.
  revert old. induction bs as [|b bs IH]; intros old; simpl; [rewrite app_nil_r; apply does_ret|].
  eapply does_bind; [apply does_zipWrite|]. cbn. rewrite app_assoc. apply IH.
Qed.

Lemma does_zipClose es fs :
  does (zipClose z) now (<[z := NFile (Zip es false) now]> fs) (inr tt) (<[z := NFile (Zip es true) now]> fs).
Proof.
  eapply does_eq; [eapply does_world; [|apply (does_Write z (Zip es true))]|].
  - intros w Hw. unfold zipClose. by rewrite Hw, lookup_insert_eq.
  - apply insert_insert_eq.
Qed.

Lemma does_fileClose fs : does (fileClose z) now fs (inr tt) fs.
Proof. apply does_syscall. intros w <- <-. done. Qed.

(** The name of the .sav file is another one. *)
Lemma lookup_sav_insert fs n : <[z := n]> fs !! savPathOf z = fs !! savPathOf z.
Proof. apply lookup_insert_ne, not_eq_sym, savPathOf_ne. Qed.

Lemma does_finish es fs :
  fs !! savPathOf z <> Some NDir ->
  does (finish z) now (<[z := NFile (Zip es false) now]> fs) None
    (<[z := NFile (Zip es true) now]> (delete (savPathOf z) fs)).
Proof.
  intros Hs. unfold finish. eapply does_bind; [apply does_zipClose|].
  eapply does_bind; [apply does_fileClose|].
  eapply does_bind; [apply does_Remove; by rewrite lookup_sav_insert|]. cbn beta iota.
  eapply does_eq; [apply does_ret|]. apply delete_insert_ne, savPathOf_ne.
Qed.

Lemma does_cancel es fs :
  fs !! savPathOf z <> Some NDir ->
  does (cancel z) now (<[z := NFile (Zip es false) now]> fs) tt
    (match fs !! savPathOf z with Some n => <[z := n]> (delete (savPathOf z) fs) | None => delete z fs end).
Proof.
  intros Hs. unfold cancel. cbv zeta. eapply does_bind; [apply does_zipClose|].
  eapply does_bind; [apply does_fileClose|].
  eapply does_bind; [apply does_Remove; by rewrite lookup_insert_eq|]. cbn beta.
  rewrite delete_insert_eq. eapply does_bind; [apply does_Stat|].
  rewrite lookup_delete_ne by apply not_eq_sym, savPathOf_ne.
  destruct (fs !! savPathOf z) as [n|] eqn:E; [|apply does_ret].
  eapply does_bind; [apply (does_Rename _ _ n); [|by rewrite lookup_delete_eq]|].
  { by rewrite lookup_delete_ne by apply not_eq_sym, savPathOf_ne. }
  eapply does_eq; [apply does_log|]. by rewrite delete_delete, insert_delete_eq.
Qed.

(** The previous archive, if any, moved away, and the new one opened. *)
Definition opened fs (entry : gostring) : files :=
  <[z := NFile (Zip [(entry, [])] false) now]>
    (match fs !! z with Some n => <[savPathOf z := n]> (delete z fs) | None => fs end).

Lemma does_safeWriteFrom_absent entry e fs :
  fs !! z <> Some NDir -> fs !! GoPath.Dir z = Some NDir ->
  does (safeWriteFrom z entry (inl e)) now fs None (<[z := NFile (Zip [(entry, [])] false) now]> fs).
Proof.
  intros Hz Hd. unfold safeWriteFrom. cbv zeta. eapply does_bind; [apply does_ret|].
  eapply does_bind; [by apply does_Create|]. eapply does_bind; [apply does_Write|].
  eapply does_eq; [apply does_ret|]. apply insert_insert_eq.
Qed.

Lemma does_safeWrite entry fs :
  fs !! z <> Some NDir -> fs !! savPathOf z <> Some NDir -> fs !! GoPath.Dir z = Some NDir ->
  does (safeWriteZIPStreaming z entry) now fs None (opened fs entry).
Proof.
  intros Hz Hs Hd. unfold safeWriteZIPStreaming. eapply does_bind; [apply does_Stat|].
  unfold opened. destruct (fs !! z) as [n|] eqn:E; [|by apply does_safeWriteFrom_absent; rewrite ?E].
  unfold safeWriteFrom. cbv zeta. eapply does_bind; [by apply (does_Rename _ _ n)|].
  eapply does_bind; [apply does_Create|].
  - rewrite lookup_insert_ne by apply savPathOf_ne. by rewrite lookup_delete_eq.
  - destruct (decide (GoPath.Dir z = z)) as [E'|Hdz]; [congruence|].
    destruct (decide (savPathOf z = GoPath.Dir z)) as [Hds|Hds]; [congruence|].
    by rewrite lookup_insert_ne, lookup_delete_ne.
  - eapply does_bind; [apply does_Write|]. eapply does_eq; [apply does_ret|]. apply insert_insert_eq.
Qed.

Section Dump.
Variables (conn : Mysql.Conn) (isMariaDB : bool) (db : gostring) (r : ExecResult).
Hypothesis Hdump : forall t, exec t (Mysql.binPath conn "mysqldump") (Mysql.dumpArgs conn db isMariaDB) [] = r.

Lemma does_DumpDatabase n fs :
  does (Mysql.DumpDatabase conn db isMariaDB (zipWrite z)) now (<[z := NFile (Zip [(n, [])] false) now]> fs)
    (match x_err r with Some e => Some (Errorf "err.mysqldump_db" [db; x_stderr r] (Some e)) | None => None end)
    (<[z := NFile (Zip [(n, x_out r)] false) now]> fs).
Proof.
  unfold Mysql.DumpDatabase. eapply does_bind; [by apply does_run_cmd|].
  eapply does_bind; [apply (does_zipWrite n [])|]. cbn. destruct (x_err r); apply does_ret.
Qed.

Lemma opened_sav fs entry : fs !! z <> Some NDir -> fs !! savPathOf z <> Some NDir ->
  opened fs entry !! savPathOf z <> Some NDir.
Proof.
  intros Hz Hs. unfold opened. rewrite lookup_sav_insert. destruct (fs !! z) as [n|] eqn:E; [|done].
  by rewrite lookup_insert_eq.
Qed.

Lemma does_backupOne_ok userBlock fs :
  x_err r = None ->
  fs !! z <> Some NDir -> fs !! savPathOf z <> Some NDir -> fs !! GoPath.Dir z = Some NDir ->
  does (backupOne conn isMariaDB z db userBlock) now fs None
    (<[z := NFile (Zip [(db ++ ".sql", x_out r ++ concat (userPieces userBlock))] true) now]> (delete (savPathOf z) fs)).
Proof.
  intros Hr Hz Hs Hd. unfold backupOne. eapply does_bind; [by apply does_safeWrite|].
  pose proof (opened_sav _ (db ++ ".sql") Hz Hs) as Ho. unfold opened in *. rewrite lookup_sav_insert in Ho.
  unfold streamOne. eapply does_bind; [apply does_DumpDatabase|]. rewrite Hr. cbn beta iota.
  eapply does_bind; [apply does_log|]. eapply does_bind; [apply does_writePieces|]. cbn beta iota.
  eapply does_bind; [by apply does_finish|]. eapply does_eq; [apply does_ret|].
  destruct (fs !! z) as [n|] eqn:E; [|done].
  by rewrite delete_insert_eq, delete_delete, insert_delete_eq.
Qed.

Lemma does_backupOne_dump_error userBlock fs e :
  x_err r = Some e ->
  fs !! z <> Some NDir -> fs !! savPathOf z = None -> fs !! GoPath.Dir z = Some NDir ->
  does (backupOne conn isMariaDB z db userBlock) now fs
    (Some (Errorf "err.dump_db" [db] (Some (Errorf "err.mysqldump_db" [db; x_stderr r] (Some e))))) fs.
Proof.
  intros Hr Hz Hs Hd. unfold backupOne. eapply does_bind; [apply does_safeWrite; by rewrite ?Hs|].
  pose proof (opened_sav fs (db ++ ".sql") Hz ltac:(by rewrite Hs)) as Ho. unfold opened in *. rewrite lookup_sav_insert in Ho.
  unfold streamOne. eapply does_bind; [apply does_DumpDatabase|]. rewrite Hr. cbn beta iota.
  eapply does_bind; [by apply does_cancel|]. eapply does_eq; [apply does_ret|].
  destruct (fs !! z) as [n|] eqn:E.
  - rewrite lookup_insert_eq, delete_insert_eq, delete_delete, insert_delete_eq, delete_id by done. by apply insert_id.
  - rewrite Hs. by apply delete_id.
Qed.

(** The same failure after a first [Stat] that reported the archive absent. *)
Lemma does_absent_dump_error userBlock fs e e0 :
  x_err r = Some e ->
  fs !! z <> Some NDir -> fs !! savPathOf z = None -> fs !! GoPath.Dir z = Some NDir ->
  does (o ← safeWriteFrom z (db ++ ".sql") (inl e0); streamOne conn isMariaDB z db userBlock o) now fs
    (Some (Errorf "err.dump_db" [db] (Some (Errorf "err.mysqldump_db" [db; x_stderr r] (Some e))))) (delete z fs).
Proof.
  intros Hr Hz Hs Hd. eapply does_bind; [by apply does_safeWriteFrom_absent|].
  unfold streamOne. eapply does_bind; [apply does_DumpDatabase|]. rewrite Hr. cbn beta iota.
  eapply does_bind; [apply does_cancel; by rewrite Hs|]. eapply does_eq; [apply does_ret|]. by rewrite Hs.
Qed.

End Dump.

End FaultFree.

(** ** Lemmas: the moments of a run *)

Lemma grows_zipWrite p b : grows (zipWrite p b).
Proof. intros w. unfold zipWrite. repeat case_match; (by apply grows_Write) || by exists []. Qed.

Lemma grows_zipClose p : grows (zipClose p).
Proof. intros w. unfold zipClose. repeat case_match; (by apply grows_Write) || by exists []. Qed.

Lemma grows_fileClose p : grows (fileClose p).
Proof. by apply grows_syscall. Qed.

#[local] Hint Resolve grows_zipWrite grows_zipClose grows_fileClose : grows.

Lemma grows_cancel p : grows (cancel p).
Proof. unfold cancel. solve_grows. Qed.

Lemma grows_finish p : grows (finish p).
Proof. unfold finish. solve_grows. Qed.

Lemma grows_writePieces p bs : grows (writePieces p bs).
Proof. induction bs as [|b bs IH]; cbn [writePieces]; solve_grows. Qed.

Lemma grows_safeWrite p entry : grows (safeWriteZIPStreaming p entry).
Proof. unfold safeWriteZIPStreaming, safeWriteFrom, restoreSav, zipCreate. solve_grows. Qed.

#[local] Hint Resolve grows_cancel grows_finish grows_writePieces : grows.

(** The run has a moment between the writing of the dump and [finish]. *)
Lemma backupOne_midway conn isMariaDB z db userBlock w r n :
  fine w -> w_fs w !! z = Some n -> n <> NDir -> w_fs w !! savPathOf z <> Some NDir -> w_fs w !! GoPath.Dir z = Some NDir ->
  (forall t, exec t (Mysql.binPath conn "mysqldump") (Mysql.dumpArgs conn db isMariaDB) [] = r) ->
  exists h, w_hist (snd (backupOne conn isMariaDB z db userBlock w)) = h ++ w_hist w /\
    <[z := NFile (Zip [(db ++ ".sql", x_out r)] false) (w_now w)]> (<[savPathOf z := n]> (delete z (w_fs w))) ∈ h.
Proof.
  intros Hw Hz Hn Hs Hd Hr.
  destruct (does_safeWrite (w_now w) z (db ++ ".sql") (w_fs w) ltac:(congruence) Hs Hd w Hw eq_refl eq_refl) as (w0 & E0 & Hw0 & Hf0 & Hn0).
  destruct (grows_safeWrite z (db ++ ".sql") w) as [h0 Eh0]. rewrite E0 in Eh0. cbn [snd] in Eh0. unfold opened in Hf0. rewrite Hz in Hf0.
  set (w1 := tick w0). set (w2 := snd (zipWrite z (x_out r) w1)).
  assert (zipWrite z (x_out r) w1 = Write z (Zip [(db ++ ".sql", x_out r)] false) w1) as Ew by (unfold zipWrite; change (w_fs w1) with (w_fs w0); by rewrite Hf0, lookup_insert_eq).
  assert (w_fs w2 = <[z := NFile (Zip [(db ++ ".sql", x_out r)] false) (w_now w)]> (<[savPathOf z := n]> (delete z (w_fs w)))) as Hf2.
  { unfold w2. rewrite Ew. unfold Write, syscall. rewrite Hw0 by (simpl; lia). cbn. by rewrite Hf0, insert_insert_eq, Hn0. }
  assert (exists h1, w_hist w2 = h1 ++ w_hist w0 /\ w_fs w2 ∈ h1) as (h1 & Eh1 & Hin).
  { unfold w2. rewrite Ew. unfold Write, syscall. rewrite Hw0 by (simpl; lia). eexists [_]. split; [reflexivity|left]. }
  assert (exists k : M (option err), grows k /\ backupOne conn isMariaDB z db userBlock w = k w2) as (k & Hk & ->).
  { assert (exists d, Mysql.DumpDatabase conn db isMariaDB (zipWrite z) w0 = (d, w2)) as [d Ed].
    { unfold Mysql.DumpDatabase, mbind, M_bind, run_cmd. rewrite Hr. fold w1. unfold w2. destruct (zipWrite z (x_out r) w1) as [wr w2']. by eexists. }
    unfold backupOne, mbind at 1, M_bind at 1. rewrite E0. unfold streamOne, mbind at 1, M_bind at 1. rewrite Ed.
    lazymatch goal with |- exists k, _ /\ ?m w2 = k w2 => exists m end. split; [|reflexivity]. solve_grows. }
  destruct (Hk w2) as [h2 E2]. exists (h2 ++ h1 ++ h0). rewrite E2, Eh1, Eh0, <- !app_assoc. split; [done|]. rewrite <- Hf2. set_solver.
Qed.

(** ** Lemmas: recovery without I/O errors *)

Lemma plain_ext base (ext : gostring) :
  GoPath.slash ∉ base -> bool_decide (GoPath.slash ∉ ext /\ 3 <= length ext) = true -> GoPath.plain (base ++ ext).
Proof.
  intros Hb [He Hl]%bool_decide_eq_true_1. split; [by apply not_elem_of_app|].
  repeat split; intros E; apply (f_equal length) in E; rewrite length_app in E; simpl in E; lia.
Qed.

Section Recover.
Variables (backupDir : gostring) (now : Time).
Implicit Types fs : files.

Definition savOf (base : gostring) : gostring := GoPath.Join backupDir (base ++ ".sav").
Definition zipOf (base : gostring) : gostring := GoPath.Join backupDir (base ++ ".zip").

(** The file kept of a pair: the .sav file unless the archive is larger. *)
Definition kept_of (sav : Node) (zip : option Node) : Node :=
  match zip with
  | None => sav
  | Some n => if (node_size n <=? node_size sav)%Z then sav else n
  end.

Definition recover_base fs (base : gostring) : files :=
  match fs !! savOf base with
  | None => fs
  | Some s => <[zipOf base := kept_of s (fs !! zipOf base)]> (delete (savOf base) fs)
  end.

Definition sav_base (e : gostring * Node) : option gostring :=
  match snd e with
  | NDir => None
  | NFile _ _ => strip_suffix ".sav" (fst e)
  end.

Definition recover_step fs (e : gostring * Node) : files :=
  match sav_base e with Some base => recover_base fs base | None => fs end.

Definition pair_files fs (base : gostring) : Prop := fs !! savOf base <> Some NDir /\ fs !! zipOf base <> Some NDir.

Lemma does_recoverOne e fs :
  (forall base, sav_base e = Some base -> GoPath.slash ∉ base /\ pair_files fs base) ->
  does (recoverOne backupDir e) now fs tt (recover_step fs e).
Proof.
  unfold recoverOne, recover_step, sav_base. destruct e as [name [|d t]]; cbn [fst snd]; [intros _; apply does_ret|].
  unfold HasSuffix, TrimSuffix. destruct (strip_suffix ".sav" name) as [base|] eqn:E; [|intros _; apply does_ret].
  apply strip_suffix_Some in E as ->. intros Hp. destruct (Hp base eq_refl) as [Hslash [Hs Hz]]. cbn [default negb id]. cbv zeta.
  rewrite bool_decide_eq_true_2 by done. cbn [negb].
  unfold recover_base. eapply does_bind; [apply does_Stat|]. change (GoPath.Join backupDir (base ++ ".sav")) with (savOf base).
  destruct (fs !! savOf base) as [s|] eqn:Es; [|apply does_ret]. eapply does_bind; [apply does_Stat|].
  change (GoPath.Join backupDir (base ++ ".zip")) with (zipOf base).
  assert (savOf base <> zipOf base) as Hne.
  { intros H%GoPath.Join_plain_inj; [by apply app_inv_head in H| |]; by apply plain_ext. }
  destruct (fs !! zipOf base) as [n|] eqn:Ez; cbn [kept_of IsNotExist].
  - destruct (_ <=? _)%Z.
    + eapply does_bind; [apply does_Remove; by rewrite Ez|]. rewrite Ez.
      eapply does_bind; [apply (does_Rename _ _ s); [by rewrite lookup_delete_ne|by rewrite lookup_delete_eq]|].
      eapply does_eq; [apply does_log|]. by rewrite delete_delete, insert_delete_eq.
    + eapply does_bind; [apply does_Remove; by rewrite Es|]. rewrite Es.
      eapply does_eq; [apply does_log|]. by rewrite insert_id by (by rewrite lookup_delete_ne).
  - eapply does_bind; [apply (does_Rename _ _ s); [done|by rewrite Ez]|]. apply does_log.
Qed.

Lemma pair_ne base base' :
  GoPath.slash ∉ base -> GoPath.slash ∉ base' ->
  savOf base <> zipOf base' /\ (savOf base = savOf base' -> base = base') /\ (zipOf base = zipOf base' -> base = base').
Proof.
  intros Hb Hb'. repeat split; intros E; apply GoPath.Join_plain_inj in E; try by apply plain_ext.
  all: apply app_inj_2 in E; [|done]; by destruct E.
Qed.

Lemma recover_base_other fs base p : p <> savOf base -> p <> zipOf base -> recover_base fs base !! p = fs !! p.
Proof.
  intros Hs Hz. unfold recover_base. destruct (fs !! savOf base); [|done].
  by rewrite lookup_insert_ne, lookup_delete_ne.
Qed.

Lemma recover_base_not_dir fs base p : pair_files fs base -> fs !! p <> Some NDir -> recover_base fs base !! p <> Some NDir.
Proof.
  intros [Hs Hz] Hp. unfold recover_base. destruct (fs !! savOf base) as [s|] eqn:E; [|done].
  destruct (decide (p = zipOf base)) as [->|Hne].
  - rewrite lookup_insert_eq. destruct (fs !! zipOf base); simpl; [case_if|]; congruence.
  - rewrite lookup_insert_ne by done. destruct (decide (p = savOf base)) as [->|]; [by rewrite lookup_delete_eq|].
    by rewrite lookup_delete_ne.
Qed.

(** The entries of the directory are well named. *)
Definition named (es : list (gostring * Node)) : Prop :=
  forall e base, e ∈ es -> sav_base e = Some base -> GoPath.slash ∉ base.

Definition all_pairs (es : list (gostring * Node)) fs : Prop :=
  forall e base, e ∈ es -> sav_base e = Some base -> pair_files fs base.

Lemma does_recover_loop es fs :
  named es -> all_pairs es fs ->
  does (for_each es (recoverOne backupDir)) now fs tt (fold_left recover_step es fs).
Proof.
  intros Hn. apply (does_for_each (all_pairs es)). intros e fs' He Hp. split.
  - apply does_recoverOne. eauto.
  - intros e' base' He' Hb'. unfold recover_step. destruct (sav_base e) as [base|] eqn:Hb; [|eauto].
    split; apply recover_base_not_dir; eauto; by eapply Hp.
Qed.

Lemma recover_fold_frame es fs p :
  (forall e base, e ∈ es -> sav_base e = Some base -> p <> savOf base /\ p <> zipOf base) ->
  fold_left recover_step es fs !! p = fs !! p.
Proof.
  revert fs. induction es as [|e es IH]; intros fs Hp; [done|]. simpl. rewrite IH by (intros; eapply Hp; [by right|done]).
  unfold recover_step. destruct (sav_base e) as [base|] eqn:E; [|done].
  destruct (Hp e base); [left|done|]. by apply recover_base_other.
Qed.

(** A step for another base leaves the pair alone. *)
Lemma recover_step_pair e fs base :
  (forall base', sav_base e = Some base' -> GoPath.slash ∉ base') -> GoPath.slash ∉ base -> sav_base e <> Some base ->
  recover_step fs e !! savOf base = fs !! savOf base /\ recover_step fs e !! zipOf base = fs !! zipOf base.
Proof.
  intros Hn Hb Hne. unfold recover_step. destruct (sav_base e) as [base'|]; [|done]. specialize (Hn _ eq_refl).
  destruct (pair_ne base base' Hb Hn) as (H1 & H2 & H3), (pair_ne base' base Hn Hb) as (H1' & _).
  split; apply recover_base_other; try done; try (by apply not_eq_sym); intros E; apply Hne; f_equal; symmetry; auto.
Qed.

(** A pair without .sav file stays as it is. *)
Lemma recover_fold_done es fs base :
  named es -> GoPath.slash ∉ base -> fs !! savOf base = None ->
  fold_left recover_step es fs !! savOf base = None /\ fold_left recover_step es fs !! zipOf base = fs !! zipOf base.
Proof.
  revert fs. induction es as [|e es IH]; intros fs Hn Hb Hs; [done|]. simpl.
  assert (recover_step fs e !! savOf base = None /\ recover_step fs e !! zipOf base = fs !! zipOf base) as [H1 H2].
  { destruct (decide (sav_base e = Some base)) as [E|E].
    - unfold recover_step, recover_base. by rewrite E, Hs.
    - destruct (recover_step_pair e fs base) as [-> ->]; eauto. intros base' Hb'. apply (Hn e); [left|done]. }
  destruct (IH (recover_step fs e)) as [-> ->]; eauto. intros e' base' He'. apply Hn. by right.
Qed.

(** A pair whose .sav file is among the entries is resolved. *)
Lemma recover_fold_pair es fs e base s :
  named es -> e ∈ es -> sav_base e = Some base -> fs !! savOf base = Some s ->
  fold_left recover_step es fs !! savOf base = None /\
  fold_left recover_step es fs !! zipOf base = Some (kept_of s (fs !! zipOf base)).
Proof.
  revert fs. induction es as [|e' es IH]; intros fs Hn Hin E Hs; [by apply elem_of_nil in Hin|]. simpl.
  assert (GoPath.slash ∉ base) as Hb by (by eapply Hn).
  assert (named es) as Hn' by (intros e1 b1 H1; apply Hn; by right).
  destruct (decide (sav_base e' = Some base)) as [E'|E'].
  - assert (recover_step fs e' = <[zipOf base := kept_of s (fs !! zipOf base)]> (delete (savOf base) fs)) as ->.
    { unfold recover_step, recover_base. by rewrite E', Hs. }
    destruct (pair_ne base base Hb Hb) as (Hne & _).
    destruct (recover_fold_done es (<[zipOf base := kept_of s (fs !! zipOf base)]> (delete (savOf base) fs)) base) as [-> ->]; eauto.
    + rewrite lookup_insert_ne by (by apply not_eq_sym). by rewrite lookup_delete_eq.
    + by rewrite lookup_insert_eq.
  - apply elem_of_cons in Hin as [->|Hin]; [done|].
    destruct (recover_step_pair e' fs base) as [H1 H2]; eauto.
    { intros base' Hb'. apply (Hn e'); [left|done]. }
    rewrite <- H2. apply IH; eauto. by rewrite H1.
Qed.

Definition recovered fs : files := fold_left recover_step (merge_sort name_leb (dir_entries fs backupDir)) fs.

Lemma elem_of_listing fs e : e ∈ merge_sort name_leb (dir_entries fs backupDir) <-> e ∈ dir_entries fs backupDir.
Proof. by rewrite (merge_sort_Permutation name_leb). Qed.

Lemma listing_base fs e base :
  e ∈ merge_sort name_leb (dir_entries fs backupDir) -> sav_base e = Some base ->
  GoPath.slash ∉ base /\ fs !! savOf base = Some (snd e).
Proof.
  rewrite elem_of_listing. destruct e as [name n]. rewrite elem_of_dir_entries. intros [[Hs _] Hl] E.
  unfold sav_base in E. cbn [fst snd] in *. destruct n; [done|]. apply strip_suffix_Some in E as ->.
  apply not_elem_of_app in Hs as [Hs _]. done.
Qed.

Lemma listing_named fs : named (merge_sort name_leb (dir_entries fs backupDir)).
Proof. intros e base He Hb. by apply (listing_base _ _ _ He Hb). Qed.

(** No directory stands in for an archive or a .sav file. *)
Definition no_dirs fs : Prop := forall base, GoPath.slash ∉ base -> pair_files fs base.

Lemma does_recoverSavFiles fs :
  fs !! backupDir = Some NDir -> no_dirs fs -> does (recoverSavFiles backupDir) now fs tt (recovered fs).
Proof.
  intros Hd Hn. unfold recoverSavFiles. eapply does_bind; [by apply does_ReadDir|].
  apply does_recover_loop; [apply listing_named|]. intros e base He Hb. apply Hn. by apply (listing_base _ _ _ He Hb).
Qed.

Lemma recovered_frame fs p :
  (forall base, GoPath.slash ∉ base -> p <> savOf base /\ p <> zipOf base) -> recovered fs !! p = fs !! p.
Proof. intros Hp. apply recover_fold_frame. intros e base He Hb. apply Hp. by apply (listing_base _ _ _ He Hb). Qed.

Lemma recovered_pair fs base :
  GoPath.slash ∉ base -> no_dirs fs ->
  recovered fs !! savOf base = None /\
  recovered fs !! zipOf base =
    match fs !! savOf base with Some s => Some (kept_of s (fs !! zipOf base)) | None => fs !! zipOf base end.
Proof.
  intros Hb Hn. destruct (fs !! savOf base) as [s|] eqn:E.
  - destruct (Hn base Hb) as [Hs _]. destruct s as [|d t]; [done|].
    apply (recover_fold_pair _ _ (base ++ ".sav", NFile d t)); [apply listing_named| | |done].
    + apply elem_of_listing, elem_of_dir_entries. split; [by apply plain_ext|done].
    + unfold sav_base. cbn [fst snd]. by apply strip_suffix_Some.
  - by apply recover_fold_done; [apply listing_named| |].
Qed.

Lemma recovered_no_dirs fs : no_dirs fs -> no_dirs (recovered fs).
Proof.
  intros Hn base Hb. unfold pair_files. destruct (recovered_pair fs base Hb Hn) as [-> ->]. split; [done|].
  destruct (Hn base Hb) as [Hs Hz]. destruct (fs !! savOf base) as [s|]; [|done].
  unfold kept_of. destruct (fs !! zipOf base); [case_if|]; congruence.
Qed.

End Recover.

Lemma does_log_all ws now (fs : files) : does (log_all ws) now fs tt fs.
Proof.
  replace fs with (fold_left (fun (fs : files) (_ : LogEntry) => fs) ws fs) at 2 by (by induction ws).
  apply (does_for_each (fun _ => True)); [|done]. intros l fs' _ _. split; [apply does_log|done].
Qed.

(** ** Lemmas: names *)

Lemma hostnameForFile_no_slash host : GoPath.slash ∉ hostnameForFile host.
Proof.
  unfold hostnameForFile. intros Hin. apply Regexp.ReplaceAllString_Cls in Hin as [Hin|Hin]; [| |done].
  - by apply list_elem_of_singleton in Hin.
  - done.
Qed.

Lemma digits_no_slash s : Forall (fun c => is_digit c = true) s -> GoPath.slash ∉ s.
Proof. intros H Hin. rewrite Forall_forall in H. by apply H in Hin. Qed.

Lemma zipName_plain d h db :
  GoPath.slash ∉ d -> GoPath.slash ∉ h -> GoPath.slash ∉ db -> GoPath.plain (zipNameOf d h db).
Proof.
  intros Hd Hh Hdb. unfold zipNameOf. split; [|done].
  rewrite !not_elem_of_app. repeat split; try done; by apply (bool_decide_eq_true_1 _).
Qed.

(** ** Lemmas: the loop without I/O errors *)

Section Loop.
Variables (conn : Mysql.Conn) (isMariaDB : bool) (backupDir dateStr hostPart : gostring)
  (users : gmap gostring gostring) (dump : gostring -> ExecResult) (now : Time).
Hypothesis Hdate : GoPath.slash ∉ dateStr.
Hypothesis Hhost : GoPath.slash ∉ hostPart.

Definition zipPathOf (db : gostring) : gostring := GoPath.Join backupDir (zipNameOf dateStr hostPart db).

(** The archive written for a database. *)
Definition archiveOf (db : gostring) : Node :=
  NFile (Zip [(db ++ ".sql", x_out (dump db) ++ concat (userPieces (default [] (users !! db))))] true) now.

Definition dumpable (db : gostring) : Prop :=
  GoPath.slash ∉ db /\ x_err (dump db) = None /\
  forall t, exec t (Mysql.binPath conn "mysqldump") (Mysql.dumpArgs conn db isMariaDB) [] = dump db.

(** Nothing but files in the way of the archives. *)
Definition ready (dbs : list gostring) (fs : files) : Prop :=
  fs !! GoPath.Clean backupDir = Some NDir /\
  forall db, db ∈ dbs -> fs !! zipPathOf db <> Some NDir /\ fs !! savPathOf (zipPathOf db) <> Some NDir.

Definition write_archive (fs : files) (db : gostring) : files :=
  <[zipPathOf db := archiveOf db]> (delete (savPathOf (zipPathOf db)) fs).

Lemma zipPathOf_Dir db : GoPath.slash ∉ db -> GoPath.Dir (zipPathOf db) = GoPath.Clean backupDir.
Proof. intros H. by apply GoPath.Dir_Join, zipName_plain. Qed.

Lemma write_archive_not_dir fs db p : fs !! p <> Some NDir -> write_archive fs db !! p <> Some NDir.
Proof.
  intros Hp. unfold write_archive. destruct (decide (p = zipPathOf db)) as [->|Hne]; [by rewrite lookup_insert_eq|].
  rewrite lookup_insert_ne by done. destruct (decide (p = savPathOf (zipPathOf db))) as [->|Hne'].
  - by rewrite lookup_delete_eq.
  - by rewrite lookup_delete_ne.
Qed.

Lemma write_archive_ready fs db dbs : ready (db :: dbs) fs -> ready dbs (write_archive fs db).
Proof.
  intros [Hd Hp]. destruct (Hp db) as [Hz Hs]; [left|]. split.
  - unfold write_archive. rewrite lookup_insert_ne, lookup_delete_ne; [done|congruence|congruence].
  - intros db' Hin. destruct (Hp db') as [Hz' Hs']; [by right|]. split; by apply write_archive_not_dir.
Qed.

Lemma does_runLoop dbs created fs :
  Forall dumpable dbs -> ready dbs fs ->
  does (runLoop conn isMariaDB backupDir dateStr hostPart users dbs created) now fs
    (inr (created ++ (zipPathOf <$> dbs))) (fold_left write_archive dbs fs).
Proof.
  intros Hall. revert created fs. induction Hall as [|db dbs (Hslash & Hok & Hdump) _ IH]; intros created fs Hready.
  - simpl. rewrite app_nil_r. apply does_ret.
  - cbn [runLoop]. pose proof Hready as [Hd Hp]. destruct (Hp db) as [Hz Hs]; [left|].
    eapply does_bind; [apply (does_backupOne_ok now _ _ _ _ (dump db)); [done|done|done|done|]|].
    { change (fs !! GoPath.Dir (zipPathOf db) = Some NDir). by rewrite zipPathOf_Dir. }
    eapply does_bind; [apply does_log|]. cbn [fmap list_fmap fold_left].
    replace (created ++ zipPathOf db :: (zipPathOf <$> dbs)) with ((created ++ [zipPathOf db]) ++ (zipPathOf <$> dbs))
      by (by rewrite <- app_assoc).
    apply IH. by apply write_archive_ready.
Qed.

Lemma zipPathOf_inj db db' :
  GoPath.slash ∉ db -> GoPath.slash ∉ db' -> zipPathOf db = zipPathOf db' -> db = db'.
Proof.
  intros H H' E. apply GoPath.Join_plain_inj in E; [|by apply zipName_plain|by apply zipName_plain].
  unfold zipNameOf in E. do 5 apply app_inv_head in E. by apply app_inv_tail in E.
Qed.

Lemma zipPathOf_suffix db : GoPath.slash ∉ db -> exists q, zipPathOf db = q ++ ".zip".
Proof.
  intros H. unfold zipPathOf. rewrite GoPath.Join_plain by (by apply zipName_plain).
  unfold zipNameOf. eexists. by rewrite !app_assoc.
Qed.

Lemma zipPathOf_ne_sav db db' :
  GoPath.slash ∉ db -> GoPath.slash ∉ db' -> zipPathOf db <> savPathOf (zipPathOf db').
Proof.
  intros H H'. destruct (zipPathOf_suffix db H) as [q ->]. unfold savPathOf. intros E.
  apply app_inj_2 in E as [_ E]; done.
Qed.

(** What the loop leaves: the archive of each database, everything else but the
    archives and their .sav files as before. *)
Lemma written_lookup dbs fs db :
  Forall (fun d => GoPath.slash ∉ d) dbs -> db ∈ dbs ->
  fold_left write_archive dbs fs !! zipPathOf db = Some (archiveOf db).
Proof.
  intros Hall. induction dbs as [|d dbs IH] using rev_ind; [by intros ?%elem_of_nil|].
  apply Forall_snoc in Hall as [Hall Hd]. intros Hin. rewrite fold_left_app. simpl. unfold write_archive at 1.
  destruct (decide (db = d)) as [->|Hne]; [by rewrite lookup_insert_eq|].
  apply elem_of_app in Hin as [Hin| ->%list_elem_of_singleton]; [|done].
  assert (GoPath.slash ∉ db) by (rewrite Forall_forall in Hall; auto).
  rewrite lookup_insert_ne, lookup_delete_ne by eauto using zipPathOf_inj, zipPathOf_ne_sav, not_eq_sym. auto.
Qed.

Lemma written_frame dbs fs p :
  (forall db, db ∈ dbs -> p <> zipPathOf db /\ p <> savPathOf (zipPathOf db)) ->
  fold_left write_archive dbs fs !! p = fs !! p.
Proof.
  revert fs. induction dbs as [|d dbs IH]; intros fs Hp; [done|]. simpl. rewrite IH by (intros; apply Hp; by right).
  destruct (Hp d) as [H1 H2]; [left|]. unfold write_archive. by rewrite lookup_insert_ne, lookup_delete_ne.
Qed.

(** An archive and its .sav file are a pair of the recovery. *)
Lemma savPathOf_zipOf base : GoPath.slash ∉ base -> savPathOf (zipOf backupDir base) = savOf backupDir base.
Proof.
  intros Hb. unfold zipOf, savOf. rewrite !GoPath.Join_plain by (by apply plain_ext). unfold savPathOf. by rewrite app_assoc, TrimSuffix_app, <- app_assoc.
Qed.

Lemma zipPathOf_pair db :
  GoPath.slash ∉ db ->
  exists base, GoPath.slash ∉ base /\ zipPathOf db = zipOf backupDir base /\ savPathOf (zipPathOf db) = savOf backupDir base.
Proof.
  intros Hdb. exists ("mysql_backup_" ++ dateStr ++ "_" ++ hostPart ++ "_" ++ db).
  assert (GoPath.slash ∉ "mysql_backup_" ++ dateStr ++ "_" ++ hostPart ++ "_" ++ db) as Hs.
  { rewrite !not_elem_of_app. repeat split; try done; by apply (bool_decide_eq_true_1 _). }
  split; [done|]. split.
  - unfold zipPathOf, zipOf, zipNameOf. by rewrite <- !app_assoc.
  - rewrite <- savPathOf_zipOf by done. f_equal. unfold zipPathOf, zipOf, zipNameOf. by rewrite <- !app_assoc.
Qed.

Lemma ready_no_dirs dbs fs :
  Forall (fun d => GoPath.slash ∉ d) dbs -> fs !! GoPath.Clean backupDir = Some NDir -> no_dirs backupDir fs -> ready dbs fs.
Proof.
  intros Hall Hd Hn. split; [done|]. intros db Hin. rewrite Forall_forall in Hall.
  destruct (zipPathOf_pair db) as (base & Hb & Ez & Es); [auto|]. rewrite Es, Ez. by destruct (Hn base Hb).
Qed.

End Loop.

End Backup.

(** A test for the absence of directories among the files of a directory. *)
Lemma no_dirs_check dir (fs : files) :
  bool_decide (map_Forall (fun p n => n = NDir -> strip_prefix (GoPath.dir_prefix dir) p = None) fs) = true ->
  no_dirs dir fs.
Proof.
  intros H%bool_decide_eq_true_1 base Hb.
  assert (forall ext : gostring, bool_decide (GoPath.slash ∉ ext /\ 3 <= length ext) = true ->
    fs !! GoPath.Join dir (base ++ ext) <> Some NDir) as Hext.
  { intros ext He E. specialize (H _ _ E eq_refl). rewrite GoPath.Join_plain, strip_prefix_app in H; [done|].
    by apply plain_ext. }
  split; by apply Hext.
Qed.

(** A whole run without I/O errors. *)
Lemma does_Run_archives {FT : Faults} {AS : ArchiveSize} {EX : Exec} {MO : MapOrder} cfg conn userSQL dbs isMariaDB dump w :
  let dir := Config.BackupDir cfg in
  let date := FormatDate (w_now w) in
  let host := hostnameForFile (Config.HostnameForBackup cfg) in
  let users := fst (fst (UserSQL.ParseUserSQL userSQL)) in
  (0 <= Year (w_now w) <= 9999)%Z ->
  GoPath.Clean dir = dir -> w_fs w !! dir = Some NDir -> no_dirs dir (w_fs w) ->
  Forall (dumpable conn isMariaDB dump) dbs ->
  does (Run cfg conn userSQL dbs isMariaDB) (w_now w) (w_fs w) (inr (zipPathOf dir date host <$> dbs))
    (fold_left (write_archive dir date host users dump (w_now w)) dbs (recovered dir (w_fs w))).
Proof.
  intros dir date host users Hy Hc Hd Hn Hall.
  assert (GoPath.slash ∉ date) as Hdate by (apply digits_no_slash, FormatDate_digits; done).
  assert (GoPath.slash ∉ host) as Hhost by apply hostnameForFile_no_slash.
  assert (Forall (fun d => GoPath.slash ∉ d) dbs) as Hslash by (eapply Forall_impl; [exact Hall|]; by intros x []).
  unfold Run. cbv zeta. change (GoPath.FromSlash (Config.BackupDir cfg)) with dir.
  eapply does_bind; [by apply does_MkdirAll|]. eapply does_bind; [by apply does_recoverSavFiles|].
  eapply does_bind; [apply does_now|]. subst users. destruct (UserSQL.ParseUserSQL userSQL) as [[users names] ws].
  eapply does_bind; [apply does_log_all|]. eapply does_bind.
  { case_if; [apply does_log|apply does_ret]. }
  apply (does_runLoop conn isMariaDB dir date host users dump (w_now w) Hdate Hhost dbs []); [done|].
  apply ready_no_dirs; [done|done|done| |by apply recovered_no_dirs].
  rewrite Hc. rewrite recovered_frame; [done|]. intros base Hb. destruct (Hn base Hb). split; congruence.
Qed.

(** The archives it leaves, in a world that is still without I/O errors. *)
Lemma does_Run {FT : Faults} {AS : ArchiveSize} {EX : Exec} {MO : MapOrder} cfg conn userSQL dbs isMariaDB dump w :
  let dir := Config.BackupDir cfg in
  let date := FormatDate (w_now w) in
  let host := hostnameForFile (Config.HostnameForBackup cfg) in
  let users := fst (fst (UserSQL.ParseUserSQL userSQL)) in
  fine w -> (0 <= Year (w_now w) <= 9999)%Z ->
  GoPath.Clean dir = dir -> w_fs w !! dir = Some NDir -> no_dirs dir (w_fs w) ->
  Forall (dumpable conn isMariaDB dump) dbs ->
  let w' := snd (Run cfg conn userSQL dbs isMariaDB w) in
  fine w' /\ forall db, db ∈ dbs -> w_fs w' !! zipPathOf dir date host db = Some (archiveOf users dump (w_now w) db).
Proof.
  intros dir date host users Hw Hy Hc Hd Hn Hall w'.
  destruct (does_Run_archives cfg conn userSQL dbs isMariaDB dump w Hy Hc Hd Hn Hall w Hw eq_refl eq_refl) as (w1 & E & Hw1 & Hfs & _).
  subst w'. rewrite E. split; [done|]. intros db Hin. cbn [snd]. rewrite Hfs.
  apply written_lookup; [apply digits_no_slash, FormatDate_digits; done|apply hostnameForFile_no_slash| |done].
  eapply Forall_impl; [exact Hall|]. by intros x [].
Qed.

(** The same for any world with these files, with what is left alone: every path that is
    neither an archive nor a .sav file of the directory. *)
Lemma does_Run_frame {FT : Faults} {AS : ArchiveSize} {EX : Exec} {MO : MapOrder} cfg conn userSQL dbs isMariaDB dump w :
  let dir := Config.BackupDir cfg in
  let date := FormatDate (w_now w) in
  let host := hostnameForFile (Config.HostnameForBackup cfg) in
  let users := fst (fst (UserSQL.ParseUserSQL userSQL)) in
  fine w -> (0 <= Year (w_now w) <= 9999)%Z ->
  GoPath.Clean dir = dir -> w_fs w !! dir = Some NDir -> no_dirs dir (w_fs w) ->
  Forall (dumpable conn isMariaDB dump) dbs ->
  exists l w', Run cfg conn userSQL dbs isMariaDB w = (inr l, w') /\ fine w' /\ w_now w' = w_now w /\
    (forall db, db ∈ dbs -> w_fs w' !! zipPathOf dir date host db = Some (archiveOf users dump (w_now w) db)) /\
    w_fs w' !! dir = Some NDir.
Proof.
  intros dir date host users Hw Hy Hc Hd Hn Hall.
  destruct (does_Run_archives cfg conn userSQL dbs isMariaDB dump w Hy Hc Hd Hn Hall w Hw eq_refl eq_refl) as (w1 & E & Hw1 & Hfs & Hnow).
  assert (GoPath.slash ∉ date) as Hdate by (apply digits_no_slash, FormatDate_digits; done).
  assert (Forall (fun d => GoPath.slash ∉ d) dbs) as Hslash by (eapply Forall_impl; [exact Hall|]; by intros x []).
  eexists _, w1. split; [exact E|]. split_and!; [done|done| |].
  - intros db Hin. rewrite Hfs. apply written_lookup; [done|apply hostnameForFile_no_slash|done|done].
  - assert (forall base, GoPath.slash ∉ base -> dir <> savOf dir base /\ dir <> zipOf dir base) as Hne.
    { intros base Hb. destruct (Hn base Hb). split; congruence. }
    rewrite Hfs, written_frame; [by rewrite recovered_frame|]. intros db Hin. rewrite Forall_forall in Hslash.
    destruct (zipPathOf_pair dir date host Hdate (hostnameForFile_no_slash _) db) as (base & Hb & Ez & Es); [auto|].
    unfold date, host, dir in *. rewrite Es, Ez. destruct (Hne base Hb). done.
Qed.

(** ** A sample world *)

Definition sampleConn : Mysql.Conn := Mysql.mkConn "localhost" 3306 "root" [] [].
Definition sampleCfg : Config.Config := Config.with_paths Config.DefaultConfig "/opt/mysql/bin" "/data" "/data2" "/b" "/b/run.log" "/r" "/k".
Definition sampleDay : Time := Date 2024 1 15 0.
Definition sampleSizes : ArchiveSize := mkSizes (fun es _ => Z.of_nat (length (concat (snd <$> es)))) 4096.
Definition sampleExec (out : gostring) (e : option err) : Exec := fun _ _ _ _ => mkExec out [] out e.
Definition sampleZip : gostring := "/b/mysql_backup_20240115_db1_shop.zip".
Definition sampleSav : gostring := "/b/mysql_backup_20240115_db1_shop.sav".
Definition sampleOld : Node := NFile (Zip [(str "shop.sql", str "old")] true) sampleDay.
Definition sampleFs : files := <[str "/b" := NDir]> (<[sampleZip := sampleOld]> ∅).
Definition sampleWorld (fs : files) : World := mkWorld fs sampleDay 0 [] [].
Definition sampleUserSQL : gostring :=
  unlines [str "CREATE USER 'app'@'%' IDENTIFIED BY 'pw';"; str "GRANT ALL PRIVILEGES ON `shop`.* TO 'app'@'%';"].

Lemma fine_NoFaults w : @fine NoFaults w.
Proof. intros t _. reflexivity. Qed.

(** ** Theorems *)

(** C8: A backup run into an existing directory, without I/O errors and with dumps that
    succeed, returns the paths of one archive per database in order; each archive is
    complete and holds one entry, the dump followed by the users' block of that database
    as [ParseUserSQL] assigns it; only archives and .sav files have changed. *)
Theorem Run_creates_all (FT : Faults) (AS : ArchiveSize) (EX : Exec) (MO : MapOrder) cfg conn userSQL dbs isMariaDB dump w :
  let dir := Config.BackupDir cfg in
  let date := FormatDate (w_now w) in
  let host := hostnameForFile (Config.HostnameForBackup cfg) in
  let users := fst (fst (UserSQL.ParseUserSQL userSQL)) in
  fine w -> (0 <= Year (w_now w) <= 9999)%Z ->
  GoPath.Clean dir = dir -> w_fs w !! dir = Some NDir -> no_dirs dir (w_fs w) ->
  Forall (dumpable conn isMariaDB dump) dbs ->
  let r := fst (Run cfg conn userSQL dbs isMariaDB w) in
  let fs' := w_fs (snd (Run cfg conn userSQL dbs isMariaDB w)) in
  r = inr (zipPathOf dir date host <$> dbs) /\
  (forall db, db ∈ dbs -> fs' !! zipPathOf dir date host db = Some (archiveOf users dump (w_now w) db)) /\
  (forall p, (forall base, GoPath.slash ∉ base -> p <> savOf dir base /\ p <> zipOf dir base) -> fs' !! p = w_fs w !! p).
Proof.
  intros dir date host users Hw Hy Hc Hd Hn Hall r fs'.
  destruct (does_run _ _ _ _ _ _ (does_Run_archives cfg conn userSQL dbs isMariaDB dump w Hy Hc Hd Hn Hall) Hw eq_refl eq_refl) as [Er Efs].
  assert (GoPath.slash ∉ date) as Hdate by (apply digits_no_slash, FormatDate_digits; done).
  assert (Forall (fun d => GoPath.slash ∉ d) dbs) as Hslash by (eapply Forall_impl; [exact Hall|]; by intros x []).
  split; [done|]. split; [by apply does_Run|]. intros p Hp. subst fs'. rewrite Efs, written_frame; [by apply recovered_frame|].
  intros db Hin. rewrite Forall_forall in Hslash.
  destruct (zipPathOf_pair dir date host Hdate (hostnameForFile_no_slash _) db) as (base & Hb & Ez & Es); [auto|].
  unfold date, host, dir in *. rewrite Es, Ez. destruct (Hp base Hb). done.
Qed.

(** C27: The name of an archive round-trips: the retention scan recognises every archive
    a backup run names, and reads the day of the run back from it. *)
Theorem archive_name_roundtrip t host db :
  (0 <= Year t <= 9999)%Z ->
  Retention.name_date (zipNameOf (FormatDate t) (hostnameForFile host) db) = Some (mkTime (t_day t) 0).
Proof.
  intros Hy. pose proof (Retention.name_date_written t (hostnameForFile host ++ "_" ++ db) Hy) as H.
  rewrite <- !app_assoc in H. exact H.
Qed.

(** C3: However the calls that follow the first [os.Stat] fail, and wherever the run is
    interrupted, the backup of a database never loses the previous archive before the
    new one is complete: after every system call the previous archive is at its path or
    in the .sav file, or the new archive is complete, with a successful dump and the
    user block in it.  If an error is returned, the previous archive is still there. *)
Theorem backupOne_never_loses (FT : Faults) (EX : Exec) conn isMariaDB z db userBlock w d t :
  fault (w_tick w) = None -> w_fs w !! z = Some (NFile d t) ->
  let n0 := NFile d t in
  let r := fst (backupOne conn isMariaDB z db userBlock w) in
  let w' := snd (backupOne conn isMariaDB z db userBlock w) in
  (exists h, w_hist w' = h ++ w_hist w /\
     Forall (fun fs => Kept z n0 fs \/ Written z conn isMariaDB db userBlock fs) h) /\
  match r with
  | Some _ => Kept z n0 (w_fs w')
  | None => Written z conn isMariaDB db userBlock (w_fs w')
  end.
Proof.
  intros Hf Hz n0 r w'. set (w1 := snapshot (tick w)).
  assert (backupOne conn isMariaDB z db userBlock w =
    (o ← safeWriteFrom z (db ++ ".sql") (inr n0); streamOne conn isMariaDB z db userBlock o) w1) as E.
  { unfold backupOne, safeWriteZIPStreaming, mbind, M_bind, Stat, syscall. rewrite Hf. cbn. by rewrite Hz. }
  assert (spec (fun fs => Kept z n0 fs \/ Written z conn isMariaDB db userBlock fs) (fun fs => fs !! z = Some n0)
    (o ← safeWriteFrom z (db ++ ".sql") (inr n0); streamOne conn isMariaDB z db userBlock o)
    (fun r fs => match r with Some _ => Kept z n0 fs | None => Written z conn isMariaDB db userBlock fs end)) as Hs.
  { eapply spec_bind; [apply (spec_inv _ (Kept z n0)); [by left|apply safeWriteFrom_spec]|apply streamOne_spec]. }
  destruct (Hs w1 Hz) as [(h & Hh & Fh) Hq]. subst r w'. rewrite E. split; [|done].
  exists (h ++ [w_fs w]). rewrite Hh, <- app_assoc. split; [done|]. apply Forall_app. split; [done|].
  constructor; [|done]. left. by left.
Qed.

(** C26: When mysqldump fails (and no file operation does), the backup of the database
    returns the dump error and every file is exactly as before. *)
Theorem backupOne_dump_error_restores (FT : Faults) (EX : Exec) conn isMariaDB z db userBlock w r e :
  fine w -> w_fs w !! z <> Some NDir -> w_fs w !! savPathOf z = None -> w_fs w !! GoPath.Dir z = Some NDir ->
  (forall t, exec t (Mysql.binPath conn "mysqldump") (Mysql.dumpArgs conn db isMariaDB) [] = r) -> x_err r = Some e ->
  fst (backupOne conn isMariaDB z db userBlock w) =
    Some (Errorf "err.dump_db" [db] (Some (Errorf "err.mysqldump_db" [db; x_stderr r] (Some e)))) /\
  w_fs (snd (backupOne conn isMariaDB z db userBlock w)) = w_fs w.
Proof. intros Hw Hz Hs Hd Hr He. eapply does_run; [by apply does_backupOne_dump_error|done|done|done]. Qed.

(** C24: Recovery of leftovers of an interrupted run, without I/O errors, in an existing
    directory where no directory has the name of an archive or a .sav file: afterwards no .sav
    file is left, each archive is the larger file of its pair (the .sav file on a tie or when it
    is alone), and nothing else has changed. *)
Theorem recoverSavFiles_keeps_larger (FT : Faults) (AS : ArchiveSize) dir w :
  fine w -> w_fs w !! dir = Some NDir -> no_dirs dir (w_fs w) ->
  let fs' := w_fs (snd (recoverSavFiles dir w)) in
  (forall base, GoPath.slash ∉ base ->
     fs' !! savOf dir base = None /\
     fs' !! zipOf dir base =
       match w_fs w !! savOf dir base with
       | Some s => Some (kept_of s (w_fs w !! zipOf dir base))
       | None => w_fs w !! zipOf dir base
       end) /\
  (forall p, (forall base, GoPath.slash ∉ base -> p <> savOf dir base /\ p <> zipOf dir base) -> fs' !! p = w_fs w !! p).
Proof.
  intros Hw Hd Hn fs'. destruct (does_run _ _ _ _ _ _ (does_recoverSavFiles dir (w_now w) _ Hd Hn) Hw eq_refl eq_refl) as [_ E].
  subst fs'. rewrite E. split; [|apply recovered_frame]. intros base Hb. by apply recovered_pair.
Qed.

(** An error of the first [os.Stat] other than "not found" is taken for an absent
    archive: the previous archive is truncated, and when the dump then fails it is gone,
    from its path and from the .sav path. *)
Theorem stat_error_loses_archive (FT : Faults) (EX : Exec) conn isMariaDB z db userBlock w r e k d t :
  fault (w_tick w) = Some k -> (forall t, w_tick w < t -> fault t = None) ->
  w_fs w !! z = Some (NFile d t) -> w_fs w !! savPathOf z = None -> w_fs w !! GoPath.Dir z = Some NDir ->
  (forall t, exec t (Mysql.binPath conn "mysqldump") (Mysql.dumpArgs conn db isMariaDB) [] = r) -> x_err r = Some e ->
  w_fs (snd (backupOne conn isMariaDB z db userBlock w)) !! z = None /\
  w_fs (snd (backupOne conn isMariaDB z db userBlock w)) !! savPathOf z = None.
Proof.
  intros Hf Hlater Hz Hs Hd Hr He. set (w1 := snapshot (tick w)).
  assert (backupOne conn isMariaDB z db userBlock w =
    (o ← safeWriteFrom z (db ++ ".sql") (inl (EIO k)); streamOne conn isMariaDB z db userBlock o) w1) as ->.
  { unfold backupOne, safeWriteZIPStreaming, mbind, M_bind, Stat, syscall. by rewrite Hf. }
  assert (fine w1) as Hw1 by (intros t' Ht; apply Hlater; simpl in Ht; lia).
  edestruct (does_run _ w1 _ _ _ _ (does_absent_dump_error (w_now w) z _ _ _ _ Hr userBlock (w_fs w) e (EIO k) He
    ltac:(by rewrite Hz) Hs Hd) Hw1 eq_refl eq_refl) as [_ ->].
  split; [apply lookup_delete_eq|]. rewrite lookup_delete_ne by apply not_eq_sym, savPathOf_ne. done.
Qed.

(** C34: An interrupted run can still lose the previous archive.  Without I/O errors, in a
    directory with a complete archive of the day, its backup passes through a moment (the dump
    has been written, [finish] has not begun) at which the .sav file is the only copy of that
    archive; if the unfinished archive is then larger, a recovery that finds the files as they
    were at this moment deletes the .sav file and keeps the unfinished archive. *)
Theorem interrupted_run_loses_archive (FT : Faults) (AS : ArchiveSize) (EX : Exec) conn isMariaDB dir base db userBlock w r es t :
  let z := zipOf dir base in let sav := savOf dir base in
  let half := NFile (Zip [(db ++ ".sql", x_out r)] false) (w_now w) in
  fine w -> GoPath.slash ∉ base -> GoPath.Clean dir = dir -> w_fs w !! dir = Some NDir -> no_dirs dir (w_fs w) ->
  w_fs w !! z = Some (NFile (Zip es true) t) -> w_fs w !! sav = None ->
  (forall t, exec t (Mysql.binPath conn "mysqldump") (Mysql.dumpArgs conn db isMariaDB) [] = r) ->
  (node_size (NFile (Zip es true) t) < node_size half)%Z ->
  exists h fs, w_hist (snd (backupOne conn isMariaDB z db userBlock w)) = h ++ w_hist w /\ fs ∈ h /\
    fs !! z = Some half /\ fs !! sav = Some (NFile (Zip es true) t) /\
    forall w', fine w' -> w_fs w' = fs ->
      let fs' := w_fs (snd (recoverSavFiles dir w')) in fs' !! sav = None /\ fs' !! z = Some half.
Proof.
  intros z sav half Hw Hb Hc Hd Hn Hz Hs Hr Hsize. assert (savPathOf z = sav) as Esav by (by apply savPathOf_zipOf).
  assert (GoPath.Dir z = dir) as Edir by (unfold z, zipOf; by rewrite GoPath.Dir_Join by (by apply plain_ext)).
  destruct (backupOne_midway conn isMariaDB z db userBlock w r _ Hw Hz) as (h & Eh & Hin); [done|congruence|congruence|done|].
  rewrite Esav in Hin. destruct (pair_ne dir base base Hb Hb) as (Hne & _ & _).
  eexists h, _. split; [done|]. split; [exact Hin|]. split; [apply lookup_insert_eq|].
  split; [rewrite lookup_insert_ne by (by apply not_eq_sym); apply lookup_insert_eq|]. intros w' Hw' Ef.
  assert (forall p, w_fs w !! p <> Some NDir -> w_fs w' !! p <> Some NDir) as Hfiles.
  { intros p Hp. rewrite Ef, !lookup_insert_Some, lookup_delete_Some. naive_solver. }
  assert (no_dirs dir (w_fs w')) as Hn' by (intros b' Hb'; destruct (Hn b' Hb'); split; by apply Hfiles).
  assert (w_fs w' !! dir = Some NDir) as Hd' by (rewrite Ef, !lookup_insert_ne, lookup_delete_ne by congruence; exact Hd).
  destruct (does_run _ _ _ _ _ _ (does_recoverSavFiles dir (w_now w') _ Hd' Hn') Hw' eq_refl eq_refl) as [_ ->].
  destruct (recovered_pair dir (w_fs w') base Hb Hn') as [H1 H2]. split; [exact H1|]. fold z sav in H2. rewrite H2, Ef, lookup_insert_eq.
  rewrite lookup_insert_ne, lookup_insert_eq by (by apply not_eq_sym). unfold kept_of.
  replace (_ <=? _)%Z with false; [done|]. symmetry. by apply Z.leb_gt.
Qed.

(** A name with a single quote does not survive the fallback export: the statement
    written for o'brien doubles the quote, and the parser, which takes a name up to the
    next quote, files the record under another name. *)
Theorem quoted_name_misread :
  let users := fst (UserSQL.parseUserRecords (Mysql.createUserLine "o'brien" "localhost" [] "*AB")) in
  users !! str "o'brien" = None /\ UserSQL.hosts <$> users !! str "brien" = Some [str "localhost"].
Proof. split; vm_compute; reflexivity. Qed.

(** ** Witnesses *)

Lemma interrupted_run_loses_archive_witness :
  exists fs, fs ∈ w_hist (snd (@backupOne NoFaults (sampleExec "a longer dump" None) sampleConn false sampleZip "shop" [] (sampleWorld sampleFs))) /\
    forall w', @fine NoFaults w' -> w_fs w' = fs -> w_fs (snd (@recoverSavFiles NoFaults sampleSizes "/b" w')) !! sampleSav = None.
Proof.
  destruct (interrupted_run_loses_archive NoFaults sampleSizes (sampleExec "a longer dump" None) sampleConn false "/b" "mysql_backup_20240115_db1_shop" "shop" []
    (sampleWorld sampleFs) (mkExec (str "a longer dump") [] (str "a longer dump") None) [(str "shop.sql", str "old")] sampleDay) as (h & fs & E & Hin & _ & _ & H).
  - apply fine_NoFaults.
  - by apply (bool_decide_eq_true_1 _).
  - reflexivity.
  - reflexivity.
  - apply no_dirs_check. reflexivity.
  - reflexivity.
  - reflexivity.
  - reflexivity.
  - reflexivity.
  - exists fs. split; [change sampleZip with (zipOf "/b" "mysql_backup_20240115_db1_shop"); rewrite E; apply elem_of_app; by left|]. intros w' Hw' Ef. by apply H.
Defined.

Lemma Run_creates_all_witness :
  fst (@Run NoFaults sampleSizes (sampleExec "dump" None) _ sampleCfg sampleConn sampleUserSQL [str "shop"; str "crm"] false
         (sampleWorld sampleFs)) = inr (zipPathOf "/b" "20240115" "localhost" <$> [str "shop"; str "crm"]).
Proof.
  apply (Run_creates_all NoFaults sampleSizes (sampleExec "dump" None) _ sampleCfg sampleConn sampleUserSQL
    [str "shop"; str "crm"] false (fun _ => mkExec (str "dump") [] (str "dump") None) (sampleWorld sampleFs)).
  - apply fine_NoFaults.
  - vm_compute. split; discriminate.
  - reflexivity.
  - reflexivity.
  - apply no_dirs_check. reflexivity.
  - repeat constructor; apply (bool_decide_eq_true_1 _); reflexivity.
Defined.

Lemma archive_name_roundtrip_witness :
  Retention.name_date (zipNameOf (FormatDate sampleDay) (hostnameForFile "db.example.org:3306") "shop") =
  Some (mkTime (t_day sampleDay) 0).
Proof. apply (archive_name_roundtrip sampleDay). vm_compute. split; discriminate. Defined.

Lemma backupOne_never_loses_witness :
  Kept sampleZip sampleOld (w_fs (snd
    (@backupOne NoFaults (sampleExec [] (Some (ExitError 2))) sampleConn false sampleZip "shop" [] (sampleWorld sampleFs)))).
Proof.
  apply (proj2 (backupOne_never_loses NoFaults (sampleExec [] (Some (ExitError 2))) sampleConn false sampleZip "shop" []
    (sampleWorld sampleFs) (Zip [(str "shop.sql", str "old")] true) sampleDay eq_refl eq_refl)).
Defined.

Lemma backupOne_dump_error_restores_witness :
  w_fs (snd (@backupOne NoFaults (sampleExec [] (Some (ExitError 2))) sampleConn false sampleZip "shop" []
    (sampleWorld sampleFs))) = sampleFs.
Proof.
  apply (backupOne_dump_error_restores NoFaults (sampleExec [] (Some (ExitError 2))) sampleConn false sampleZip "shop" []
    (sampleWorld sampleFs) (mkExec [] [] [] (Some (ExitError 2))) (ExitError 2)).
  - apply fine_NoFaults.
  - vm_compute. discriminate.
  - reflexivity.
  - reflexivity.
  - reflexivity.
  - reflexivity.
Defined.

Definition leftoverFs : files := <[sampleSav := NFile (Zip [(str "shop.sql", str "older")] true) sampleDay]> sampleFs.

Lemma recoverSavFiles_keeps_larger_witness :
  w_fs (snd (@recoverSavFiles NoFaults sampleSizes "/b" (sampleWorld leftoverFs))) !! savOf "/b" "mysql_backup_20240115_db1_shop" = None.
Proof.
  refine (proj1 (proj1 (recoverSavFiles_keeps_larger NoFaults sampleSizes "/b" (sampleWorld leftoverFs) _ _ _)
    "mysql_backup_20240115_db1_shop" _)).
  - apply fine_NoFaults.
  - reflexivity.
  - apply no_dirs_check. reflexivity.
  - apply (bool_decide_eq_true_1 _). reflexivity.
Defined.

(** The first call fails, the others do not. *)
Definition firstFails : Faults := fun t => match t with O => Some 5%Z | S _ => None end.

Lemma stat_error_loses_archive_witness :
  w_fs (snd (@backupOne firstFails (sampleExec [] (Some (ExitError 2))) sampleConn false sampleZip "shop" []
    (sampleWorld sampleFs))) !! sampleZip = None.
Proof.
  refine (proj1 (stat_error_loses_archive firstFails (sampleExec [] (Some (ExitError 2))) sampleConn false sampleZip "shop" []
    (sampleWorld sampleFs) (mkExec [] [] [] (Some (ExitError 2))) (ExitError 2) 5
    (Zip [(str "shop.sql", str "old")] true) sampleDay _ _ _ _ _ _ _)); try reflexivity.
  intros [|t] Ht; [inversion Ht|reflexivity].
Defined.

End Backup.
