(* ===== verification/WindowsPath.v ===== *)
(** * Go's path/filepath package on Windows: [Clean] and [Dir].

    The functions of Go 1.23 with the buffer they write into: [lazybuf] holds no buffer of
    its own as long as the output is what the input has at the same place, which
    [postClean] looks at. *)

From S2P Require Import Prelude GoStrings.
Import GoStrings.

Module WindowsPath.

Definition Separator : ascii := backslash.

Definition IsPathSeparator (c : ascii) : bool := (c ==? Separator) || (c ==? "/"%char).

Definition FromSlash (p : gostring) : gostring := (fun c => if c ==? "/"%char then Separator else c) <$> p.

(** ** Volume names *)

Fixpoint has_prefix_fold (s prefix : gostring) : option gostring :=
  match prefix, s with
  | [], _ => Some s
  | _ :: _, [] => None
  | p :: prefix', c :: s' =>
      if IsPathSeparator p then if IsPathSeparator c then has_prefix_fold s' prefix' else None
      else if upper_byte p ==? upper_byte c then has_prefix_fold s' prefix'
      else None
  end.

Definition pathHasPrefixFold (s prefix : gostring) : bool :=
  match has_prefix_fold s prefix with
  | Some [] => true
  | Some (c :: _) => IsPathSeparator c
  | None => false
  end.

(** The place of the [count]-th separator, or the end. *)
Fixpoint separator_at (count : nat) (s : gostring) : nat :=
  match s with
  | [] => 0
  | c :: s' =>
      if IsPathSeparator c then
        match count with
        | 0 | 1 => 0
        | S count' => S (separator_at count' s')
        end
      else S (separator_at count s')
  end.

Definition uncLen (path : gostring) (prefixLen : nat) : nat :=
  if bool_decide (length path <= prefixLen) then length path
  else prefixLen + separator_at 2 (drop prefixLen path).

Definition at_is (f : ascii -> bool) (i : nat) (s : gostring) : bool :=
  match s !! i with Some c => f c | None => false end.

Definition volumeNameLen (path : gostring) : nat :=
  if at_is (fun c => c ==? ":"%char) 1 path then 2
  else if negb (at_is IsPathSeparator 0 path) then 0
  else if pathHasPrefixFold path "\\.\UNC" then uncLen path 8
  else if pathHasPrefixFold path "\\." || pathHasPrefixFold path "\\?" || pathHasPrefixFold path "\??" then
    if bool_decide (length path = 3) then 3
    else 4 + separator_at 1 (drop 4 path)
  else if at_is IsPathSeparator 1 path then uncLen path 2
  else 0.

(** ** The buffer *)

Record lazybuf := mkBuf { b_path : gostring; b_buf : option gostring; b_w : nat }.

(** A buffer is as long as the path; it starts as a copy of what was written. *)
Definition lb_append (b : lazybuf) (c : ascii) : lazybuf :=
  match b_buf b with
  | Some buf => mkBuf (b_path b) (Some (<[b_w b := c]> buf)) (S (b_w b))
  | None =>
      if at_is (fun d => d ==? c) (b_w b) (b_path b) then mkBuf (b_path b) None (S (b_w b))
      else
        let buf := take (b_w b) (b_path b) ++ replicate (length (b_path b) - b_w b) Ascii.zero in
        mkBuf (b_path b) (Some (<[b_w b := c]> buf)) (S (b_w b))
  end.

Definition lb_contents (b : lazybuf) : gostring := default (b_path b) (b_buf b).

Definition lb_string (b : lazybuf) : gostring := take (b_w b) (lb_contents b).

Definition lb_prepend (b : lazybuf) (p : gostring) : lazybuf :=
  mkBuf (b_path b) ((fun buf => p ++ buf) <$> b_buf b) (length p + b_w b).

(** Going back to the last separator above [dotdot]. *)
Fixpoint backtrack (s : gostring) (dotdot w : nat) : nat :=
  if bool_decide (w <= dotdot) || at_is IsPathSeparator w s then w
  else match w with
       | 0 => 0
       | S w' => backtrack s dotdot w'
       end.

(** ** Clean and Dir *)

(** The elements between separators. *)
Fixpoint elements (p : gostring) : list gostring :=
  match p with
  | [] => [[]]
  | c :: p' =>
      if IsPathSeparator c then [] :: elements p'
      else match elements p' with
           | e :: es => (c :: e) :: es
           | [] => [[c]]
           end
  end.

Definition appends (b : lazybuf) (s : gostring) : lazybuf := fold_left lb_append s b.

(** One element of the path; the second part of the state is the limit of going back. *)
Definition clean_step (rooted : bool) (st : lazybuf * nat) (e : gostring) : lazybuf * nat :=
  let '(out, dotdot) := st in
  if (e ==? []) || (e ==? str ".") then st
  else if e ==? str ".." then
    if bool_decide (dotdot < b_w out) then
      (mkBuf (b_path out) (b_buf out) (backtrack (lb_contents out) dotdot (pred (b_w out))), dotdot)
    else if negb rooted then
      let out := appends (if bool_decide (0 < b_w out) then lb_append out Separator else out) ".." in
      (out, b_w out)
    else st
  else
    let out := if (rooted && negb (b_w out ==? 1)) || (negb rooted && negb (b_w out ==? 0))
               then lb_append out Separator else out in
    (appends out e, dotdot).

Fixpoint colon_first (s : gostring) : bool :=
  match s with
  | [] => false
  | c :: s' => if IsPathSeparator c then false else (c ==? ":"%char) || colon_first s'
  end.

Definition postClean (volLen : nat) (out : lazybuf) : lazybuf :=
  match b_buf out with
  | Some buf =>
      if negb (volLen ==? 0) then out
      else if colon_first buf then lb_prepend out ["."%char; Separator]
      else if at_is IsPathSeparator 0 buf && at_is (fun c => c ==? "?"%char) 1 buf && at_is (fun c => c ==? "?"%char) 2 buf
      then lb_prepend out [Separator; "."%char]
      else out
  | None => out
  end.

Definition Clean (originalPath : gostring) : gostring :=
  let volLen := volumeNameLen originalPath in
  let path := drop volLen originalPath in
  if path ==? [] then
    if bool_decide (1 < volLen) && at_is IsPathSeparator 0 originalPath && at_is IsPathSeparator 1 originalPath
    then FromSlash originalPath
    else originalPath ++ "."
  else
    let rooted := at_is IsPathSeparator 0 path in
    let out := mkBuf path None 0 in
    let start := if rooted then (lb_append out Separator, 1) else (out, 0) in
    let out := fst (fold_left (clean_step rooted) (elements path) start) in
    let out := if b_w out ==? 0 then lb_append out "." else out in
    FromSlash (take volLen originalPath ++ lb_string (postClean volLen out)).

(** The part up to and including the last separator. *)
Fixpoint upto_separator (p : gostring) : gostring :=
  match p with
  | [] => []
  | c :: p' =>
      let d := upto_separator p' in
      if (d ==? []) && negb (IsPathSeparator c) then [] else c :: d
  end.

Definition Dir (path : gostring) : gostring :=
  let n := volumeNameLen path in
  let vol := take n path in
  let dir := Clean (upto_separator (drop n path)) in
  if (dir ==? str ".") && bool_decide (2 < n) then vol else vol ++ dir.

(** ** Examples *)

Example Clean_examples :
  (fun p => Clean (str p)) <$> ["C:\a\..\b"; "C:/x//y/."; "\\srv\share\.."; "\\srv/share"; "a\..\c:"; "ab:"; "C:"; ""; "..\.."; "\.."]%string
  = str <$> ["C:\b"; "C:\x\y"; "\\srv\share\"; "\\srv\share"; ".\c:"; "ab:"; "C:."; "."; "..\.."; "\"]%string.
Proof. vm_compute. reflexivity. Qed.

Example Dir_examples :
  (fun p => Dir (str p)) <$> ["C:\prog\config.json"; "C:\config.json"; "\\srv\share\config.json"; "config.json"; "\\srv\share"]%string
  = str <$> ["C:\prog"; "C:\"; "\\srv\share\"; "."; "\\srv\share"]%string.
Proof. vm_compute. reflexivity. Qed.

End WindowsPath.
