(* ===== verification/Schedule.v ===== *)
(** * internal/schedule: installing and removing the daily job on Unix.

    A systemd user timer is written when a user session is available, otherwise a line
    of the user's crontab (or of the system's crontab file) is installed, replaced or
    removed.  The crontab program is behind the interface [Crontab]; the functions
    that take apart the command line of a Windows task are pure and modelled here too. *)

From S2P Require Import Prelude GoStrings GoTime GoPath World Config.
Import GoStrings GoTime World.

Module Schedule.

Definition serviceName : gostring := "mysqlbackup".
Definition cronMarker : gostring := "mysqlbackup-schedule".
Definition systemCrontabUser : gostring := "root".
Definition systemCrontabPaths : list gostring := [str "/etc/crontab"; str "/usr/etc/crontab"].

(** ** Quoted paths of a Windows task *)

(** The text after the opening quote: a doubled quote is one quote. *)
Fixpoint unquote_go (s : gostring) : option (gostring * gostring) :=
  match s with
  | [] => None
  | c :: s' =>
      if c ==? dquote then
        match s' with
        | d :: s'' => if d ==? dquote then (fun '(v, r) => (dquote :: v, r)) <$> unquote_go s'' else Some ([], s')
        | [] => Some ([], [])
        end
      else (fun '(v, r) => (c :: v, r)) <$> unquote_go s'
  end.

(** Content, rest and whether there was a quoted text. *)
Definition extractDoubleQuoted (s : gostring) : gostring * gostring * bool :=
  match s with
  | c :: s' =>
      if negb (c ==? dquote) then ([], s, false)
      else match unquote_go s' with
           | Some (v, r) => (v, r, true)
           | None => ([], [], false)
           end
  | [] => ([], s, false)
  end.

(** The text of one path after its opening backslash-quote, and the rest. *)
Fixpoint backslash_text (s : gostring) : option (gostring * gostring) :=
  match s with
  | [] => None
  | c :: s' =>
      if c ==? dquote then Some ([], s')
      else match s' with
           | d :: s'' =>
               if (c ==? backslash) && (d ==? dquote)
               then (fun '(v, r) => (dquote :: v, r)) <$> backslash_text s''
               else (fun '(v, r) => (c :: v, r)) <$> backslash_text s'
           | [] => None
           end
  end.

(** After a path the loop's own increment skips one more byte; without a closing quote
    the inner loop has consumed everything. *)
Fixpoint backslash_paths (fuel : nat) (s : gostring) : list gostring :=
  match fuel, s with
  | S fuel, c :: ((d :: s'') as s') =>
      if (c ==? backslash) && (d ==? dquote) then
        match backslash_text s'' with
        | Some (v, r) => v :: backslash_paths fuel (drop 1 r)
        | None => []
        end
      else backslash_paths fuel s'
  | _, _ => []
  end.

Definition extractBackslashQuotedPaths (s : gostring) : list gostring := backslash_paths (length s) s.

(** The command of the task as it is stored, with quotes in paths doubled. *)
Definition pathForTR (s : gostring) : gostring := ReplaceAllByte s dquote [dquote; dquote].

Definition inQuotes (s : gostring) : gostring := dquote :: s ++ [dquote].

Definition cmdArgument (workDir exe configPath : gostring) : gostring :=
  "/c cd /d " ++ inQuotes (pathForTR workDir) ++ " && " ++ inQuotes (pathForTR exe)
  ++ " --backup -config " ++ inQuotes (pathForTR configPath).

Definition plannedTaskRun (workDir exe configPath : gostring) : gostring := "cmd.exe " ++ cmdArgument workDir exe configPath.

Definition escapeForPSSingleQuoted (s : gostring) : gostring := ReplaceAllByte s squote [squote; squote].

(** Reading a stored command back: first [cmd /c cd /d "dir" && "exe" ... -config "path"]. *)
Definition taskCd (rest : gostring) : option (gostring * gostring) :=
  let afterCdPrefix : gostring :=
    if HasPrefix rest "cmd.exe /c cd /d " then str "cmd.exe /c cd /d "
    else if HasPrefix rest "cmd /c cd /d " then str "cmd /c cd /d "
    else [] in
  if negb (afterCdPrefix ==? []) && Contains rest " && " then
    let '(_, rest2, ok) := extractDoubleQuoted (TrimSpace (drop (length afterCdPrefix) rest)) in
    let rest2 := TrimSpace rest2 in
    if (ok : bool) && HasPrefix rest2 "&& " then
      let '(e, rest2, ok) := extractDoubleQuoted (TrimSpace (drop 3 rest2)) in
      if (ok : bool) then
        match find_sub "-config " (TrimSpace rest2) with
        | Some (_, after) =>
            let '(c, _, ok) := extractDoubleQuoted (TrimSpace after) in
            if (ok : bool) then Some (e, c) else None
        | None => None
        end
      else None
    else None
  else None.

(** Then the legacy format with backslash-quotes. *)
Definition taskLegacy (rest : gostring) : option (gostring * gostring) :=
  if HasPrefix rest "cmd " && Contains rest "cd /d " && Contains rest " && " then
    match extractBackslashQuotedPaths rest with
    | _ :: e :: c :: _ => Some (e, c)
    | _ => None
    end
  else None.

(** Up to the next quote [q] that does not follow a backslash. *)
Fixpoint until_quote (q prev : ascii) (s : gostring) : option (gostring * gostring) :=
  match s with
  | [] => None
  | c :: s' =>
      if (c ==? q) && negb (prev ==? backslash) then Some ([], s')
      else (fun '(v, r) => (c :: v, r)) <$> until_quote q c s'
  end.

Definition is_quote (c : ascii) : bool := (c ==? dquote) || (c ==? squote).

(** Then ["exe" --backup -config "path"]; a path without its closing quote is empty. *)
Definition taskPlain (rest : gostring) : option (gostring * gostring) :=
  match rest with
  | q :: r =>
      if negb (is_quote q) then None
      else match until_quote q q r with
           | None => None
           | Some (exe, after) =>
               match find_sub "-config" (TrimSpace after) with
               | None => None
               | Some (_, after) =>
                   let rest := TrimSpace after in
                   match rest with
                   | q2 :: r2 =>
                       if bool_decide (length rest < 2) || negb (is_quote q2) then None
                       else Some (exe, match until_quote q2 q2 r2 with Some (c, _) => c | None => [] end)
                   | [] => None
                   end
               end
           end
  | [] => None
  end.

(** One line of the listing; [None] goes on with the next. *)
Definition taskLine (line0 : gostring) : option (gostring * gostring) :=
  let line := TrimSpace line0 in
  if negb (HasPrefix line "Task To Run:") then None
  else
    let rest := TrimSpace (TrimPrefix line "Task To Run:") in
    if bool_decide (length rest < 2) then None
    else match taskCd rest with
         | Some r => Some r
         | None => match taskLegacy rest with
                   | Some r => Some r
                   | None => taskPlain rest
                   end
         end.

Fixpoint first_some {A B} (f : A -> option B) (l : list A) : option B :=
  match l with
  | [] => None
  | x :: l' => match f x with Some y => Some y | None => first_some f l' end
  end.

(** [windowsTaskGetCommand] on the output of schtasks: executable and config path. *)
Definition taskGetCommand (out : gostring) : err + gostring * gostring :=
  match first_some taskLine (Split out LF) with
  | Some r => inr r
  | None => inl (Errorf "err.task_cmd_not_found" [] None)
  end.

(** ** Lines of a crontab *)

Definition quoteForCron (s : gostring) : gostring := "'" ++ ReplaceAllByte s squote "\'" ++ "'".

Definition bounded (lo hi : Z) (o : option Z) (default : Z) : Z :=
  match o with
  | Some v => if ((lo <=? v) && (v <=? hi))%Z then v else default
  | None => default
  end.

(** Hour and minute of the start time, 22:00 for what is not given properly. *)
Definition startHourMin (startTime : gostring) : Z * Z :=
  let t := TrimSpace startTime in
  if t ==? [] then (22, 0)%Z
  else match SplitN t ":" 2 with
       | h :: m :: _ => (bounded 0 23 (Atoi (TrimSpace h)) 22, bounded 0 59 (Atoi (TrimSpace m)) 0)
       | _ => (22, 0)%Z
       end.

Definition cronCommand (exe configPath : gostring) : gostring :=
  quoteForCron exe ++ " --backup -config " ++ quoteForCron configPath ++ " # " ++ cronMarker.

Definition cronLineUser (hour min : Z) (exe configPath : gostring) : gostring :=
  Itoa min ++ " " ++ Itoa hour ++ " * * * " ++ cronCommand exe configPath.

Definition cronLineSystem (hour min : Z) (exe configPath : gostring) : gostring :=
  Itoa min ++ " " ++ Itoa hour ++ " * * * " ++ systemCrontabUser ++ " " ++ cronCommand exe configPath.

(** What the editing loop decides: the line is there, nothing to do, a line too long
    to be read, or the new contents. *)
Inductive Edit :=
| Present
| Unchanged
| TooLong
| Changed (content : gostring).

(** [None] is the early return for a line that is already as wanted. *)
Fixpoint edit_loop (cronLine : gostring) (lines : list gostring) (found replaced : bool) (buf : gostring)
    : option (bool * bool * gostring) :=
  match lines with
  | [] => Some (found, replaced, buf)
  | line :: lines' =>
      let lineStr := TrimSpace line in
      if Contains lineStr cronMarker then
        if lineStr ==? cronLine then None
        else if negb replaced then edit_loop cronLine lines' true true (buf ++ cronLine ++ [LF])
        else edit_loop cronLine lines' true replaced buf
      else edit_loop cronLine lines' found replaced (buf ++ line ++ [LF])
  end.

Definition edit_crontab (cronLine existing : gostring) : Edit :=
  let '(lines, ok) := ScanLines MaxScanTokenSize existing in
  match edit_loop cronLine lines false false [] with
  | None => Present
  | Some (found, replaced, buf) =>
      if negb ok then TooLong
      else
        let '(replaced, buf) := if (found : bool) then (replaced, buf) else (true, buf ++ cronLine ++ [LF]) in
        if negb replaced then Unchanged else Changed buf
  end.

(** The contents without the lines of the marker, [None] for a line too long. *)
Definition remove_marker (data : gostring) : option gostring :=
  let '(lines, ok) := ScanLines MaxScanTokenSize data in
  if (ok : bool) then Some (unlines (filter (fun l => Contains l cronMarker = false) lines)) else None.

(** ** Installing *)

(** The crontab program: [crontab -l] and [crontab -]. *)
Class Crontab := mkCrontab {
  crontab_list : M (err + gostring);
  crontab_store : gostring -> M (option err)
}.

Section Unix.
Context {FT : Faults} {EX : Exec} {CT : Crontab}.

(** Exit code 1 means that there is no crontab yet. *)
Definition getCrontab : M (err + gostring) :=
  r ← crontab_list;
  mret match r with
       | inl (ExitError n) => if (n =? 1)%Z then inr [] else inl (ExitError n)
       | r => r
       end.

Definition setCrontab (data : gostring) : M (option err) := crontab_store data.

Definition isExecNotFound (e : err) : bool := match e with ErrExecNotFound => true | _ => false end.

(** The first path that can be read, or the last error. *)
Fixpoint firstReadable (paths : list gostring) (e : option err) : M (option err + gostring * gostring) :=
  match paths with
  | [] => mret (inl e)
  | p :: paths' =>
      r ← ReadFile p;
      match r with
      | inr data => mret (inr (p, data))
      | inl e' => firstReadable paths' (Some e')
      end
  end.

Definition ensureUnixCronSystemFile (hour min : Z) (exe cronLine : gostring) : M (option err) :=
  r ← firstReadable systemCrontabPaths None;
  match r with
  | inl e => mret (Some (Errorf "err.crontab_manual" [cronLine] e))
  | inr (path, data) =>
      match edit_crontab cronLine data with
      | Present => _ ← Info "log.msg.cron_present_file" [AStr path]; mret None
      | TooLong => mret (Some (Errorf "err.crontab_manual" [cronLine] (Some ErrTooLong)))
      | Unchanged => mret None
      | Changed content =>
          w ← WriteFile path content;
          match w with
          | inl e => mret (Some (Errorf "err.write_cron_need_root" [path; cronLine] (Some e)))
          | inr _ => _ ← Info "log.msg.cron_added_file" [AStr path; AInt hour; AInt min]; mret None
          end
      end
  end.

Definition ensureUnixCron (env : Config.ProcEnv) (cfg : Config.Config) (configPath : gostring) : M (option err) :=
  match Config.Executable env with
  | inl e => mret (Some (Errorf "err.executable_path" [] (Some e)))
  | inr exe0 =>
      let exe := GoPath.Clean exe0 in
      let '(hour, min) := startHourMin (Config.StartTime cfg) in
      let lineUser := cronLineUser hour min exe configPath in
      let lineSystem := cronLineSystem hour min exe configPath in
      r ← getCrontab;
      match r with
      | inl e =>
          if isExecNotFound e then ensureUnixCronSystemFile hour min exe lineSystem
          else mret (Some (Errorf "err.crontab_l" [] (Some e)))
      | inr existing =>
          match edit_crontab lineUser existing with
          | Present => _ ← Info "log.msg.cron_present" []; mret None
          | TooLong => mret (Some (Errorf "err.crontab_l" [] (Some ErrTooLong)))
          | Unchanged => mret None
          | Changed content =>
              s ← setCrontab content;
              match s with
              | Some e =>
                  if isExecNotFound e then ensureUnixCronSystemFile hour min exe lineSystem
                  else mret (Some (Errorf "err.crontab" [] (Some e)))
              | None => _ ← Info "log.msg.cron_added" [AInt hour; AInt min]; mret None
              end
          end
      end
  end.

Definition systemdUserAvailable : M bool :=
  r ← run_cmd "systemctl" [str "--user"; str "list-timers"; str "--no-legend"] [];
  mret match x_err r with None => true | Some _ => false end.

Definition systemdDir (home : gostring) : gostring :=
  GoPath.Join (GoPath.Join (GoPath.Join home ".config") "systemd") "user".

Definition timerPathOf (home : gostring) : gostring := GoPath.Join (systemdDir home) (serviceName ++ ".timer").
Definition servicePathOf (home : gostring) : gostring := GoPath.Join (systemdDir home) (serviceName ++ ".service").

Definition serviceContent (exe configPath : gostring) : gostring :=
  unlines [str "[Unit]"; str "Description=MySQL Backup"; str "After=network.target"; [];
    str "[Service]"; str "Type=oneshot"; "ExecStart=" ++ exe ++ " --backup -config " ++ configPath;
    "WorkingDirectory=" ++ GoPath.Dir configPath; []; str "[Install]"; str "WantedBy=default.target"].

Definition timerContent (onCalendar : gostring) : gostring :=
  unlines [str "[Unit]"; str "Description=Run MySQL Backup daily"; []; str "[Timer]"; "OnCalendar=" ++ onCalendar;
    str "Persistent=true"; []; str "[Install]"; str "WantedBy=timers.target"].

Definition onCalendarOf (startTime0 : gostring) : gostring :=
  let startTime := if startTime0 ==? [] then str "22:00" else startTime0 in
  let '(hour, min) :=
    match SplitN startTime ":" 2 with
    | h :: m :: _ => (TrimSpace h, TrimSpace m)
    | _ => (str "22", str "00")
    end in
  "*-*-* " ++ hour ++ ":" ++ min ++ ":00".

Definition ensureLinuxSystemd (env : Config.ProcEnv) (cfg : Config.Config) (configPath : gostring) : M (option err) :=
  match Config.UserHomeDir env with
  | inl e => mret (Some (Errorf "err.home_dir" [] (Some e)))
  | inr home =>
      match Config.Executable env with
      | inl e => mret (Some (Errorf "err.executable_path" [] (Some e)))
      | inr exe0 =>
          let exe := GoPath.Clean exe0 in
          mk ← MkdirAll (systemdDir home);
          match mk with
          | inl e => mret (Some (Errorf "err.mkdir_systemd_user" [] (Some e)))
          | inr _ =>
              ws ← WriteFile (servicePathOf home) (serviceContent exe configPath);
              match ws with
              | inl e => mret (Some (Errorf "err.write_service" [] (Some e)))
              | inr _ =>
                  wt ← WriteFile (timerPathOf home) (timerContent (onCalendarOf (Config.StartTime cfg)));
                  match wt with
                  | inl e => mret (Some (Errorf "err.write_timer" [] (Some e)))
                  | inr _ => _ ← Info "log.msg.systemd_created" [AStr (systemdDir home); AStr serviceName]; mret None
                  end
              end
          end
      end
  end.

Definition ensureUnix (env : Config.ProcEnv) (cfg : Config.Config) (configPath : gostring) : M (option err) :=
  match Config.UserHomeDir env with
  | inl e => mret (Some (Errorf "err.home_dir" [] (Some e)))
  | inr home =>
      s ← Stat (timerPathOf home);
      match s with
      | inr _ => _ ← Info "log.msg.systemd_exists" [AStr (timerPathOf home)]; mret None
      | inl _ =>
          ok ← systemdUserAvailable;
          if (ok : bool) then ensureLinuxSystemd env cfg configPath
          else
            _ ← Warn "log.warn.systemd_fallback" [];
            ensureUnixCron env cfg configPath
      end
  end.

(** On Linux. *)
Definition EnsureInstalled (env : Config.ProcEnv) (cfg : Config.Config) (configPath : gostring) : M (option err) :=
  ensureUnix env cfg configPath.

(** ** Status and removal *)

Fixpoint anyHasMarker (paths : list gostring) : M bool :=
  match paths with
  | [] => mret false
  | p :: paths' =>
      r ← ReadFile p;
      match r with
      | inl _ => anyHasMarker paths'
      | inr data => if Contains data cronMarker then mret true else anyHasMarker paths'
      end
  end.

Definition systemCrontabHasMarker : M bool := anyHasMarker systemCrontabPaths.

Definition crontabHasMarker : M bool :=
  r ← getCrontab;
  match r with
  | inr data => if Contains data cronMarker then mret true else systemCrontabHasMarker
  | inl _ => systemCrontabHasMarker
  end.

(** Translation key and arguments; the empty key if there is no job. *)
Definition Status (env : Config.ProcEnv) (cfg : Config.Config) (configPath : gostring) : M (gostring * list Arg) :=
  let startTime := if Config.StartTime cfg ==? [] then str "22:00" else Config.StartTime cfg in
  match Config.UserHomeDir env with
  | inl _ => mret ([], [])
  | inr home =>
      s ← Stat (timerPathOf home);
      match s with
      | inr _ => mret (str "job.systemd", [AStr (timerPathOf home); AStr startTime; AStr serviceName; AStr configPath])
      | inl _ =>
          has ← crontabHasMarker;
          if (has : bool) then
            let exe := match Config.Executable env with inr e => e | inl _ => [] end in
            mret (str "job.cron", [AStr startTime; AStr exe; AStr configPath])
          else mret ([], [])
      end
  end.

(** The first file with the marker is cleaned; the others are left. *)
Fixpoint removeFromFirst (paths : list gostring) : M (option err) :=
  match paths with
  | [] => mret None
  | path :: paths' =>
      r ← ReadFile path;
      match r with
      | inl _ => removeFromFirst paths'
      | inr data =>
          if negb (Contains data cronMarker) then removeFromFirst paths'
          else match remove_marker data with
               | None => mret (Some ErrTooLong)
               | Some out =>
                   w ← WriteFile path out;
                   match w with
                   | inl e => mret (Some (Errorf "err.write_path" [path] (Some e)))
                   | inr _ => mret None
                   end
               end
      end
  end.

Definition removeSystemCrontabMarker : M (option err) := removeFromFirst systemCrontabPaths.

Definition removeCrontabMarker : M (option err) :=
  r ← getCrontab;
  match r with
  | inr data =>
      if Contains data cronMarker then
        match remove_marker data with
        | None => mret (Some ErrTooLong)
        | Some out =>
            s ← setCrontab out;
            match s with
            | Some e => mret (Some e)
            | None => removeSystemCrontabMarker
            end
        end
      else removeSystemCrontabMarker
  | inl _ => removeSystemCrontabMarker
  end.

Definition Uninstall (env : Config.ProcEnv) : M (option err) :=
  match Config.UserHomeDir env with
  | inl e => mret (Some e)
  | inr home =>
      s ← Stat (timerPathOf home);
      let hadSystemd := match s with inr _ => true | inl _ => false end in
      _ ← Remove (timerPathOf home);
      _ ← Remove (servicePathOf home);
      _ ← (if hadSystemd then Info "systemd timer and service files removed from %s; run: systemctl --user daemon-reload" [AStr (systemdDir home)] else mret tt);
      has ← crontabHasMarker;
      if (has : bool) then
        r ← removeCrontabMarker;
        match r with
        | Some e => mret (Some (Errorf "err.remove_cron" [] (Some e)))
        | None => _ ← Info "cron entry for mysqlbackup removed" []; mret None
        end
      else mret None
  end.

End Unix.

(** ** Lemmas: editing a crontab *)

Definition marked (l : gostring) : bool := Contains (TrimSpace l) cronMarker.

(** The lines after editing: the first marked line replaced, further ones dropped. *)
Fixpoint edited (cl : gostring) (replaced : bool) (ls : list gostring) : list gostring :=
  match ls with
  | [] => []
  | l :: ls' =>
      if marked l then (if replaced then edited cl true ls' else cl :: edited cl true ls')
      else l :: edited cl replaced ls'
  end.

Definition installed (cl : gostring) (ls : list gostring) : list gostring :=
  if existsb marked ls then edited cl false ls else ls ++ [cl].

Lemma unlines_cons l ls : unlines (l :: ls) = l ++ [LF] ++ unlines ls.
Proof. unfold unlines. rewrite bind_cons. by rewrite <- app_assoc. Qed.

Lemma unlines_app a b : unlines (a ++ b) = unlines a ++ unlines b.
Proof. unfold unlines. apply bind_app. Qed.

Lemma edit_loop_spec cl ls found replaced buf :
  Forall (fun l => TrimSpace l <> cl) ls ->
  edit_loop cl ls found replaced buf =
    Some (found || existsb marked ls, replaced || existsb marked ls, buf ++ unlines (edited cl replaced ls)).
Proof.
  intros Hall. revert found replaced buf. induction Hall as [|l ls Hl _ IH]; intros found replaced buf; cbn [edit_loop existsb edited].
  - by rewrite !orb_false_r, app_nil_r.
  - cbv zeta. unfold marked at 1 3. destruct (Contains (TrimSpace l) cronMarker) eqn:E; fold (marked l) in E; rewrite E.
    + rewrite bool_decide_eq_false_2 by done. destruct replaced; cbn [negb]; rewrite IH; cbn [orb]; rewrite ?orb_true_r; [done|].
      by rewrite unlines_cons, <- !app_assoc.
    + rewrite IH. cbn [orb]. by rewrite unlines_cons, <- !app_assoc.
Qed.

Lemma edit_loop_present cl ls found replaced buf :
  Contains cl cronMarker = true -> Exists (fun l => TrimSpace l = cl) ls -> edit_loop cl ls found replaced buf = None.
Proof.
  intros Hc He. revert found replaced buf. induction He as [l ls Hl|l ls _ IH]; intros found replaced buf; cbn [edit_loop]; cbv zeta.
  - rewrite Hl, Hc. by rewrite bool_decide_eq_true_2.
  - destruct (Contains (TrimSpace l) cronMarker); [|apply IH]. case_bool_decide; [done|]. by destruct replaced; apply IH.
Qed.

(** A line as an editor writes it. *)
Definition tab_line (l : gostring) : Prop := LF ∉ l /\ (Z.of_nat (length l) < MaxScanTokenSize)%Z /\ drop_cr l = l.

Lemma ScanLines_tab ls : Forall tab_line ls -> ScanLines MaxScanTokenSize (unlines ls) = (ls, true).
Proof.
  intros H. unfold ScanLines. rewrite raw_lines_unlines, scan_raw_ok.
  - f_equal. induction H as [|l ls (_ & _ & Hc) _ IH]; [done|]. cbn [fmap list_fmap]. by rewrite Hc, IH.
  - eapply Forall_impl; [exact H|]. by intros l (_ & ? & _).
  - eapply Forall_impl; [exact H|]. by intros l (? & _).
Qed.

Lemma edit_crontab_changed cl ls :
  Forall tab_line ls -> Forall (fun l => TrimSpace l <> cl) ls ->
  edit_crontab cl (unlines ls) = Changed (unlines (installed cl ls)).
Proof.
  intros Ht Hn. unfold edit_crontab, installed. rewrite ScanLines_tab by done. rewrite edit_loop_spec by done. cbn [negb app orb].
  destruct (existsb marked ls) eqn:E; [done|]. cbn [negb]. rewrite unlines_app. f_equal. f_equal.
  - f_equal. clear Ht Hn. induction ls as [|l ls IH]; [done|]. simpl in *. apply orb_false_iff in E as [-> E]. by rewrite IH.
  - unfold unlines. cbn. by rewrite app_nil_r.
Qed.

Lemma edit_crontab_present cl ls :
  Contains cl cronMarker = true -> Forall tab_line ls -> Exists (fun l => TrimSpace l = cl) ls ->
  edit_crontab cl (unlines ls) = Present.
Proof.
  intros Hc Ht He. unfold edit_crontab. rewrite ScanLines_tab by done. by rewrite edit_loop_present.
Qed.

Lemma edited_in cl r l ls : l ∈ edited cl r ls -> l = cl \/ l ∈ ls.
Proof.
  revert r. induction ls as [|l' ls IH]; intros r; simpl; [by intros ?%elem_of_nil|].
  pose proof (IH true). pose proof (IH false). destruct (marked l'), r; set_solver.
Qed.

Lemma edited_unmarked cl r ls : marked cl = true ->
  filter (fun l => marked l = false) (edited cl r ls) = filter (fun l => marked l = false) ls.
Proof.
  intros Hc. revert r. induction ls as [|l ls IH]; intros r; [done|]. cbn [edited].
  destruct (marked l) eqn:E.
  - rewrite (filter_cons_False _ l) by congruence. destruct r; [apply IH|].
    rewrite filter_cons_False by congruence. apply IH.
  - rewrite !filter_cons_True by done. by rewrite IH.
Qed.

Lemma edited_marked_true cl ls : filter (fun l => marked l = true) (edited cl true ls) = [].
Proof.
  induction ls as [|l ls IH]; [done|]. cbn [edited]. destruct (marked l) eqn:E; [done|].
  by rewrite filter_cons_False by congruence.
Qed.

Lemma edited_marked_false cl ls :
  marked cl = true -> existsb marked ls = true -> filter (fun l => marked l = true) (edited cl false ls) = [cl].
Proof.
  intros Hc. induction ls as [|l ls IH]; [done|]. cbn [edited existsb]. destruct (marked l) eqn:E.
  - intros _. by rewrite filter_cons_True, edited_marked_true.
  - intros H. rewrite filter_cons_False by congruence. auto.
Qed.

Lemma none_marked ls : existsb marked ls = false -> Forall (fun l => marked l = false) ls.
Proof.
  induction ls as [|l ls IH]; [constructor|]. cbn. intros [H1 H2]%orb_false_iff. constructor; auto.
Qed.

Lemma installed_in cl l ls : l ∈ installed cl ls -> l = cl \/ l ∈ ls.
Proof.
  unfold installed. destruct (existsb marked ls); [apply edited_in|]. set_solver.
Qed.

Lemma installed_unmarked cl ls : marked cl = true ->
  filter (fun l => marked l = false) (installed cl ls) = filter (fun l => marked l = false) ls.
Proof.
  intros Hc. unfold installed. destruct (existsb marked ls); [by apply edited_unmarked|].
  rewrite filter_app, (filter_cons_False _ cl) by congruence. apply app_nil_r.
Qed.

Lemma installed_marked cl ls : marked cl = true -> filter (fun l => marked l = true) (installed cl ls) = [cl].
Proof.
  intros Hc. unfold installed. destruct (existsb marked ls) eqn:E; [by apply edited_marked_false|].
  rewrite filter_app, filter_cons_True by done. cbn.
  assert (filter (fun l => marked l = true) ls = []) as ->; [|done].
  apply none_marked in E. induction E as [|l ls Hl _ IH]; [done|]. rewrite filter_cons_False by congruence. done.
Qed.

(** ** Lemmas: the line of the job *)

Lemma Itoa_nonneg n : (0 <= n)%Z -> exists c d, Itoa n = c :: d /\ Forall (fun c => is_digit c = true) (c :: d).
Proof.
  intros Hn. unfold Itoa. rewrite (proj2 (Z.ltb_ge _ _)) by done. destruct (digits_spec n Hn) as (_ & Hd & Hne).
  destruct (digits n) as [|c d]; [done|]. by exists c, d.
Qed.

Lemma quoteForCron_no_LF s : LF ∉ s -> LF ∉ quoteForCron s.
Proof.
  intros Hs. unfold quoteForCron. rewrite !not_elem_of_app. repeat split; try (apply (bool_decide_eq_true_1 _); reflexivity).
  unfold ReplaceAllByte. rewrite list_elem_of_bind. intros (c & Hin & Hc). case_bool_decide.
  - by apply (bool_decide_eq_true_1 (LF ∉ str "\'")) in Hin.
  - apply list_elem_of_singleton in Hin as <-. done.
Qed.

Section Line.
Variables (hour min : Z) (exe configPath : gostring).
Hypothesis (Hhour : (0 <= hour)%Z) (Hmin : (0 <= min)%Z) (Hexe : LF ∉ exe) (Hcfg : LF ∉ configPath).

Lemma cronLine_shape : exists c s, is_digit c = true /\ cronLineUser hour min exe configPath = c :: s ++ cronMarker /\ LF ∉ c :: s.
Proof.
  destruct (Itoa_nonneg min Hmin) as (c & d & E & Hd). destruct (Itoa_nonneg hour Hhour) as (c' & d' & E' & Hd').
  assert (forall l, Forall (fun c => is_digit c = true) l -> LF ∉ l) as Hdig.
  { intros l H Hin. rewrite Forall_forall in H. by apply H in Hin. }
  exists c, (d ++ " " ++ Itoa hour ++ " * * * " ++ quoteForCron exe ++ " --backup -config " ++ quoteForCron configPath ++ " # ").
  split; [by inversion Hd|]. split.
  - unfold cronLineUser, cronCommand. rewrite E. rewrite <- !app_assoc. done.
  - rewrite app_comm_cons, E'. rewrite !not_elem_of_app. repeat split; auto using quoteForCron_no_LF;
      apply (bool_decide_eq_true_1 _); reflexivity.
Qed.

Lemma digit_solid c : is_digit c = true -> solid c = true.
Proof. unfold is_digit, solid, is_space1. intros H. lia. Qed.

Lemma cronLine_TrimSpace : TrimSpace (cronLineUser hour min exe configPath) = cronLineUser hour min exe configPath.
Proof.
  destruct cronLine_shape as (c & s & Hc & -> & _). change cronMarker with (str "mysqlbackup-schedul" ++ ["e"%char]).
  rewrite app_assoc. apply TrimSpace_solid; [by apply digit_solid|done].
Qed.

Lemma cronLine_Contains : Contains (cronLineUser hour min exe configPath) cronMarker = true.
Proof.
  destruct cronLine_shape as (c & s & _ & -> & _). apply Contains_true. exists (c :: s), []. by rewrite app_nil_r.
Qed.

Lemma cronLine_marked : marked (cronLineUser hour min exe configPath) = true.
Proof. unfold marked. rewrite cronLine_TrimSpace. apply cronLine_Contains. Qed.

Lemma cronLine_tab :
  (Z.of_nat (length (cronLineUser hour min exe configPath)) < MaxScanTokenSize)%Z ->
  tab_line (cronLineUser hour min exe configPath).
Proof.
  destruct cronLine_shape as (c & s & _ & -> & Hs). intros Hl. split; [|split; [done|]].
  - rewrite app_comm_cons, not_elem_of_app. split; [done|]. apply (bool_decide_eq_true_1 _). reflexivity.
  - change cronMarker with (str "mysqlbackup-schedul" ++ ["e"%char]). rewrite app_assoc. apply (drop_cr_id (c :: s ++ _)). done.
Qed.

End Line.

Lemma Contains_TrimSpace l m : Contains (TrimSpace l) m = true -> Contains l m = true.
Proof.
  rewrite !Contains_true. intros (a & b & E). destruct (TrimSpace_infix l) as (a' & b' & El).
  exists (a' ++ a), (b ++ b'). rewrite El, E. by rewrite <- !app_assoc.
Qed.

Lemma bounded_range lo hi o d : (lo <= d <= hi)%Z -> (lo <= bounded lo hi o d <= hi)%Z.
Proof. intros H. unfold bounded. destruct o as [v|]; [case_if; lia|done]. Qed.

Lemma startHourMin_range t : (0 <= fst (startHourMin t) <= 23 /\ 0 <= snd (startHourMin t) <= 59)%Z.
Proof.
  unfold startHourMin. cbv zeta. case_bool_decide; [simpl; lia|]. destruct (SplitN _ _ _) as [|h [|m l]]; simpl; try lia.
  split; apply bounded_range; lia.
Qed.

Lemma Atoi_Itoa n : (0 <= n < 2 ^ 63)%Z -> Atoi (Itoa n) = Some n.
Proof.
  intros Hn. unfold Itoa. rewrite (proj2 (Z.ltb_ge _ _)) by lia. destruct (digits_spec n ltac:(lia)) as (Hv & Hd & Hne).
  unfold Atoi. destruct (digits n) as [|c d]; [done|]. assert (is_digit c = true) as Hc by (by inversion Hd).
  rewrite (bool_decide_eq_false_2 (c = "-"%char)), (bool_decide_eq_false_2 (c = "+"%char)) by (intros ->; done).
  rewrite (bool_decide_eq_false_2 (c :: d = [])) by done.
  assert (forallb is_digit (c :: d) = true) as ->.
  { apply forallb_forall. rewrite Forall_forall in Hd. intros x Hx. by apply Hd, list_elem_of_In. }
  cbn [orb negb]. rewrite Hv. case_if; [done|lia].
Qed.

(** ** The crontab program's promise

    The table is kept in files: listing depends on them only and changes none, and a
    table that was stored is what is listed afterwards. *)
Class CrontabLaws (CT : Crontab) := {
  crontab_list_files : forall w w', w_fs w = w_fs w' -> fst (crontab_list w) = fst (crontab_list w');
  crontab_list_quiet : forall w, w_fs (snd (crontab_list w)) = w_fs w;
  crontab_store_list : forall d w w', crontab_store d w = (None, w') -> fst (crontab_list w') = inr d
}.

Definition spoolFile : gostring := "/var/spool/cron/crontabs/user".

(** A crontab program with one spool file. *)
Definition spoolCrontab : Crontab := mkCrontab
  (fun w => (match w_fs w !! spoolFile with Some (NFile (Raw b) _) => inr b | _ => inl (ExitError 1) end, w))
  (fun d w => (None, set_fs <[spoolFile := NFile (Raw d) (w_now w)]> w)).

#[global] Instance spoolCrontab_laws : CrontabLaws spoolCrontab.
Proof.
  split.
  - intros w w' H. simpl. by rewrite H.
  - done.
  - intros d w w' [= <-]. simpl. by rewrite lookup_insert_eq.
Qed.

Section Install.
Context {FT : Faults} {CT : Crontab} {CL : CrontabLaws CT}.

Lemma getCrontab_snd w : snd (getCrontab w) = snd (crontab_list w).
Proof. unfold getCrontab, mbind, M_bind. by destruct (crontab_list w). Qed.

Lemma getCrontab_files w w' : w_fs w = w_fs w' -> fst (getCrontab w) = fst (getCrontab w').
Proof.
  intros H%crontab_list_files. unfold getCrontab, mbind, M_bind. destruct (crontab_list w), (crontab_list w'). cbn in *. by subst.
Qed.

Lemma getCrontab_stored d w w' : crontab_store d w = (None, w') -> fst (getCrontab w') = inr d.
Proof. intros H%crontab_store_list. unfold getCrontab, mbind, M_bind. destruct (crontab_list w'). cbn in *. by subst. Qed.

Variables (env : Config.ProcEnv) (cfg : Config.Config) (configPath exe0 : gostring).
Hypothesis Hexe : Config.Executable env = inr exe0.

Definition jobLine : gostring :=
  cronLineUser (fst (startHourMin (Config.StartTime cfg))) (snd (startHourMin (Config.StartTime cfg))) (GoPath.Clean exe0) configPath.

(** What the run does with a table that can be listed, or with none. *)
Lemma ensureUnixCron_step w data :
  fst (getCrontab w) = inr data ->
  ensureUnixCron env cfg configPath w =
    (match edit_crontab jobLine data with
     | Present => _ ← Info "log.msg.cron_present" []; mret None
     | TooLong => mret (Some (Errorf "err.crontab_l" [] (Some ErrTooLong)))
     | Unchanged => mret None
     | Changed content =>
         s ← setCrontab content;
         match s with
         | Some e =>
             if isExecNotFound e
             then ensureUnixCronSystemFile (fst (startHourMin (Config.StartTime cfg))) (snd (startHourMin (Config.StartTime cfg)))
                    (GoPath.Clean exe0)
                    (cronLineSystem (fst (startHourMin (Config.StartTime cfg))) (snd (startHourMin (Config.StartTime cfg)))
                       (GoPath.Clean exe0) configPath)
             else mret (Some (Errorf "err.crontab" [] (Some e)))
         | None => _ ← Info "log.msg.cron_added" [AInt (fst (startHourMin (Config.StartTime cfg))); AInt (snd (startHourMin (Config.StartTime cfg)))]; mret None
         end
     end) (snd (crontab_list w)).
Proof.
  intros Hl. unfold ensureUnixCron, jobLine. rewrite Hexe. destruct (startHourMin (Config.StartTime cfg)) as [h m]. cbn [fst snd].
  unfold mbind at 1, M_bind at 1. rewrite (surjective_pairing (getCrontab w)), Hl, getCrontab_snd. reflexivity.
Qed.

Hypothesis (Hexe_LF : LF ∉ GoPath.Clean exe0) (Hcfg_LF : LF ∉ configPath).

Lemma jobLine_facts : TrimSpace jobLine = jobLine /\ Contains jobLine cronMarker = true /\ marked jobLine = true.
Proof.
  pose proof (startHourMin_range (Config.StartTime cfg)) as [[? _] [? _]]. unfold jobLine.
  split; [|split]; [by apply cronLine_TrimSpace|by apply cronLine_Contains|by apply cronLine_marked].
Qed.

Hypothesis Hlen : (Z.of_nat (length jobLine) < MaxScanTokenSize)%Z.

Lemma jobLine_tab : tab_line jobLine.
Proof. pose proof (startHourMin_range (Config.StartTime cfg)) as [[? _] [? _]]. by apply cronLine_tab. Qed.

Lemma ensureUnixCron_present w ls :
  fst (getCrontab w) = inr (unlines ls) -> Forall tab_line ls -> Exists (fun l => TrimSpace l = jobLine) ls ->
  fst (ensureUnixCron env cfg configPath w) = None /\ w_fs (snd (ensureUnixCron env cfg configPath w)) = w_fs w.
Proof.
  intros Hl Ht He. destruct jobLine_facts as (_ & Hc & _). rewrite (ensureUnixCron_step _ _ Hl), edit_crontab_present by done.
  split; [done|]. cbn. apply crontab_list_quiet.
Qed.

Lemma ensureUnixCron_changed w ls :
  (forall d w e, fst (crontab_store d w) = Some e -> isExecNotFound e = false) ->
  fst (getCrontab w) = inr (unlines ls) -> Forall tab_line ls -> Forall (fun l => TrimSpace l <> jobLine) ls ->
  match crontab_store (unlines (installed jobLine ls)) (snd (crontab_list w)) with
  | (Some e, _) => fst (ensureUnixCron env cfg configPath w) = Some (Errorf "err.crontab" [] (Some e))
  | (None, _) => fst (ensureUnixCron env cfg configPath w) = None /\
      fst (getCrontab (snd (ensureUnixCron env cfg configPath w))) = inr (unlines (installed jobLine ls))
  end.
Proof using CL Hexe Hexe_LF Hcfg_LF.
  intros Hfound Hl Ht Hn. rewrite (ensureUnixCron_step _ _ Hl), edit_crontab_changed by done. unfold setCrontab, mbind, M_bind.
  specialize (Hfound (unlines (installed jobLine ls)) (snd (crontab_list w))).
  destruct (crontab_store _ _) as [[e|] w'] eqn:E; [by rewrite (Hfound e eq_refl)|]. split; [done|].
  apply getCrontab_stored in E. rewrite <- E. by apply getCrontab_files.
Qed.

End Install.

(** ** Lemmas: the command of a task *)

Lemma unquote_pathForTR s rest :
  (forall r, rest <> dquote :: r) -> unquote_go (pathForTR s ++ dquote :: rest) = Some (s, rest).
Proof.
  intros Hr. induction s as [|c s IH].
  - cbn -[dquote]. rewrite bool_decide_eq_true_2 by done. destruct rest as [|d rest]; [done|].
    rewrite bool_decide_eq_false_2; [done|]. intros ->. by apply (Hr rest).
  - unfold pathForTR, ReplaceAllByte in *. rewrite bind_cons. case_bool_decide as Hc; rewrite <- app_assoc; cbn [app unquote_go].
    + rewrite !bool_decide_eq_true_2 by done. rewrite IH. by subst.
    + rewrite bool_decide_eq_false_2 by done. by rewrite IH.
Qed.

Lemma extract_inQuotes s rest :
  (forall r, rest <> dquote :: r) -> extractDoubleQuoted (inQuotes (pathForTR s) ++ rest) = (s, rest, true).
Proof.
  intros Hr. unfold inQuotes. rewrite <- app_comm_cons, <- app_assoc. cbn [app extractDoubleQuoted].
  rewrite bool_decide_eq_true_2 by done. cbn [negb]. by rewrite unquote_pathForTR.
Qed.

Lemma starts_inQuotes s : starts_solid (inQuotes s).
Proof. by exists dquote, (s ++ [dquote]). Qed.

Lemma ends_inQuotes s : ends_solid (inQuotes s).
Proof. by exists (dquote :: s), dquote. Qed.

Lemma taskCd_planned w e c : taskCd (plannedTaskRun w e c) = Some (e, c).
Proof.
  unfold taskCd, plannedTaskRun, cmdArgument.
  set (Q3 := inQuotes (pathForTR c)). set (tail2 := " --backup -config " ++ Q3).
  set (tail1 := " && " ++ inQuotes (pathForTR e) ++ tail2).
  assert (ends_solid Q3) as H3 by apply ends_inQuotes.
  assert (ends_solid tail2) as H2 by (by apply ends_solid_app).
  assert (ends_solid (inQuotes (pathForTR e) ++ tail2)) as H1 by (by apply ends_solid_app).
  replace ("cmd.exe " ++ "/c cd /d " ++ inQuotes (pathForTR w) ++ tail1) with ("cmd.exe /c cd /d " ++ inQuotes (pathForTR w) ++ tail1) by done.
  rewrite HasPrefix_app. assert (Contains ("cmd.exe /c cd /d " ++ inQuotes (pathForTR w) ++ tail1) " && " = true) as ->.
  { apply Contains_true. exists ("cmd.exe /c cd /d " ++ inQuotes (pathForTR w)), (inQuotes (pathForTR e) ++ tail2).
    unfold tail1. symmetry. apply app_assoc_reverse. }
  cbv zeta. rewrite drop_app_length.
  rewrite TrimSpace_tight; [|apply starts_solid_app, starts_inQuotes|apply ends_solid_app; by apply ends_solid_app].
  rewrite extract_inQuotes by done. cbn [negb andb].
  assert (TrimSpace tail1 = "&& " ++ inQuotes (pathForTR e) ++ tail2) as ->.
  { unfold tail1. transitivity (TrimSpace ("&& " ++ inQuotes (pathForTR e) ++ tail2)); [apply (TrimSpace_blanks 1)|]. apply TrimSpace_tight.
    - by eexists _, _.
    - by apply ends_solid_app. }
  rewrite HasPrefix_app. cbn [andb].
  change (drop 3 ("&& " ++ inQuotes (pathForTR e) ++ tail2)) with (inQuotes (pathForTR e) ++ tail2).
  rewrite TrimSpace_tight; [|apply starts_solid_app, starts_inQuotes|done]. rewrite extract_inQuotes by done.
  assert (TrimSpace tail2 = "--backup -config " ++ Q3) as ->.
  { unfold tail2. transitivity (TrimSpace ("--backup -config " ++ Q3)); [apply (TrimSpace_blanks 1)|]. apply TrimSpace_tight; [by eexists _, _|by apply ends_solid_app]. }
  assert (find_sub "-config " ("--backup -config " ++ Q3) = Some (str "--backup ", Q3)) as -> by reflexivity.
  rewrite TrimSpace_tight by (done || apply starts_inQuotes). unfold Q3.
  pose proof (extract_inQuotes c [] ltac:(done)) as E. rewrite app_nil_r in E. by rewrite E.
Qed.

(** ** Lemmas: the shell's reading of a word *)

(** One word of a command line as the shell reads it: single quotes take everything up
    to the next single quote literally, outside them a backslash takes the next byte
    literally and a blank ends the word; [None] when a quote is left open. *)
Fixpoint sh_word (inq : bool) (s : gostring) : option (gostring * gostring) :=
  match s with
  | [] => if inq then None else Some ([], [])
  | c :: s' =>
      if inq then
        if c ==? squote then sh_word false s'
        else (fun '(v, r) => (c :: v, r)) <$> sh_word true s'
      else if c ==? squote then sh_word true s'
      else if c ==? " "%char then Some ([], s')
      else if c ==? backslash then
        match s' with
        | d :: s'' => (fun '(v, r) => (d :: v, r)) <$> sh_word false s''
        | [] => None
        end
      else (fun '(v, r) => (c :: v, r)) <$> sh_word false s'
  end.

Lemma sh_word_quoted s rest : squote ∉ s -> sh_word true (s ++ squote :: " "%char :: rest) = Some (s, rest).
Proof.
  induction s as [|c s IH]; [done|]. intros [Hc Hs]%not_elem_of_cons. cbn [app sh_word].
  rewrite bool_decide_eq_false_2 by (by apply not_eq_sym). by rewrite IH.
Qed.

(** Reading literally up to a backslash keeps the backslash. *)
Lemma sh_word_prefix a s v r : squote ∉ a -> sh_word true (a ++ backslash :: s) = Some (v, r) -> exists v', v = a ++ backslash :: v'.
Proof.
  revert v. induction a as [|c a IH]; intros v Ha; cbn [app sh_word].
  - rewrite bool_decide_eq_false_2 by done. intros ([v' r'] & _ & [= -> ->])%fmap_Some. by exists v'.
  - apply not_elem_of_cons in Ha as [Hc Ha]. rewrite bool_decide_eq_false_2 by (by apply not_eq_sym).
    intros ([v' r'] & E & [= -> ->])%fmap_Some. destruct (IH v' Ha E) as [v'' ->]. by exists v''.
Qed.

(** ** Theorems *)

(** C28: Installing the job in the user's crontab.  Where the crontab program is there and
    lists a table of ordinary lines, or says with exit code 1 that there is none yet, the run
    returns the error of storing the new table, or none; in this case the table then has the
    job's line, all lines of other jobs are as before and in order, and a second run succeeds
    and changes nothing.  (Ordinary lines are shorter than 64 KiB and do not end in a carriage
    return; the paths have no line feed.) *)
Theorem ensureUnixCron_installs_once (FT : Faults) (CT : Crontab) (CL : CrontabLaws CT) env cfg configPath exe0 w ls :
  Config.Executable env = inr exe0 -> LF ∉ GoPath.Clean exe0 -> LF ∉ configPath ->
  (Z.of_nat (length (jobLine cfg configPath exe0)) < MaxScanTokenSize)%Z ->
  (forall d w e, fst (crontab_store d w) = Some e -> isExecNotFound e = false) ->
  fst (crontab_list w) = inr (unlines ls) \/ (fst (crontab_list w) = inl (ExitError 1) /\ ls = []) -> Forall tab_line ls ->
  let w1 := snd (ensureUnixCron env cfg configPath w) in
  (exists e, fst (crontab_store (unlines (installed (jobLine cfg configPath exe0) ls)) (snd (crontab_list w))) = Some e /\
     fst (ensureUnixCron env cfg configPath w) = Some (Errorf "err.crontab" [] (Some e))) \/
  fst (ensureUnixCron env cfg configPath w) = None /\
  (exists ls1, fst (getCrontab w1) = inr (unlines ls1) /\
     filter (fun l => marked l = false) ls1 = filter (fun l => marked l = false) ls /\
     Exists (fun l => TrimSpace l = jobLine cfg configPath exe0) ls1) /\
  fst (ensureUnixCron env cfg configPath w1) = None /\ w_fs (snd (ensureUnixCron env cfg configPath w1)) = w_fs w1.
Proof.
  intros He H1 H2 Hlen Hfound Hl Ht w1. pose proof (jobLine_facts cfg configPath exe0 H1 H2) as (Htr & _ & Hm).
  assert (fst (getCrontab w) = inr (unlines ls)) as Hg.
  { unfold getCrontab, mbind, M_bind. destruct (crontab_list w) as [r w0]. cbn in *. destruct Hl as [-> |[-> ->]]; done. }
  lazymatch goal with |- ?A \/ _ => enough (A \/ exists ls1, fst (ensureUnixCron env cfg configPath w) = None /\ fst (getCrontab w1) = inr (unlines ls1) /\
    filter (fun l => marked l = false) ls1 = filter (fun l => marked l = false) ls /\
    Exists (fun l => TrimSpace l = jobLine cfg configPath exe0) ls1 /\ Forall tab_line ls1) as [?|(ls1 & Hr & Hl1 & Hf & Hx & Ht1)] end.
  { by left. }
  { right. split; [done|]. split; [by exists ls1|]. by apply (ensureUnixCron_present env cfg configPath exe0 He H1 H2 w1 ls1). }
  destruct (decide (Exists (fun l => TrimSpace l = jobLine cfg configPath exe0) ls)) as [Hx|Hx].
  - destruct (ensureUnixCron_present env cfg configPath exe0 He H1 H2 w ls Hg Ht Hx) as [Hr Hfs].
    right. exists ls. split; [done|]. split; [|done]. rewrite <- Hg. by apply getCrontab_files.
  - rewrite <- Forall_Exists_neg in Hx. pose proof (ensureUnixCron_changed env cfg configPath exe0 He H1 H2 w ls Hfound Hg Ht Hx) as H.
    destruct (crontab_store _ _) as [[e|] w']; [left; by exists e|]. destruct H as [Hr Hl1].
    right. exists (installed (jobLine cfg configPath exe0) ls). split; [done|]. split; [done|]. split; [by apply installed_unmarked|]. split.
    + apply Exists_exists. exists (jobLine cfg configPath exe0). split; [|done].
      assert (jobLine cfg configPath exe0 ∈ filter (fun l => marked l = true) (installed (jobLine cfg configPath exe0) ls)) as Hin
        by (rewrite installed_marked by done; left). by apply list_elem_of_filter in Hin as [_ Hin].
    + apply Forall_forall. intros l [->|Hin]%installed_in; [by apply jobLine_tab|]. rewrite Forall_forall in Ht. auto.
Qed.

(** Installing replaces: whatever lines of this job a table already has, it has
    exactly one of them afterwards, the wanted one. *)
Theorem edit_leaves_one_line h m exe configPath ls :
  (0 <= h)%Z -> (0 <= m)%Z -> LF ∉ exe -> LF ∉ configPath ->
  Forall tab_line ls -> Forall (fun l => TrimSpace l <> cronLineUser h m exe configPath) ls ->
  exists ls', edit_crontab (cronLineUser h m exe configPath) (unlines ls) = Changed (unlines ls') /\
    filter (fun l => marked l = true) ls' = [cronLineUser h m exe configPath] /\
    filter (fun l => marked l = false) ls' = filter (fun l => marked l = false) ls.
Proof.
  intros Hh Hm He Hc Ht Hn. pose proof (cronLine_marked h m exe configPath Hh Hm He Hc) as Hmk.
  exists (installed (cronLineUser h m exe configPath) ls). split; [by apply edit_crontab_changed|].
  split; [by apply installed_marked|by apply installed_unmarked].
Qed.

(** C29: Removing undoes installing: on a table without lines of this job, whose lines are
    shorter than 64 KiB and do not end in a carriage return, installing and then removing gives
    the table back byte for byte. *)
Theorem install_remove_roundtrip h m exe configPath ls content :
  (0 <= h)%Z -> (0 <= m)%Z -> LF ∉ exe -> LF ∉ configPath ->
  (Z.of_nat (length (cronLineUser h m exe configPath)) < MaxScanTokenSize)%Z ->
  Forall tab_line ls -> Forall (fun l => Contains l cronMarker = false) ls ->
  edit_crontab (cronLineUser h m exe configPath) (unlines ls) = Changed content ->
  remove_marker content = Some (unlines ls).
Proof.
  intros Hh Hm He Hc Hlen Ht Hno. pose proof (cronLine_Contains h m exe configPath Hh Hm He Hc) as Hct.
  pose proof (cronLine_tab h m exe configPath Hh Hm He Hc Hlen) as Htab.
  pose proof (cronLine_TrimSpace h m exe configPath Hh Hm He Hc) as Htr.
  assert (existsb marked ls = false) as Em.
  { apply not_true_is_false. intros (l & Hin & Hl)%existsb_exists. unfold marked in Hl. apply Contains_TrimSpace in Hl.
    rewrite Forall_forall in Hno. rewrite (Hno l) in Hl; [done|]. by apply list_elem_of_In. }
  rewrite edit_crontab_changed; [|done|].
  2: { eapply Forall_impl; [exact Hno|]. intros l Hl E. apply (f_equal (fun x => Contains x cronMarker)) in E. rewrite Hct in E.
       apply Contains_TrimSpace in E. congruence. }
  unfold installed. rewrite Em. intros [= <-]. unfold remove_marker. rewrite ScanLines_tab by (apply Forall_snoc; done).
  rewrite filter_app, (filter_cons_False _ (cronLineUser h m exe configPath)) by congruence. rewrite app_nil_r. do 2 f_equal.
  clear -Hno. induction Hno as [|l ls Hl _ IH]; [done|]. by rewrite filter_cons_True, IH.
Qed.

(** Whatever the configured start time, the hour and minute of the job are valid, and
    a time written as hour and minute is taken as it is. *)
Theorem startHourMin_spec t h m :
  (0 <= fst (startHourMin t) <= 23 /\ 0 <= snd (startHourMin t) <= 59)%Z /\
  ((0 <= h <= 23)%Z -> (0 <= m <= 59)%Z -> startHourMin (Itoa h ++ ":" ++ Itoa m) = (h, m)).
Proof.
  split; [apply startHourMin_range|]. intros Hh Hm.
  destruct (Itoa_nonneg h ltac:(lia)) as (c & d & E & Hd). destruct (Itoa_nonneg m ltac:(lia)) as (c' & d' & E' & Hd').
  assert (forall l, Forall (fun c => is_digit c = true) l -> (":"%char : ascii) ∉ l /\ TrimSpace l = l) as Hdig.
  { intros l H. split; [intros Hin; rewrite Forall_forall in H; by apply H in Hin|].
    apply TrimSpace_Forall. eapply Forall_impl; [exact H|]. apply digit_solid. }
  rewrite <- E in Hd. rewrite <- E' in Hd'. destruct (Hdig _ Hd) as [Hn Ht], (Hdig _ Hd') as [Hn' Ht'].
  assert (TrimSpace (Itoa h ++ ":" ++ Itoa m) = Itoa h ++ ":" ++ Itoa m) as Htr.
  { apply TrimSpace_Forall. rewrite !Forall_app. repeat split; [|by repeat constructor|].
    - eapply Forall_impl; [exact Hd|]. apply digit_solid.
    - eapply Forall_impl; [exact Hd'|]. apply digit_solid. }
  unfold startHourMin. rewrite Htr. cbv zeta. rewrite bool_decide_eq_false_2 by (by rewrite E).
  assert (SplitN (Itoa h ++ ":" ++ Itoa m) ":" 2 = [Itoa h; Itoa m]) as ->.
  { unfold SplitN. cbn [str String.list_ascii_of_string app]. rewrite Split_app_sep, Split_absent by done. done. }
  rewrite Ht, Ht', !Atoi_Itoa by lia. unfold bounded. repeat case_if; try done; lia.
Qed.

(** A path without single quotes survives the quoting of the cron line: the shell
    reads it back as one word, blanks and other special characters included. *)
Theorem quoteForCron_roundtrip s rest :
  squote ∉ s -> sh_word false (quoteForCron s ++ " " ++ rest) = Some (s, rest).
Proof.
  intros Hs. unfold quoteForCron. rewrite ReplaceAllByte_absent by done. rewrite <- !app_assoc. cbn -[squote].
  by apply sh_word_quoted.
Qed.

(** A path with a single quote does not survive: inside single quotes the backslash is
    literal and the quote closes, so whatever follows in the line, the shell never reads
    the path back. *)
Theorem quoteForCron_breaks a b rest r :
  squote ∉ a -> sh_word false (quoteForCron (a ++ squote :: b) ++ rest) <> Some (a ++ squote :: b, r).
Proof.
  intros Ha E. unfold quoteForCron in E. rewrite ReplaceAllByte_app, (ReplaceAllByte_absent a) in E by done.
  rewrite <- !app_assoc in E. cbn -[squote backslash] in E. change (sh_word false (squote :: ?s)) with (sh_word true s) in E.
  apply sh_word_prefix in E as [v' E]; [|done]. by apply app_inv_head in E.
Qed.

(** The stored command of a Windows task round-trips: from the listing of a task
    created with the program's own command line, the executable and the configuration
    path are read back, quotes in them included. *)
Theorem taskGetCommand_roundtrip k w e c :
  LF ∉ w -> LF ∉ e -> LF ∉ c ->
  taskGetCommand ("Task To Run:" ++ replicate k " "%char ++ plannedTaskRun w e c) = inr (e, c).
Proof.
  intros Hw He Hc. unfold taskGetCommand. set (line := str "Task To Run:" ++ replicate k " "%char ++ plannedTaskRun w e c).
  assert (forall s, LF ∉ s -> LF ∉ inQuotes (pathForTR s)) as Hq.
  { intros s Hs. unfold inQuotes, pathForTR, ReplaceAllByte. rewrite not_elem_of_cons, not_elem_of_app, not_elem_of_cons.
    repeat split; try done; [|apply not_elem_of_nil]. rewrite list_elem_of_bind. intros (x & Hin & Hx). case_bool_decide; [set_solver|].
    apply list_elem_of_singleton in Hin as <-. done. }
  assert (LF ∉ line) as HLF.
  { unfold line, plannedTaskRun, cmdArgument. rewrite !not_elem_of_app. repeat split; auto; try (apply (bool_decide_eq_true_1 _); reflexivity).
    intros [H _]%elem_of_replicate. done. }
  rewrite Split_absent by done. cbn [first_some]. unfold taskLine.
  assert (starts_solid (plannedTaskRun w e c)) as Hs1 by (by eexists _, _).
  assert (ends_solid (plannedTaskRun w e c)) as Hs2.
  { unfold plannedTaskRun, cmdArgument. repeat apply ends_solid_app. apply ends_inQuotes. }
  rewrite (TrimSpace_tight line); [|by eexists _, _|unfold line; do 2 apply ends_solid_app; done].
  unfold line. rewrite HasPrefix_app, TrimPrefix_app. cbn [negb]. rewrite TrimSpace_blanks, TrimSpace_tight by done. cbv zeta.
  rewrite taskCd_planned. rewrite bool_decide_eq_false_2; [done|]. unfold plannedTaskRun. rewrite length_app. simpl. lia.
Qed.

(** The legacy command with backslash-quoted paths, which the code means to support, is
    not recognised: the closing backslash-quote is read as an escaped quote, so the
    three paths are taken for one. *)
Theorem taskGetCommand_legacy_fails :
  let bq (s : gostring) := [backslash; dquote] ++ s ++ [backslash; dquote] in
  taskGetCommand ("Task To Run: cmd /c " ++
    inQuotes ("cd /d " ++ bq (str "C:\work") ++ " && " ++ bq (str "C:\mysqlbackup.exe") ++ " --backup -config " ++ bq (str "C:\config.json")))
  = inl (Errorf "err.task_cmd_not_found" [] None).
Proof. vm_compute. reflexivity. Qed.

(** ** Witnesses *)

Definition sampleEnv : Config.ProcEnv := Config.mkEnv (inr (str "/opt/mysqlbackup")) (inr (str "/")) (inr (str "/root")).
Definition sampleTab : list gostring := [str "# m h dom mon dow command"; str "5 4 * * * /usr/bin/true"].
Definition sampleSpool : World := mkWorld (<[spoolFile := NFile (Raw (unlines sampleTab)) (mkTime 738000 0)]> ∅) (mkTime 738000 0) 0 [] [].

Lemma sampleTab_ok : Forall tab_line sampleTab.
Proof. apply Forall_forall. intros l Hin. revert l Hin. apply Forall_forall. repeat constructor; apply (bool_decide_eq_true_1 _); reflexivity. Qed.

(** The first installation: there is no table yet. *)
Lemma ensureUnixCron_installs_once_witness :
  let w := mkWorld ∅ (mkTime 738000 0) 0 [] [] in
  fst (@crontab_list spoolCrontab w) = inl (ExitError 1) /\
  fst (@ensureUnixCron NoFaults spoolCrontab sampleEnv Config.DefaultConfig "/etc/mysqlbackup.json" w) = None.
Proof.
  cbv zeta. split; [reflexivity|].
  destruct (ensureUnixCron_installs_once NoFaults spoolCrontab _ sampleEnv Config.DefaultConfig
    "/etc/mysqlbackup.json" (str "/opt/mysqlbackup") (mkWorld ∅ (mkTime 738000 0) 0 [] []) []) as [(e & [=] & _)|[H _]]; [..|exact H].
  - reflexivity.
  - apply (bool_decide_eq_true_1 _). reflexivity.
  - apply (bool_decide_eq_true_1 _). reflexivity.
  - vm_compute. reflexivity.
  - discriminate.
  - right. split; reflexivity.
  - constructor.
Defined.

Lemma edit_leaves_one_line_witness :
  exists ls', edit_crontab (cronLineUser 22 0 "/opt/x" "/c") (unlines (str "1 1 * * * old # mysqlbackup-schedule" :: sampleTab)) = Changed (unlines ls')
    /\ filter (fun l => marked l = true) ls' = [cronLineUser 22 0 "/opt/x" "/c"].
Proof.
  destruct (edit_leaves_one_line 22 0 "/opt/x" "/c" (str "1 1 * * * old # mysqlbackup-schedule" :: sampleTab)) as (ls' & E & F & _);
    [lia|lia|apply (bool_decide_eq_true_1 _); reflexivity|apply (bool_decide_eq_true_1 _); reflexivity| | |by exists ls'].
  - constructor; [|apply sampleTab_ok]. repeat split; apply (bool_decide_eq_true_1 _); reflexivity.
  - apply (bool_decide_eq_true_1 _). vm_compute. reflexivity.
Defined.

Lemma install_remove_roundtrip_witness :
  exists content, edit_crontab (cronLineUser 22 0 "/opt/x" "/c") (unlines sampleTab) = Changed content
    /\ remove_marker content = Some (unlines sampleTab).
Proof.
  eexists. split; [vm_compute; reflexivity|].
  apply (install_remove_roundtrip 22 0 "/opt/x" "/c" sampleTab);
    [lia|lia|apply (bool_decide_eq_true_1 _); reflexivity|apply (bool_decide_eq_true_1 _); reflexivity|
     vm_compute; reflexivity|apply sampleTab_ok|apply (bool_decide_eq_true_1 _); vm_compute; reflexivity|vm_compute; reflexivity].
Defined.

Lemma startHourMin_spec_witness : startHourMin (Itoa 7 ++ ":" ++ Itoa 5) = (7, 5)%Z.
Proof. apply (startHourMin_spec [] 7 5); lia. Defined.

Lemma quoteForCron_roundtrip_witness :
  sh_word false (quoteForCron "/opt/my backup/x" ++ " " ++ "--backup") = Some (str "/opt/my backup/x", str "--backup").
Proof. apply (quoteForCron_roundtrip "/opt/my backup/x" "--backup"). apply (bool_decide_eq_true_1 _). reflexivity. Defined.

Lemma quoteForCron_breaks_witness :
  sh_word false (quoteForCron (str "/home/o" ++ squote :: str "neil/x") ++ str " --backup") <> Some (str "/home/o" ++ squote :: str "neil/x", str "--backup").
Proof. apply (quoteForCron_breaks "/home/o" "neil/x" " --backup" "--backup"). apply (bool_decide_eq_true_1 _). reflexivity. Defined.

Lemma taskGetCommand_roundtrip_witness :
  taskGetCommand ("Task To Run:" ++ replicate 3 " "%char ++ plannedTaskRun "C:\my work" "C:\x.exe" "C:\c.json") = inr (str "C:\x.exe", str "C:\c.json").
Proof. apply (taskGetCommand_roundtrip 3 "C:\my work" "C:\x.exe" "C:\c.json"); apply (bool_decide_eq_true_1 _); reflexivity. Defined.

End Schedule.
