(* ===== verification/WindowsTask.v ===== *)
(** * internal/schedule on Windows: the daily task.

    The task is created and changed by PowerShell scripts and queried with schtasks, both
    behind the interface [TaskHost].  [TaskHostLaws] says what the scripts do to the task
    of the scheduler; a single-quoted literal of a script is read as PowerShell reads it
    ([ps_literal]), so that the escaping of the program is proved and not assumed.
    [demoHost] is an instance. *)

From S2P Require Import Prelude GoStrings GoTime World Config WindowsPath Schedule.
Import GoStrings GoTime World.

Module WindowsTask.

Definition taskNameWindows : gostring := "MySQLBackup".

(** Where exec.Command finds a program, and what running it does. *)
Class TaskHost := mkTaskHost {
  look_path : gostring -> gostring;
  host_run : gostring -> list gostring -> M ExecResult
}.

(** ** The scripts *)

Definition powershellArgs (script : gostring) : list gostring :=
  [str "-NoProfile"; str "-NonInteractive"; str "-Command"; script].

Definition queryArgs : list gostring := [str "/Query"; str "/TN"; taskNameWindows].

Definition listArgs : list gostring := queryArgs ++ [str "/FO"; str "LIST"; str "/V"].

Definition deleteArgs : list gostring := [str "/Delete"; str "/TN"; taskNameWindows; str "/F"].

Definition runStringScript : gostring :=
  "$t = Get-ScheduledTask -TaskName '" ++ taskNameWindows
  ++ "' -ErrorAction SilentlyContinue; if ($t -and $t.Actions.Count -gt 0) { $a = $t.Actions[0]; $a.Execute + ' ' + $a.Arguments }".

Definition remoteNameScript (drive : gostring) : gostring :=
  "try { (Get-Item -LiteralPath '" ++ drive ++ "\').PSDrive.RemoteName } catch { '' }".

Definition settingsScript : gostring :=
  "$s = New-ScheduledTaskSettingsSet -WakeToRun -StartWhenAvailable -ExecutionTimeLimit (New-TimeSpan -Hours 12); Set-ScheduledTask -TaskName '"
  ++ taskNameWindows ++ "' -Settings $s".

Definition workingDirScript (esc : gostring) : gostring :=
  "$t = Get-ScheduledTask -TaskName '" ++ taskNameWindows
  ++ "' -ErrorAction SilentlyContinue; if ($t) { $a = $t.Actions[0]; $a.WorkingDirectory = '" ++ esc
  ++ "'; Set-ScheduledTask -TaskName '" ++ taskNameWindows ++ "' -Action $a }".

Definition registerScript (taskName argEsc wdEsc startTime : gostring) : gostring :=
  "$arg = '" ++ argEsc ++ "'; $wd = '" ++ wdEsc ++ "'; "
  ++ "$a = New-ScheduledTaskAction -Execute 'cmd.exe' -Argument $arg -WorkingDirectory $wd; "
  ++ "$t = New-ScheduledTaskTrigger -Daily -At '" ++ startTime ++ "'; "
  ++ "$s = New-ScheduledTaskSettingsSet -WakeToRun -StartWhenAvailable -ExecutionTimeLimit (New-TimeSpan -Hours 12); "
  ++ "Register-ScheduledTask -TaskName '" ++ taskName ++ "' -Action $a -Trigger $t -Settings $s -Force".

(** ** Operations *)

Section Operations.
Context {TH : TaskHost}.

(** A logger: nil, or one that is verbose or not. *)
Variable log : option bool.

Definition verbose : bool := default false log.

Definition Debug (key : gostring) (args : list Arg) : M unit := log_at LDebug key args.

Definition runWithDebug (name : gostring) (args : list gostring) : M ExecResult :=
  _ ← (if verbose then Debug "exec: %s %v" [AStr (look_path name); AStrs (name :: args)] else mret tt);
  r ← host_run name args;
  _ ← (if verbose then
         _ ← (if bool_decide (0 < length (x_combined r)) then Debug "output: %s" [AStr (x_combined r)] else mret tt);
         match x_err r with Some e => Debug "exit: %v" [AErr e] | None => mret tt end
       else mret tt);
  mret r.

Definition powershell (script : gostring) : M ExecResult := runWithDebug "powershell" (powershellArgs script).

Definition unlessNil (m : M unit) : M unit := match log with Some _ => m | None => mret tt end.

Definition runPrefix : gostring := "Task To Run:".

Definition runLine (line0 : gostring) : option gostring :=
  let line := TrimSpace line0 in
  if HasPrefix line runPrefix then Some (TrimSpace (TrimPrefix line runPrefix)) else None.

Definition listedRunString : M (err + gostring) :=
  r ← runWithDebug "schtasks" listArgs;
  match x_err r with
  | Some e => mret (inl e)
  | None =>
      match Schedule.first_some runLine (Split (x_combined r) LF) with
      | Some s => mret (inr s)
      | None => mret (inl (Errorf "err.task_cmd_not_found" [] None))
      end
  end.

Definition windowsTaskGetRunString : M (err + gostring) :=
  r ← powershell runStringScript;
  match x_err r with
  | None => if TrimSpace (x_combined r) ==? [] then listedRunString else mret (inr (TrimSpace (x_combined r)))
  | Some _ => listedRunString
  end.

Definition windowsTaskGetCommand : M (err + gostring * gostring) :=
  r ← runWithDebug "schtasks" listArgs;
  match x_err r with
  | Some e => mret (inl e)
  | None => mret (Schedule.taskGetCommand (x_combined r))
  end.

Definition is_letter (c : ascii) : bool :=
  let n := code c in (((65 <=? n) && (n <=? 90)) || ((97 <=? n) && (n <=? 122)))%Z.

(** The path with the name of its drive, if it has one, replaced by the shared folder. *)
Definition joinUNC (root rest0 : gostring) : gostring :=
  let uncRoot := TrimSuffix root [backslash] in
  let rest := match rest0 with c :: _ => if c ==? backslash then rest0 else backslash :: rest0 | [] => [] end in
  uncRoot ++ rest.

Definition resolveDriveToUNC (path : gostring) : M gostring :=
  if HasPrefix path "\\" then mret path
  else match path with
       | d :: c :: rest =>
           if negb (c ==? ":"%char) || negb (is_letter d) then mret path
           else
             r ← powershell (remoteNameScript [d; c]);
             match x_err r with
             | Some _ => mret path
             | None =>
                 let uncRoot := TrimSpace (x_combined r) in
                 if negb (HasPrefix uncRoot "\\") then mret path else mret (joinUNC uncRoot rest)
             end
       | _ => mret path
       end.

Definition applyWindowsTaskSettings : M unit :=
  r ← powershell settingsScript;
  match x_err r with
  | Some e => unlessNil (Warn "log.warn.powershell_settings" [AErr e])
  | None => unlessNil (Info "log.msg.windows_task_settings" [])
  end.

Definition applyWindowsTaskWorkingDir (workDir : gostring) : M unit :=
  r ← powershell (workingDirScript (Schedule.escapeForPSSingleQuoted workDir));
  match x_err r with
  | Some e => unlessNil (Warn "log.warn.powershell_workdir" [AErr e])
  | None => unlessNil (Info "log.msg.windows_task_workdir" [])
  end.

Definition createWindowsTaskViaPowerShell (taskName cmdArgument workingDir startTime : gostring) : M (option err) :=
  r ← powershell (registerScript taskName (Schedule.escapeForPSSingleQuoted cmdArgument)
                    (Schedule.escapeForPSSingleQuoted workingDir) startTime);
  match x_err r with
  | Some e => mret (Some (Errorf "%w: %s" [x_combined r] (Some e)))
  | None => mret None
  end.

(** The start time of the task: five bytes with a colon in the middle, or 22:00. *)
Definition taskStart (startTime0 : gostring) : gostring :=
  let t := TrimSpace (if startTime0 ==? [] then str "22:00" else startTime0) in
  if negb (length t ==? 5) || negb (t !! 2 ==? Some ":"%char) then str "22:00" else t.

Definition updateTask (startTime workDir exe config : gostring) : M (option err) :=
  r ← createWindowsTaskViaPowerShell taskNameWindows (Schedule.cmdArgument workDir exe config) workDir startTime;
  match r with
  | Some e => mret (Some (Errorf "err.schtasks_create" [] (Some e)))
  | None =>
      _ ← Info "log.msg.windows_task_created" [AStr taskNameWindows; AStr startTime];
      _ ← applyWindowsTaskSettings;
      _ ← applyWindowsTaskWorkingDir workDir;
      mret None
  end.

(** With the paths for the task. *)
Definition ensureTask (startTime workDir exe config : gostring) : M (option err) :=
  q ← runWithDebug "schtasks" queryArgs;
  match x_err q with
  | Some _ => updateTask startTime workDir exe config
  | None =>
      g ← windowsTaskGetRunString;
      match g with
      | inr existingRun =>
          if TrimSpace existingRun ==? TrimSpace (Schedule.plannedTaskRun workDir exe config) then
            _ ← applyWindowsTaskSettings;
            _ ← applyWindowsTaskWorkingDir workDir;
            _ ← Info "log.msg.windows_task_uptodate" [AStr taskNameWindows];
            mret None
          else
            _ ← Info "log.msg.windows_task_updating" [];
            _ ← runWithDebug "schtasks" deleteArgs;
            updateTask startTime workDir exe config
      | inl _ =>
          _ ← runWithDebug "schtasks" deleteArgs;
          updateTask startTime workDir exe config
      end
  end.

Definition workDirOf (configPath : gostring) : gostring :=
  if WindowsPath.Dir configPath ==? [] then str "." else WindowsPath.Dir configPath.

Definition ensureWindows (env : Config.ProcEnv) (cfg : Config.Config) (configPath0 : gostring) : M (option err) :=
  match Config.Executable env with
  | inl e => mret (Some (Errorf "err.executable_path" [] (Some e)))
  | inr exe0 =>
      let exe := WindowsPath.Clean exe0 in
      let configPath := WindowsPath.Clean configPath0 in
      let workDir := workDirOf configPath in
      exeTask ← resolveDriveToUNC exe;
      configPathTask ← resolveDriveToUNC configPath;
      workDirTask ← resolveDriveToUNC workDir;
      ensureTask (taskStart (Config.StartTime cfg)) workDirTask exeTask configPathTask
  end.

Definition windowsStatus (env : Config.ProcEnv) (cfg : Config.Config) (configPath : gostring) : M (gostring * list Arg) :=
  let startTime := if Config.StartTime cfg ==? [] then str "22:00" else Config.StartTime cfg in
  r ← host_run "schtasks" queryArgs;
  match x_err r with
  | Some _ => mret ([], [])
  | None =>
      let exe := match Config.Executable env with inr e => e | inl _ => [] end in
      mret (str "job.windows", [AStr taskNameWindows; AStr startTime; AStr exe; AStr configPath])
  end.

Definition windowsUninstall : M (option err) :=
  r ← runWithDebug "schtasks" deleteArgs;
  match x_err r with
  | Some e => mret (Some (Errorf "err.schtasks_delete" [x_combined r] (Some e)))
  | None => _ ← unlessNil (Info "Windows task %s removed" [AStr taskNameWindows]); mret None
  end.

(** ** The choice by operating system *)

Section Choice.
Context {FT : Faults} {EX : Exec} {CT : Schedule.Crontab}.
Variable GOOS : gostring.

Definition EnsureInstalled (env : Config.ProcEnv) (cfg : Config.Config) (configPath : gostring) : M (option err) :=
  if GOOS ==? str "windows" then ensureWindows env cfg configPath else Schedule.EnsureInstalled env cfg configPath.

Definition Status (env : Config.ProcEnv) (cfg : Config.Config) (configPath : gostring) : M (gostring * list Arg) :=
  if GOOS ==? str "windows" then windowsStatus env cfg configPath else Schedule.Status env cfg configPath.

Definition Uninstall (env : Config.ProcEnv) : M (option err) :=
  if GOOS ==? str "windows" then windowsUninstall else Schedule.Uninstall env.

End Choice.

End Operations.

(** ** Literals of PowerShell

    Between single quotes everything stands for itself but a quote, which is doubled.
    Four typographic quotes count as single quotes too. *)

Definition smart (c1 c2 c3 : ascii) : bool :=
  ((code c1 =? 226) && (code c2 =? 128) && (152 <=? code c3) && (code c3 <=? 155))%Z.

(** The text after the opening quote, and what follows the literal; [seen] says that a
    quote has just been read. *)
Fixpoint ps_literal (seen : bool) (s : gostring) : option (gostring * gostring) :=
  match s with
  | [] => if seen then Some ([], []) else None
  | c1 :: s1 =>
      if c1 ==? squote then
        if seen then (fun '(v, r) => (c1 :: v, r)) <$> ps_literal false s1 else ps_literal true s1
      else match s1 with
           | c2 :: c3 :: s3 =>
               if smart c1 c2 c3 then
                 if seen then (fun '(v, r) => (c1 :: c2 :: c3 :: v, r)) <$> ps_literal false s3 else ps_literal true s3
               else if seen then Some ([], s) else (fun '(v, r) => (c1 :: v, r)) <$> ps_literal false s1
           | _ => if seen then Some ([], s) else (fun '(v, r) => (c1 :: v, r)) <$> ps_literal false s1
           end
  end.

Definition smart_at (s : gostring) : bool :=
  match s with c1 :: c2 :: c3 :: _ => smart c1 c2 c3 | _ => false end.

Fixpoint smart_free (s : gostring) : bool :=
  match s with
  | [] => true
  | _ :: s' => negb (smart_at s) && smart_free s'
  end.

(** A text that cannot go on a literal. *)
Definition ends_literal (rest : gostring) : Prop := ps_literal true rest = Some ([], rest).

(** [q] between single quotes stands for [v]. *)
Definition ps_reads (q v : gostring) : Prop :=
  forall rest, ends_literal rest -> ps_literal false (q ++ squote :: rest) = Some (v, rest).

(** ** What the scheduler promises *)

Record Task := mkTask { Execute : gostring; Arguments : gostring; WorkingDirectory : gostring; At : gostring; Settings : bool }.

Definition taskRun (t : Task) : gostring := Execute t ++ " " ++ Arguments t.

(** Texts the console leaves as they are in its output, whatever its code page. *)
Definition console_text (s : gostring) : bool := forallb (fun c => (32 <=? code c) && (code c <? 127))%Z s.

Definition set_settings (t : Task) : Task := mkTask (Execute t) (Arguments t) (WorkingDirectory t) (At t) true.

Definition set_workdir (wd : gostring) (t : Task) : Task := mkTask (Execute t) (Arguments t) wd (At t) (Settings t).

(** A command that, if it succeeds, changes the task by [f], and otherwise does not. *)
Definition writes {TH : TaskHost} (task_of : World -> option Task) (name : gostring) (args : list gostring)
    (f : option Task -> option Task) : Prop :=
  forall w, let '(r, w') := host_run name args w in
    task_of w' = match x_err r with None => f (task_of w) | Some _ => task_of w end.

(** The task is kept in files.  A query succeeds exactly if there is a task; every other command
    may fail; a listing that is given is true. *)
Class TaskHostLaws (TH : TaskHost) := {
  task_of : World -> option Task;
  remote_name : gostring -> option gostring;
  task_files : forall w w', w_fs w = w_fs w' -> task_of w = task_of w';
  law_query : writes task_of "schtasks" queryArgs id;
  law_query_exists : forall w, x_err (fst (host_run "schtasks" queryArgs w)) = None <-> is_Some (task_of w);
  law_list : writes task_of "schtasks" listArgs id;
  law_list_true : forall w t line s, task_of w = Some t -> console_text (taskRun t) = true ->
    x_err (fst (host_run "schtasks" listArgs w)) = None ->
    line ∈ Split (x_combined (fst (host_run "schtasks" listArgs w))) LF -> runLine line = Some s ->
    s = TrimSpace (taskRun t);
  law_run_string : writes task_of "powershell" (powershellArgs runStringScript) id;
  law_run_string_true : forall w t, task_of w = Some t -> console_text (taskRun t) = true ->
    x_err (fst (host_run "powershell" (powershellArgs runStringScript) w)) = None ->
    TrimSpace (x_combined (fst (host_run "powershell" (powershellArgs runStringScript) w))) = TrimSpace (taskRun t);
  law_remote : forall d, writes task_of "powershell" (powershellArgs (remoteNameScript d)) id;
  law_remote_name : forall d w, let r := fst (host_run "powershell" (powershellArgs (remoteNameScript d)) w) in
    match x_err r with None => Some (TrimSpace (x_combined r)) | Some _ => None end = remote_name d;
  law_delete : writes task_of "schtasks" deleteArgs (fun _ => None);
  law_settings : writes task_of "powershell" (powershellArgs settingsScript) (fmap set_settings);
  law_workdir : forall q wd, ps_reads q wd ->
    writes task_of "powershell" (powershellArgs (workingDirScript q)) (fmap (set_workdir wd));
  law_register : forall qa qw qt a wd t, ps_reads qa a -> ps_reads qw wd -> ps_reads qt t ->
    writes task_of "powershell" (powershellArgs (registerScript taskNameWindows qa qw qt))
      (fun _ => Some (mkTask "cmd.exe" a wd t true))
}.

(** ** Lemmas: escaping *)

Lemma ps_literal_plain c s :
  c <> squote -> smart_at (c :: s) = false -> ps_literal false (c :: s) = (fun '(v, r) => (c :: v, r)) <$> ps_literal false s.
Proof.
  intros Hc Hs. cbn [ps_literal]. rewrite bool_decide_eq_false_2 by done.
  destruct s as [|c2 [|c3 s]]; [done|done|]. cbn in Hs. by rewrite Hs.
Qed.

Lemma ps_literal_smart c1 c2 c3 s : c1 <> squote -> smart c1 c2 c3 = true -> ps_literal false (c1 :: c2 :: c3 :: s) = ps_literal true s.
Proof. intros Hc Hs. cbn [ps_literal]. rewrite (bool_decide_eq_false_2 (c1 = squote)) by done. by rewrite Hs. Qed.

Lemma smart_no_quote c1 c2 c3 : smart c1 c2 c3 = true -> c2 <> squote /\ c3 <> squote.
Proof. unfold smart. intros H. bool_prop. split; intros ->; vm_compute in *; congruence. Qed.

Lemma smart_at_226 c s : c <> chr 226 -> smart_at (c :: s) = false.
Proof.
  intros Hc. destruct s as [|d [|e s]]; [done|done|]. apply not_true_iff_false. cbn. unfold smart. intros H. bool_prop.
  apply Hc. rewrite <- (chr_code c). by f_equal.
Qed.

Lemma escape_cons c s :
  Schedule.escapeForPSSingleQuoted (c :: s) = (if c ==? squote then [squote; squote] else [c]) ++ Schedule.escapeForPSSingleQuoted s.
Proof. done. Qed.

Lemma smart_at_escape c s rest :
  smart_at (c :: s) = false -> smart_at (c :: Schedule.escapeForPSSingleQuoted s ++ squote :: rest) = false.
Proof.
  intros Hs. apply not_true_iff_false. intros H.
  destruct s as [|d s]; [destruct rest; [done|]; by apply smart_no_quote in H as []|].
  rewrite escape_cons in H. case_bool_decide; [by apply smart_no_quote in H as []|].
  destruct s as [|e s]; [by apply smart_no_quote in H as []|].
  rewrite escape_cons in H. case_bool_decide; [by apply smart_no_quote in H as []|].
  cbn in Hs, H. congruence.
Qed.

Lemma ps_reads_escape s : smart_free s = true -> ps_reads (Schedule.escapeForPSSingleQuoted s) s.
Proof.
  intros Hs rest Hr. induction s as [|c s IH]; [exact Hr|].
  cbn [smart_free] in Hs. bool_prop. rewrite escape_cons. case_bool_decide as E.
  - subst c. cbn [app ps_literal]. rewrite !(bool_decide_eq_true_2 (squote = squote)) by done. by rewrite IH.
  - cbn [app]. rewrite ps_literal_plain by auto using smart_at_escape. by rewrite IH.
Qed.

Lemma ps_reads_plain s : squote ∉ s -> smart_free s = true -> ps_reads s s.
Proof.
  intros Hq Hs. pose proof (ps_reads_escape s Hs) as H. unfold Schedule.escapeForPSSingleQuoted in H.
  by rewrite ReplaceAllByte_absent in H.
Qed.

(** ** Lemmas: triples about the task *)

Section Promise.
Context {TH : TaskHost} {TL : TaskHostLaws TH}.
Variable log : option bool.

(** From a task satisfying [P], [m] ends with a result and a task satisfying [Q]. *)
Definition tri {A : Type} (P : option Task -> Prop) (m : M A) (Q : A -> option Task -> Prop) : Prop :=
  forall w, P (task_of w) -> Q (fst (m w)) (task_of (snd (m w))).

Lemma tri_ret {A : Type} (P : option Task -> Prop) (x : A) (Q : A -> option Task -> Prop) :
  (forall T, P T -> Q x T) -> tri P (mret x) Q.
Proof. intros H w Hw. by apply H. Qed.

Lemma tri_bind {A B : Type} (P : option Task -> Prop) (m : M A) (f : A -> M B) (R : A -> option Task -> Prop) (Q : B -> option Task -> Prop) :
  tri P m R -> (forall x, tri (R x) (f x) Q) -> tri P (m ≫= f) Q.
Proof.
  intros Hm Hf w Hw. specialize (Hm w Hw). unfold mbind, M_bind. destruct (m w) as [x w1]. by apply Hf.
Qed.

Lemma tri_conseq {A : Type} (P P' : option Task -> Prop) (m : M A) (Q Q' : A -> option Task -> Prop) :
  (forall T, P' T -> P T) -> (forall x T, Q x T -> Q' x T) -> tri P m Q -> tri P' m Q'.
Proof. intros HP HQ Hm w Hw. apply HQ, Hm, HP, Hw. Qed.

Lemma tri_pure {A : Type} (P : Prop) (T0 : option Task -> Prop) (m : M A) (Q : A -> option Task -> Prop) :
  (P -> tri T0 m Q) -> tri (fun T => P /\ T0 T) m Q.
Proof. intros H w [HP HT]. by apply H. Qed.

Lemma tri_log (P : option Task -> Prop) (l : Level) (key : gostring) (args : list Arg) (Q : unit -> option Task -> Prop) :
  (forall T, P T -> Q tt T) -> tri P (log_at l key args) Q.
Proof. intros H w Hw. apply H. erewrite task_files; [exact Hw|done]. Qed.

Lemma tri_unlessNil (P : option Task -> Prop) (m : M unit) (Q : unit -> option Task -> Prop) :
  (forall T, P T -> Q tt T) -> tri P m Q -> tri P (unlessNil log m) Q.
Proof. intros Hn Hm. destruct log; [exact Hm|]. by apply tri_ret. Qed.

(** Logging aside, a command is run in a world with the same files. *)
Lemma runWithDebug_run name args w :
  exists w1, w_fs w1 = w_fs w /\ fst (runWithDebug log name args w) = fst (host_run name args w1)
    /\ w_fs (snd (runWithDebug log name args w)) = w_fs (snd (host_run name args w1)).
Proof.
  unfold runWithDebug. destruct (verbose log).
  - exists (snd (log_at LDebug "exec: %s %v" [AStr (look_path name); AStrs (name :: args)] w)). split; [done|].
    unfold mbind, M_bind. change (log_at LDebug) with Debug. destruct (Debug _ _ w) as [[] w1]. cbn [snd].
    destruct (host_run name args w1) as [r w2]. destruct (bool_decide _), (x_err r); done.
  - exists w. split; [done|]. unfold mbind, M_bind, mret, M_ret. by destruct (host_run name args w).
Qed.

Lemma tri_run name args f (P : option Task -> Prop) (Q : ExecResult -> option Task -> Prop) :
  writes task_of name args f ->
  (forall w, P (task_of w) -> let r := fst (host_run name args w) in
     Q r (match x_err r with None => f (task_of w) | Some _ => task_of w end)) ->
  tri P (runWithDebug log name args) Q.
Proof.
  intros Hwr H w Hw. destruct (runWithDebug_run name args w) as (w1 & Hfs & Hr & Hfs').
  rewrite (task_files w w1) in Hw by done. specialize (H w1 Hw). specialize (Hwr w1).
  rewrite Hr, (task_files _ (snd (host_run name args w1))) by done.
  destruct (host_run name args w1) as [r w2]. cbn in *. by rewrite Hwr.
Qed.

(** ** Lemmas: the operations *)

Definition uncPath (path : gostring) : gostring :=
  if HasPrefix path "\\" then path
  else match path with
       | d :: c :: rest =>
           if (c ==? ":"%char) && is_letter d then
             match remote_name [d; c] with
             | Some root => if HasPrefix root "\\" then joinUNC root rest else path
             | None => path
             end
           else path
       | _ => path
       end.

Lemma tri_resolve path (P : option Task -> Prop) :
  tri P (resolveDriveToUNC log path) (fun r T => r = uncPath path /\ P T).
Proof.
  unfold resolveDriveToUNC, uncPath. destruct (HasPrefix path "\\"); [by apply tri_ret|].
  destruct path as [|d [|c rest]]; [by apply tri_ret..|].
  destruct (c ==? ":"%char), (is_letter d); cbn [negb orb andb]; try by apply tri_ret.
  eapply tri_bind.
  - apply (tri_run _ _ id _ (fun r T => match x_err r with None => Some (TrimSpace (x_combined r)) | Some _ => None end = remote_name [d; c] /\ P T)); [apply law_remote|].
    intros w Hw. split; [apply law_remote_name|]. by destruct (x_err _).
  - intros r. apply tri_pure. intros Hr. destruct (x_err r).
    + rewrite <- Hr. by apply tri_ret.
    + rewrite <- Hr. destruct (HasPrefix (TrimSpace (x_combined r)) "\\"); by apply tri_ret.
Qed.

(** Changing the settings or the directory may fail. *)
Lemma tri_apply {A : Type} name args f (k : ExecResult -> M A) (P : option Task -> Prop) (Q : A -> option Task -> Prop) :
  writes task_of name args (fmap f) -> (forall T, P T -> P (f <$> T)) ->
  (forall r, tri P (k r) Q) -> tri P (runWithDebug log name args ≫= k) Q.
Proof.
  intros Hw HP Hk. eapply tri_bind; [|exact Hk]. eapply tri_run; [exact Hw|].
  intros w Hp. cbn. destruct (x_err _); auto.
Qed.

Lemma tri_settings (P : option Task -> Prop) :
  (forall T, P T -> P (set_settings <$> T)) -> tri P (applyWindowsTaskSettings log) (fun _ => P).
Proof.
  intros HP. apply (tri_apply _ _ set_settings); [apply law_settings|done|]. intros r.
  destruct (x_err r); apply tri_unlessNil; try done; by apply tri_log.
Qed.

Lemma tri_workdir wd (P : option Task -> Prop) :
  smart_free wd = true -> (forall T, P T -> P (set_workdir wd <$> T)) -> tri P (applyWindowsTaskWorkingDir log wd) (fun _ => P).
Proof.
  intros Hs HP. apply (tri_apply _ _ (set_workdir wd)); [by apply law_workdir, ps_reads_escape|done|]. intros r.
  destruct (x_err r); apply tri_unlessNil; try done; by apply tri_log.
Qed.

Lemma first_some_in {A B : Type} (f : A -> option B) l y : Schedule.first_some f l = Some y -> exists x, x ∈ l /\ f x = Some y.
Proof.
  induction l as [|x l IH]; [done|]. cbn. destruct (f x) eqn:E; [intros [= <-]; exists x; split; [by left|done]|].
  intros (z & Hz & Hf)%IH. exists z. split; [by right|done].
Qed.

Definition responds (script : gostring) : Prop := forall w, x_err (fst (host_run "powershell" (powershellArgs script) w)) = None.

(** No task can be created. *)
Definition rejects : Prop := forall qa qw qt w,
  x_err (fst (host_run "powershell" (powershellArgs (registerScript taskNameWindows qa qw qt)) w)) <> None.

(** The command of an existing task is read correctly, and read if PowerShell answers. *)
Lemma tri_getRunString t :
  console_text (taskRun t) = true ->
  tri (fun T => T = Some t) (windowsTaskGetRunString log) (fun g T =>
    ((forall s, g = inr s -> s = TrimSpace (taskRun t)) /\
     (responds runStringScript -> TrimSpace (taskRun t) <> [] -> g = inr (TrimSpace (taskRun t)))) /\ T = Some t).
Proof.
  intros Hc. assert (tri (fun T => T = Some t) (listedRunString log) (fun g T => (forall s, g = inr s -> s = TrimSpace (taskRun t)) /\ T = Some t)) as HL.
  { eapply tri_bind.
    - apply (tri_run _ _ id _ (fun r T => (x_err r = None -> forall line s, line ∈ Split (x_combined r) LF -> runLine line = Some s -> s = TrimSpace (taskRun t)) /\ T = Some t)); [apply law_list|].
      intros w Hw. split; [|by destruct (x_err _)]. intros He line s. by apply (law_list_true w t line s).
    - intros r. apply tri_pure. intros Hr. destruct (x_err r); [apply tri_ret; naive_solver|].
      destruct (Schedule.first_some runLine _) as [s|] eqn:E; apply tri_ret; [|naive_solver].
      intros T HT. split; [|done]. intros s' [= <-]. apply first_some_in in E as (line & Hin & Hl). eauto. }
  eapply tri_bind.
  - apply (tri_run _ _ id _ (fun r T => ((x_err r = None -> TrimSpace (x_combined r) = TrimSpace (taskRun t)) /\ (responds runStringScript -> x_err r = None)) /\ T = Some t)); [apply law_run_string|].
    intros w Hw. split; [|by destruct (x_err _)]. split; [by apply law_run_string_true|]. intros H. apply H.
  - intros r. apply tri_pure. intros [Hr Hresp]. destruct (x_err r).
    + eapply tri_conseq; [| |exact HL]; [done|]. intros g T [H1 H2]. split; [|done]. split; [done|]. intros H. by specialize (Hresp H).
    + rewrite (Hr eq_refl). case_bool_decide as E.
      * eapply tri_conseq; [| |exact HL]; [done|]. intros g T [H1 H2]. split; [|done]. split; [done|]. by intros _ [].
      * apply tri_ret. intros T HT. split; [|done]. split; [by intros s [= <-]|done].
Qed.

Section Job.
Variables (start wd exe config : gostring).
Hypothesis Hcmd : smart_free (Schedule.cmdArgument wd exe config) = true.
Hypothesis Hwd : smart_free wd = true.
Hypothesis Hstart : smart_free start = true /\ squote ∉ start.

Definition jobTask : Task := mkTask "cmd.exe" (Schedule.cmdArgument wd exe config) wd start true.

Lemma taskRun_jobTask : taskRun jobTask = Schedule.plannedTaskRun wd exe config.
Proof. done. Qed.

Lemma planned_tight : TrimSpace (Schedule.plannedTaskRun wd exe config) = Schedule.plannedTaskRun wd exe config.
Proof.
  apply TrimSpace_tight; [by eexists _, _|]. unfold Schedule.plannedTaskRun, Schedule.cmdArgument.
  repeat apply ends_solid_app. apply Schedule.ends_inQuotes.
Qed.

(** A task that is created is the one wanted; one that is not leaves what there is. *)
Lemma tri_updateTask (P : option Task -> Prop) :
  tri P (updateTask log start wd exe config) (fun r T => match r with None => T = Some jobTask | Some _ => P T end).
Proof.
  unfold updateTask. eapply (tri_bind _ _ _ (fun r T => match r with None => T = Some jobTask | Some _ => P T end)).
  - unfold createWindowsTaskViaPowerShell. eapply tri_bind.
    + eapply (tri_run _ _ _ _ (fun r T => match x_err r with None => T = Some jobTask | Some _ => P T end)).
      { apply law_register; [by apply ps_reads_escape..|]. apply ps_reads_plain; apply Hstart. }
      intros w Hw. cbn. by destruct (x_err _).
    + intros r. destruct (x_err r) eqn:E; apply tri_ret; intros T HT; by rewrite E in HT.
  - intros [e|]; [by apply tri_ret|].
    eapply tri_bind; [by apply (tri_log _ _ _ _ (fun _ T => T = Some jobTask))|intros ?; cbn beta].
    eapply tri_bind; [apply (tri_settings (fun T => T = Some jobTask)); by intros T ->|intros ?; cbn beta].
    eapply tri_bind; [apply (tri_workdir wd (fun T => T = Some jobTask)); [done|]; by intros T ->|intros ?; cbn beta].
    by apply tri_ret.
Qed.

(** What a task that is up to date keeps. *)
Definition same_job (t : Task) (T : option Task) : Prop :=
  exists t', T = Some t' /\ Execute t' = Execute t /\ Arguments t' = Arguments t /\ At t' = At t.

Lemma same_job_fmap t T f : (forall t, Execute (f t) = Execute t /\ Arguments (f t) = Arguments t /\ At (f t) = At t) ->
  same_job t T -> same_job t (f <$> T).
Proof.
  intros Hf (t' & -> & H1 & H2 & H3). destruct (Hf t') as (F1 & F2 & F3).
  exists (f t'). split_and!; [done|congruence..].
Qed.

Lemma tri_uptodate t :
  tri (fun T => T = Some t)
    (_ ← applyWindowsTaskSettings log; _ ← applyWindowsTaskWorkingDir log wd;
     _ ← Info "log.msg.windows_task_uptodate" [AStr taskNameWindows]; mret None)
    (fun (r : option err) T => r = None /\ same_job t T).
Proof.
  apply (tri_conseq (same_job t) _ _ (fun r T => r = None /\ same_job t T)); [intros T ->; by exists t|done|].
  eapply tri_bind; [apply (tri_settings (same_job t)); intros T; by apply same_job_fmap|intros ?; cbn beta].
  eapply tri_bind; [apply (tri_workdir wd (same_job t)); [done|]; intros T; by apply same_job_fmap|intros ?; cbn beta].
  eapply tri_bind; [by apply (tri_log _ _ _ _ (fun _ => same_job t))|intros ?; cbn beta]. by apply tri_ret.
Qed.

(** Deleting and creating again. *)
Lemma tri_recreate t :
  tri (fun T => T = Some t) (_ ← runWithDebug log "schtasks" deleteArgs; updateTask log start wd exe config)
    (fun r T => match r with None => T = Some jobTask | Some _ => T = None \/ T = Some t end).
Proof.
  eapply tri_bind.
  - apply (tri_run _ _ _ _ (fun _ T => T = None \/ T = Some t) law_delete). intros w ->. cbn. destruct (x_err _); auto.
  - intros r. cbn beta. apply (tri_updateTask (fun T => T = None \/ T = Some t)).
Qed.

Lemma tri_query T0 {A : Type} (k : ExecResult -> M A) (Q : A -> option Task -> Prop) :
  (forall r, (x_err r = None <-> is_Some T0) -> tri (fun T => T = T0) (k r) Q) ->
  tri (fun T => T = T0) (runWithDebug log "schtasks" queryArgs ≫= k) Q.
Proof.
  intros Hk. eapply tri_bind.
  - apply (tri_run _ _ _ _ (fun r T => (x_err r = None <-> is_Some T0) /\ T = T0) law_query). intros w <-.
    split; [apply law_query_exists|by destruct (x_err _)].
  - intros r. by apply tri_pure, Hk.
Qed.

Lemma tri_ensureTask T0 :
  (forall t, T0 = Some t -> console_text (taskRun t) = true) ->
  tri (fun T => T = T0) (ensureTask log start wd exe config) (fun r T => r = None ->
    T = Some jobTask \/ exists t, T0 = Some t /\ TrimSpace (taskRun t) = Schedule.plannedTaskRun wd exe config /\ same_job t T).
Proof.
  intros Hc. apply tri_query. intros q Hq. destruct (x_err q).
  { eapply tri_conseq; [| |apply (tri_updateTask (fun T => True))]; [done|]. intros [|] T H; [done|auto]. }
  destruct (proj1 Hq eq_refl) as [t ->]. specialize (Hc t eq_refl).
  assert (tri (fun T => T = Some t) (_ ← runWithDebug log "schtasks" deleteArgs; updateTask log start wd exe config)
    (fun r T => r = None -> T = Some jobTask \/ exists t0, Some t = Some t0 /\ TrimSpace (taskRun t0) = Schedule.plannedTaskRun wd exe config /\ same_job t0 T)) as Hre.
  { eapply tri_conseq; [| |apply (tri_recreate t)]; [done|]. intros [|] T H; [done|auto]. }
  eapply tri_bind; [by apply (tri_getRunString t)|]. intros g. apply tri_pure. intros [Hg _].
  destruct g as [e|run]; [exact Hre|]. rewrite (Hg run eq_refl), planned_tight. case_bool_decide as E.
  - eapply tri_conseq; [| |apply (tri_uptodate t)]; [done|]. intros r T [-> Hj] _. right. exists t.
    split_and!; [done| |done]. rewrite <- E. symmetry. apply TrimSpace_idem.
  - eapply tri_bind; [by apply (tri_log _ _ _ _ (fun _ T => T = Some t))|]. intros ?. exact Hre.
Qed.

(** A task whose command is the wanted one is kept. *)
Lemma tri_ensureTask_present t :
  console_text (taskRun t) = true -> TrimSpace (taskRun t) = Schedule.plannedTaskRun wd exe config -> responds runStringScript ->
  tri (fun T => T = Some t) (ensureTask log start wd exe config) (fun r T => r = None /\ same_job t T).
Proof.
  intros Hc Hrun Hr. apply tri_query. intros q Hq.
  rewrite (proj2 Hq) by done. eapply tri_bind; [by apply (tri_getRunString t)|]. intros g. apply tri_pure.
  intros [_ Hg]. rewrite Hg; [|done|by rewrite Hrun]. rewrite Hrun, bool_decide_eq_true_2 by done. apply (tri_uptodate t).
Qed.

(** A task with another command is deleted before the new one is created. *)
Lemma tri_ensureTask_lost t :
  console_text (taskRun t) = true -> TrimSpace (taskRun t) <> Schedule.plannedTaskRun wd exe config ->
  (forall w, x_err (fst (host_run "schtasks" deleteArgs w)) = None) ->
  rejects ->
  tri (fun T => T = Some t) (ensureTask log start wd exe config) (fun r T => r <> None /\ T = None).
Proof.
  intros Hc Hrun Hd Hp. apply tri_query. intros q Hq. rewrite (proj2 Hq) by done.
  assert (tri (fun T => T = Some t) (_ ← runWithDebug log "schtasks" deleteArgs; updateTask log start wd exe config)
    (fun r T => r <> None /\ T = None)) as Hre.
  { eapply tri_bind.
    - apply (tri_run _ _ _ _ (fun _ T => T = None) law_delete). intros w ->. cbn. by rewrite Hd.
    - intros r. cbn beta. unfold updateTask, createWindowsTaskViaPowerShell. eapply tri_bind.
      + eapply tri_bind.
        * eapply (tri_run _ _ _ _ (fun r T => x_err r <> None /\ T = None)).
          { apply law_register; [by apply ps_reads_escape..|]. apply ps_reads_plain; apply Hstart. }
          intros w ->. pose proof (Hp (Schedule.escapeForPSSingleQuoted (Schedule.cmdArgument wd exe config))
            (Schedule.escapeForPSSingleQuoted wd) start w) as He. cbn zeta in *. split; [exact He|]. by destruct (x_err _) in He |- *.
        * intros r1. apply tri_pure. intros He. destruct (x_err r1); [|done].
          apply (tri_ret _ _ (fun r T => r <> None /\ T = None)). done.
      + intros r1. apply tri_pure. intros He. destruct r1; [|done]. by apply tri_ret. }
  eapply tri_bind; [by apply (tri_getRunString t)|]. intros g. apply tri_pure. intros [Hg _].
  destruct g as [e|run]; [exact Hre|]. rewrite (Hg run eq_refl), planned_tight, TrimSpace_idem, bool_decide_eq_false_2 by done.
  eapply tri_bind; [by apply (tri_log _ _ _ _ (fun _ T => T = Some t))|]. intros ?. exact Hre.
Qed.

End Job.

(** ** Lemmas: the whole operation *)

(** The paths of the task. *)
Definition taskExe (exe0 : gostring) : gostring := uncPath (WindowsPath.Clean exe0).
Definition taskConfig (configPath0 : gostring) : gostring := uncPath (WindowsPath.Clean configPath0).
Definition taskWorkDir (configPath0 : gostring) : gostring := uncPath (workDirOf (WindowsPath.Clean configPath0)).

(** Unfolded before anything they stand for. *)
Strategy expand [taskExe taskConfig taskWorkDir].

Lemma tri_ensureWindows env cfg configPath exe0 (P : option Task -> Prop) (Q : option err -> option Task -> Prop) :
  Config.Executable env = inr exe0 ->
  tri P (ensureTask log (taskStart (Config.StartTime cfg)) (taskWorkDir configPath) (taskExe exe0) (taskConfig configPath)) Q ->
  tri P (ensureWindows log env cfg configPath) Q.
Proof.
  intros He H. unfold ensureWindows. rewrite He. cbv zeta.
  eapply tri_bind; [apply tri_resolve|intros e]. apply tri_pure. intros ->.
  eapply tri_bind; [apply tri_resolve|intros c]. apply tri_pure. intros ->.
  eapply tri_bind; [apply tri_resolve|intros d]. apply tri_pure. intros ->. exact H.
Qed.

Lemma tri_uninstall (P : option Task -> Prop) :
  tri P (windowsUninstall log) (fun r T => r = None -> T = None).
Proof.
  eapply tri_bind.
  - apply (tri_run _ _ _ _ (fun r T => x_err r = None -> T = None) law_delete). intros w _. cbn. by destruct (x_err _).
  - intros r. destruct (x_err r) eqn:E; cbn beta.
    + by apply tri_ret.
    + eapply tri_bind; [|intros ?; by apply (tri_ret (fun T => T = None))].
      apply tri_unlessNil; [|apply tri_log]; rewrite E; auto.
Qed.

(** No typographic quote in the command, the directory and the time, and no quote in the time. *)
Definition scriptable (cfg : Config.Config) (configPath exe0 : gostring) : Prop :=
  smart_free (Schedule.cmdArgument (taskWorkDir configPath) (taskExe exe0) (taskConfig configPath)) = true
  /\ smart_free (taskWorkDir configPath) = true
  /\ smart_free (taskStart (Config.StartTime cfg)) = true /\ squote ∉ taskStart (Config.StartTime cfg).

Definition plannedRun (configPath exe0 : gostring) : gostring :=
  Schedule.plannedTaskRun (taskWorkDir configPath) (taskExe exe0) (taskConfig configPath).

End Promise.

(** ** A scheduler *)

Definition taskFile : gostring := "C:\Windows\System32\Tasks\MySQLBackup".

Definition storedTask (w : World) : option Task :=
  match w_fs w !! taskFile with
  | Some (NFile (Zip [(_, e); (_, a); (_, wd); (_, t); (_, s)] _) _) => Some (mkTask e a wd t (s ==? str "yes"))
  | _ => None
  end.

Definition taskNode (t : Task) (now : Time) : Node :=
  NFile (Zip [(str "Execute", Execute t); (str "Arguments", Arguments t); (str "WorkingDirectory", WorkingDirectory t);
              (str "At", At t); (str "Settings", if Settings t then str "yes" else str "no")] true) now.

Definition store (T : option Task) (w : World) : World :=
  set_fs (match T with Some t => <[taskFile := taskNode t (w_now w)]> | None => delete taskFile end) w.

Lemma stored_store T w : storedTask (store T w) = T.
Proof.
  unfold storedTask, store. destruct T as [[e a wd t s]|]; simpl.
  - rewrite lookup_insert_eq. by destruct s.
  - by rewrite lookup_delete_eq.
Qed.

Definition parse_workdir (script : gostring) : option gostring :=
  r ← strip_prefix (str "$t = Get-ScheduledTask -TaskName 'MySQLBackup' -ErrorAction SilentlyContinue; if ($t) { $a = $t.Actions[0]; $a.WorkingDirectory = '") script;
  '(wd, r) ← ps_literal false r;
  if r ==? str "; Set-ScheduledTask -TaskName 'MySQLBackup' -Action $a }" then Some wd else None.

Definition parse_register (script : gostring) : option Task :=
  r ← strip_prefix (str "$arg = '") script;
  '(a, r) ← ps_literal false r;
  r ← strip_prefix (str "; $wd = '") r;
  '(wd, r) ← ps_literal false r;
  r ← strip_prefix (str "; $a = New-ScheduledTaskAction -Execute 'cmd.exe' -Argument $arg -WorkingDirectory $wd; $t = New-ScheduledTaskTrigger -Daily -At '") r;
  '(t, r) ← ps_literal false r;
  if r ==? str "; $s = New-ScheduledTaskSettingsSet -WakeToRun -StartWhenAvailable -ExecutionTimeLimit (New-TimeSpan -Hours 12); Register-ScheduledTask -TaskName 'MySQLBackup' -Action $a -Trigger $t -Settings $s -Force"
  then Some (mkTask "cmd.exe" a wd t true) else None.

Definition answers (out : gostring) : ExecResult := mkExec out [] out None.
Definition refuses : ExecResult := mkExec [] (str "ERROR") (str "ERROR") (Some (ExitError 1)).

(** A host with the drive N: on a share, which may refuse to create tasks. *)
Definition demo_powershell (creates : bool) (script : gostring) (w : World) : ExecResult * World :=
  if script ==? runStringScript then
    (answers (match storedTask w with Some t => taskRun t | None => [] end), w)
  else if script ==? remoteNameScript "N:" then (answers "\\srv\share", w)
  else if script ==? settingsScript then (answers [], store (set_settings <$> storedTask w) w)
  else match parse_workdir script with
       | Some wd => (answers [], store (set_workdir wd <$> storedTask w) w)
       | None =>
           match parse_register script with
           | Some t => if creates then (answers [], store (Some t) w) else (refuses, w)
           | None => (refuses, w)
           end
       end.

Definition demo_schtasks (args : list gostring) (w : World) : ExecResult * World :=
  if args ==? queryArgs then (if storedTask w then answers [] else refuses, w)
  else if args ==? deleteArgs then (answers [], store None w)
  else (refuses, w).

Definition demoHost (creates : bool) : TaskHost := mkTaskHost (fun name => "C:\Windows\System32\" ++ name ++ ".exe")
  (fun name args w =>
     if name ==? str "schtasks" then demo_schtasks args w
     else match args with
          | [_; _; _; script] => demo_powershell creates script w
          | _ => (refuses, w)
          end).

(** The scripts as the literals cut them. *)
Lemma workingDirScript_cut q :
  workingDirScript q =
    str "$t = Get-ScheduledTask -TaskName 'MySQLBackup' -ErrorAction SilentlyContinue; if ($t) { $a = $t.Actions[0]; $a.WorkingDirectory = '"
    ++ q ++ squote :: str "; Set-ScheduledTask -TaskName 'MySQLBackup' -Action $a }".
Proof. reflexivity. Qed.

Lemma registerScript_cut qa qw qt :
  registerScript taskNameWindows qa qw qt =
    str "$arg = '" ++ qa ++ squote :: str "; $wd = '" ++ qw ++ squote ::
    str "; $a = New-ScheduledTaskAction -Execute 'cmd.exe' -Argument $arg -WorkingDirectory $wd; $t = New-ScheduledTaskTrigger -Daily -At '"
    ++ qt ++ squote ::
    str "; $s = New-ScheduledTaskSettingsSet -WakeToRun -StartWhenAvailable -ExecutionTimeLimit (New-TimeSpan -Hours 12); Register-ScheduledTask -TaskName 'MySQLBackup' -Action $a -Trigger $t -Settings $s -Force".
Proof. reflexivity. Qed.

Lemma parse_workdir_script q wd : ps_reads q wd -> parse_workdir (workingDirScript q) = Some wd.
Proof.
  intros H. unfold parse_workdir. rewrite workingDirScript_cut, strip_prefix_app. cbn [mbind option_bind].
  rewrite H by reflexivity. cbn [mbind option_bind]. by rewrite bool_decide_eq_true_2.
Qed.

Lemma parse_register_script qa qw qt a wd t :
  ps_reads qa a -> ps_reads qw wd -> ps_reads qt t ->
  parse_register (registerScript taskNameWindows qa qw qt) = Some (mkTask "cmd.exe" a wd t true).
Proof.
  intros Ha Hw Ht. unfold parse_register. rewrite registerScript_cut, strip_prefix_app. cbn [mbind option_bind].
  rewrite Ha by reflexivity. cbn [mbind option_bind]. rewrite strip_prefix_app. cbn [mbind option_bind].
  rewrite Hw by reflexivity. cbn [mbind option_bind]. rewrite strip_prefix_app. cbn [mbind option_bind].
  rewrite Ht by reflexivity. cbn [mbind option_bind]. by rewrite bool_decide_eq_true_2.
Qed.

(** Two scripts that differ in a fixed place. *)
Ltac differ :=
  repeat match goal with
  | |- context [bool_decide (?a = ?b)] => rewrite (bool_decide_eq_false_2 (a = b)) by (let E := fresh in intros E; discriminate E)
  end.

Section Demo.
Variable creates : bool.

Definition demo_remote (d : gostring) : option gostring :=
  if remoteNameScript d ==? remoteNameScript "N:" then Some (str "\\srv\share") else None.

Lemma demo_remoteName d w :
  demo_powershell creates (remoteNameScript d) w =
    (if remoteNameScript d ==? remoteNameScript "N:" then answers "\\srv\share" else refuses, w).
Proof.
  unfold demo_powershell. rewrite (bool_decide_eq_false_2 (remoteNameScript d = runStringScript)) by (intros E; discriminate E).
  destruct (remoteNameScript d ==? remoteNameScript "N:"); [done|]. differ. reflexivity.
Qed.

Lemma demo_settings w : demo_powershell creates settingsScript w = (answers [], store (set_settings <$> storedTask w) w).
Proof. unfold demo_powershell. do 2 (rewrite bool_decide_eq_false_2 by (intros E; discriminate E)). by rewrite bool_decide_eq_true_2. Qed.

Lemma demo_workdir q wd w : ps_reads q wd ->
  demo_powershell creates (workingDirScript q) w = (answers [], store (set_workdir wd <$> storedTask w) w).
Proof. intros H. unfold demo_powershell. differ. by rewrite (parse_workdir_script q wd). Qed.

Lemma demo_register qa qw qt a wd t w : ps_reads qa a -> ps_reads qw wd -> ps_reads qt t ->
  demo_powershell creates (registerScript taskNameWindows qa qw qt) w =
    if creates then (answers [], store (Some (mkTask "cmd.exe" a wd t true)) w) else (refuses, w).
Proof.
  intros Ha Hw Ht. unfold demo_powershell. differ.
  assert (parse_workdir (registerScript taskNameWindows qa qw qt) = None) as -> by reflexivity.
  by rewrite (parse_register_script qa qw qt a wd t).
Qed.

Lemma demo_host_powershell script w :
  @host_run (demoHost creates) "powershell" (powershellArgs script) w = demo_powershell creates script w.
Proof. reflexivity. Qed.

Lemma demo_host_schtasks args w : @host_run (demoHost creates) "schtasks" args w = demo_schtasks args w.
Proof. reflexivity. Qed.

Lemma demo_query w : demo_schtasks queryArgs w = (if storedTask w then answers [] else refuses, w).
Proof. unfold demo_schtasks. by rewrite bool_decide_eq_true_2. Qed.

Lemma demo_list w : demo_schtasks listArgs w = (refuses, w).
Proof. unfold demo_schtasks. by rewrite !bool_decide_eq_false_2. Qed.

Lemma demo_delete w : demo_schtasks deleteArgs w = (answers [], store None w).
Proof. unfold demo_schtasks. rewrite bool_decide_eq_false_2 by done. by rewrite bool_decide_eq_true_2. Qed.

Lemma demo_runString w :
  demo_powershell creates runStringScript w = (answers (match storedTask w with Some t => taskRun t | None => [] end), w).
Proof. unfold demo_powershell. by rewrite bool_decide_eq_true_2. Qed.

#[global] Instance demoHost_laws : TaskHostLaws (demoHost creates).
Proof.
  refine {| task_of := storedTask; remote_name := demo_remote |};
    unfold writes; intros; rewrite ?demo_host_powershell, ?demo_host_schtasks.
  - unfold storedTask. by rewrite H.
  - rewrite demo_query. by destruct (storedTask w).
  - rewrite demo_query. cbn [fst]. destruct (storedTask w); cbn; split; intros H; try done; by destruct H.
  - by rewrite demo_list.
  - rewrite demo_host_schtasks, demo_list in *. done.
  - by rewrite demo_runString.
  - rewrite demo_runString, H. done.
  - rewrite demo_remoteName. by destruct (_ ==? _).
  - rewrite demo_remoteName. unfold demo_remote. by destruct (_ ==? _).
  - rewrite demo_delete. apply stored_store.
  - rewrite demo_settings. apply stored_store.
  - erewrite demo_workdir by done. apply stored_store.
  - erewrite demo_register by done. destruct creates; [apply stored_store|done].
Defined.

End Demo.

(** ** Theorems *)

(** C30: Whatever commands fail, if [ensureWindows] returns no error then the scheduler has a
    task that runs exactly the planned command; if there was none before, it also has the
    wanted directory, start time and settings.  (The paths are free of typographic quotes, and
    the command of a task that is there already is printable ASCII.) *)
Theorem ensureWindows_installs (TH : TaskHost) (TL : TaskHostLaws TH) log env cfg configPath exe0 w w' :
  Config.Executable env = inr exe0 -> scriptable cfg configPath exe0 ->
  (forall t, task_of w = Some t -> console_text (taskRun t) = true) ->
  ensureWindows log env cfg configPath w = (None, w') ->
  exists t, task_of w' = Some t /\ TrimSpace (taskRun t) = plannedRun configPath exe0 /\
    (task_of w = None ->
     WorkingDirectory t = taskWorkDir configPath /\ At t = taskStart (Config.StartTime cfg) /\ Settings t = true).
Proof.
  intros He (Hc & Hd & Hs) Ht E.
  pose proof (tri_ensureWindows log env cfg configPath exe0 _ _ He (tri_ensureTask log _ _ _ _ Hc Hd Hs (task_of w) Ht) w eq_refl) as H.
  rewrite E in H. destruct (H eq_refl) as [HT|(t & HT & Hrun & (t' & HT' & Hx & Ha & _))].
  - eexists. split; [exact HT|]. split; [apply planned_tight|done].
  - exists t'. split; [exact HT'|]. split; [|by rewrite HT]. unfold taskRun. rewrite Hx, Ha. exact Hrun.
Qed.

(** C40: A task that runs the planned command is left alone: it is not created again and
    keeps its trigger, so that another start time in the configuration has no effect. *)
Theorem ensureWindows_keeps_time (TH : TaskHost) (TL : TaskHostLaws TH) log env cfg configPath exe0 w t :
  Config.Executable env = inr exe0 -> scriptable cfg configPath exe0 -> responds runStringScript ->
  task_of w = Some t -> console_text (taskRun t) = true -> TrimSpace (taskRun t) = plannedRun configPath exe0 ->
  fst (ensureWindows log env cfg configPath w) = None /\
  exists t', task_of (snd (ensureWindows log env cfg configPath w)) = Some t' /\
    Execute t' = Execute t /\ Arguments t' = Arguments t /\ At t' = At t.
Proof.
  intros He (Hc & Hd & Hs) Hr Hw Ht Hrun.
  exact (tri_ensureWindows log env cfg configPath exe0 _ _ He (tri_ensureTask_present log _ _ _ _ Hd t Ht Hrun Hr) w Hw).
Qed.

(** A task with another command is deleted before the new one is created: when creating
    fails, the error is returned and no task is left. *)
Theorem failed_update_loses_task (TH : TaskHost) (TL : TaskHostLaws TH) log env cfg configPath exe0 w t :
  Config.Executable env = inr exe0 -> scriptable cfg configPath exe0 ->
  task_of w = Some t -> console_text (taskRun t) = true -> TrimSpace (taskRun t) <> plannedRun configPath exe0 ->
  (forall w, x_err (fst (host_run "schtasks" deleteArgs w)) = None) -> rejects ->
  fst (ensureWindows log env cfg configPath w) <> None /\ task_of (snd (ensureWindows log env cfg configPath w)) = None.
Proof.
  intros He (Hc & Hd & Hs) Hw Ht Hrun Hdel Hrej.
  exact (tri_ensureWindows log env cfg configPath exe0 _ _ He (tri_ensureTask_lost log _ _ _ _ Hc Hd Hs t Ht Hrun Hdel Hrej) w Hw).
Qed.

(** What is removed is gone: after a successful removal the status names no task. *)
Theorem windowsUninstall_status (TH : TaskHost) (TL : TaskHostLaws TH) log env cfg configPath w w' :
  windowsUninstall log w = (None, w') -> task_of w' = None /\ fst (windowsStatus env cfg configPath w') = ([], []).
Proof.
  intros E. assert (task_of w' = None) as HT.
  { pose proof (tri_uninstall log (fun _ => True) w I) as H. rewrite E in H. by apply H. }
  split; [done|]. unfold windowsStatus, mbind, M_bind. pose proof (law_query_exists w') as [Hq _].
  destruct (host_run "schtasks" queryArgs w') as [r w2]. cbn in Hq |- *. rewrite HT in Hq.
  destruct (x_err r); [done|]. by destruct (Hq eq_refl).
Qed.

(** The escaping knows the straight quote only: a literal with a typographic quote, which
    PowerShell takes for a quote, ends there, and the rest of the path is read as commands. *)
Theorem typographic_quote_ends_literal a b c3 rest :
  squote ∉ a -> chr 226 ∉ a -> smart (chr 226) (chr 128) c3 = true ->
  ends_literal (Schedule.escapeForPSSingleQuoted b ++ squote :: rest) ->
  ps_literal false (Schedule.escapeForPSSingleQuoted (a ++ chr 226 :: chr 128 :: c3 :: b) ++ squote :: rest)
  = Some (a, Schedule.escapeForPSSingleQuoted b ++ squote :: rest).
Proof.
  intros Hq H226 Hs Hr. pose proof (smart_no_quote _ _ _ Hs) as [_ H3]. induction a as [|c a IH].
  - cbn [app]. rewrite !escape_cons, (bool_decide_eq_false_2 (chr 226 = squote)), (bool_decide_eq_false_2 (chr 128 = squote)),
      (bool_decide_eq_false_2 (c3 = squote)) by done. cbn [app]. by rewrite ps_literal_smart.
  - apply not_elem_of_cons in Hq as [Hc Hq]. apply not_elem_of_cons in H226 as [H2 H226].
    cbn [app]. rewrite escape_cons, bool_decide_eq_false_2 by congruence. cbn [app].
    rewrite ps_literal_plain; [|congruence|].
    + by rewrite IH.
    + by apply smart_at_226.
Qed.

(** ** Witnesses *)

Definition demoEnv : Config.ProcEnv := Config.mkEnv (inr (str "N:\backup\mysqlbackup.exe")) (inr (str "C:\")) (inr (str "C:\Users\o'neil")).
Definition demoConfig : gostring := "N:\backup\config.json".
Definition demoWorld : World := mkWorld ∅ (mkTime 738000 0) 0 [] [].

(** The planned task with another start time, and a task of an older version. *)
Definition demoTask : Task :=
  mkTask "cmd.exe" (Schedule.cmdArgument "\\srv\share\backup" "\\srv\share\backup\mysqlbackup.exe" "\\srv\share\backup\config.json")
    "\\srv\share\backup" "04:30" true.
Definition oldTask : Task := mkTask "C:\old\mysqlbackup.exe" "--backup" "C:\old" "22:00" true.

Lemma demo_scriptable creates : @scriptable (demoHost creates) _ Config.DefaultConfig demoConfig "N:\backup\mysqlbackup.exe".
Proof. unfold scriptable. split_and!; try (vm_compute; reflexivity). apply (bool_decide_eq_true_1 _). vm_compute. reflexivity. Qed.

Lemma ensureWindows_installs_witness :
  exists t w', @ensureWindows (demoHost true) (Some true) demoEnv Config.DefaultConfig demoConfig demoWorld = (None, w')
    /\ storedTask w' = Some t /\ At t = str "22:00" /\ WorkingDirectory t = str "\\srv\share\backup".
Proof.
  destruct (@ensureWindows (demoHost true) (Some true) demoEnv Config.DefaultConfig demoConfig demoWorld) as [r w'] eqn:E.
  assert (r = None) as -> by (change r with (fst (r, w')); rewrite <- E; vm_compute; reflexivity).
  destruct (ensureWindows_installs (demoHost true) _ (Some true) demoEnv Config.DefaultConfig demoConfig
    "N:\backup\mysqlbackup.exe" demoWorld w' eq_refl (demo_scriptable true) ltac:(done) E) as (t & HT & _ & Ht).
  exists t, w'. destruct (Ht eq_refl) as (H1 & H2 & _). split_and!; [done|exact HT|rewrite H2; reflexivity|rewrite H1; vm_compute; reflexivity].
Defined.

Lemma ensureWindows_keeps_time_witness :
  exists t', storedTask (snd (@ensureWindows (demoHost true) None demoEnv Config.DefaultConfig demoConfig (store (Some demoTask) demoWorld))) = Some t'
    /\ At t' = str "04:30".
Proof.
  destruct (ensureWindows_keeps_time (demoHost true) _ None demoEnv Config.DefaultConfig demoConfig
    "N:\backup\mysqlbackup.exe" (store (Some demoTask) demoWorld) demoTask eq_refl (demo_scriptable true)) as (_ & t' & H & _ & _ & HA).
  - intros w. rewrite demo_host_powershell, demo_runString. reflexivity.
  - apply stored_store.
  - vm_compute. reflexivity.
  - vm_compute. reflexivity.
  - exists t'. split; [exact H|exact HA].
Defined.

Lemma failed_update_loses_task_witness :
  storedTask (store (Some oldTask) demoWorld) = Some oldTask /\
  storedTask (snd (@ensureWindows (demoHost false) None demoEnv Config.DefaultConfig demoConfig (store (Some oldTask) demoWorld))) = None.
Proof.
  split; [apply stored_store|].
  destruct (failed_update_loses_task (demoHost false) _ None demoEnv Config.DefaultConfig demoConfig
    "N:\backup\mysqlbackup.exe" (store (Some oldTask) demoWorld) oldTask eq_refl (demo_scriptable false)) as [_ H].
  - apply stored_store.
  - vm_compute. reflexivity.
  - apply (bool_decide_eq_true_1 _). vm_compute. reflexivity.
  - intros w. rewrite demo_host_schtasks, demo_delete. done.
  - intros qa qw qt w. rewrite demo_host_powershell. unfold demo_powershell. differ.
    destruct (parse_workdir _) eqn:E; [by discriminate E|]. by destruct (parse_register _).
  - exact H.
Defined.

Lemma windowsUninstall_status_witness :
  fst (@windowsStatus (demoHost true) demoEnv Config.DefaultConfig demoConfig (store None (store (Some oldTask) demoWorld))) = ([], []).
Proof.
  destruct (windowsUninstall_status (demoHost true) _ None demoEnv Config.DefaultConfig demoConfig
    (store (Some oldTask) demoWorld) (store None (store (Some oldTask) demoWorld)) eq_refl) as [_ H]. exact H.
Defined.

Lemma typographic_quote_ends_literal_witness :
  ps_literal false (Schedule.escapeForPSSingleQuoted ("C:\Jan" ++ chr 226 :: chr 128 :: chr 153 :: str "s") ++ squote :: str "; x")
  = Some (str "C:\Jan", str "s'; x").
Proof.
  apply (typographic_quote_ends_literal "C:\Jan" "s" (chr 153) "; x"); try reflexivity;
    apply (bool_decide_eq_true_1 _); reflexivity.
Defined.

End WindowsTask.
