(* ===== verification/Restore.v ===== *)
(** * internal/restore, first part: importing archives, and the commands of the server.

    The import of archives ([RestoreFromZips], [restoreZip]), the splitting of command
    lines and the running of the start and stop commands.  The replacement of the data
    directory is in Reinit.v. *)

From S2P Require Import Prelude GoStrings Regexp GoTime GoPath GoRuntime World CrashLogic Config Mysql UserSQL Retention Backup.
Import GoStrings GoTime GoRuntime World CrashLogic.

Module Restore.

(** ** Importing archives *)

(** Whether the program started at a tick reads all of its input before it ends. *)
Class Drain := drained : nat -> gostring -> bool.

(** [strings.EqualFold(s, ".sql")] *)
Definition isSqlExt (s : gostring) : bool := Regexp.MatchAnchored (Regexp.Cat (Regexp.lit_ci ".sql") Regexp.Eot) s.

Definition ErrFormat : err := Errorf "zip: not a valid zip file" [] None.
Definition ErrClosedPipe : err := Errorf "io: read/write on closed pipe" [] None.

Section Restore.
Context {FT : Faults} {EX : Exec} {DR : Drain}.

(** [zip.OpenReader]: an archive without its central directory does not open. *)
Definition zipOpen (p : gostring) : M (err + list (gostring * gostring)) :=
  syscall (fun w =>
    match w_fs w !! p with
    | Some (NFile (Zip es true) _) => (inr es, w)
    | Some (NFile (Zip _ false) _) => (inl ErrFormat, w)
    | Some (NFile (Raw _) _) => (inl ErrFormat, w)
    | Some NDir => (inl (EIO 21), w)
    | None => (inl ENOENT, w)
    end).

Definition sqlEntry (es : list (gostring * gostring)) : option (gostring * gostring) :=
  head (filter (fun e => isSqlExt (GoPath.Ext (fst e)) = true) es).

(** [sqlFile.Open]: reads the local header. *)
Definition entryOpen : M (err + unit) := syscall (fun w => (inr tt, w)).

(** The copying goroutine's error: the reading end is closed when the program has ended. *)
Definition copyErr (content : gostring) : M (option err) :=
  fun w => (if drained (w_tick w) content then None else Some ErrClosedPipe, w).

Definition restoreZip (conn : Mysql.Conn) (zipPath : gostring) : M (option err) :=
  zr ← zipOpen zipPath;
  match zr with
  | inl e => mret (Some e)
  | inr es =>
      match sqlEntry es with
      | None => mret (Some (Errorf "err.restore_sql_missing" [GoPath.Base zipPath] None))
      | Some (_, content) =>
          o ← entryOpen;
          match o with
          | inl e => mret (Some e)
          | inr _ =>
              ce ← copyErr content;
              importErr ← Mysql.ImportSQL conn content;
              match ce with
              | Some e => mret (Some e)
              | None => mret importErr
              end
          end
      end
  end.

Fixpoint restoreLoop (conn : Mysql.Conn) (files : list Retention.BackupFile) : M (option err) :=
  match files with
  | [] => mret None
  | f :: files' =>
      _ ← Info "log.msg.restore_zip" [AStr (GoPath.Base (Retention.Path f))];
      r ← restoreZip conn (Retention.Path f);
      match r with
      | Some e => mret (Some (Errorf "err.restore_zip" [GoPath.Base (Retention.Path f)] (Some e)))
      | None => restoreLoop conn files'
      end
  end.

Definition RestoreFromZips (conn : Mysql.Conn) (files : list Retention.BackupFile) : M (option err) :=
  if bool_decide (length files = 0) then mret (Some (Errorf "err.restore_no_backups" [] None))
  else
    r ← restoreLoop conn files;
    match r with
    | Some e => mret (Some e)
    | None => _ ← Info "log.msg.restore_done" [AInt (Z.of_nat (length files))]; mret None
    end.

End Restore.

(** ** Command lines *)

(** [b.WriteRune(r)]: a byte that is not UTF-8 has become U+FFFD. *)
Definition WriteRune (t : Regexp.tok) : gostring :=
  if (Regexp.rune t =? Regexp.RuneError)%Z then [chr 239; chr 191; chr 189] else Regexp.bytes t.

Fixpoint split_go (inQuote : bool) (b : gostring) (ts : list Regexp.tok) : list gostring :=
  match ts with
  | [] => if b ==? [] then [] else [b]
  | t :: ts' =>
      let r := Regexp.rune t in
      if ((r =? 34) || (r =? 39))%Z then split_go (negb inQuote) b ts'
      else if ((r =? 32) || (r =? 9))%Z then
        if negb inQuote && negb (b ==? []) then b :: split_go inQuote [] ts'
        else if inQuote then split_go inQuote (b ++ WriteRune t) ts'
        else split_go inQuote b ts'
      else split_go inQuote (b ++ WriteRune t) ts'
  end.

Definition splitCommandLine (s : gostring) : list gostring := split_go false [] (Regexp.runes s).

(** The target the model is of. *)
Definition GOOS : gostring := "linux".

(** The program and its arguments; batch files of Windows go through cmd. *)
Definition commandOf (goos command : gostring) : option (gostring * list gostring) :=
  let parts :=
    match splitCommandLine command with
    | [] => None
    | name :: args => Some (name, args)
    end in
  if goos ==? str "windows" then
    let lower := ToLower command in
    if HasSuffix lower ".bat" || HasSuffix lower ".cmd" then Some (str "cmd", [str "/c"; command]) else parts
  else parts.

(** A command of the configuration; [waitForExit] for the stop command.  For a
    command started in the background the result is that of starting it. *)
Definition runMySQLLifecycleCmd {EX : Exec} (command0 : gostring) (waitForExit : bool) : M (option err) :=
  let command := TrimSpace command0 in
  if command ==? [] then mret None
  else match commandOf GOOS command with
       | None => mret None
       | Some (name, args) =>
           r ← run_cmd name args [];
           if negb waitForExit then
             match x_err r with
             | Some e => mret (Some (Errorf "err.start_cmd" [] (Some e)))
             | None => _ ← Info "log.msg.mysql_start_background" []; mret None
             end
           else
             match x_err r with
             | Some e => mret (Some (Errorf "%w (output: %s)" [x_combined r] (Some e)))
             | None =>
                 _ ← (if bool_decide (0 < length (x_combined r)) then Info "log.msg.mysql_lifecycle" [AStr (x_combined r)] else mret tt);
                 mret None
             end
       end.

(** ** Lemmas *)

Section Facts.
Context {FT : Faults} {EX : Exec} {DR : Drain}.

Lemma does_zipOpen p es t now (fs : files) :
  fs !! p = Some (NFile (Zip es true) t) -> does (zipOpen p) now fs (inr es) fs.
Proof. intros H. apply does_syscall. intros w <- <-. by rewrite H. Qed.

Lemma sqlEntry_single db content : sqlEntry [(db ++ ".sql", content)] = Some (db ++ ".sql", content).
Proof.
  unfold sqlEntry. rewrite filter_cons_True; [done|]. cbn [fst].
  transitivity (isSqlExt ("."%char :: str "sql")); [|reflexivity]. f_equal.
  apply (GoPath.Ext_app db "sql"); apply (bool_decide_eq_true_1 _); reflexivity.
Qed.

(** Restoring a complete archive of a database hands its text to the client. *)
Lemma restoreZip_complete conn p db content t w :
  fine w -> w_fs w !! p = Some (NFile (Zip [(db ++ ".sql", content)] true) t) ->
  (forall t, drained t content = true) ->
  exists w1, restoreZip conn p w = Mysql.ImportSQL conn content w1 /\ w_fs w1 = w_fs w /\ fine w1.
Proof.
  intros Hw Hp Hd. destruct (does_zipOpen p _ t (w_now w) _ Hp w Hw eq_refl eq_refl) as (w1 & E1 & Hw1 & Hfs1 & Hn1).
  unfold restoreZip, mbind at 1, M_bind at 1. rewrite E1. rewrite sqlEntry_single.
  assert (does entryOpen (w_now w) (w_fs w) (inr tt) (w_fs w)) as Ho by (apply does_syscall; intros x <- <-; done).
  destruct (Ho w1 Hw1 Hfs1 Hn1) as (w2 & E2 & Hw2 & Hfs2 & _). unfold mbind at 1, M_bind at 1. rewrite E2.
  exists w2. split; [|done]. unfold mbind at 1, M_bind at 1. unfold copyErr. rewrite Hd.
  unfold mbind, M_bind. destruct (Mysql.ImportSQL conn content w2). done.
Qed.

End Facts.

(** *** Splitting *)

(** A word that splitting leaves in one piece: valid UTF-8 without quotes. *)
Definition wordy (t : Regexp.tok) : Prop :=
  Regexp.rune t <> Regexp.RuneError /\ Regexp.rune t <> 34%Z /\ Regexp.rune t <> 39%Z.

#[global] Instance wordy_dec t : Decision (wordy t).
Proof. unfold wordy. apply _. Defined.

Lemma split_go_quoted w b ts :
  Forall wordy w -> split_go true b (w ++ ts) = split_go true (b ++ Regexp.text w) ts.
Proof.
  intros Hw. revert b. induction Hw as [|t w (He & Hq & Hs) _ IH]; intros b.
  - unfold Regexp.text. cbn. by rewrite app_nil_r.
  - cbn [app split_go]. cbv zeta. rewrite (proj2 (Z.eqb_neq _ 34)), (proj2 (Z.eqb_neq _ 39)) by done. cbn [orb negb andb].
    unfold Regexp.text. rewrite bind_cons, app_assoc. fold (Regexp.text w).
    assert (WriteRune t = Regexp.bytes t) as E by (unfold WriteRune; by rewrite (proj2 (Z.eqb_neq _ _))). rewrite E.
    destruct (_ || _); apply IH.
Qed.

Definition dq : ascii := dquote.
Definition inDq (w : gostring) : gostring := [dq] ++ w ++ [dq].

Lemma runes_dq s : Regexp.runes (dq :: s) = Regexp.tok1 dq :: Regexp.runes s.
Proof. by apply Regexp.runes_ascii. Qed.

(** One quoted word, then the end or a blank. *)
Lemma split_go_word w ts :
  w <> [] -> Forall wordy (Regexp.runes w) ->
  split_go false [] (Regexp.tok1 dq :: Regexp.runes w ++ Regexp.tok1 dq :: ts) = split_go false w ts.
Proof.
  intros Hne Hw. cbn [split_go]. change (Regexp.rune (Regexp.tok1 dq)) with 34%Z. cbn [Z.eqb Pos.eqb orb negb].
  rewrite split_go_quoted by done. cbn [app split_go]. change (Regexp.rune (Regexp.tok1 dq)) with 34%Z. cbn [Z.eqb Pos.eqb orb negb].
  by rewrite Regexp.text_runes.
Qed.

Lemma splitCommandLine_quoted ws :
  Forall (fun w => w <> [] /\ Forall wordy (Regexp.runes w)) ws ->
  split_go false [] (Regexp.runes (Join (inDq <$> ws) " ")) = ws.
Proof.
  induction 1 as [|w ws [Hne Hw] Hws IH]; [done|].
  assert (forall s, Regexp.runes (inDq w ++ s) = Regexp.tok1 dq :: Regexp.runes w ++ Regexp.tok1 dq :: Regexp.runes s) as Er.
  { intros s. unfold inDq. rewrite <- !app_assoc. cbn [app]. rewrite runes_dq, Regexp.runes_app_ascii by done. by rewrite runes_dq. }
  destruct ws as [|w' ws].
  - cbn [fmap list_fmap Join]. rewrite <- (app_nil_r (inDq w)), Er, split_go_word by done. cbn. by destruct w.
  - transitivity (split_go false [] (Regexp.runes (inDq w ++ " "%char :: Join (inDq <$> w' :: ws) " "))); [done|].
    rewrite Er, split_go_word, Regexp.runes_ascii by done. cbn [split_go]. change (Regexp.rune (Regexp.tok1 " ")) with 32%Z.
    cbn [Z.eqb Pos.eqb orb negb andb]. rewrite (bool_decide_eq_false_2 (w = [])) by done. cbn [negb]. by rewrite IH.
Qed.

(** ** Theorems *)

(** C9: Backup and restore round-trip: after a successful backup run, restoring the archive
    of a database hands to the client exactly the text the backup put together, the dump
    followed by the users' block, provided the client reads all of its input. *)
Theorem backup_restore_roundtrip (FT : Faults) (AS : ArchiveSize) (EX : Exec) (MO : MapOrder) (DR : Drain)
    cfg conn userSQL dbs isMariaDB dump w db :
  let dir := Config.BackupDir cfg in
  let date := FormatDate (w_now w) in
  let host := Backup.hostnameForFile (Config.HostnameForBackup cfg) in
  let users := fst (fst (UserSQL.ParseUserSQL userSQL)) in
  let sql := x_out (dump db) ++ concat (Backup.userPieces (default [] (users !! db))) in
  fine w -> (0 <= Year (w_now w) <= 9999)%Z ->
  GoPath.Clean dir = dir -> w_fs w !! dir = Some NDir -> Backup.no_dirs dir (w_fs w) ->
  Forall (Backup.dumpable conn isMariaDB dump) dbs -> db ∈ dbs ->
  (forall t, drained t sql = true) ->
  let w' := snd (Backup.Run cfg conn userSQL dbs isMariaDB w) in
  exists w1, restoreZip conn (Backup.zipPathOf dir date host db) w' = Mysql.ImportSQL conn sql w1 /\ w_fs w1 = w_fs w'.
Proof.
  intros dir date host users sql Hw Hy Hc Hd Hn Hall Hin Hdr w'.
  destruct (Backup.does_Run cfg conn userSQL dbs isMariaDB dump w Hw Hy Hc Hd Hn Hall) as (Hfine & Hlookup).
  destruct (restoreZip_complete conn (Backup.zipPathOf dir date host db) db sql (w_now w) w' Hfine) as (w1 & E & Hfs & _);
    [by apply Hlookup|done|]. by exists w1.
Qed.

(** An archive whose writing was interrupted is not restored: opening it fails, before
    anything is handed to the client. *)
Theorem restoreZip_unfinished (FT : Faults) (EX : Exec) (DR : Drain) conn p es t w :
  fine w -> w_fs w !! p = Some (NFile (Zip es false) t) -> fst (restoreZip conn p w) = Some ErrFormat.
Proof.
  intros Hw Hp. unfold restoreZip, mbind at 1, M_bind at 1.
  assert (does (zipOpen p) (w_now w) (w_fs w) (inl ErrFormat) (w_fs w)) as Ho
    by (apply does_syscall; intros x Hx Hnow; rewrite Hx, Hp; done).
  destruct (Ho w Hw eq_refl eq_refl) as (w1 & -> & _). done.
Qed.

(** If the client fails before it has read all of its input, its error is lost: the
    caller sees the error of the closed pipe instead. *)
Theorem restoreZip_masks_error (FT : Faults) (EX : Exec) (DR : Drain) conn p db content t w :
  fine w -> w_fs w !! p = Some (NFile (Zip [(db ++ ".sql", content)] true) t) ->
  (forall t, drained t content = false) ->
  fst (restoreZip conn p w) = Some ErrClosedPipe.
Proof.
  intros Hw Hp Hd. destruct (does_zipOpen p _ t (w_now w) _ Hp w Hw eq_refl eq_refl) as (w1 & E1 & Hw1 & Hfs1 & Hn1).
  unfold restoreZip, mbind at 1, M_bind at 1. rewrite E1, sqlEntry_single.
  assert (does entryOpen (w_now w) (w_fs w) (inr tt) (w_fs w)) as Ho by (apply does_syscall; intros x <- <-; done).
  destruct (Ho w1 Hw1 Hfs1 Hn1) as (w2 & E2 & _). unfold mbind at 1, M_bind at 1. rewrite E2.
  unfold mbind, M_bind, copyErr. rewrite Hd. by destruct (Mysql.ImportSQL conn content w2).
Qed.

(** A command line of double-quoted words is split into exactly these words, blanks and
    tabs inside them kept. *)
Theorem splitCommandLine_roundtrip ws :
  Forall (fun w => w <> [] /\ Forall wordy (Regexp.runes w)) ws ->
  splitCommandLine (Join (inDq <$> ws) " ") = ws.
Proof. apply splitCommandLine_quoted. Qed.

(** ** Witnesses *)

Definition readsAll : Drain := fun _ _ => true.
Definition stopsEarly : Drain := fun _ _ => false.

Lemma backup_restore_roundtrip_witness :
  exists w1, @restoreZip NoFaults (Backup.sampleExec "dump" None) readsAll Backup.sampleConn (Backup.zipPathOf "/b" "20240115" "localhost" "shop")
    (snd (@Backup.Run NoFaults Backup.sampleSizes (Backup.sampleExec "dump" None) _ Backup.sampleCfg Backup.sampleConn Backup.sampleUserSQL
            [str "shop"; str "crm"] false (Backup.sampleWorld Backup.sampleFs)))
  = @Mysql.ImportSQL (Backup.sampleExec "dump" None) Backup.sampleConn
      ("dump" ++ concat (Backup.userPieces (default [] (fst (fst (UserSQL.ParseUserSQL Backup.sampleUserSQL)) !! str "shop")))) w1.
Proof.
  destruct (backup_restore_roundtrip NoFaults Backup.sampleSizes (Backup.sampleExec "dump" None) _ readsAll Backup.sampleCfg Backup.sampleConn
    Backup.sampleUserSQL [str "shop"; str "crm"] false (fun _ => mkExec (str "dump") [] (str "dump") None) (Backup.sampleWorld Backup.sampleFs)
    (str "shop")) as (w1 & E & _).
  - apply Backup.fine_NoFaults.
  - vm_compute. split; discriminate.
  - reflexivity.
  - reflexivity.
  - apply Backup.no_dirs_check. reflexivity.
  - repeat constructor; apply (bool_decide_eq_true_1 _); reflexivity.
  - left.
  - reflexivity.
  - exists w1. exact E.
Defined.

Definition unfinishedFs : files := <[Backup.sampleZip := NFile (Zip [(str "shop.sql", str "half")] false) Backup.sampleDay]> ∅.

Lemma restoreZip_unfinished_witness :
  fst (@restoreZip NoFaults (Backup.sampleExec [] None) readsAll Backup.sampleConn Backup.sampleZip (Backup.sampleWorld unfinishedFs)) = Some ErrFormat.
Proof.
  apply (restoreZip_unfinished NoFaults (Backup.sampleExec [] None) readsAll Backup.sampleConn Backup.sampleZip [(str "shop.sql", str "half")]
    Backup.sampleDay); [apply Backup.fine_NoFaults|reflexivity].
Defined.

Lemma restoreZip_masks_error_witness :
  fst (@restoreZip NoFaults (Backup.sampleExec [] (Some (ExitError 1))) stopsEarly Backup.sampleConn Backup.sampleZip
    (Backup.sampleWorld Backup.sampleFs)) = Some ErrClosedPipe.
Proof.
  apply (restoreZip_masks_error NoFaults (Backup.sampleExec [] (Some (ExitError 1))) stopsEarly Backup.sampleConn Backup.sampleZip
    (str "shop") (str "old") Backup.sampleDay); [apply Backup.fine_NoFaults|reflexivity|reflexivity].
Defined.

Lemma splitCommandLine_roundtrip_witness :
  splitCommandLine (Join (inDq <$> [str "/opt/my sql/bin/start"; str "--user=db"]) " ") = [str "/opt/my sql/bin/start"; str "--user=db"].
Proof.
  apply (splitCommandLine_roundtrip [str "/opt/my sql/bin/start"; str "--user=db"]).
  apply (bool_decide_eq_true_1 _). vm_compute. reflexivity.
Defined.

End Restore.
