(* ===== verification/Reinit.v ===== *)
(** * internal/restore, second part: replacing the data directory.

    [FullReinit] stops the server, moves its data directory aside to a name with ".old",
    copies the template directory of the installation in its place and starts the server
    again. *)

From S2P Require Import Prelude GoStrings GoTime GoPath World CrashLogic FileTree Polling Config Restore.
Import GoStrings GoTime World CrashLogic FileTree Polling.

Module Reinit.

Section Flow.
Context {FT : Faults} {EX : Exec} {NT : Net}.

(** ** Copying *)

Definition Close : M (err + unit) := syscall (fun w => (inr tt, w)).

Definition asError (r : err + unit) : option err := match r with inl e => Some e | inr _ => None end.

(** Reading the open file to its end and writing it; a directory opens but does not read. *)
Definition ioCopy (dst : gostring) (n : Node) : M (err + unit) :=
  match n with
  | NFile d _ => Write dst d
  | NDir => mret (inl (EIO 21))
  end.

Definition copyFile (src dst : gostring) : M (option err) :=
  f ← Open src;
  match f with
  | inl e => mret (Some e)
  | inr n =>
      out ← Create dst;
      match out with
      | inl e => mret (Some e)
      | inr _ =>
          c ← ioCopy dst n;
          match c with
          | inl e => _ ← Close; mret (Some e)
          | inr _ => r ← Close; mret (asError r)
          end
      end
  end.

(** The function called for every entry of the walk. *)
Definition copyEntry (srcDir dstDir path : gostring) (x : err + Node) : M (option err) :=
  match x with
  | inl e => mret (Some e)
  | inr d =>
      match Rel srcDir path with
      | inl e => mret (Some e)
      | inr rel =>
          if rel ==? str "." then mret None
          else
            let target := GoPath.Join dstDir rel in
            info ← Stat path;
            match info with
            | inl e => mret (Some e)
            | inr _ =>
                match d with
                | NDir => r ← MkdirAll target; mret (asError r)
                | NFile _ _ => copyFile path target
                end
            end
      end
  end.

Definition copyDir (srcDir dstDir : gostring) : M (option err) :=
  mk ← MkdirAll dstDir;
  match mk with
  | inl e => mret (Some e)
  | inr _ => WalkDir srcDir (copyEntry srcDir dstDir)
  end.

(** ** The server *)

Definition portReachable (host : gostring) (port : Z) : M bool := Dials host port.

Definition waitForPortState (host : gostring) (port : Z) (wantOpen : bool) (timeout interval : Z) : M bool :=
  poll_for timeout interval (open ← portReachable host port; mret (Bool.eqb open wantOpen)).

Definition stopServer (cfg : Config.Config) : M (option err) :=
  open ← portReachable (Config.MySQLHost cfg) (Config.MySQLPort cfg);
  if (open : bool) then
    if TrimSpace (Config.MySQLStopCmd cfg) ==? [] then mret (Some (Errorf "err.restorefull_stop_required" [] None))
    else
      _ ← Info "log.msg.mysql_stopping" [AStr (Config.MySQLStopCmd cfg)];
      e ← Restore.runMySQLLifecycleCmd (Config.MySQLStopCmd cfg) true;
      match e with
      | Some e => mret (Some (Errorf "err.restorefull_stop" [] (Some e)))
      | None =>
          ok ← waitForPortState (Config.MySQLHost cfg) (Config.MySQLPort cfg) false (30 * Second) (1 * Second);
          if negb ok then mret (Some (Errorf "err.restorefull_stop_timeout" [] None)) else mret None
      end
  else mret None.

Definition startServer (cfg : Config.Config) : M (option err) :=
  if TrimSpace (Config.MySQLStartCmd cfg) ==? [] then mret (Some (Errorf "err.restorefull_start_required" [] None))
  else
    _ ← Info "log.msg.mysql_starting" [AStr (Config.MySQLStartCmd cfg)];
    e ← Restore.runMySQLLifecycleCmd (Config.MySQLStartCmd cfg) false;
    match e with
    | Some e => mret (Some (Errorf "err.restorefull_start" [] (Some e)))
    | None =>
        ok ← waitForPortState (Config.MySQLHost cfg) (Config.MySQLPort cfg) true (60 * Second) (2 * Second);
        if negb ok then mret (Some (Errorf "err.restorefull_start_timeout" [] None)) else mret None
    end.

(** ** The replacement *)

Definition dataDirOf (cfg : Config.Config) : gostring := GoPath.FromSlash (GoPath.Clean (TrimSpace (Config.MySQLDataDir cfg))).

Definition backupDirOf (cfg : Config.Config) : gostring :=
  let backupDir := TrimSpace (Config.MySQLBackupDir cfg) in
  let backupDir := if backupDir ==? [] then GoPath.Join (GoPath.Dir (TrimSpace (Config.MySQLDataDir cfg))) "backup" else backupDir in
  GoPath.FromSlash (GoPath.Clean backupDir).

(** The checks before anything is done. *)
Definition checkDirs (dataDir backupDir dataOldDir : gostring) : M (option err) :=
  b ← Stat backupDir;
  match b with
  | inl e => mret (Some (Errorf "err.restorefull_backup_dir" [] (Some e)))
  | inr (NFile _ _) => mret (Some (Errorf "err.restorefull_backup_dir" [] (Some (Errorf "not a directory" [] None))))
  | inr NDir =>
      o ← Stat dataOldDir;
      match o with
      | inr _ => mret (Some (Errorf "err.restorefull_data_old_exists" [dataOldDir] None))
      | inl e =>
          if negb (IsNotExist e) then mret (Some (Errorf "err.restorefull_data_old_stat" [] (Some e)))
          else
            d ← Stat dataDir;
            match d with
            | inl e => mret (Some (Errorf "err.restorefull_data_dir_missing" [] (Some e)))
            | inr _ => mret None
            end
      end
  end.

Definition replaceData (dataDir backupDir dataOldDir : gostring) : M (option err) :=
  _ ← Info "log.msg.restorefull_rename" [AStr dataDir; AStr dataOldDir];
  r ← RenameTree dataDir dataOldDir;
  match r with
  | inl e => mret (Some (Errorf "err.restorefull_rename" [] (Some e)))
  | inr _ =>
      _ ← Info "log.msg.restorefull_copy" [AStr backupDir; AStr dataDir];
      c ← copyDir backupDir dataDir;
      match c with
      | Some e => mret (Some (Errorf "err.restorefull_copy" [] (Some e)))
      | None => mret None
      end
  end.

(** [if err := m; err != nil { return err }], then the rest. *)
Definition orElse (m rest : M (option err)) : M (option err) :=
  e ← m;
  match e with
  | Some e => mret (Some e)
  | None => rest
  end.

Definition FullReinit (cfg : Config.Config) : M (option err) :=
  if TrimSpace (Config.MySQLDataDir cfg) ==? [] then mret (Some (Errorf "err.restorefull_data_dir" [] None))
  else
    let dataDir := dataDirOf cfg in
    let backupDir := backupDirOf cfg in
    let dataOldDir := dataDir ++ ".old" in
    orElse (checkDirs dataDir backupDir dataOldDir)
      (orElse (stopServer cfg)
        (orElse (replaceData dataDir backupDir dataOldDir)
          (startServer cfg))).

End Flow.

(** ** Lemmas: what stays true after every call *)

Definition keeps {A : Type} (J : files -> Prop) (m : M A) : Prop := spec J J m (fun _ => J).

Section Keeps.
Context {FT : Faults} {EX : Exec} {NT : Net} (J : files -> Prop).

Lemma keeps_ret {A : Type} (x : A) : keeps J (mret x).
Proof using Type. by apply spec_ret. Qed.

Lemma keeps_bind {A B : Type} (m : M A) (f : A -> M B) : keeps J m -> (forall x, keeps J (f x)) -> keeps J (m ≫= f).
Proof using Type. intros Hm Hf. eapply spec_bind; [exact Hm|]. intros x. apply Hf. Qed.

Lemma keeps_log l key args : keeps J (log_at l key args).
Proof using Type. by apply spec_log. Qed.

Lemma keeps_run_cmd cmd args stdin : keeps J (run_cmd cmd args stdin).
Proof using Type. by apply spec_run_cmd. Qed.

Lemma keeps_syscall {A : Type} (act : World -> (err + A) * World) :
  (forall w, J (w_fs w) -> w_hist (snd (act w)) = w_hist w /\ J (w_fs (snd (act w)))) -> keeps J (syscall act).
Proof using Type. intros H. apply spec_syscall; [done|done|]. intros w Hw. destruct (H w Hw). done. Qed.

Lemma keeps_Stat p : keeps J (Stat p).
Proof using Type. by apply keeps_syscall. Qed.

Lemma keeps_Open p : keeps J (Open p).
Proof using Type. by apply keeps_syscall. Qed.

Lemma keeps_Close : keeps J Close.
Proof using Type. by apply keeps_syscall. Qed.

Lemma keeps_timed check : keeps J check -> keeps J (timed check).
Proof using Type. intros Hc w Hw. specialize (Hc w Hw). unfold timed. by destruct (check w). Qed.

Lemma keeps_poll_for timeout interval check : keeps J check -> keeps J (poll_for timeout interval check).
Proof using Type.
  intros Hc w Hw. unfold poll_for, mbind, M_bind, get_now. generalize (Add (w_now w) timeout) as deadline. intros deadline. revert w Hw.
  induction (pollFuel timeout interval) as [|fuel IH]; [by apply keeps_ret|]. intros w Hw.
  set (body := ok ← timed check; if (ok : bool) then mret true else _ ← Sleep interval; poll fuel deadline interval check).
  enough (keeps J body) as H.
  { change (poll (S fuel) deadline interval check w) with ((if Before (w_now w) deadline then body else mret false) w).
    destruct (Before (w_now w) deadline); [by apply H|by apply keeps_ret]. }
  apply keeps_bind; [by apply keeps_timed|]. intros [|]; [apply keeps_ret|]. apply keeps_bind; [|intros []; exact IH].
  intros w1 Hw1. split; [by exists []|done].
Qed.

Lemma keeps_Dials host port : keeps J (Dials host port).
Proof using Type. intros w Hw. split; [by exists []|done]. Qed.

Lemma keeps_until_error {A : Type} (xs : list A) body : (forall x, x ∈ xs -> keeps J (body x)) -> keeps J (until_error xs body).
Proof using Type.
  induction xs as [|x xs IH]; intros Hb; [apply keeps_ret|]. cbn [until_error]. apply keeps_bind; [apply Hb; left|].
  intros [e|]; [apply keeps_ret|]. apply IH. intros y Hy. apply Hb. by right.
Qed.

End Keeps.

#[export] Hint Resolve keeps_ret keeps_log keeps_run_cmd keeps_Stat keeps_Open keeps_Close keeps_Dials : keeps.

Ltac solve_keeps := repeat (intros; cbv zeta; first [solve [eauto 2 with keeps] | apply keeps_log | apply keeps_poll_for | apply keeps_bind | case_match]).

Section Server.
Context {FT : Faults} {EX : Exec} {NT : Net} (J : files -> Prop).

Lemma keeps_lifecycle cmd b : keeps J (Restore.runMySQLLifecycleCmd cmd b).
Proof using Type. unfold Restore.runMySQLLifecycleCmd. solve_keeps. Qed.

Lemma keeps_stopServer cfg : keeps J (stopServer cfg).
Proof using Type. unfold stopServer, waitForPortState, portReachable. pose proof keeps_lifecycle. solve_keeps. Qed.

Lemma keeps_startServer cfg : keeps J (startServer cfg).
Proof using Type. unfold startServer, waitForPortState, portReachable. pose proof keeps_lifecycle. solve_keeps. Qed.

Lemma keeps_checkDirs dataDir backupDir dataOldDir : keeps J (checkDirs dataDir backupDir dataOldDir).
Proof using Type. unfold checkDirs. solve_keeps. Qed.

End Server.

(** *** Copying below a directory *)

Section Copy.
Context {FT : Faults} (bs ds : list gostring) (J : files -> Prop).
Hypothesis Hbs : names bs.
Hypothesis Hds : names ds.
Hypothesis J_more : forall fs fs' : files, fs ⊆ fs' -> J fs -> J fs'.
Hypothesis J_file : forall (fs : files) r d t, names r -> J fs -> J (<[pathOf (ds ++ r) := NFile d t]> fs).

Lemma keeps_MkdirAll p : keeps J (MkdirAll p).
Proof using J_more.
  apply keeps_syscall. intros w Hw. destruct (w_fs w !! p) as [[|]|]; [done|..];
    (destruct (mkdirs_keeps (ancestors [] p) w); split; [done|by eapply J_more]).
Qed.

Lemma keeps_copyEntry r x : names r -> keeps J (copyEntry (pathOf bs) (pathOf ds) (pathOf (bs ++ r)) x).
Proof using All.
  intros Hr. unfold copyEntry. destruct x as [e|d]; [apply keeps_ret|]. rewrite Rel_pathOf by done.
  destruct (decide (r = [])) as [->|Hne]; [apply keeps_ret|]. rewrite (bool_decide_eq_false_2 (r = [])) by done.
  case_if; [apply keeps_ret|]. cbv zeta. rewrite Join_rel by done. apply keeps_bind; [apply keeps_Stat|]. intros [e|_]; [apply keeps_ret|].
  destruct d as [|d t]; [apply keeps_bind; [apply keeps_MkdirAll|intros; apply keeps_ret]|].
  unfold copyFile, ioCopy. apply keeps_bind; [apply keeps_Open|]. intros [e|n]; [apply keeps_ret|].
  apply keeps_bind; [apply spec_Create; auto|]. intros [e|_]; [apply keeps_ret|].
  apply keeps_bind; [destruct n; [apply keeps_ret|apply spec_Write; auto]|]. intros [e|_]; solve_keeps.
Qed.

Lemma keeps_walkDir fuel r d : names r -> keeps J (walkDir fuel (pathOf (bs ++ r)) d (copyEntry (pathOf bs) (pathOf ds))).
Proof using All.
  revert r d. induction fuel as [|fuel IH]; intros r d Hr; [apply keeps_ret|]. cbn [walkDir].
  apply keeps_bind; [by apply keeps_copyEntry|]. intros [e|]; [apply keeps_ret|]. destruct d; [|apply keeps_ret].
  eapply (spec_bind _ _ _ _ (fun r fs => J fs /\ forall es, r = inr es -> forall e, e ∈ es -> GoPath.plain (fst e))).
  { apply spec_syscall; [done|done|]. intros w Hw. destruct (w_fs w !! _) as [[|]|]; (split_and!; [done..|]); intros es [= <-].
    intros [x n] Hin. rewrite merge_sort_Permutation in Hin. by apply elem_of_dir_entries in Hin as [? _]. }
  intros [e|es]; (eapply spec_pre; intros fs [Hfs Hes]; eapply (spec_conseq J J _ _ (fun _ => J)); [by intros ? <-|done|]).
  - by apply keeps_copyEntry.
  - apply keeps_until_error. intros [x n] Hin. specialize (Hes es eq_refl _ Hin). simpl in Hes.
    rewrite Join_pathOf, <- app_assoc by (done || by apply names_app). apply IH. by apply names_snoc.
Qed.

Lemma keeps_copyDir : keeps J (copyDir (pathOf bs) (pathOf ds)).
Proof using All.
  unfold copyDir. apply keeps_bind; [apply keeps_MkdirAll|]. intros [e|_]; [apply keeps_ret|]. unfold WalkDir.
  pose proof (keeps_copyEntry []) as He. pose proof (fun d => keeps_walkDir PATH_MAX [] d) as Hw. rewrite app_nil_r in He, Hw.
  apply keeps_bind; [apply keeps_Stat|]. intros [e|d]; [by apply He|by apply Hw].
Qed.

End Copy.

(** *** A copy without errors *)

Definition stamp (now : Time) (n : Node) : Node := match n with NDir => NDir | NFile d _ => NFile d now end.

(** All directories down to a path are there. *)
Definition dirs_to (es : list gostring) (fs : files) : Prop :=
  forall es1 es2, es1 <> [] -> es = es1 ++ es2 -> fs !! pathOf es1 = Some NDir.

Section CopyDoes.
Context {FT : Faults} (bs ds : list gostring) (now : Time).
Hypothesis Hbs : names bs.
Hypothesis Hds : names ds.
Hypothesis Hds0 : ds <> [].
Hypothesis Hapart : forall r r', bs ++ r <> ds ++ r'.

(** The entries [S] of the source have been copied, and nothing else has changed. *)
Definition grafted (S : list gostring -> Prop) (fs fs' : files) : Prop :=
  (forall r n, names r -> S r -> r <> [] -> fs !! pathOf (bs ++ r) = Some n -> fs' !! pathOf (ds ++ r) = Some (stamp now n)) /\
  (forall k, (forall r n, names r -> S r -> r <> [] -> k = pathOf (ds ++ r) -> fs !! pathOf (bs ++ r) = Some n -> False) -> fs' !! k = fs !! k).

Lemma path_apart r r' : names r -> names r' -> pathOf (bs ++ r) <> pathOf (ds ++ r').
Proof using Hbs Hds Hapart. intros Hr Hr' E. apply pathOf_inj in E; [by apply Hapart in E|auto using names_app..]. Qed.

Lemma path_ds r r' : names r -> names r' -> pathOf (ds ++ r) = pathOf (ds ++ r') -> r = r'.
Proof using Hds. intros Hr Hr' E. apply pathOf_inj in E; [by apply app_inv_head in E|auto using names_app..]. Qed.

Lemma grafted_src S fs fs' r : names r -> grafted S fs fs' -> fs' !! pathOf (bs ++ r) = fs !! pathOf (bs ++ r).
Proof using Hbs Hds Hapart. intros Hr [_ H]. apply H. intros r' n Hr' _ _ E _. by apply path_apart in E. Qed.

Lemma grafted_trans (S1 S2 S : list gostring -> Prop) fs fs1 fs2 :
  (forall r, S r <-> S1 r \/ S2 r) -> (forall r, S1 r -> S2 r -> False) -> grafted S1 fs fs1 -> grafted S2 fs1 fs2 -> grafted S fs fs2.
Proof using Hbs Hds Hapart.
  intros HS Hdis G1 G2. pose proof (fun r Hr => grafted_src S1 fs fs1 r Hr G1) as Hsrc. destruct G1 as [A1 B1], G2 as [A2 B2]. split.
  - intros r n Hr [H1|H2]%HS Hne Hn; [|apply A2; [done..|]; by rewrite Hsrc]. rewrite B2; [by apply A1|].
    intros r' n' Hr' H2 _ E _. apply path_ds in E as ->; [by eapply Hdis|done|done].
  - intros k Hk. rewrite B2, B1; [done|..].
    + intros r n Hr H1 Hne -> Hn. eapply (Hk r n); try done. apply HS. by left.
    + intros r n Hr H2 Hne -> Hn. rewrite Hsrc in Hn by done. eapply (Hk r n); try done. apply HS. by right.
Qed.

Lemma grafted_ext (S S' : list gostring -> Prop) (fs fs' : files) :
  (forall r n, names r -> fs !! pathOf (bs ++ r) = Some n -> S' r <-> S r) -> grafted S fs fs' -> grafted S' fs fs'.
Proof using Type.
  intros HS [A B]. split.
  - intros r n Hr H1 Hne Hn. apply A; try done. by apply (HS r n).
  - intros k Hk. apply B. intros r n Hr H1 Hne E Hn. apply (Hk r n); try done. by apply (HS r n).
Qed.

Lemma grafted_one r n (fs : files) : names r -> r <> [] -> fs !! pathOf (bs ++ r) = Some n -> grafted (eq r) fs (<[pathOf (ds ++ r) := stamp now n]> fs).
Proof using Hds.
  intros Hr Hne Hn. split.
  - intros r' n' Hr' <- _ Hn'. rewrite Hn in Hn'. injection Hn' as <-. by rewrite lookup_insert_eq.
  - intros k Hk. rewrite lookup_insert_ne; [done|]. intros <-. by eapply (Hk r n).
Qed.

Lemma does_Close (fs : files) : does Close now fs (inr tt) fs.
Proof using Type. apply does_syscall. by intros w <- <-. Qed.

(** One entry. *)
Lemma does_copyEntry q x n (fs : files) :
  names q -> GoPath.plain x -> fs !! pathOf (bs ++ q ++ [x]) = Some n -> fs !! pathOf (ds ++ q ++ [x]) = None -> dirs_to (ds ++ q) fs ->
  does (copyEntry (pathOf bs) (pathOf ds) (pathOf (bs ++ q ++ [x])) (inr n)) now fs None (<[pathOf (ds ++ q ++ [x]) := stamp now n]> fs).
Proof using All.
  intros Hq Hx Hn Hnone Hdirs. assert (names (q ++ [x])) as Hqx by auto using names_snoc.
  assert (q ++ [x] <> []) as Hne by by destruct q. unfold copyEntry. rewrite Rel_pathOf, (bool_decide_eq_false_2 (q ++ [x] = [])) by done.
  rewrite bool_decide_eq_false_2.
  2: { intros E. pose proof (Join_rel [] (q ++ [x]) ltac:(constructor) Hqx Hne) as E2.
       rewrite E in E2. apply (f_equal GoPath.clean_elems) in E2. rewrite clean_elems_pathOf in E2 by done. vm_compute in E2. by destruct q. }
  cbv zeta. rewrite Join_rel by done. eapply does_bind; [apply does_Stat|]. rewrite Hn.
  destruct n as [|d t]; cbv iota.
  - rewrite (app_assoc ds) in Hnone |- *. eapply does_bind; [apply does_MkdirAll_new; auto using names_app|apply does_ret].
  - unfold copyFile. eapply does_bind; [apply does_Open|]. rewrite Hn. cbv iota.
    eapply does_bind; [apply does_Create; [by rewrite Hnone|]|].
    { rewrite app_assoc, Dir_pathOf by auto using names_app. apply (Hdirs _ []); [by destruct ds|by rewrite app_nil_r]. }
    cbv iota. cbn [ioCopy]. eapply does_bind; [apply does_Write|]. cbv iota. eapply does_bind; [apply does_Close|].
    eapply does_eq; [apply does_ret|]. apply insert_insert_eq.
Qed.

(** Ready for the walk of the tree below [r]. *)
Definition walkable (fuel : nat) (r : list gostring) (fs : files) : Prop :=
  (forall q x n, names q -> GoPath.plain x -> fs !! pathOf (bs ++ q ++ [x]) = Some n -> fs !! pathOf (bs ++ q) = Some NDir) /\
  (forall r', names r' -> r ++ r' <> [] -> fs !! pathOf (ds ++ r ++ r') = None) /\
  dirs_to (ds ++ removelast r) fs /\
  (forall r' n, names r' -> fs !! pathOf (bs ++ r ++ r') = Some n -> length r' < fuel).

(** The children [xs] of [r], each with its tree. *)
Definition under (r xs : list gostring) (q : list gostring) : Prop := exists x r', x ∈ xs /\ q = r ++ [x] ++ r'.

Lemma prefix_under (r q : list gostring) : r `prefix_of` q <-> r = q \/ exists x r', q = r ++ [x] ++ r'.
Proof using Type.
  split; [intros [[|x r'] ->]; [left; by rewrite app_nil_r|right; by exists x, r']|].
  intros [->|(x & r' & ->)]; [done|by eexists].
Qed.

(** Copying one tree leaves the others as they are, ready to be walked. *)
Lemma walkable_sibling fuel r x x' fs fs1 :
  names r -> GoPath.plain x' -> x' <> x -> grafted (prefix (r ++ [x])) fs fs1 -> walkable fuel (r ++ [x']) fs -> walkable fuel (r ++ [x']) fs1.
Proof using All.
  intros Hr Hx' Hne G (Hsw & Hempty & Hdirs & Hdepth). assert (names (r ++ [x'])) as Hrx by auto using names_snoc.
  pose proof (fun q Hq => grafted_src _ fs fs1 q Hq G) as Hsrc. destruct G as [_ G2]. split_and!.
  - intros q y n Hq Hy. rewrite !Hsrc by auto using names_snoc. by apply Hsw.
  - intros r' Hr' _. rewrite G2; [by apply Hempty; [|destruct r]|]. intros q n Hq [q' ->] _ E _.
    apply path_ds in E; [|auto using names_app..]. rewrite <- !app_assoc in E. apply app_inv_head in E. by injection E.
  - intros es1 es2 Hes E. rewrite G2; [by eapply Hdirs|]. intros q n Hq [q' ->] _ Ep _.
    apply pathOf_inj in Ep; [|assert (names (es1 ++ es2)) as H|by auto using names_app].
    + subst es1. rewrite removelast_last in E. apply (f_equal length) in E. rewrite !length_app in E. simpl in E. lia.
    + rewrite <- E, removelast_last. auto using names_app.
    + by apply Forall_app in H as [? _].
  - intros r' n Hr'. rewrite Hsrc by auto using names_app. by apply Hdepth.
Qed.

Lemma does_children fuel r (xs : list (gostring * Node)) (fs : files) :
  names r -> NoDup (fst <$> xs) -> (forall x n, (x, n) ∈ xs -> GoPath.plain x /\ fs !! pathOf (bs ++ r ++ [x]) = Some n) ->
  (forall x n fs, GoPath.plain x -> fs !! pathOf (bs ++ r ++ [x]) = Some n -> walkable fuel (r ++ [x]) fs ->
     exists fs', does (walkDir fuel (pathOf (bs ++ r ++ [x])) n (copyEntry (pathOf bs) (pathOf ds))) now fs None fs' /\ grafted (prefix (r ++ [x])) fs fs') ->
  (forall x n, (x, n) ∈ xs -> walkable fuel (r ++ [x]) fs) ->
  exists fs', does (until_error xs (fun '(name, d1) => walkDir fuel (GoPath.Join (pathOf (bs ++ r)) name) d1 (copyEntry (pathOf bs) (pathOf ds)))) now fs None fs'
    /\ grafted (under r (fst <$> xs)) fs fs'.
Proof using All.
  intros Hr Hnd Hxs Hwalk. revert fs Hnd Hxs. induction xs as [|[x n] xs IH]; intros fs Hnd Hxs Hok.
  { exists fs. split; [apply does_ret|]. split; [by intros q m _ (x & r' & []%not_elem_of_nil & _)|done]. }
  csimpl in Hnd. apply NoDup_cons in Hnd as [Hx Hnd]. destruct (Hxs x n) as [Hpx Hn]; [left|].
  destruct (Hwalk x n fs Hpx Hn) as (fs1 & Hd1 & G1); [by apply (Hok x n); left|].
  destruct (IH fs1 Hnd) as (fs' & Hd & G).
  - intros y m Hin. rewrite (grafted_src _ fs fs1 _) by (exact G1 || by apply names_snoc; [|apply (Hxs y m); right]). apply Hxs. by right.
  - intros y m Hin. apply (walkable_sibling fuel r x y fs fs1); [done|apply (Hxs y m); by right| |done|apply (Hok y m); by right].
    intros ->. apply Hx. apply list_elem_of_fmap. by exists (x, m).
  - exists fs'. split.
    + cbn [until_error]. eapply does_bind; [rewrite Join_pathOf, <- app_assoc by auto using names_app; exact Hd1|exact Hd].
    + eapply grafted_trans; [| |exact G1|exact G].
      * intros q. unfold under. csimpl. setoid_rewrite elem_of_cons. split.
        -- intros (y & r' & [->|Hy] & ->); [left; exists r'; by rewrite <- app_assoc|right; eauto].
        -- intros [[r' ->]|(y & r' & Hy & ->)]; [exists x, r'; rewrite <- app_assoc; auto|exists y, r'; auto].
      * intros q [r1 ->] (y & r' & Hy & E). rewrite <- app_assoc in E. apply app_inv_head in E. injection E as -> _. done.
Qed.

(** Something below an entry makes it a directory. *)
Lemma walkable_up fuel r q r' n fs : walkable fuel r fs -> names q -> names r' -> r' <> [] -> fs !! pathOf (bs ++ q ++ r') = Some n -> fs !! pathOf (bs ++ q) = Some NDir.
Proof using Type.
  intros (Hsw & _) Hq Hr'. revert n. induction r' as [|x r' IH] using rev_ind; intros n Hne H; [done|]. apply Forall_app in Hr' as [Hr' [Hx _]%Forall_cons].
  rewrite (app_assoc q) in H. apply Hsw in H; [|by apply names_app|done]. destruct (decide (r' = [])) as [->|Hr0]; [by rewrite app_nil_r in H|].
  by apply (IH Hr' NDir Hr0).
Qed.

(** The entry itself: the top directory is there already. *)
Lemma does_walk_entry fuel r n (fs : files) :
  names r -> fs !! pathOf (bs ++ r) = Some n -> walkable fuel r fs ->
  exists fs1, does (copyEntry (pathOf bs) (pathOf ds) (pathOf (bs ++ r)) (inr n)) now fs None fs1 /\ grafted (eq r) fs fs1.
Proof using All.
  intros Hr Hn (Hsw & Hempty & Hdirs & _). destruct r as [|x q _] using rev_ind.
  - exists fs. split; [|split; [by intros r m _ <-|done]]. unfold copyEntry. rewrite Rel_pathOf by done. apply does_ret.
  - apply Forall_app in Hr as [Hq [Hx _]%Forall_cons]. rewrite removelast_last in Hdirs.
    eexists. split; [apply does_copyEntry; try done|apply grafted_one; [by apply names_snoc|by destruct q|done]].
    specialize (Hempty [] ltac:(constructor)). rewrite app_nil_r in Hempty. apply Hempty. by destruct q.
Qed.

(** The children of a directory that has been made are ready. *)
Lemma walkable_child fuel r x fs fs1 :
  names r -> GoPath.plain x -> fs !! pathOf (bs ++ r) = Some NDir -> walkable (S fuel) r fs -> grafted (eq r) fs fs1 -> walkable fuel (r ++ [x]) fs1.
Proof using All.
  intros Hr Hx Hd (Hsw & Hempty & Hdirs & Hdepth) G. pose proof (fun q Hq => grafted_src _ fs fs1 q Hq G) as Hsrc. destruct G as [G1 G2]. split_and!.
  - intros q y n Hq Hy. rewrite !Hsrc by auto using names_snoc. by apply Hsw.
  - intros r' Hr' _. rewrite G2.
    + rewrite <- app_assoc. apply Hempty; [by constructor|by destruct r].
    + intros q n Hq <- _ E _. apply path_ds in E; [|auto using names_app, names_snoc..].
      apply (f_equal length) in E. rewrite !length_app in E. simpl in E. lia.
  - rewrite removelast_last. intros es1 es2 Hes E. destruct es2 as [|y es2 _] using rev_ind.
    + rewrite app_nil_r in E. subst es1. destruct (decide (r = [])) as [->|Hne]; [|by apply (G1 r NDir)].
      rewrite G2 by (by intros q n _ <-). by apply (Hdirs _ []); [|rewrite !app_nil_r].
    + assert (fs !! pathOf es1 = Some NDir) as H1.
      { destruct r as [|z r _] using rev_ind; [apply (Hdirs es1 (es2 ++ [y])); [done|by rewrite app_nil_r in *]|].
        rewrite removelast_last in Hdirs. rewrite !app_assoc in E. apply app_inj_tail in E as [E _]. by apply (Hdirs es1 es2). }
      rewrite G2; [done|]. intros q n Hq <- _ Ep _. apply pathOf_inj in Ep; [| |by auto using names_app].
      * subst es1. apply (f_equal length) in E. rewrite !length_app in E. simpl in E. lia.
      * assert (names (es1 ++ es2 ++ [y])) as H by (rewrite <- E; auto using names_app). by apply Forall_app in H as [? _].
  - intros r' n Hr'. rewrite Hsrc, <- app_assoc by auto using names_app, names_snoc. intros Hn. apply Hdepth in Hn; [simpl in Hn; lia|by constructor].
Qed.

Lemma does_walkDir fuel r n (fs : files) :
  names r -> fs !! pathOf (bs ++ r) = Some n -> walkable fuel r fs ->
  exists fs', does (walkDir fuel (pathOf (bs ++ r)) n (copyEntry (pathOf bs) (pathOf ds))) now fs None fs' /\ grafted (prefix r) fs fs'.
Proof using All.
  revert r n fs. induction fuel as [|fuel IH]; intros r n fs Hr Hn Hok.
  { destruct Hok as (_ & _ & _ & Hd). specialize (Hd [] n). rewrite app_nil_r in Hd. specialize (Hd ltac:(constructor) Hn). simpl in Hd. lia. }
  destruct (does_walk_entry (S fuel) r n fs Hr Hn Hok) as (fs1 & Hd1 & G1). destruct n as [|d t].
  - set (es := merge_sort name_leb (dir_entries fs1 (pathOf (bs ++ r)))).
    assert (es ≡ₚ dir_entries fs1 (pathOf (bs ++ r))) as Hperm by apply merge_sort_Permutation.
    assert (forall x m, (x, m) ∈ es <-> GoPath.plain x /\ fs1 !! pathOf (bs ++ r ++ [x]) = Some m) as Hes.
    { intros x m. rewrite Hperm, elem_of_dir_entries. split; intros [Hx H]; (split; [done|]); rewrite Join_pathOf, <- app_assoc in * by auto using names_app; done. }
    destruct (does_children fuel r es fs1) as (fs' & Hd & G); [done| |by intros x m ?%Hes| |by intros x m [Hx _]%Hes; eapply walkable_child|].
    + rewrite Hperm. apply dir_entries_NoDup.
    + intros x m fs2 Hx Hm Hok2. apply IH; [by apply names_snoc|done|done].
    + exists fs'. split.
      * cbn [walkDir]. eapply does_bind; [exact Hd1|]. cbv iota. eapply does_bind; [apply does_ReadDir; by rewrite (grafted_src _ fs fs1 r Hr G1)|]. exact Hd.
      * apply (grafted_ext (fun q => r = q \/ under r (fst <$> es) q)).
        -- intros q m Hq Hm. rewrite prefix_under. split; (intros [->|H]; [by left|right]); [|destruct H as (x & r' & _ & ->); by eexists _, _].
           destruct H as (x & r' & ->). exists x, r'. split; [|done]. apply Forall_app in Hq as [_ Hq]. apply Forall_cons in Hq as [Hx Hr'].
           assert (exists m', fs !! pathOf (bs ++ r ++ [x]) = Some m') as [m' Hm'].
           { destruct (decide (r' = [])) as [->|Hne]; [by eexists|]. exists NDir.
             apply (walkable_up (S fuel) r (r ++ [x]) r' m fs Hok); [by apply names_snoc|done|done|]. by rewrite <- (app_assoc r). }
           apply list_elem_of_fmap. exists (x, m'). split; [done|]. apply Hes. split; [done|]. by rewrite (grafted_src _ fs fs1 _ (names_snoc _ _ Hr Hx) G1).
        -- eapply grafted_trans; [done| |exact G1|exact G]. intros q <- (x & r' & _ & E). apply (f_equal length) in E. rewrite !length_app in E. simpl in E. lia.
  - exists fs1. split; [cbn [walkDir]; eapply does_bind; [exact Hd1|apply does_ret]|].
    eapply grafted_ext; [|exact G1]. intros q m Hq Hm. split; [|by intros ->]. intros [r' ->]. destruct (decide (r' = [])) as [->|Hne]; [by rewrite app_nil_r|].
    apply Forall_app in Hq as [_ Hr']. by rewrite (walkable_up (S fuel) r r r' m fs Hok Hr Hr' Hne Hm) in Hn.
Qed.

Lemma does_copyDir es x (fs : files) :
  ds = es ++ [x] -> fs !! pathOf bs = Some NDir -> (forall r, names r -> fs !! pathOf (ds ++ r) = None) -> dirs_to es fs ->
  (forall q x n, names q -> GoPath.plain x -> fs !! pathOf (bs ++ q ++ [x]) = Some n -> fs !! pathOf (bs ++ q) = Some NDir) ->
  (forall r n, names r -> fs !! pathOf (bs ++ r) = Some n -> length r < PATH_MAX) ->
  exists fs', does (copyDir (pathOf bs) (pathOf ds)) now fs None fs' /\
    (forall r, names r -> fs' !! pathOf (ds ++ r) = stamp now <$> fs !! pathOf (bs ++ r)) /\
    (forall k, (forall r, names r -> k <> pathOf (ds ++ r)) -> fs' !! k = fs !! k).
Proof using All.
  intros Eds Hb Hempty Hdirs Hsw Hdepth. assert (names es /\ GoPath.plain x) as [Hes Hx].
  { rewrite Eds in Hds. by apply Forall_app in Hds as [? [? _]%Forall_cons]. }
  set (fs1 := <[pathOf ds := NDir]> fs).
  assert (forall r, names r -> fs1 !! pathOf (bs ++ r) = fs !! pathOf (bs ++ r)) as Hsrc.
  { intros r Hr. unfold fs1. rewrite lookup_insert_ne; [done|]. intros E. pose proof (path_apart r [] Hr ltac:(constructor)) as H. rewrite app_nil_r in H. by apply H. }
  assert (forall k, k <> pathOf ds -> fs1 !! k = fs !! k) as Hother by (intros k Hk; by apply lookup_insert_ne).
  assert (forall r, names r -> r <> [] -> fs1 !! pathOf (ds ++ r) = None) as Hempty1.
  { intros r Hr Hne. rewrite Hother; [by apply Hempty|]. intros E. apply pathOf_inj in E; [|auto using names_app..].
    apply (f_equal length) in E. rewrite length_app in E. destruct r; [done|simpl in E; lia]. }
  assert (does (MkdirAll (pathOf ds)) now fs (inr tt) fs1) as Hmk.
  { unfold fs1. rewrite Eds. apply does_MkdirAll_new; [done|done| |done]. rewrite <- Eds. specialize (Hempty []). rewrite app_nil_r in Hempty. by apply Hempty. }
  destruct (does_walkDir PATH_MAX [] NDir fs1) as (fs' & Hd & G1 & G2); [constructor|by rewrite Hsrc, app_nil_r by constructor| |].
  { split_and!; [|intros r Hr Hne; by apply Hempty1| |].
    - intros q y n Hq Hy. rewrite !Hsrc by auto using names_snoc. by apply Hsw.
    - cbn [removelast]. rewrite app_nil_r. intros es1 es2 Hne E. destruct es2 as [|y es2 _] using rev_ind.
      + rewrite app_nil_r in E. subst es1. apply lookup_insert_eq.
      + rewrite Eds, app_assoc in E. apply app_inj_tail in E as [E ->]. rewrite Hother; [by apply (Hdirs es1 es2)|]. intros Ep.
        apply pathOf_inj in Ep; [|rewrite E in Hes; by apply Forall_app in Hes as [? _]|done]. rewrite Eds, E in Ep. apply (f_equal length) in Ep.
        rewrite !length_app in Ep. simpl in Ep. lia.
    - intros r n Hr. rewrite Hsrc by done. by apply Hdepth. }
  exists fs'. rewrite app_nil_r in Hd. split_and!.
  - unfold copyDir. eapply does_bind; [exact Hmk|]. cbv iota. unfold WalkDir. eapply does_bind; [apply does_Stat|].
    replace (fs1 !! pathOf bs) with (Some NDir); [exact Hd|]. rewrite <- (app_nil_r bs), Hsrc, app_nil_r by constructor. done.
  - intros r Hr. destruct (decide (r = [])) as [->|Hne].
    { rewrite !app_nil_r, Hb. simpl. rewrite G2; [apply lookup_insert_eq|]. intros q n Hq _ Hq0 E _. rewrite <- (app_nil_r ds) in E at 1. apply path_ds in E; [done|constructor|done]. }
    destruct (fs !! pathOf (bs ++ r)) as [n|] eqn:En; [apply G1; [done|apply prefix_nil|done|by rewrite Hsrc]|].
    rewrite G2; [by apply Hempty1|]. intros q n Hq _ _ E Hn. apply path_ds in E as ->; [|done|done]. rewrite Hsrc in Hn by done. congruence.
  - intros k Hk. rewrite G2, Hother; [done| |].
    + specialize (Hk []). rewrite app_nil_r in Hk. by apply Hk.
    + intros q n Hq _ _ -> _. by apply (Hk q).
Qed.

End CopyDoes.

(** *** The old data *)

(** The path of something below a directory. *)
Definition inside (d : gostring) (r : list gostring) : gostring := foldl GoPath.Join d r.

(** What was in the directory [d] is in the directory [q]. *)
Definition carried (d q : gostring) (fs0 fs : files) : Prop :=
  forall r n, names r -> fs0 !! inside d r = Some n -> fs !! inside q r = Some n.

Lemma old_name es x : names es -> GoPath.plain x -> pathOf (es ++ [x]) ++ ".old" = pathOf (es ++ [x ++ ".old"]) /\ GoPath.plain (x ++ ".old").
Proof.
  intros He (Hs & _). split.
  - unfold pathOf. rewrite <- app_comm_cons. f_equal. destruct (decide (es = [])) as [->|Hne]; [done|].
    rewrite !Join_last by done. by rewrite <- !app_assoc.
  - assert (4 <= length (x ++ ".old")) as Hl by (rewrite length_app; simpl; lia). split_and!.
    + apply not_elem_of_app. split; [done|]. by apply (bool_decide_eq_true_1 _).
    + intros E. rewrite E in Hl. simpl in Hl. lia.
    + intros E. rewrite E in Hl. simpl in Hl. lia.
    + intros E. rewrite E in Hl. simpl in Hl. lia.
Qed.

Lemma old_apart es x r r' : es ++ [x] ++ r <> es ++ [x ++ str ".old"] ++ r'.
Proof. intros [= E _]%app_inv_head. apply (f_equal length) in E. rewrite length_app in E. simpl in E. lia. Qed.

(** A rooted directory other than the root is moved as a whole or not at all. *)
Lemma spec_RenameTree {FT : Faults} p (fs0 : files) :
  GoPath.IsRooted p = true -> GoPath.Clean p = p -> fs0 !! p = Some NDir ->
  let I fs := carried p p fs0 fs \/ carried p (p ++ ".old") fs0 fs in
  spec I (eq fs0) (RenameTree p (p ++ ".old"))
    (fun r fs => match r with inl _ => fs = fs0 | inr _ => carried p (p ++ ".old") fs0 fs /\ GoPath.clean_elems p <> [] end).
Proof.
  intros Hr Hc Hd I. destruct (Clean_rooted p Hr) as [Ep Hn]. rewrite Hc in Ep.
  assert (I fs0) as HI0 by (left; by intros r n).
  apply spec_syscall; [by intros ? <-|by intros ? ? <-|]. intros w ->. rewrite Hd.
  case_bool_decide; [by split_and!|]. case_bool_decide as Hb; [by split_and!|]. do 2 (case_bool_decide; [by split_and!|]). simpl.
  destruct (GoPath.clean_elems p) as [|x es _] using rev_ind.
  { exfalso. apply Hb. rewrite Ep. apply (bool_decide_eq_true_1 _). reflexivity. }
  apply Forall_app in Hn as [He [Hx _]%Forall_cons]. destruct (old_name es x He Hx) as [Eo Ho].
  assert (carried p (p ++ ".old") (w_fs w) (moved p (p ++ ".old") (w_fs w))) as Hcar.
  { intros r n Hnr Hl. unfold inside in *. rewrite Ep, Eo in *. rewrite foldl_Join_pathOf in * by auto using names_snoc.
    apply lookup_moved; auto using names_snoc. }
  split_and!; [done|by right|done|]. intros E. by apply app_eq_nil in E as [_ ?].
Qed.

Section Safety.
Context {FT : Faults} {EX : Exec} {NT : Net}.

(** Copying into the place of a moved directory leaves the moved one alone. *)
Lemma keeps_copy_moved p backupDir (fs0 : files) :
  GoPath.IsRooted p = true -> GoPath.Clean p = p -> GoPath.clean_elems p <> [] ->
  GoPath.IsRooted backupDir = true -> GoPath.Clean backupDir = backupDir ->
  keeps (carried p (p ++ ".old") fs0) (copyDir backupDir p).
Proof using Type.
  intros Hr Hc Hne Hrb Hcb. destruct (Clean_rooted p Hr) as [Ep Hn]. rewrite Hc in Ep.
  destruct (Clean_rooted backupDir Hrb) as [Eb Hnb]. rewrite Hcb in Eb.
  destruct (GoPath.clean_elems p) as [|x es _] using rev_ind; [done|]. clear Hne.
  apply Forall_app in Hn as [He [Hx _]%Forall_cons]. destruct (old_name es x He Hx) as [Eo Ho]. rewrite Eb, Ep, Eo.
  apply keeps_copyDir; [done|by apply names_snoc|..].
  - intros fs fs' Hsub Hcar r n Hnr Hl. eapply lookup_weaken; [|exact Hsub]. by apply Hcar.
  - intros fs r d t Hnr Hcar r' n Hnr' Hl. rewrite lookup_insert_ne; [by apply Hcar|].
    unfold inside. rewrite foldl_Join_pathOf by auto using names_snoc. intros E. apply pathOf_inj in E; [|auto using names_app, names_snoc..].
    rewrite <- !app_assoc in E. by apply old_apart in E.
Qed.

End Safety.

(** *** A replacement without errors *)

(** Neither directory is in the other. *)
Definition apart (p q : gostring) : Prop :=
  below (GoPath.clean_elems p) (GoPath.clean_elems q) = None /\ below (GoPath.clean_elems q) (GoPath.clean_elems p) = None.

Lemma below_apart (ps qs r r' : list gostring) : below ps qs = None -> below qs ps = None -> ps ++ r <> qs ++ r'.
Proof.
  revert qs. induction ps as [|p ps IH]; intros [|q qs]; simpl; try done.
  case_bool_decide; case_bool_decide; try congruence. subst. intros H1 H2 [= E]. by apply (IH qs H1 H2).
Qed.

(** [data] holds a copy of [backup], its old contents are in [old], and nothing else has changed. *)
Definition replaced (data backup old : gostring) (now : Time) (fs fs' : files) : Prop :=
  (forall r, names r -> fs' !! inside data r = stamp now <$> fs !! inside backup r) /\
  (forall r, names r -> fs' !! inside old r = fs !! inside data r) /\
  (forall k, (forall r, names r -> k <> inside data r /\ k <> inside old r) -> fs' !! k = fs !! k).

(** The template is a tree whose paths the kernel takes. *)
Definition shallow (backup : gostring) (fs : files) : Prop := forall r n, names r -> fs !! inside backup r = Some n -> length r < PATH_MAX.

Lemma old_free es x (fs : files) : well_formed fs -> names es -> GoPath.plain x -> fs !! pathOf (es ++ [x]) = None ->
  forall r, names r -> fs !! pathOf ((es ++ [x]) ++ r) = None.
Proof.
  intros Hwf He Hx Hnone r Hr. destruct (fs !! pathOf ((es ++ [x]) ++ r)) as [n|] eqn:E; [|done].
  destruct (decide (r = [])) as [->|Hne]; [rewrite app_nil_r in E; congruence|].
  apply well_formed_up in E; [congruence|done|by apply names_snoc|done|done].
Qed.

Lemma does_RenameTree {FT : Faults} p q now (fs : files) :
  fs !! p = Some NDir -> fs !! q = None -> GoPath.Base p ∉ [str "."; str ".."; [GoPath.slash]] -> relocate p p q = None ->
  does (RenameTree p q) now fs (inr tt) (moved p q fs).
Proof.
  intros Hp Hq Hb Hr. apply does_syscall. intros w <- <-. rewrite Hp, Hq, Hr.
  by rewrite (bool_decide_eq_false_2 (None = Some NDir)), bool_decide_eq_false_2, !(bool_decide_eq_false_2 (is_Some None)) by (done || by intros []).
Qed.

(** A directory beside the data directory is beside the place for the old data. *)
Lemma old_apart_backup es x bs r r' (fs : files) :
  let os := es ++ [x ++ ".old"] in
  names es -> GoPath.plain x -> names bs -> (forall r r', bs ++ r <> (es ++ [x]) ++ r') ->
  well_formed fs -> fs !! pathOf bs = Some NDir -> fs !! pathOf os = None -> bs ++ r <> os ++ r'.
Proof.
  intros os He Hx Hb Hapart Hwf Hbd Ho. destruct (old_name es x He Hx) as [_ Hox]. apply below_apart.
  - destruct (below bs os) as [q|] eqn:Eq; [|done]. apply below_Some in Eq. destruct q as [|y q _] using rev_ind.
    + rewrite app_nil_r in Eq. rewrite Eq in Ho. congruence.
    + unfold os in Eq. rewrite app_assoc in Eq. apply app_inj_tail in Eq as [-> _]. exfalso. apply (Hapart (q ++ [x]) []). by rewrite app_nil_r, <- app_assoc.
  - destruct (below os bs) as [q|] eqn:Eq; [|done]. apply below_Some in Eq. pose proof (old_free es _ fs Hwf He Hox Ho q) as H.
    fold os in H. rewrite <- Eq in H. rewrite H in Hbd; [done|]. rewrite Eq in Hb. by apply Forall_app in Hb as [_ ?].
Qed.

Lemma does_replaceData {FT : Faults} es x bs now (fs : files) :
  let ds := es ++ [x] in let os := es ++ [x ++ ".old"] in
  names es -> GoPath.plain x -> names bs -> (forall r r', bs ++ r <> ds ++ r') ->
  well_formed fs -> fs !! pathOf ds = Some NDir -> fs !! pathOf bs = Some NDir -> fs !! pathOf os = None ->
  (forall r n, names r -> fs !! pathOf (bs ++ r) = Some n -> length r < PATH_MAX) ->
  exists fs', does (replaceData (pathOf ds) (pathOf bs) (pathOf os)) now fs None fs' /\
    (forall r, names r -> fs' !! pathOf (ds ++ r) = stamp now <$> fs !! pathOf (bs ++ r)) /\
    (forall r, names r -> fs' !! pathOf (os ++ r) = fs !! pathOf (ds ++ r)) /\
    (forall k, (forall r, names r -> k <> pathOf (ds ++ r) /\ k <> pathOf (os ++ r)) -> fs' !! k = fs !! k).
Proof.
  intros ds os He Hx Hb Hapart Hwf Hd Hbd Ho Hdepth. destruct (old_name es x He Hx) as [_ Hox].
  assert (names ds) as Hds by by apply names_snoc. assert (names os) as Hos by by apply names_snoc.
  assert (forall r r', ds ++ r <> os ++ r') as Hdo by (intros r r' E; unfold ds, os in E; rewrite <- !app_assoc in E; by apply old_apart in E).
  assert (forall r r', bs ++ r <> os ++ r') as Hbo by (intros; by eapply old_apart_backup).
  destruct (moved_facts ds os fs Hds Hos Hdo (old_free es _ fs Hwf He Hox Ho)) as (Hm1 & Hm2 & Hm3). set (fs1 := moved (pathOf ds) (pathOf os) fs) in *.
  assert (forall r, names r -> fs1 !! pathOf (bs ++ r) = fs !! pathOf (bs ++ r)) as Hsrc.
  { intros r Hr. apply Hm3. intros r' Hr'. split; intros E; (apply pathOf_inj in E; [|auto using names_app..]); [by apply Hapart in E|by apply Hbo in E]. }
  destruct (does_copyDir bs ds now Hb Hds ltac:(by destruct es) Hapart es x fs1 eq_refl) as (fs' & Hcp & Hc1 & Hc2).
  - rewrite <- (app_nil_r bs), Hsrc, app_nil_r by constructor. done.
  - exact Hm2.
  - intros es1 es2 Hne E. rewrite Hm3.
    + apply (well_formed_up fs es1 (es2 ++ [x]) NDir Hwf); [..|by rewrite app_assoc, <- E].
      * rewrite E in He. by apply Forall_app in He as [? _].
      * rewrite E in He. apply Forall_app in He as [_ ?]. by apply names_snoc.
      * by destruct es2.
    + intros r Hr. split; intros Ep; (apply pathOf_inj in Ep; [|rewrite E in He; by apply Forall_app in He as [? _]|auto using names_app]);
        apply (f_equal length) in Ep; unfold ds, os in Ep; rewrite E in Ep; rewrite !length_app in Ep; simpl in Ep; lia.
  - intros q y n Hq Hy. rewrite !Hsrc by auto using names_snoc. rewrite app_assoc. apply Hwf; [by apply names_app|done].
  - intros r n Hr. rewrite Hsrc by done. by apply Hdepth.
  - exists fs'. split_and!.
    + unfold replaceData. eapply does_bind; [apply does_log|]. eapply does_bind; [apply does_RenameTree; [done|done|..]|].
      * unfold ds. rewrite Base_pathOf by done. rewrite !not_elem_of_cons. destruct Hx as (Hs & _ & ? & ?). split_and!; [done|done| |apply not_elem_of_nil].
        intros ->. apply Hs. left.
      * rewrite relocate_pathOf by done. destruct (below ds os) as [q|] eqn:Eq; [|done]. apply below_Some in Eq. exfalso. apply (Hdo q []). by rewrite app_nil_r.
      * cbv iota. eapply does_bind; [apply does_log|]. eapply does_bind; [exact Hcp|]. apply does_ret.
    + intros r Hr. by rewrite Hc1, Hsrc.
    + intros r Hr. rewrite Hc2, Hm1; [done|done|]. intros r' Hr' E. apply pathOf_inj in E; [|auto using names_app..]. by apply eq_sym, Hdo in E.
    + intros k Hk. rewrite Hc2, Hm3; [done|done|]. intros r Hr. by apply Hk.
Qed.

Section Run.
Context {FT : Faults} {EX : Exec} {NT : Net}.

Lemma does_checkDirs dataDir backupDir old now (fs : files) :
  fs !! backupDir = Some NDir -> fs !! old = None -> fs !! dataDir = Some NDir -> does (checkDirs dataDir backupDir old) now fs None fs.
Proof using Type.
  intros Hb Ho Hd. unfold checkDirs. eapply does_bind; [apply does_Stat|]. rewrite Hb. eapply does_bind; [apply does_Stat|]. rewrite Ho.
  cbn [IsNotExist negb]. eapply does_bind; [apply does_Stat|]. rewrite Hd. apply does_ret.
Qed.

(** The calls around the server leave the files alone. *)
Lemma keeps_fs {A : Type} (m : M A) w : (forall J, keeps J m) -> w_fs (snd (m w)) = w_fs w.
Proof using Type. intros Hm. destruct (Hm (eq (w_fs w)) w eq_refl) as [_ H]. done. Qed.

Lemma forward_Dials host port : forward (Dials host port).
Proof using Type. intros w. simpl. lia. Qed.

#[local] Ltac solve_forward :=
  repeat (intros; cbv zeta; first [solve [eauto 2 with go] | apply forward_log | apply forward_poll_for | apply forward_Dials | apply forward_bind | case_match]).

Lemma forward_stopServer cfg : forward (stopServer cfg).
Proof using Type. unfold stopServer, waitForPortState, portReachable, Restore.runMySQLLifecycleCmd. solve_forward. Qed.

Lemma forward_checkDirs data backup old : forward (checkDirs data backup old).
Proof using Type. unfold checkDirs. solve_forward. Qed.

Lemma forward_startServer cfg : forward (startServer cfg).
Proof using Type. unfold startServer, waitForPortState, portReachable, Restore.runMySQLLifecycleCmd. solve_forward. Qed.

Lemma orElse_None (m rest : M (option err)) w w' : m w = (None, w') -> orElse m rest w = rest w'.
Proof using Type. intros E. unfold orElse, mbind, M_bind. by rewrite E. Qed.

Lemma orElse_Some (m rest : M (option err)) e w w' : m w = (Some e, w') -> orElse m rest w = (Some e, w').
Proof using Type. intros E. unfold orElse, mbind, M_bind. by rewrite E. Qed.

(** With the directories as they have to be, the run is the server's stop, the
    replacement and its start. *)
Lemma FullReinit_steps cfg w :
  let data := dataDirOf cfg in let backup := backupDirOf cfg in let old := data ++ ".old" in
  GoPath.IsRooted data = true -> GoPath.IsRooted backup = true -> apart data backup -> well_formed (w_fs w) -> shallow backup (w_fs w) ->
  fine w -> TrimSpace (Config.MySQLDataDir cfg) <> [] ->
  w_fs w !! data = Some NDir -> w_fs w !! backup = Some NDir -> w_fs w !! old = None ->
  match stopServer cfg (snd (checkDirs data backup old w)) with
    | (Some e, w1) => FullReinit cfg w = (Some e, w1) /\ w_fs w1 = w_fs w
    | (None, w1) => let w2 := snd (replaceData data backup old w1) in
        FullReinit cfg w = startServer cfg w2 /\ fine w2 /\ replaced data backup old (w_now w1) (w_fs w) (w_fs w2)
    end.
Proof using Type.
  intros data backup old Hrd Hrb [Ha1 Ha2] Hwf Hsh Hw Hne Hd Hb Ho.
  destruct (does_checkDirs data backup old (w_now w) (w_fs w) Hb Ho Hd w Hw eq_refl eq_refl) as (w0 & E0 & Hw0 & Hfs0 & _).
  rewrite E0. cbn [snd].
  assert (FullReinit cfg w = orElse (stopServer cfg) (orElse (replaceData data backup old) (startServer cfg)) w0) as ->.
  { unfold FullReinit. rewrite bool_decide_eq_false_2 by done. by apply orElse_None. }
  pose proof (keeps_fs (stopServer cfg) w0 (fun J => keeps_stopServer J cfg)) as Hfs1. pose proof (fine_forward _ w0 (forward_stopServer cfg) Hw0) as Hw1.
  destruct (stopServer cfg w0) as [[e|] w1] eqn:Es; simpl in Hfs1, Hw1; [split; [by apply orElse_Some|congruence]|].
  rewrite (orElse_None _ _ _ _ Es).
  destruct (Clean_rooted data Hrd) as [Ed Hnd]. destruct (Clean_rooted backup Hrb) as [Eb Hnb].
  assert (GoPath.Clean data = data) as Hcd by apply GoPath.Clean_idem. assert (GoPath.Clean backup = backup) as Hcb by apply GoPath.Clean_idem.
  rewrite Hcd in Ed. rewrite Hcb in Eb. set (bs := GoPath.clean_elems backup) in *. set (ds := GoPath.clean_elems data) in *.
  destruct ds as [|x es _] eqn:Eds using rev_ind; [done|]. apply Forall_app in Hnd as [He [Hx _]%Forall_cons].
  destruct (old_name es x He Hx) as [Eo Hox]. assert (old = pathOf (es ++ [x ++ ".old"])) as Eold by (unfold old; by rewrite Ed).
  unfold replaced, shallow, inside in *. rewrite Eb, Ed in *. rewrite Eold in *. rewrite <- Hfs0, <- Hfs1 in Hwf, Hd, Hb, Ho.
  destruct (does_replaceData es x bs (w_now w1) (w_fs w1) He Hx Hnb (fun r r' => below_apart _ _ r r' Ha2 Ha1) Hwf Hd Hb Ho) as (fs' & Hdo & H1 & H2 & H3).
  { intros r n Hr. rewrite Hfs1, Hfs0, <- foldl_Join_pathOf by done. by apply Hsh. }
  destruct (Hdo w1 Hw1 eq_refl eq_refl) as (w2 & E2 & Hw2 & Hfs2 & _). rewrite E2, (orElse_None _ _ _ _ E2). cbn [snd]. split; [done|]. split; [done|].
  rewrite Hfs2, <- Hfs0, <- Hfs1. split_and!; intros r Hr; [rewrite !foldl_Join_pathOf by auto using names_snoc; by apply H1 || by apply H2..|].
  apply H3. intros q Hq. specialize (Hr q Hq). by rewrite !foldl_Join_pathOf in Hr by auto using names_snoc.
Qed.

End Run.

(** ** Samples *)

Definition sampleCfg (start stop : gostring) : Config.Config :=
  Config.mkConfig 0 "localhost" "db1" 3306 [] "/srv/data" [] true start stop [] [] 14 3 3 3 "/b" [] [] [] 587 [] [] [] [] [] [] 22 [] [] [] [] [] [] "22:00".

Definition day : Time := Date 2024 1 15 0.
Definition sampleFs : files := list_to_map
  [(str "/", NDir); (str "/srv", NDir); (str "/srv/data", NDir); (str "/srv/data/ibdata1", NFile (Raw "rows") day);
   (str "/srv/backup", NDir); (str "/srv/backup/mysql", NDir); (str "/srv/backup/mysql/user.frm", NFile (Raw "users") day)].
Definition sampleWorld : World := mkWorld sampleFs (Date 2024 1 16 0) 0 [] [].
Definition sampleExec : Exec := fun _ _ _ _ => mkExec [] [] [] None.

(** The port is closed, and open again after the start of the server. *)
Definition sampleNet : Net := mkNet (fun t _ _ => (4 <? t)%nat) (fun _ => 0%N).

(** Every key is a clean absolute path whose parent is a directory. *)
Lemma well_formed_check (fs : files) :
  bool_decide (map_Forall (fun k (_ : Node) => k = [GoPath.slash] \/ fs !! GoPath.Dir k = Some NDir) fs) = true -> well_formed fs.
Proof.
  intros H%bool_decide_eq_true_1 es x n He Hx Hn. destruct (H _ _ Hn) as [E|E]; [|by rewrite Dir_pathOf in E].
  apply (f_equal GoPath.clean_elems) in E. rewrite clean_elems_pathOf in E by by apply names_snoc. by destruct es.
Qed.

(** A path is longer than the list of its elements. *)
Lemma pathOf_length es : names es -> length es <= length (pathOf es).
Proof.
  unfold pathOf. induction 1 as [|e es (_ & He & _) Hes IH]; [simpl; lia|]. destruct es as [|e' es]; [simpl; lia|].
  change (GoStrings.Join (e :: e' :: es) [GoPath.slash]) with (e ++ [GoPath.slash] ++ GoStrings.Join (e' :: es) [GoPath.slash]).
  cbn [length] in *. rewrite !length_app. destruct e; [done|]. cbn [length]. lia.
Qed.

Lemma shallow_check bs (fs : files) : names bs ->
  bool_decide (map_Forall (fun k (_ : Node) => (Z.of_nat (length k) < 4096)%Z) fs) = true -> shallow (pathOf bs) fs.
Proof.
  intros Hb H%bool_decide_eq_true_1 r n Hr Hn. unfold inside in Hn. rewrite foldl_Join_pathOf in Hn by done. apply (H _ _) in Hn. unfold PATH_MAX.
  pose proof (pathOf_length (bs ++ r) ltac:(by apply names_app)) as Hl. rewrite length_app in Hl. lia.
Qed.

(** ** Theorems *)

(** C4: The old data is never lost: whatever call or command fails, and at whatever call
    the program is interrupted, everything that was in the data directory is still there,
    or all of it is in the directory with ".old" added to the name. *)
Theorem FullReinit_never_loses (FT : Faults) (EX : Exec) (NT : Net) cfg w :
  let data := dataDirOf cfg in
  GoPath.IsRooted data = true -> GoPath.IsRooted (backupDirOf cfg) = true -> w_fs w !! data = Some NDir ->
  let w' := snd (FullReinit cfg w) in
  exists h, w_hist w' = h ++ w_hist w /\
    forall fs, fs ∈ w_fs w' :: h -> carried data data (w_fs w) fs \/ carried data (data ++ ".old") (w_fs w) fs.
Proof.
  intros data Hr Hrb Hd w'. set (I fs := carried data data (w_fs w) fs \/ carried data (data ++ ".old") (w_fs w) fs).
  assert (forall A (m : M A), keeps (eq (w_fs w)) m -> spec I (eq (w_fs w)) m (fun _ => eq (w_fs w))) as Heq.
  { intros A m Hm. eapply spec_inv; [|exact Hm]. intros fs <-. left. by intros r n. }
  assert (forall A (m : M A), keeps (carried data (data ++ ".old") (w_fs w)) m ->
    spec I (carried data (data ++ ".old") (w_fs w)) m (fun _ => carried data (data ++ ".old") (w_fs w))) as Hcar.
  { intros A m Hm. eapply spec_inv; [|exact Hm]. intros fs Hfs. by right. }
  assert (spec I (eq (w_fs w)) (FullReinit cfg) (fun _ => I)) as H.
  { assert (forall fs, fs = w_fs w -> I fs) as H0 by (intros fs ->; left; by intros r n).
    unfold FullReinit. case_if; [by apply spec_ret; intros fs <-; apply H0|]. fold data. cbv zeta. unfold orElse.
    eapply spec_bind; [apply Heq, keeps_checkDirs|]. intros [e|]; [apply spec_ret; auto|].
    eapply spec_bind; [apply Heq, keeps_stopServer|]. intros [e|]; [apply spec_ret; auto|].
    set (Q (e : option err) fs := match e with Some _ => I fs | None => carried data (data ++ ".old") (w_fs w) fs end). apply (spec_bind _ _ _ _ Q).
    2: { intros [e|]; [by apply spec_ret|]. eapply spec_conseq; [done| |apply Hcar, keeps_startServer]. intros x fs ?. by right. }
    unfold replaceData. eapply spec_bind; [apply Heq, keeps_log|]. intros [].
    eapply spec_bind; [apply spec_RenameTree; [done|apply GoPath.Clean_idem|done]|]. intros [e|[]]; [apply spec_ret; auto|].
    apply spec_pre. intros fs [Hfs Hne]. apply (spec_conseq _ (carried data (data ++ ".old") (w_fs w)) _ _ Q); [by intros ? <-|done|].
    eapply spec_bind; [apply Hcar, keeps_log|]. intros [].
    eapply spec_bind; [apply Hcar, keeps_copy_moved; [done|apply GoPath.Clean_idem|done|done|apply GoPath.Clean_idem]|].
    intros [e|]; apply spec_ret; [by right|done]. }
  destruct (H w eq_refl) as [(h & Eh & Hh) HQ]. exists h. split; [exact Eh|]. intros fs [->|Hin]%elem_of_cons; [exact HQ|].
  rewrite Forall_forall in Hh. by apply Hh.
Qed.

(** C15: Without I/O errors, with a template directory beside the data directory and no old
    data in the way, [FullReinit] ends with the error of stopping the server and all files
    as they were, or the data directory has become a copy of the template, all that was in
    it is below the name with ".old", nothing else has changed, and what is returned is the
    result of starting the server. *)
Theorem FullReinit_replaces (FT : Faults) (EX : Exec) (NT : Net) cfg w :
  let data := dataDirOf cfg in let backup := backupDirOf cfg in let old := data ++ ".old" in
  GoPath.IsRooted data = true -> GoPath.IsRooted backup = true -> apart data backup -> well_formed (w_fs w) -> shallow backup (w_fs w) ->
  fine w -> TrimSpace (Config.MySQLDataDir cfg) <> [] ->
  w_fs w !! data = Some NDir -> w_fs w !! backup = Some NDir -> w_fs w !! old = None ->
  match stopServer cfg (snd (checkDirs data backup old w)) with
    | (Some e, _) => fst (FullReinit cfg w) = Some e /\ w_fs (snd (FullReinit cfg w)) = w_fs w
    | (None, w1) =>
        exists w2, fst (FullReinit cfg w) = fst (startServer cfg w2) /\
          replaced data backup old (w_now w1) (w_fs w) (w_fs (snd (FullReinit cfg w)))
    end.
Proof.
  intros data backup old Hrd Hrb Ha Hwf Hsh Hw Hne Hd Hb Ho.
  pose proof (FullReinit_steps cfg w Hrd Hrb Ha Hwf Hsh Hw Hne Hd Hb Ho) as H. fold data backup old in H.
  destruct (stopServer cfg _) as [[e|] w1]; [by destruct H as [-> ?]|]. destruct H as (-> & _ & Hr). eexists. split; [reflexivity|].
  by rewrite (keeps_fs _ _ (fun J => keeps_startServer J cfg)).
Qed.

(** The start command is looked at last: without one the data has been replaced when the
    error is returned. *)
Lemma start_command_checked_late :
  let '(e, w') := @FullReinit NoFaults sampleExec sampleNet (sampleCfg [] []) sampleWorld in
  e = Some (Errorf "err.restorefull_start_required" [] None) /\ w_fs w' !! str "/srv/data/ibdata1" = None /\
  w_fs w' !! str "/srv/data.old/ibdata1" = Some (NFile (Raw "rows") day).
Proof. vm_compute. split_and!; reflexivity. Qed.

(** ** Witnesses *)

(** The call that writes the copied file fails. *)
Definition writeFails : Faults := fun t => if (t =? 12)%nat then Some 28%Z else None.

Lemma FullReinit_never_loses_witness :
  let cfg := sampleCfg "mysqld" [] in
  let r := @FullReinit writeFails sampleExec sampleNet cfg sampleWorld in
  fst r <> None /\ carried (dataDirOf cfg) (dataDirOf cfg ++ ".old") (w_fs sampleWorld) (w_fs (snd r)).
Proof.
  cbv zeta. split; [vm_compute; discriminate|].
  destruct (FullReinit_never_loses writeFails sampleExec sampleNet (sampleCfg "mysqld" []) sampleWorld) as (h & Eh & H).
  - reflexivity.
  - reflexivity.
  - reflexivity.
  - assert (w_fs (snd (@FullReinit writeFails sampleExec sampleNet (sampleCfg "mysqld" []) sampleWorld)) !! str "/srv/data/ibdata1" = None) as Hn by (vm_compute; reflexivity).
    revert Eh H Hn. generalize (@FullReinit writeFails sampleExec sampleNet (sampleCfg "mysqld" []) sampleWorld) as r. intros r _ H Hn.
    destruct (H (w_fs (snd r))) as [Hc|Hc]; [left| |exact Hc]. exfalso.
    assert (Forall GoPath.plain [str "ibdata1"]) as Hp by (repeat constructor; apply (bool_decide_eq_true_1 _); reflexivity).
    specialize (Hc [str "ibdata1"] (NFile (Raw "rows") day) Hp eq_refl). change (inside _ _) with (str "/srv/data/ibdata1") in Hc. by rewrite Hn in Hc.
Defined.

Lemma FullReinit_replaces_witness :
  exists w2, fst (@FullReinit NoFaults sampleExec sampleNet (sampleCfg "mysqld" []) sampleWorld) = fst (@startServer sampleExec sampleNet (sampleCfg "mysqld" []) w2).
Proof.
  assert (match @stopServer sampleExec sampleNet (sampleCfg "mysqld" []) (snd (@checkDirs NoFaults (str "/srv/data") (str "/srv/backup") (str "/srv/data.old") sampleWorld)) with
          | (None, w1) => w_now w1 = w_now sampleWorld | _ => False end) as Hs by (vm_compute; reflexivity).
  pose proof (FullReinit_replaces NoFaults sampleExec sampleNet (sampleCfg "mysqld" []) sampleWorld) as H. cbv zeta in H.
  change (dataDirOf _) with (str "/srv/data") in H. change (backupDirOf _) with (str "/srv/backup") in H. change (str "/srv/data" ++ str ".old") with (str "/srv/data.old") in H.
  destruct (stopServer _ _) as [[e|] w1]; [done|]. destruct H as (w2 & H & _); [..|by exists w2].
  - reflexivity.
  - reflexivity.
  - split; reflexivity.
  - apply well_formed_check. vm_compute. reflexivity.
  - apply (shallow_check [str "srv"; str "backup"]); [repeat constructor; apply (bool_decide_eq_true_1 _); reflexivity|vm_compute; reflexivity].
  - by intros t _.
  - discriminate.
  - reflexivity.
  - reflexivity.
  - reflexivity.
Defined.

End Reinit.
