(* ===== verification/RemoteHost.v ===== *)
(** * The remote host as the program sees it: SSH, SFTP, random bytes and ciphers.

    The packages golang.org/x/crypto/ssh, github.com/pkg/sftp and
    golang.org/x/crypto/pbkdf2 are external: their calls are the class [Sftp] over an
    abstract server state and the class [Crypto].  What the program relies on is the
    class [SftpLaws] (a tree of remote files seen through [view], and what each call does
    to it while the host is [up]) and [CryptoLaws].  [treeSftp] is a server that keeps its
    tree in a map and satisfies the laws. *)

From S2P Require Import Prelude GoStrings GoTime GoPath World CrashLogic.
Import GoStrings GoTime World CrashLogic.

Module RemoteHost.

Inductive RNode :=
| RDir
| RFile (content : gostring) (mtime : Time).

#[global] Instance RNode_eq_dec : EqDecision RNode.
Proof. solve_decision. Defined.

Abbreviation rfiles := (gmap gostring RNode).

(** What a listing says about an entry. *)
Record RInfo := mkInfo { ri_name : gostring; ri_dir : bool; ri_size : Z; ri_mtime : Time }.

Inductive AuthMethod (signer : Type) :=
| PublicKeys (k : signer)
| PasswordAuth (p : gostring).
Arguments PublicKeys {signer} k.
Arguments PasswordAuth {signer} p.

(** [ssh.ClientConfig]; the host key callback is always [InsecureIgnoreHostKey]. *)
Record ClientConfig (signer : Type) := mkClient { c_user : gostring; c_auth : list (AuthMethod signer) }.
Arguments mkClient {signer} c_user c_auth.

Class Sftp := {
  srv : Type;
  ssh_signer : Type;
  ssh_ParsePrivateKey : gostring -> err + ssh_signer;
  ssh_Dial : gostring -> ClientConfig ssh_signer -> srv -> (err + unit) * srv;
  ssh_Close : srv -> unit * srv;
  sftp_NewClient : srv -> (err + unit) * srv;
  sftp_Close : srv -> unit * srv;
  sftp_MkdirAll : gostring -> srv -> (err + unit) * srv;
  sftp_ReadDir : gostring -> srv -> (err + list RInfo) * srv;
  sftp_Create : gostring -> srv -> (err + unit) * srv;
  (* writes at the end of an open file *)
  sftp_Write : gostring -> gostring -> srv -> (err + unit) * srv;
  sftp_Remove : gostring -> srv -> (err + unit) * srv;
  sftp_Open : gostring -> srv -> (err + unit) * srv;
  (* up to a number of bytes (or all) of an open file from an offset on *)
  sftp_Read : gostring -> nat -> option nat -> srv -> (err + gostring) * srv
}.

Definition rinfo (name : gostring) (n : RNode) : RInfo :=
  match n with
  | RDir => mkInfo name true 4096 (mkTime 0 0)
  | RFile c t => mkInfo name false (Z.of_nat (length c)) t
  end.

(** A path of the program: the directory, a slash, the name. *)
Definition rpath (d name : gostring) : gostring := d ++ [GoPath.slash] ++ name.

Definition window (off : nat) (len : option nat) (c : gostring) : gostring :=
  match len with
  | Some n => take n (drop off c)
  | None => drop off c
  end.

Section Laws.
Context {S : Sftp} (view : srv -> rfiles) (up : srv -> Prop).

(** The call returns [x], leaves the tree [v'] and the host up. *)
Definition gives {A : Type} (f : srv -> A * srv) (s : srv) (x : A) (v' : rfiles) : Prop :=
  exists s', f s = (x, s') /\ up s' /\ view s' = v'.

(** A listing has each entry of the directory once, except that nothing is promised
    about the size and time of subdirectories. *)
Definition listing (v : rfiles) (d : gostring) (es : list RInfo) : Prop :=
  NoDup (ri_name <$> es) /\
  (forall i, i ∈ es -> GoPath.plain (ri_name i) /\
     exists n, v !! rpath d (ri_name i) = Some n /\
       match n with RDir => ri_dir i = true | RFile _ _ => i = rinfo (ri_name i) n end) /\
  (forall name n, GoPath.plain name -> v !! rpath d name = Some n -> exists i, i ∈ es /\ ri_name i = name).

End Laws.

Class SftpLaws (S : Sftp) := {
  view : srv -> rfiles;
  up : srv -> Prop;
  law_Dial a c s s' : up s -> ssh_Dial a c s = (inr tt, s') -> up s' /\ view s' = view s;
  law_ssh_Close s : view (snd (ssh_Close s)) = view s /\ (up s -> up (snd (ssh_Close s)));
  law_NewClient s : up s -> gives view up sftp_NewClient s (inr tt) (view s);
  law_sftp_Close s : view (snd (sftp_Close s)) = view s /\ (up s -> up (snd (sftp_Close s)));
  law_MkdirAll d s : up s -> view s !! d = Some RDir -> gives view up (sftp_MkdirAll d) s (inr tt) (view s);
  law_ReadDir d s : up s -> view s !! d = Some RDir ->
    exists es, gives view up (sftp_ReadDir d) s (inr es) (view s) /\ listing (view s) d es;
  law_Create d name s : up s -> GoPath.plain name -> view s !! d = Some RDir -> view s !! rpath d name <> Some RDir ->
    exists t, gives view up (sftp_Create (rpath d name)) s (inr tt) (<[rpath d name := RFile [] t]> (view s));
  law_Write p bs c t s : up s -> view s !! p = Some (RFile c t) ->
    exists t', gives view up (sftp_Write p bs) s (inr tt) (<[p := RFile (c ++ bs) t']> (view s));
  law_Remove p c t s : up s -> view s !! p = Some (RFile c t) ->
    gives view up (sftp_Remove p) s (inr tt) (delete p (view s));
  law_Open p c t s : up s -> view s !! p = Some (RFile c t) -> gives view up (sftp_Open p) s (inr tt) (view s);
  law_Read p off len c t s : up s -> view s !! p = Some (RFile c t) ->
    gives view up (sftp_Read p off len) s (inr (window off len c)) (view s)
}.

(** ** Ciphers *)

(** [pbkdf2.Key] with SHA-256, and the key stream of AES in counter mode: the byte at a
    position for a key and a nonce. *)
Class Crypto := {
  pbkdf2_Key : gostring -> gostring -> Z -> nat -> gostring;
  ctr_byte : gostring -> gostring -> nat -> ascii
}.

Class CryptoLaws (C : Crypto) := pbkdf2_length pw salt iter n : length (pbkdf2_Key pw salt iter n) = n.

(** The bytes [rand.Read] delivers at a tick. *)
Class Rand := rand_bytes : nat -> nat -> gostring.

Class RandLaws (R : Rand) := rand_length t n : length (rand_bytes t n) = n.

Definition rand_Read {FT : Faults} {R : Rand} (n : nat) : M (err + gostring) :=
  syscall (fun w => (inr (rand_bytes (w_tick w) n), w)).

Definition KeySizeError : err := Errorf "crypto/aes: invalid key size" [] None.

(** [aes.NewCipher] accepts keys of three lengths. *)
Definition aes_NewCipher (key : gostring) : err + gostring :=
  if (length key =? 16)%nat || (length key =? 24)%nat || (length key =? 32)%nat then inr key else inl KeySizeError.

Definition xor_byte (a b : ascii) : ascii := chr (Z.lxor (code a) (code b)).

(** [XORKeyStream] from a position of the stream on. *)
Fixpoint xor_stream (ks : nat -> ascii) (pos : nat) (bs : gostring) : gostring :=
  match bs with
  | [] => []
  | b :: bs' => xor_byte b (ks pos) :: xor_stream ks (S pos) bs'
  end.

(** ** The state of a session: the local world and the server *)

Section Session.
Context {SF : Sftp}.

Definition RM (A : Type) : Type := World * srv -> A * (World * srv).

#[global] Instance RM_ret : MRet RM := fun A x ws => (x, ws).
#[global] Instance RM_bind : MBind RM := fun A B f m ws => let '(x, ws') := m ws in f x ws'.

(** An action on this side, and a call to the server. *)
Definition here {A} (m : M A) : RM A := fun '(w, s) => let '(x, w') := m w in (x, (w', s)).
Definition there {A} (f : srv -> A * srv) : RM A := fun '(w, s) => let '(x, s') := f s in (x, (w, s')).

End Session.

(** ** Total triples for sessions without errors

    [rspec P m Q]: while no local call fails and the host is up, [m] started with local
    files and a remote tree satisfying [P] returns with files, tree and result
    satisfying [Q]. *)

Section Triples.
Context {FT : Faults} {SF : Sftp} {SL : SftpLaws SF}.

Definition rspec {A : Type} (P : files -> rfiles -> Prop) (m : RM A) (Q : A -> files -> rfiles -> Prop) : Prop :=
  forall w s, fine w -> up s -> P (w_fs w) (view s) ->
    exists x w' s', m (w, s) = (x, (w', s')) /\ fine w' /\ up s' /\ Q x (w_fs w') (view s').

Lemma rspec_ret {A : Type} (P : files -> rfiles -> Prop) (x : A) (Q : A -> files -> rfiles -> Prop) :
  (forall fs v, P fs v -> Q x fs v) -> rspec P (mret x) Q.
Proof. intros H w s Hw Hs HP. exists x, w, s. auto. Qed.

Lemma rspec_bind {A B : Type} (P : files -> rfiles -> Prop) (m : RM A) (f : A -> RM B) R (Q : B -> files -> rfiles -> Prop) :
  rspec P m R -> (forall x, rspec (R x) (f x) Q) -> rspec P (m ≫= f) Q.
Proof.
  intros Hm Hf w s Hw Hs HP. destruct (Hm w s Hw Hs HP) as (x & w1 & s1 & E & Hw1 & Hs1 & HR).
  unfold mbind, RM_bind. rewrite E. by apply Hf.
Qed.

Lemma rspec_conseq {A : Type} (P P' : files -> rfiles -> Prop) (m : RM A) (Q Q' : A -> files -> rfiles -> Prop) :
  (forall fs v, P' fs v -> P fs v) -> (forall x fs v, Q x fs v -> Q' x fs v) -> rspec P m Q -> rspec P' m Q'.
Proof.
  intros HP HQ H w s Hw Hs HP'. destruct (H w s Hw Hs (HP _ _ HP')) as (x & w' & s' & E & ? & ? & ?).
  exists x, w', s'. auto.
Qed.

(** Reasoning from the files and tree at hand. *)
Lemma rspec_pre {A : Type} (P : files -> rfiles -> Prop) (m : RM A) (Q : A -> files -> rfiles -> Prop) :
  (forall fs v, P fs v -> rspec (fun fs' v' => fs' = fs /\ v' = v) m Q) -> rspec P m Q.
Proof. intros H w s Hw Hs HP. by apply (H (w_fs w) (view s) HP). Qed.

Lemma rspec_here {A : Type} (P : files -> rfiles -> Prop) (m : M A) (Q : A -> files -> rfiles -> Prop) :
  (forall fs v now, P fs v -> exists x fs', does m now fs x fs' /\ Q x fs' v) -> rspec P (here m) Q.
Proof.
  intros H w s Hw Hs HP. destruct (H _ _ (w_now w) HP) as (x & fs' & Hd & HQ).
  destruct (Hd w Hw eq_refl eq_refl) as (w' & E & Hw' & Hfs & _). exists x, w', s. unfold here. rewrite E.
  subst fs'. auto.
Qed.

Lemma rspec_there {A : Type} (P : files -> rfiles -> Prop) (f : srv -> A * srv) (Q : A -> files -> rfiles -> Prop) :
  (forall s fs, up s -> P fs (view s) -> exists x v', gives view up f s x v' /\ Q x fs v') -> rspec P (there f) Q.
Proof.
  intros H w s Hw Hs HP. destruct (H s _ Hs HP) as (x & v' & (s' & E & Hu & Hv) & HQ).
  exists x, w, s'. unfold there. rewrite E. subst v'. auto.
Qed.

Lemma rspec_log (P : files -> rfiles -> Prop) l key args (Q : unit -> files -> rfiles -> Prop) :
  (forall fs v, P fs v -> Q tt fs v) -> rspec P (here (log_at l key args)) Q.
Proof. intros H. apply rspec_here. intros fs v now HP. exists tt, fs. split; [apply does_log|auto]. Qed.

(** Logging before going on. *)
Lemma rspec_log_bind {A : Type} (P : files -> rfiles -> Prop) l key args (k : unit -> RM A) (Q : A -> files -> rfiles -> Prop) :
  rspec P (k tt) Q -> rspec P (here (log_at l key args) ≫= k) Q.
Proof. intros H. apply (rspec_bind _ _ _ (fun _ => P)); [by apply rspec_log|]. by intros []. Qed.

End Triples.

(** ** What holds in every session, whatever fails

    [always R m]: the states before and after [m] are related by [R], a preorder on the
    local world and the server. *)

Section Always.
Context {SF : Sftp} (R : World * srv -> World * srv -> Prop) `{!PreOrder R}.

Definition always {A : Type} (m : RM A) : Prop := forall ws, R ws (snd (m ws)).

Lemma always_ret {A : Type} (x : A) : always (mret x).
Proof using All. intros ws. done. Qed.

Lemma always_bind {A B : Type} (m : RM A) (f : A -> RM B) : always m -> (forall x, always (f x)) -> always (m ≫= f).
Proof using All.
  intros Hm Hf ws. unfold mbind, RM_bind. specialize (Hm ws). destruct (m ws) as [x ws1]. etrans; [exact Hm|apply Hf].
Qed.

(** The same, knowing what the first action may return. *)
Lemma always_bind_res {A B : Type} (m : RM A) (f : A -> RM B) (Q : A -> Prop) :
  always m -> (forall ws, Q (fst (m ws))) -> (forall x, Q x -> always (f x)) -> always (m ≫= f).
Proof using All.
  intros Hm HQ Hf ws. unfold mbind, RM_bind. specialize (Hm ws). specialize (HQ ws). destruct (m ws) as [x ws1].
  etrans; [exact Hm|by apply Hf].
Qed.

End Always.

(** Proves [always] by following the structure of an action. *)
Ltac solve_always tac :=
  repeat (intros; cbv zeta; first [tac | apply always_ret; apply _ | apply always_bind; [apply _| |intros ?] | case_match]).

(** Relations on one side. *)
Definition on_local {SF : Sftp} (R : World -> World -> Prop) (a b : World * srv) : Prop := R (fst a) (fst b).
Definition on_server {SF : Sftp} (R : srv -> srv -> Prop) (a b : World * srv) : Prop := R (snd a) (snd b).

#[export] Instance on_local_preorder {SF : Sftp} R : PreOrder R -> PreOrder (on_local R).
Proof. intros HR. split; [intros a; unfold on_local; reflexivity|intros a b c; unfold on_local; apply transitivity]. Qed.

#[export] Instance on_server_preorder {SF : Sftp} R : PreOrder R -> PreOrder (on_server R).
Proof. intros HR. split; [intros a; unfold on_server; reflexivity|intros a b c; unfold on_server; apply transitivity]. Qed.

Lemma always_here {SF : Sftp} R {A : Type} (m : M A) : (forall w, R w (snd (m w))) -> always (on_local R) (here m).
Proof. intros H [w s]. unfold here, on_local. specialize (H w). by destruct (m w). Qed.

Lemma always_there {SF : Sftp} R {A : Type} (f : srv -> A * srv) : (forall s, R s (snd (f s))) -> always (on_server R) (there f).
Proof. intros H [w s]. unfold there, on_server. specialize (H s). by destruct (f s). Qed.

Lemma always_here_server {SF : Sftp} R `{!Reflexive R} {A : Type} (m : M A) : always (on_server R) (here m).
Proof. intros [w s]. unfold here, on_server. by destruct (m w). Qed.

Lemma always_there_local {SF : Sftp} R `{!Reflexive R} {A : Type} (f : srv -> A * srv) : always (on_local R) (there f).
Proof. intros [w s]. unfold there, on_local. by destruct (f s). Qed.

(** ** Lemmas *)

Lemma code_bounds c : (0 <= code c < 256)%Z.
Proof. unfold code. pose proof (N_ascii_bounded c). lia. Qed.

Lemma lxor_byte_bounds a b : (0 <= a < 256 -> 0 <= b < 256 -> 0 <= Z.lxor a b < 256)%Z.
Proof.
  intros Ha Hb. split; [apply Z.lxor_nonneg; lia|].
  destruct (Z.eq_dec (Z.lxor a b) 0%Z) as [->|Hne]; [lia|].
  apply (Z.log2_lt_pow2 _ 8); [pose proof (proj2 (Z.lxor_nonneg a b)); lia|].
  eapply Z.le_lt_trans; [apply Z.log2_lxor; lia|].
  apply Z.max_lub_lt.
  - destruct (Z.eq_dec a 0%Z) as [->|]; [simpl; lia|apply Z.log2_lt_pow2; lia].
  - destruct (Z.eq_dec b 0%Z) as [->|]; [simpl; lia|apply Z.log2_lt_pow2; lia].
Qed.

Lemma xor_byte_invol a b : xor_byte (xor_byte a b) b = a.
Proof.
  unfold xor_byte. rewrite code_chr by (apply lxor_byte_bounds; apply code_bounds).
  by rewrite Z.lxor_assoc, Z.lxor_nilpotent, Z.lxor_0_r, chr_code.
Qed.

Lemma xor_stream_invol ks pos bs : xor_stream ks pos (xor_stream ks pos bs) = bs.
Proof. revert pos. induction bs as [|b bs IH]; intros pos; [done|]. simpl. by rewrite xor_byte_invol, IH. Qed.

Lemma xor_stream_length ks pos bs : length (xor_stream ks pos bs) = length bs.
Proof. revert pos. induction bs as [|b bs IH]; intros pos; [done|]. simpl. by rewrite IH. Qed.

Lemma rpath_inj d n n' : rpath d n = rpath d n' -> n = n'.
Proof. unfold rpath. intros H. by simplify_list_eq. Qed.

Lemma rpath_ne_dir d n : rpath d n <> d.
Proof. unfold rpath. intros H%(f_equal length). rewrite !length_app in H. simpl in H. lia. Qed.

(** ** A server that keeps its tree in a map *)

Record TreeSrv := mkTree { tr_files : rfiles; tr_now : Time }.

Definition tree_list (v : rfiles) (d : gostring) : list RInfo :=
  omap (fun '(p, n) =>
    match strip_prefix (d ++ [GoPath.slash]) p with
    | Some name => if bool_decide (GoPath.plain name) then Some (rinfo name n) else None
    | None => None
    end) (map_to_list v).

Definition tree_set (f : rfiles -> rfiles) (s : TreeSrv) : TreeSrv := mkTree (f (tr_files s)) (tr_now s).

#[export] Instance treeSftp : Sftp := {|
  srv := TreeSrv;
  ssh_signer := gostring;
  ssh_ParsePrivateKey := fun k => if k ==? [] then inl (Errorf "ssh: no key found" [] None) else inr k;
  ssh_Dial := fun _ _ s => (inr tt, s);
  ssh_Close := fun s => (tt, s);
  sftp_NewClient := fun s => (inr tt, s);
  sftp_Close := fun s => (tt, s);
  sftp_MkdirAll := fun d s => (inr tt, tree_set <[d := RDir]> s);
  sftp_ReadDir := fun d s =>
    match tr_files s !! d with Some RDir => (inr (tree_list (tr_files s) d), s) | _ => (inl ENOENT, s) end;
  sftp_Create := fun p s =>
    match tr_files s !! p with
    | Some RDir => (inl (EIO 4), s)
    | _ => (inr tt, tree_set <[p := RFile [] (tr_now s)]> s)
    end;
  sftp_Write := fun p bs s =>
    match tr_files s !! p with
    | Some (RFile c _) => (inr tt, tree_set <[p := RFile (c ++ bs) (tr_now s)]> s)
    | _ => (inl (EIO 4), s)
    end;
  sftp_Remove := fun p s =>
    match tr_files s !! p with Some (RFile _ _) => (inr tt, tree_set (delete p) s) | _ => (inl ENOENT, s) end;
  sftp_Open := fun p s => match tr_files s !! p with Some (RFile _ _) => (inr tt, s) | _ => (inl ENOENT, s) end;
  sftp_Read := fun p off len s =>
    match tr_files s !! p with Some (RFile c _) => (inr (window off len c), s) | _ => (inl ENOENT, s) end
|}.

Lemma elem_of_tree_list v d i :
  i ∈ tree_list v d <-> exists name n, GoPath.plain name /\ v !! rpath d name = Some n /\ i = rinfo name n.
Proof.
  unfold tree_list. rewrite list_elem_of_omap. unfold rpath. split.
  - intros ([p n] & Hin & Hp). apply elem_of_map_to_list in Hin.
    destruct (strip_prefix _ p) as [q|] eqn:E; [|done]. case_bool_decide as Hq; [|done].
    simplify_eq. apply strip_prefix_Some in E as ->. exists q, n. by rewrite app_assoc.
  - intros (name & n & Hp & Hl & ->). exists (d ++ [GoPath.slash] ++ name, n). rewrite elem_of_map_to_list. split; [done|].
    rewrite app_assoc, strip_prefix_app. by rewrite bool_decide_eq_true_2.
Qed.

Lemma rinfo_name name n : ri_name (rinfo name n) = name.
Proof. by destruct n. Qed.

Lemma tree_list_NoDup v d : NoDup (ri_name <$> tree_list v d).
Proof.
  unfold tree_list. pose proof (NoDup_fst_map_to_list v) as Hnd. revert Hnd.
  induction (map_to_list v) as [|[p n] l IH]; [constructor|]. csimpl. intros [Hp Hnd]%NoDup_cons.
  destruct (strip_prefix _ p) as [q|] eqn:E; [|auto]. case_bool_decide as Hq; [|auto].
  csimpl. constructor; [|auto]. rewrite rinfo_name. intros Hin. apply Hp. clear IH Hnd.
  apply list_elem_of_fmap in Hin as (i & -> & Hin). apply list_elem_of_omap in Hin as ([p' n'] & Hin & Hp').
  destruct (strip_prefix (d ++ [GoPath.slash]) p') as [q'|] eqn:E'; [|done]. case_bool_decide; [|done]. simplify_eq.
  rewrite rinfo_name in E. apply strip_prefix_Some in E as ->. apply strip_prefix_Some in E' as ->.
  apply list_elem_of_fmap. by exists ((d ++ [GoPath.slash]) ++ q', n').
Qed.

#[export] Instance treeLaws : SftpLaws treeSftp.
Proof.
  refine {| view := tr_files; up := fun _ => True |}; unfold gives; simpl.
  - intros a c s s' _ [= <-]. done.
  - done.
  - eauto.
  - done.
  - intros d s _ Hd. eexists. split; [reflexivity|]. split; [done|]. simpl. by rewrite insert_id.
  - intros d s _ Hd. rewrite Hd. eexists. split; [by eexists|]. split; [apply tree_list_NoDup|]. split.
    + intros i (name & n & Hp & Hl & ->)%elem_of_tree_list. rewrite rinfo_name. split; [done|]. exists n. by destruct n.
    + intros name n Hp Hl. exists (rinfo name n). rewrite rinfo_name. split; [|done]. apply elem_of_tree_list. eauto.
  - intros d name s _ _ _ Hne. exists (tr_now s). destruct (tr_files s !! _) as [[|]|]; [done|eauto..].
  - intros p bs c t s _ ->. exists (tr_now s). eauto.
  - intros p c t s _ ->. eauto.
  - intros p c t s _ ->. eauto.
  - intros p off len c t s _ ->. eauto.
Defined.

End RemoteHost.
