(* ===== verification/Remote.v ===== *)
(** * internal/remote: mirroring the archives to a remote host and fetching them back.

    [Sync] uploads what is missing or older on the host and removes there what is gone
    here; [GetFile] downloads by name or wildcard and decrypts.  Both run in a session
    over the local world and the server ([RM] of RemoteHost).  Closing a file handle has
    no effect in the model; a write hands all of its bytes to the server in one call. *)

From S2P Require Import Prelude GoStrings Regexp GoTime GoPath World GoGlob CrashLogic Config Retention RemoteHost.
Import GoStrings GoTime World CrashLogic RemoteHost.

Module Remote.

Definition saltLen : nat := 16.
Definition nonceLen : nat := 16.
Definition aesKeyLen : nat := 32.
Definition pbkdf2Iter : Z := 100000.
Definition encryptionOverhead : Z := Z.of_nat (saltLen + nonceLen).

(** [^mysql_backup_\d{8}_.*\.zip$] *)
Definition backupZipRe : Regexp.re :=
  Regexp.Cat (Regexp.lit "mysql_backup_") (Regexp.Cat (Regexp.times 8 Regexp.cls_d)
    (Regexp.Cat (Regexp.lit "_") (Regexp.Cat (Regexp.Rep Regexp.cls_dot) (Regexp.Cat (Regexp.lit ".zip") Regexp.Eot)))).

Definition isBackupZip (name : gostring) : bool :=
  (GoPath.Ext name ==? str ".zip") && Regexp.MatchAnchored backupZipRe name.

Record localEntry := mkLocal { Name : gostring; ModTime : Time; Size : Z; Path : gostring }.
Record remoteEntry := mkRemote { RName : gostring; RModTime : Time; RSize : Z }.

Section Listing.
Context {FT : Faults} {AB : ArchiveBytes}.

(** The archives of a directory listing, each with what [Stat] says of it; one that
    cannot be examined is left out. *)
Fixpoint localLoop (dir : gostring) (entries : list (gostring * Node)) : M (list localEntry) :=
  match entries with
  | [] => mret []
  | (name, n) :: entries' =>
      if (n ==? NDir) || negb (isBackupZip name) then localLoop dir entries'
      else
        let path := GoPath.Join dir name in
        r ← Stat path;
        match r with
        | inl _ => localLoop dir entries'
        | inr info =>
            rest ← localLoop dir entries';
            mret (mkLocal name match info with NFile _ t => t | NDir => Retention.zeroTime end
                    (@node_size byte_sizes info) path :: rest)
        end
  end.

Definition listLocalBackups (dir0 : gostring) : M (err + list localEntry) :=
  let dir := GoPath.FromSlash dir0 in
  r ← ReadDir dir;
  match r with
  | inl e => if IsNotExist e then mret (inr []) else mret (inl e)
  | inr entries => l ← localLoop dir entries; mret (inr l)
  end.

End Listing.

Definition localListByName (l : list localEntry) (name : gostring) : option localEntry :=
  snd <$> list_find (fun e => Name e = name) l.

Definition remoteKept (es : list RInfo) : list remoteEntry :=
  (fun i => mkRemote (ri_name i) (ri_mtime i) (ri_size i)) <$>
  filter (fun i => ri_dir i = false /\ isBackupZip (ri_name i) = true) es.

(** The decision for one archive and what the host has under its name. *)
Definition needUpload (encrypt : bool) (loc : localEntry) (rem : option remoteEntry) : bool :=
  match rem with
  | None => true
  | Some rem => After (ModTime loc) (RModTime rem) || (encrypt && negb (RSize rem =? Size loc + encryptionOverhead)%Z)
  end.

Section Session.
Context {FT : Faults} {AB : ArchiveBytes} {SF : Sftp} {CR : Crypto} {RD : Rand}.

Definition listRemote (remoteDir : gostring) : RM (err + list remoteEntry) :=
  r ← there (sftp_ReadDir remoteDir);
  match r with
  | inl e => if IsNotExist e then mret (inr []) else mret (inl e)
  | inr entries => mret (inr (remoteKept entries))
  end.

(** [io.Copy] of bytes that have been read to a remote file: nothing is written for none. *)
Definition copyTo (remotePath bs : gostring) : RM (err + unit) :=
  if bs ==? [] then mret (inr tt) else there (sftp_Write remotePath bs).

Definition streamEncryptUpload (src : Node) (dst password : gostring) : RM (option err) :=
  s ← here (rand_Read saltLen);
  match s with
  | inl e => mret (Some (Errorf "err.rand_salt" [] (Some e)))
  | inr salt =>
      n ← here (rand_Read nonceLen);
      match n with
      | inl e => mret (Some (Errorf "err.rand_nonce" [] (Some e)))
      | inr nonce =>
          let key := pbkdf2_Key password salt pbkdf2Iter aesKeyLen in
          match aes_NewCipher key with
          | inl e => mret (Some e)
          | inr block =>
              w1 ← there (sftp_Write dst salt);
              match w1 with
              | inl e => mret (Some e)
              | inr _ =>
                  w2 ← there (sftp_Write dst nonce);
                  match w2 with
                  | inl e => mret (Some e)
                  | inr _ =>
                      b ← here (ReadAll src);
                      match b with
                      | inl e => mret (Some e)
                      | inr bs =>
                          c ← copyTo dst (xor_stream (ctr_byte block nonce) 0 bs);
                          mret match c with inl e => Some e | inr _ => None end
                      end
                  end
              end
          end
      end
  end.

Definition uploadFile (localPath remotePath : gostring) (encrypt : bool) (aesPassword : gostring) : RM (option err) :=
  o ← here (Open (GoPath.FromSlash localPath));
  match o with
  | inl e => mret (Some e)
  | inr src =>
      c ← there (sftp_Create remotePath);
      match c with
      | inl e => mret (Some e)
      | inr _ =>
          if negb encrypt then
            b ← here (ReadAll src);
            match b with
            | inl e => mret (Some e)
            | inr bs => r ← copyTo remotePath bs; mret match r with inl e => Some e | inr _ => None end
            end
          else streamEncryptUpload src remotePath aesPassword
      end
  end.

Definition sshAddr (cfg : Config.Config) : gostring :=
  let port := if (Config.RemoteSSHPort cfg <=? 0)%Z then 22%Z else Config.RemoteSSHPort cfg in
  Config.RemoteSSHHost cfg ++ ":" ++ Itoa port.

(** The key of the key file, if one is configured. *)
Definition keyAuth (cfg : Config.Config) : RM (err + list (AuthMethod ssh_signer)) :=
  if Config.RemoteSSHKeyFile cfg ==? [] then mret (inr [])
  else
    r ← here (ReadFile (GoPath.FromSlash (Config.RemoteSSHKeyFile cfg)));
    mret match r with
         | inl e => inl (Errorf "err.read_key_file" [] (Some e))
         | inr key =>
             match ssh_ParsePrivateKey key with
             | inl e => inl (Errorf "err.parse_private_key" [] (Some e))
             | inr signer => inr [PublicKeys signer]
             end
         end.

Definition dial (cfg : Config.Config) : RM (err + unit) :=
  k ← keyAuth cfg;
  match k with
  | inl e => mret (inl e)
  | inr auth0 =>
      let auth := auth0 ++ (if Config.RemoteSSHPassword cfg ==? [] then [] else [PasswordAuth (Config.RemoteSSHPassword cfg)]) in
      match auth with
      | [] => mret (inl (Errorf "err.no_ssh_auth" [] None))
      | _ => there (ssh_Dial (sshAddr cfg) (mkClient (Config.RemoteSSHUser cfg) auth))
      end
  end.

(** Dialling, opening the SFTP session, the body, and the deferred closing of both;
    [fail] wraps an error for the caller. *)
Definition withSession {A : Type} (cfg : Config.Config) (fail : err -> A) (body : RM A) : RM A :=
  d ← dial cfg;
  match d with
  | inl e => mret (fail (Errorf "err.ssh_dial" [] (Some e)))
  | inr _ =>
      n ← there sftp_NewClient;
      match n with
      | inl e => _ ← there ssh_Close; mret (fail (Errorf "err.sftp" [] (Some e)))
      | inr _ =>
          r ← body;
          _ ← there sftp_Close;
          _ ← there ssh_Close;
          mret r
      end
  end.

Definition uploadOne (remoteDir : gostring) (encrypt : bool) (aesPassword : gostring) (loc : localEntry) : RM (option err) :=
  r ← uploadFile (Path loc) (rpath remoteDir (Name loc)) encrypt aesPassword;
  match r with
  | Some e => mret (Some (Errorf "err.upload" [Name loc] (Some e)))
  | None => _ ← here (Info "log.msg.uploaded" [AStr (Name loc)]); mret None
  end.

Fixpoint uploadLoop (remoteDir : gostring) (remoteMap : gmap gostring remoteEntry) (encrypt : bool)
    (aesPassword : gostring) (locals : list localEntry) : RM (option err) :=
  match locals with
  | [] => mret None
  | loc :: locals' =>
      if needUpload encrypt loc (remoteMap !! Name loc) then
        r ← uploadOne remoteDir encrypt aesPassword loc;
        match r with
        | Some e => mret (Some e)
        | None => uploadLoop remoteDir remoteMap encrypt aesPassword locals'
        end
      else uploadLoop remoteDir remoteMap encrypt aesPassword locals'
  end.

Definition removeOne (remoteDir : gostring) (localList : list localEntry) (rem : remoteEntry) : RM unit :=
  match localListByName localList (RName rem) with
  | Some _ => mret tt
  | None =>
      r ← there (sftp_Remove (rpath remoteDir (RName rem)));
      match r with
      | inl e => here (Warn "log.warn.remote_remove" [AStr (RName rem); AErr e])
      | inr _ => here (Info "log.msg.removed_remote" [AStr (RName rem)])
      end
  end.

Fixpoint removeLoop (remoteDir : gostring) (localList : list localEntry) (rems : list remoteEntry) : RM unit :=
  match rems with
  | [] => mret tt
  | rem :: rems' => _ ← removeOne remoteDir localList rem; removeLoop remoteDir localList rems'
  end.

(** The map by name: a later entry of the listing replaces an earlier one. *)
Definition remoteMapOf (l : list remoteEntry) : gmap gostring remoteEntry :=
  fold_left (fun m e => <[RName e := e]> m) l ∅.

(** The part of [Sync] after the connection is up. *)
Definition syncBody (cfg : Config.Config) (localList : list localEntry) : RM (option err) :=
  let remoteDir := GoPath.ToSlash (Config.RemoteBackupDir cfg) in
  mk ← there (sftp_MkdirAll remoteDir);
  _ ← match mk with
      | inl e => if IsExist e then mret tt else here (Warn "log.warn.sftp_mkdir" [AStr remoteDir; AErr e])
      | inr _ => mret tt
      end;
  l ← listRemote remoteDir;
  match l with
  | inl e => mret (Some (Errorf "err.list_remote" [] (Some e)))
  | inr remoteList =>
      let aesPassword := TrimSpace (Config.RemoteAESPassword cfg) in
      let encrypt := negb (aesPassword ==? []) in
      _ ← here (Info (if encrypt then "log.msg.remote_aes_on" else "log.msg.remote_aes_off") []);
      u ← uploadLoop remoteDir (remoteMapOf remoteList) encrypt aesPassword localList;
      match u with
      | Some e => mret (Some e)
      | None => _ ← removeLoop remoteDir localList remoteList; mret None
      end
  end.

Definition Sync (cfg : Config.Config) (backupDir : gostring) : RM (option err) :=
  if (Config.RemoteBackupDir cfg ==? []) || (Config.RemoteSSHHost cfg ==? []) then mret None
  else
    l ← here (listLocalBackups backupDir);
    match l with
    | inl e => mret (Some (Errorf "err.list_local" [] (Some e)))
    | inr localList => withSession cfg Some (syncBody cfg localList)
    end.

(** ** Fetching *)

Definition containsWildcard (s : gostring) : bool := Contains s "*" || Contains s "?".

Definition validGetfilePattern (pattern : gostring) : bool :=
  if (pattern ==? []) || Contains pattern ".." then false
  else (GoPath.Base pattern ==? pattern) && negb (Contains pattern "/") && negb (Contains pattern [backslash]).

(** How [io.ReadFull] ends: all bytes, none ([io.EOF]), some ([io.ErrUnexpectedEOF]) or an error. *)
Inductive readEnd := ReadOk | ReadEOF | ReadShort | ReadErr (e : err).

Definition ErrUnexpectedEOF : err := Errorf "unexpected EOF" [] None.

Definition readFull (remotePath : gostring) (n : nat) : RM (gostring * readEnd) :=
  r ← there (sftp_Read remotePath 0 (Some n));
  mret match r with
       | inl e => ([], ReadErr e)
       | inr bs => (bs, if (length bs =? n)%nat then ReadOk else if bs ==? [] then ReadEOF else ReadShort)
       end.

(** The rest of a remote file into a local one that already has [done]: written after
    being transformed. *)
Definition copyFrom (remotePath : gostring) (off : nat) (f : gostring -> gostring) (localPath done : gostring) : RM (option err) :=
  r ← there (sftp_Read remotePath off None);
  match r with
  | inl e => mret (Some e)
  | inr bs =>
      if bs ==? [] then mret None
      else
        w ← here (Write localPath (Raw (done ++ f bs)));
        mret match w with inl e => Some e | inr _ => None end
  end.

Definition looksPlain (header : gostring) : bool :=
  match header with
  | a :: b :: _ => (a ==? "P"%char) && (b ==? "K"%char)
  | _ => false
  end.

Definition wrap (key : gostring) (e : option err) : option err := (fun e => Errorf key [] (Some e)) <$> e.

(** The file as it is: the bytes read so far, then the rest. *)
Definition getPlain (remotePath localPath header : gostring) : RM (option err) :=
  d ← here (Create localPath);
  match d with
  | inl e => mret (Some (Errorf "err.local_create" [] (Some e)))
  | inr _ =>
      w ← (if header ==? [] then mret (inr tt) else here (Write localPath (Raw header)));
      match w with
      | inl e => mret (Some e)
      | inr _ => r ← copyFrom remotePath (length header) id localPath header; mret (wrap "err.copy" r)
      end
  end.

Definition getDecrypted (remotePath localPath header aesPassword remoteName : gostring) : RM (option err) :=
  _ ← here (Info "log.msg.remote_decrypt" [AStr remoteName]);
  match aes_NewCipher (pbkdf2_Key aesPassword (take saltLen header) pbkdf2Iter aesKeyLen) with
  | inl e => mret (Some (Errorf "err.cipher" [] (Some e)))
  | inr block =>
      let stream := xor_stream (ctr_byte block (take nonceLen (drop saltLen header))) 0 in
      d ← here (Create localPath);
      match d with
      | inl e => mret (Some (Errorf "err.local_create" [] (Some e)))
      | inr _ =>
          r ← copyFrom remotePath (length header) stream localPath [];
          mret (wrap "err.decrypt_write" r)
      end
  end.

Definition getOneFile (remoteDir remoteName localPath : gostring) (cfg : Config.Config) : RM (option err) :=
  let remotePath := rpath remoteDir remoteName in
  o ← there (sftp_Open remotePath);
  match o with
  | inl e => mret (Some (Errorf "err.remote_open" [] (Some e)))
  | inr _ =>
      h ← readFull remotePath (saltLen + nonceLen);
      let '(header, e) := h in
      match e with
      | ReadErr e => mret (Some (Errorf "err.remote_read" [] (Some e)))
      | ReadShort => mret (Some (Errorf "err.remote_read" [] (Some ErrUnexpectedEOF)))
      | ReadOk | ReadEOF =>
          let aesPassword := TrimSpace (Config.RemoteAESPassword cfg) in
          let decrypt := negb (aesPassword ==? []) && (length header =? saltLen + nonceLen)%nat && negb (looksPlain header) in
          if decrypt then getDecrypted remotePath localPath header aesPassword remoteName
          else getPlain remotePath localPath header
      end
  end.

(** The names of the listing that match. *)
Fixpoint selectMatches (pattern : gostring) (l : list remoteEntry) : err + list gostring :=
  match l with
  | [] => inr []
  | e :: l' =>
      match GoGlob.Match pattern (RName e) with
      | inl err => inl (Errorf "err.pattern" [] (Some err))
      | inr ok =>
          match selectMatches pattern l' with
          | inl err => inl err
          | inr names => inr (if ok then RName e :: names else names)
          end
      end
  end.

Definition selectFiles (pattern remoteDir : gostring) : RM (err + list gostring) :=
  if containsWildcard pattern then
    l ← listRemote remoteDir;
    mret match l with
         | inl e => inl (Errorf "err.remote_list" [] (Some e))
         | inr remoteList =>
             match selectMatches pattern remoteList with
             | inl e => inl e
             | inr [] => inl (Errorf "err.no_remote_match" [pattern] None)
             | inr names => inr names
             end
         end
  else if negb (GoPath.Ext pattern ==? str ".zip") || negb (Regexp.MatchAnchored backupZipRe pattern) then
    mret (inl (Errorf "err.only_backup_zip" [] None))
  else mret (inr [pattern]).

Definition lokal (name : gostring) : gostring := name ++ ".lokal".

(** The files one after the other; what has been saved before an error is returned with it. *)
Fixpoint downloadLoop (cfg : Config.Config) (remoteDir destDir : gostring) (names saved : list gostring)
    : RM (list gostring * option err) :=
  match names with
  | [] => mret (saved, None)
  | name :: names' =>
      st ← here (Stat (GoPath.Join destDir name));
      let localPath := match st with
                       | inr _ => GoPath.Join destDir (lokal name)
                       | inl _ => GoPath.Join destDir name
                       end in
      r ← getOneFile remoteDir name localPath cfg;
      match r with
      | Some e => mret (saved, Some (Errorf "err.file_failed" [name] (Some e)))
      | None => downloadLoop cfg remoteDir destDir names' (saved ++ [localPath])
      end
  end.

Definition GetFile (cfg : Config.Config) (pattern destDir0 : gostring) : RM (list gostring * option err) :=
  if (Config.RemoteBackupDir cfg ==? []) || (Config.RemoteSSHHost cfg ==? []) then
    mret ([], Some (Errorf "err.remote_not_configured" [] None))
  else if negb (validGetfilePattern pattern) then mret ([], Some (Errorf "err.getfile_no_path" [] None))
  else
    withSession cfg (fun e => ([], Some e))
      (let remoteDir := GoPath.ToSlash (Config.RemoteBackupDir cfg) in
       let destDir := GoPath.FromSlash destDir0 in
       sel ← selectFiles pattern remoteDir;
       match sel with
       | inl e => mret ([], Some e)
       | inr toDownload => downloadLoop cfg remoteDir destDir toDownload []
       end).

End Session.

(** ** Lemmas: the listings *)

(** The archives of a local directory: one entry for each file with an archive's name. *)
Definition localOf `{ArchiveBytes} (dir : gostring) (e : gostring * Node) : option localEntry :=
  match snd e with
  | NFile d t => if isBackupZip (fst e) then Some (mkLocal (fst e) t (Z.of_nat (length (data_bytes d))) (GoPath.Join dir (fst e))) else None
  | NDir => None
  end.

Definition locals `{ArchiveBytes} (fs : files) (dir : gostring) (l : list localEntry) : Prop :=
  NoDup (Name <$> l) /\
  forall loc, loc ∈ l <-> exists name d t, GoPath.plain name /\ isBackupZip name = true
    /\ fs !! GoPath.Join dir name = Some (NFile d t)
    /\ loc = mkLocal name t (Z.of_nat (length (data_bytes d))) (GoPath.Join dir name).

(** What the host has under an archive's name. *)
Definition remoteOf (v : rfiles) (rdir name : gostring) : option remoteEntry :=
  match v !! rpath rdir name with
  | Some (RFile c t) => Some (mkRemote name t (Z.of_nat (length c)))
  | _ => None
  end.

Section ListingFacts.
Context {FT : Faults} {AB : ArchiveBytes}.

Lemma does_localLoop dir es now (fs : files) :
  (forall name n, (name, n) ∈ es -> fs !! GoPath.Join dir name = Some n) ->
  does (localLoop dir es) now fs (omap (localOf dir) es) fs.
Proof.
  induction es as [|[name n] es IH]; intros Hes; [apply does_ret|].
  assert (does (localLoop dir es) now fs (omap (localOf dir) es) fs) as Hrest by (apply IH; intros; apply Hes; by right).
  cbn [localLoop omap list_omap]. unfold localOf at 1. cbn [fst snd]. destruct n as [|d t].
  - by rewrite bool_decide_eq_true_2.
  - rewrite bool_decide_eq_false_2 by done. destruct (isBackupZip name); [|done]. cbn [negb orb]. eapply does_bind; [apply does_Stat|].
    rewrite (Hes name (NFile d t)) by left. eapply does_bind; [exact Hrest|].
    cbn [node_size]. rewrite data_size_bytes. apply does_ret.
Qed.

(** The archives a listing examines, in its order. *)
Definition examined (es : list (gostring * Node)) : list gostring :=
  fst <$> filter (fun e => snd e <> NDir /\ isBackupZip (fst e) = true) es.

(** However the examinations fail, the archives listed are among those there are, without the
    ones whose examination failed. *)
Lemma localLoop_faulty dir es w :
  (forall name n, (name, n) ∈ es -> w_fs w !! GoPath.Join dir name = Some n) ->
  exists l w', localLoop dir es w = (l, w') /\ w_fs w' = w_fs w /\ w_tick w' = w_tick w + length (examined es) /\
    l `sublist_of` omap (localOf dir) es /\
    forall pre name post, examined es = pre ++ name :: post -> NoDup (examined es) -> is_Some (fault (w_tick w + length pre)) -> name ∉ Name <$> l.
Proof.
  revert w. induction es as [|[name n] es IH]; intros w Hes.
  { eexists [], w. split_and!; [done|done|simpl; lia|constructor|]. intros [|]; discriminate. }
  assert (forall name n, (name, n) ∈ es -> w_fs w !! GoPath.Join dir name = Some n) as Hes' by (intros; apply Hes; by right).
  assert (examined ((name, n) :: es) = if (n ==? NDir) || negb (isBackupZip name) then examined es else name :: examined es) as Ee.
  { unfold examined. rewrite filter_cons. cbn [fst snd]. destruct n as [|d t]; [by rewrite decide_False by (by intros [])|].
    rewrite bool_decide_eq_false_2 by done. cbn [orb]. by destruct (isBackupZip name); [rewrite decide_True|rewrite decide_False by (by intros [])]. }
  cbn [localLoop]. rewrite Ee. destruct ((n ==? NDir) || negb (isBackupZip name)) eqn:Eb.
  { destruct (IH w Hes') as (l & w' & E & Hf & Ht & Hl & Hno). exists l, w'. split_and!; try done. csimpl. destruct (localOf dir (name, n)); [by constructor|done]. }
  apply orb_false_iff in Eb as [En Ez]. apply negb_false_iff in Ez. bool_prop. destruct n as [|d t]; [done|].
  set (w1 := snapshot (tick w)). destruct (IH w1 Hes') as (l & w' & E & Hf & Ht & Hl & Hno). cbv zeta. unfold mbind at 1, M_bind at 1, Stat, syscall.
  assert (forall pre name' post, name :: examined es = pre ++ name' :: post -> NoDup (name :: examined es) -> is_Some (fault (w_tick w + length pre)) ->
    (pre = [] /\ name' = name /\ is_Some (fault (w_tick w))) \/ name' <> name /\ name' ∉ Name <$> l) as Hcase.
  { intros [|x pre] name' post Epre [Hn Hnd]%NoDup_cons Hfl; [left; injection Epre as <- _; rewrite Nat.add_0_r in Hfl; done|right]. injection Epre as <- Epre.
    split; [intros ->; apply Hn; rewrite Epre; set_solver|]. apply (Hno pre name' post Epre Hnd). simpl in *. by rewrite Nat.add_succ_r in Hfl. }
  csimpl. unfold localOf at 1. cbn [fst snd]. rewrite Ez. destruct (fault (w_tick w)) as [k|] eqn:Ek.
  - exists l, w'. split_and!; [exact E|done|simpl in *; lia|by constructor|]. intros pre name' post Epre Hnd Hfl.
    destruct (Hcase pre name' post Epre Hnd Hfl) as [(_ & -> & _)|[_ ?]]; [|done]. apply NoDup_cons in Hnd as [Hn _]. intros (loc & -> & Hin)%list_elem_of_fmap.
    apply Hn. eapply elem_of_submseteq in Hin; [|by apply sublist_submseteq]. apply list_elem_of_omap in Hin as ([m nd] & Hin & El).
    apply list_elem_of_fmap. exists (m, nd). unfold localOf in El. cbn [fst snd] in El. destruct nd; [done|]. destruct (isBackupZip m) eqn:Em; [|done]. injection El as <-.
    split; [done|]. by apply list_elem_of_filter.
  - cbn [w_fs tick]. rewrite (Hes name (NFile d t)) by left. unfold mbind, M_bind. fold w1. rewrite E. cbn [node_size]. rewrite data_size_bytes.
    eexists _, w'. split_and!; [done|done|simpl in *; lia|by constructor|]. intros pre name' post Epre Hnd Hfl.
    destruct (Hcase pre name' post Epre Hnd Hfl) as [(_ & _ & [? [=]])|[Hne Hnot]]. csimpl. by rewrite not_elem_of_cons.
Qed.

Lemma localOf_Name dir e loc : localOf dir e = Some loc -> Name loc = fst e.
Proof. destruct e as [name [|d t]]; unfold localOf; simpl; [done|]. case_if; [|done]. by intros [= <-]. Qed.

(** The entries of a directory in the order of its listing. *)
Definition entriesOf (fs : files) (dir : gostring) : list (gostring * Node) := merge_sort name_leb (dir_entries fs dir).

Lemma elem_of_entriesOf fs dir name n : (name, n) ∈ entriesOf fs dir <-> GoPath.plain name /\ fs !! GoPath.Join dir name = Some n.
Proof. unfold entriesOf. rewrite merge_sort_Permutation. apply elem_of_dir_entries. Qed.

Lemma entriesOf_NoDup fs dir : NoDup (fst <$> entriesOf fs dir).
Proof. unfold entriesOf. rewrite merge_sort_Permutation. apply dir_entries_NoDup. Qed.

Lemma locals_listed fs dir : locals fs dir (omap (localOf dir) (entriesOf fs dir)).
Proof.
  split.
  - generalize (entriesOf_NoDup fs dir). generalize (entriesOf fs dir) as es. intros es. induction es as [|e es IH]; [constructor|]. csimpl. intros [Hn Hnd]%NoDup_cons.
    destruct (localOf dir e) as [loc|] eqn:E; [|auto]. csimpl. constructor; [|auto]. intros Hin. apply Hn.
    apply list_elem_of_fmap in Hin as (loc' & Hloc & Hin). apply list_elem_of_omap in Hin as (e' & Hin & E').
    apply localOf_Name in E, E'. rewrite <- E, Hloc, E'. by apply list_elem_of_fmap_2.
  - intros loc. rewrite list_elem_of_omap. split.
    + intros ([name n] & Hin & E). apply elem_of_entriesOf in Hin as [Hp Hf]. unfold localOf in E. cbn [fst snd] in E.
      destruct n as [|d t]; [done|]. destruct (isBackupZip name) eqn:Hz; [|done]. injection E as <-. by exists name, d, t.
    + intros (name & d & t & Hp & Hz & Hf & ->). exists (name, NFile d t). rewrite elem_of_entriesOf. split; [done|].
      unfold localOf. cbn [fst snd]. by rewrite Hz.
Qed.

Lemma does_listLocalBackups dir now (fs : files) :
  fs !! dir = Some NDir -> exists l, does (listLocalBackups dir) now fs (inr l) fs /\ locals fs dir l.
Proof.
  intros Hd. exists (omap (localOf dir) (entriesOf fs dir)). split; [|apply locals_listed].
  eapply does_bind; [by apply does_ReadDir|]. eapply does_bind; [|apply does_ret]. apply does_localLoop.
  intros name n Hin. by apply elem_of_entriesOf.
Qed.

(** The archives of a directory in the order in which they are examined. *)
Definition archiveNames (fs : files) (dir : gostring) : list gostring := examined (entriesOf fs dir).

Lemma archiveNames_NoDup fs dir : NoDup (archiveNames fs dir).
Proof.
  unfold archiveNames, examined. eapply sublist_NoDup; [apply entriesOf_NoDup|]. apply fmap_sublist, sublist_filter.
Qed.

Lemma listLocalBackups_faulty dir w :
  w_fs w !! dir = Some NDir -> fault (w_tick w) = None ->
  exists l w', listLocalBackups dir w = (inr l, w') /\ w_fs w' = w_fs w /\ w_tick w' = S (w_tick w) + length (archiveNames (w_fs w) dir) /\
    NoDup (Name <$> l) /\ l ⊆ omap (localOf dir) (entriesOf (w_fs w) dir) /\
    forall pre name post, archiveNames (w_fs w) dir = pre ++ name :: post -> is_Some (fault (S (w_tick w) + length pre)) -> name ∉ Name <$> l.
Proof.
  intros Hd Hf. set (w1 := snapshot (tick w)). destruct (localLoop_faulty dir (entriesOf (w_fs w) dir) w1) as (l & w' & E & Hfs & Ht & Hl & Hno).
  { intros name n Hin. by apply elem_of_entriesOf. }
  exists l, w'. split.
  { unfold listLocalBackups, mbind, M_bind, ReadDir, syscall, GoPath.FromSlash. rewrite Hf. cbn [w_fs tick]. rewrite Hd. fold (entriesOf (w_fs w) dir) w1. by rewrite E. }
  split; [done|]. split; [done|]. split; [eapply sublist_NoDup; [apply locals_listed|by apply fmap_sublist]|]. split; [intros x Hx; eapply elem_of_submseteq; [exact Hx|by apply sublist_submseteq]|].
  intros pre name post Epre Hflt. eapply Hno; [exact Epre|apply archiveNames_NoDup|exact Hflt].
Qed.

End ListingFacts.

Lemma locals_fun `{ArchiveBytes} fs dir l loc loc' : locals fs dir l -> loc ∈ l -> loc' ∈ l -> Name loc = Name loc' -> loc = loc'.
Proof.
  intros [_ Hl] (n & d & t & _ & _ & Hf & ->)%Hl (n' & d' & t' & _ & _ & Hf' & ->)%Hl E. simpl in E. subst n'. naive_solver congruence.
Qed.

Lemma localListByName_None l name : localListByName l name = None <-> name ∉ Name <$> l.
Proof.
  unfold localListByName. rewrite fmap_None, list_find_None, Forall_forall, list_elem_of_fmap. naive_solver.
Qed.

Lemma elem_of_remoteKept v rdir es rem :
  listing v rdir es -> rem ∈ remoteKept es <->
  GoPath.plain (RName rem) /\ isBackupZip (RName rem) = true /\ remoteOf v rdir (RName rem) = Some rem.
Proof.
  intros (_ & Hin & Hall). unfold remoteKept, remoteOf. rewrite list_elem_of_fmap. split.
  - intros (i & -> & [[Hd Hz] Hi]%list_elem_of_filter). simpl. destruct (Hin i Hi) as (Hp & n & -> & Hn).
    destruct n as [|c t]; [congruence|]. split_and!; [done..|]. rewrite Hn. simpl. done.
  - intros (Hp & Hz & Hr). destruct (v !! _) as [[|c t]|] eqn:E; [done| |done]. injection Hr as Hr.
    destruct (Hall _ _ Hp E) as (i & Hi & Hni). exists i. destruct (Hin i Hi) as (_ & n & Hn & Hinfo).
    rewrite Hni, E in Hn. injection Hn as <-. rewrite Hni in Hinfo. rewrite Hinfo. simpl. split; [done|].
    apply list_elem_of_filter. rewrite Hinfo in Hi. done.
Qed.

Lemma remoteKept_NoDup v rdir es : listing v rdir es -> NoDup (RName <$> remoteKept es).
Proof.
  intros (Hnd & _). unfold remoteKept. revert Hnd. induction es as [|i es IH]; [constructor|]. csimpl.
  intros [Hi Hnd]%NoDup_cons. rewrite filter_cons. case_decide; [|auto]. csimpl. constructor; [|auto].
  intros Hin. apply Hi. apply list_elem_of_fmap in Hin as (r & -> & Hin). apply list_elem_of_fmap in Hin as (j & -> & Hj).
  apply list_elem_of_filter in Hj as [_ Hj]. cbn [RName]. by apply list_elem_of_fmap_2.
Qed.

Lemma remoteMapOf_lookup l n e : NoDup (RName <$> l) -> remoteMapOf l !! n = Some e <-> e ∈ l /\ RName e = n.
Proof.
  unfold remoteMapOf. intros Hnd.
  assert (forall m : gmap gostring remoteEntry, (forall x, x ∈ l -> m !! RName x = None) ->
    fold_left (fun m e => <[RName e := e]> m) l m !! n = Some e <-> (e ∈ l /\ RName e = n) \/ m !! n = Some e) as H.
  { induction l as [|x l IH]; intros m Hm; simpl; [set_solver|]. csimpl in Hnd. apply NoDup_cons in Hnd as [Hx Hnd].
    rewrite IH; [|done|].
    - rewrite lookup_insert_Some, elem_of_cons. split.
      + intros [[? ?]|[[? ->]|[? ?]]]; naive_solver.
      + intros [[[->|?] ?]|Hmn]; [naive_solver..|]. right. right. split; [|done]. intros <-. by rewrite Hm in Hmn by left.
    - intros y Hy. rewrite lookup_insert_ne; [apply Hm; by right|]. intros E. apply Hx. rewrite E. by apply list_elem_of_fmap_2. }
  rewrite H by (intros; apply lookup_empty). rewrite lookup_empty. naive_solver.
Qed.

(** The map answers for each archive's name what the host has. *)
Lemma remoteMap_spec v rdir es name :
  listing v rdir es -> GoPath.plain name -> isBackupZip name = true ->
  remoteMapOf (remoteKept es) !! name = remoteOf v rdir name.
Proof.
  intros Hl Hp Hz. apply option_eq. intros e. rewrite remoteMapOf_lookup by (by eapply remoteKept_NoDup).
  rewrite elem_of_remoteKept by done. split; [by intros [(_ & _ & ?) <-]|].
  intros E. assert (RName e = name) as <-; [|done]. unfold remoteOf in E. destruct (v !! _) as [[|]|]; [done| |done]. by injection E as <-.
Qed.

(** The archives a backup run names are the ones mirrored, unless a name has a newline. *)
Lemma isBackupZip_written t rest :
  (0 <= Year t <= 9999)%Z -> LF ∉ rest -> isBackupZip ("mysql_backup_" ++ FormatDate t ++ "_" ++ rest ++ ".zip") = true.
Proof.
  intros Hy Hlf. destruct (FormatDate_digits t Hy) as [Hlen Hdig]. unfold isBackupZip. apply andb_true_iff. split.
  { apply bool_decide_eq_true_2. rewrite !app_assoc. apply (GoPath.Ext_app _ "zip"); apply (bool_decide_eq_true_1 _); reflexivity. }
  unfold Regexp.MatchAnchored, backupZipRe.
  rewrite (Regexp.runes_ascii_app (str "mysql_backup_")), (Regexp.runes_ascii_app (FormatDate t)), (Regexp.runes_ascii_app (str "_"));
    try (apply (bool_decide_eq_true_1 _); reflexivity); [|eapply Forall_impl; [exact Hdig|]; unfold is_digit; intros c Hc; lia].
  change (rest ++ str ".zip") with (rest ++ "."%char :: str "zip"). rewrite Regexp.runes_app_ascii by done.
  erewrite Regexp.run_Cat_det by apply Regexp.run_lit.
  erewrite Regexp.run_Cat_det.
  2: { rewrite <- Hlen, <- (length_fmap Regexp.tok1). apply Regexp.run_times, Forall_fmap. eapply Forall_impl; [exact Hdig|]. intros c Hc. exact Hc. }
  erewrite Regexp.run_Cat_det by apply Regexp.run_lit.
  match goal with |- context [Regexp.run (Regexp.Cat (Regexp.Rep _) ?r) (?w ++ ?s)] =>
    assert (Regexp.run (Regexp.Cat (Regexp.Rep Regexp.cls_dot) r) (w ++ s) <> []) as Hne end.
  { apply Regexp.run_Rep_some; [|by vm_compute]. apply Forall_forall. intros t' Ht'. unfold Regexp.cls_dot. apply negb_true_iff, Z.eqb_neq.
    intros E. destruct (Regexp.runes_low rest t' Ht') as (c & -> & Hc); [lia|]. apply Hlf. replace LF with c; [done|].
    rewrite <- (chr_code c). simpl in E. by rewrite E. }
  by destruct (Regexp.run (Regexp.Cat (Regexp.Rep Regexp.cls_dot) _) _).
Qed.

(** ** Lemmas: uploads *)

(** Remote contents that carry the bytes of a local file: the bytes, or salt, nonce and
    the bytes under the key stream. *)
Definition carries `{ArchiveBytes} `{Crypto} `{Rand} (encrypt : bool) (password : gostring) (d : Data) (content : gostring) : Prop :=
  if encrypt then
    exists t1 t2, let salt := rand_bytes t1 saltLen in let nonce := rand_bytes t2 nonceLen in
      content = salt ++ nonce ++ xor_stream (ctr_byte (pbkdf2_Key password salt pbkdf2Iter aesKeyLen) nonce) 0 (data_bytes d)
  else content = data_bytes d.

Section Uploads.
Context {FT : Faults} {AB : ArchiveBytes} {SF : Sftp} {SL : SftpLaws SF} {CR : Crypto} {CL : CryptoLaws CR} {RD : Rand} {RL : RandLaws RD}.

(** Local files and remote tree as they are. *)
Definition now_at (fs0 : files) (v0 : rfiles) (fs : files) (v : rfiles) : Prop := fs = fs0 /\ v = v0.

Lemma rspec_rand n fs0 v0 :
  rspec (now_at fs0 v0) (here (rand_Read n)) (fun r fs v => now_at fs0 v0 fs v /\ exists t, r = inr (rand_bytes t n)).
Proof.
  intros w s Hw Hs [<- <-]. unfold here, rand_Read, syscall. rewrite Hw by lia. eexists _, _, s. split; [reflexivity|].
  split; [intros t Ht; apply Hw; simpl in Ht; lia|]. split; [done|]. split; [done|]. by eexists.
Qed.

(** Appending to a remote file. *)
Lemma rspec_append p c bs fs0 (v0 : rfiles) t :
  v0 !! p = Some (RFile c t) ->
  rspec (now_at fs0 v0) (there (sftp_Write p bs))
    (fun r fs v => r = inr tt /\ exists t', now_at fs0 (<[p := RFile (c ++ bs) t']> v0) fs v).
Proof.
  intros Hp. apply rspec_there. intros s fs Hs [-> Hv]. subst v0. destruct (law_Write p bs c t s Hs Hp) as (t' & Hg).
  eexists _, _. split; [exact Hg|]. split; [done|]. by exists t'.
Qed.

Lemma rspec_copyTo p c bs fs0 (v0 : rfiles) t :
  v0 !! p = Some (RFile c t) ->
  rspec (now_at fs0 v0) (copyTo p bs)
    (fun r fs v => r = inr tt /\ exists t', now_at fs0 (<[p := RFile (c ++ bs) t']> v0) fs v).
Proof.
  intros Hp. unfold copyTo. case_if; bool_prop; [|by eapply rspec_append].
  subst bs. apply rspec_ret. intros fs v [-> ->]. split; [done|]. exists t. split; [done|]. by rewrite app_nil_r, insert_id.
Qed.

Lemma rspec_read d t fs0 v0 :
  rspec (now_at fs0 v0) (here (ReadAll (NFile d t))) (fun r fs v => r = inr (data_bytes d) /\ now_at fs0 v0 fs v).
Proof.
  apply rspec_here. intros fs v now [-> ->]. eexists _, _. split; [apply does_ReadAll|]. done.
Qed.

(** The postcondition of an upload to [p]. *)
Definition sent (encrypt : bool) (pw : gostring) (d : Data) (p : gostring) (fs0 : files) (v0 : rfiles)
    (r : option err) (fs : files) (v : rfiles) : Prop :=
  r = None /\ exists c t, carries encrypt pw d c /\ now_at fs0 (<[p := RFile c t]> v0) fs v.

Lemma rspec_streamEncryptUpload pw d t p fs0 v0 t0 :
  v0 !! p = Some (RFile [] t0) ->
  rspec (now_at fs0 v0) (streamEncryptUpload (NFile d t) p pw) (sent true pw d p fs0 v0).
Proof.
  intros Hp. unfold streamEncryptUpload. eapply rspec_bind; [apply rspec_rand|]. intros r1. apply rspec_pre.
  intros ? ? [[-> ->] (t1 & ->)]. eapply rspec_bind; [apply rspec_rand|]. intros r2. apply rspec_pre.
  intros ? ? [[-> ->] (t2 & ->)].
  unfold aes_NewCipher. rewrite pbkdf2_length. cbn [aesKeyLen Nat.eqb orb].
  eapply rspec_bind; [by eapply rspec_append|]. intros r3. apply rspec_pre. intros ? ? [-> (t3 & -> & ->)].
  eapply rspec_bind; [eapply rspec_append, lookup_insert_eq|]. intros r4. apply rspec_pre. intros ? ? [-> (t4 & -> & ->)].
  eapply rspec_bind; [apply rspec_read|]. intros r5. apply rspec_pre. intros ? ? [-> [-> ->]].
  eapply rspec_bind; [eapply rspec_copyTo, lookup_insert_eq|]. intros r6. apply rspec_ret. intros fs v [-> (t5 & -> & ->)].
  split; [done|]. eexists _, t5. split; [by exists t1, t2|]. split; [done|].
  by rewrite !insert_insert_eq, app_nil_l, <- app_assoc.
Qed.

Lemma rspec_uploadFile encrypt pw d t lp rdir name fs0 (v0 : rfiles) :
  fs0 !! lp = Some (NFile d t) -> GoPath.plain name -> v0 !! rdir = Some RDir -> v0 !! rpath rdir name <> Some RDir ->
  rspec (now_at fs0 v0) (uploadFile lp (rpath rdir name) encrypt pw) (sent encrypt pw d (rpath rdir name) fs0 v0).
Proof.
  intros Hf Hp Hd Hn. unfold uploadFile.
  apply (rspec_bind _ _ _ (fun r fs v => r = inr (NFile d t) /\ now_at fs0 v0 fs v)).
  { apply rspec_here. intros fs v now [-> ->]. eexists _, _. split; [apply does_Open|]. unfold GoPath.FromSlash. rewrite Hf.
    done. }
  intros r. apply rspec_pre. intros ? ? [-> [-> ->]].
  apply (rspec_bind _ _ _ (fun r fs v => r = inr tt /\ exists t1, now_at fs0 (<[rpath rdir name := RFile [] t1]> v0) fs v)).
  { apply rspec_there. intros s fs Hs [-> Hv]. subst v0. destruct (law_Create rdir name s Hs Hp Hd Hn) as (t1 & Hg).
    eexists _, _. split; [exact Hg|]. split; [done|]. by exists t1. }
  intros r. apply rspec_pre. intros ? ? [-> (t1 & -> & ->)]. destruct encrypt; cbn [negb].
  - eapply rspec_conseq; [| |eapply rspec_streamEncryptUpload, lookup_insert_eq]; [done|].
    intros x fs v (-> & c & t2 & Hc & -> & ->). split; [done|]. exists c, t2. by rewrite insert_insert_eq.
  - eapply rspec_bind; [apply rspec_read|]. intros r. apply rspec_pre. intros ? ? [-> [-> ->]].
    eapply rspec_bind; [eapply rspec_copyTo, lookup_insert_eq|]. intros r. apply rspec_ret. intros fs v [-> (t2 & -> & ->)].
    split; [done|]. eexists _, t2. split; [reflexivity|]. split; [done|]. by rewrite insert_insert_eq.
Qed.

(** *** The two loops *)

(** The archives of [l] that needed it have been sent, and nothing else has changed. *)
Definition uploaded (rdir : gostring) (m : gmap gostring remoteEntry) (encrypt : bool) (pw : gostring) (fs0 : files)
    (l : list localEntry) (v0 v : rfiles) : Prop :=
  (forall loc, loc ∈ l -> needUpload encrypt loc (m !! Name loc) = true ->
     exists d t c t', fs0 !! Path loc = Some (NFile d t) /\ carries encrypt pw d c /\ v !! rpath rdir (Name loc) = Some (RFile c t')) /\
  (forall p, (forall loc, loc ∈ l -> needUpload encrypt loc (m !! Name loc) = true -> p <> rpath rdir (Name loc)) -> v !! p = v0 !! p).

(** The entries of [rems] that are not among [l] are gone, and nothing else has changed. *)
Definition removed (rdir : gostring) (l : list localEntry) (rems : list remoteEntry) (v0 v : rfiles) : Prop :=
  (forall rem, rem ∈ rems -> localListByName l (RName rem) = None -> v !! rpath rdir (RName rem) = None) /\
  (forall p, (forall rem, rem ∈ rems -> localListByName l (RName rem) = None -> p <> rpath rdir (RName rem)) -> v !! p = v0 !! p).

Lemma rspec_uploadLoop rdir m encrypt pw fs0 l (v0 : rfiles) :
  NoDup (Name <$> l) -> v0 !! rdir = Some RDir ->
  (forall loc, loc ∈ l -> GoPath.plain (Name loc) /\ (exists d t, fs0 !! Path loc = Some (NFile d t))
     /\ v0 !! rpath rdir (Name loc) <> Some RDir) ->
  rspec (now_at fs0 v0) (uploadLoop rdir m encrypt pw l) (fun r fs v =>
    r = None /\ fs = fs0 /\ uploaded rdir m encrypt pw fs0 l v0 v).
Proof.
  revert v0. induction l as [|loc l IH]; intros v0 Hnd Hd Hl.
  { apply rspec_ret. intros fs v [-> ->]. split; [done|]. split; [done|]. split; [|done]. by intros ? ?%not_elem_of_nil. }
  csimpl in Hnd. apply NoDup_cons in Hnd as [Hn Hnd]. cbn [uploadLoop].
  destruct (Hl loc) as (Hp & (d & t & Hf) & Hr); [left|]. assert (forall loc', loc' ∈ l -> Name loc' <> Name loc) as Hne.
  { intros loc' Hin E. apply Hn. rewrite <- E. by apply list_elem_of_fmap_2. }
  destruct (needUpload encrypt loc (m !! Name loc)) eqn:Eneed.
  - apply (rspec_bind _ _ _ (sent encrypt pw d (rpath rdir (Name loc)) fs0 v0)).
    { unfold uploadOne. eapply rspec_bind; [by eapply rspec_uploadFile|]. intros r. apply rspec_pre. intros fs v (-> & c & t' & Hc & -> & ->).
      apply rspec_log_bind, rspec_ret. intros fs v [-> ->]. split; [done|]. by exists c, t'. }
    intros r. apply rspec_pre. intros fs v (-> & c & t' & Hc & -> & ->).
    eapply rspec_conseq; [| |apply IH]; [done| |done| |].
    + intros x fs v (-> & -> & Hin & Hout). split; [done|]. split; [done|]. split.
      * intros loc' [->|Hin']%elem_of_cons Hneed; [|by apply Hin]. exists d, t, c, t'. split_and!; [done..|].
        rewrite Hout; [apply lookup_insert_eq|]. intros loc' Hin' _ E%rpath_inj. by apply (Hne loc').
      * intros p Hpout. rewrite Hout; [rewrite lookup_insert_ne; [done|]|].
        -- intros E. apply (Hpout loc); [left|done|done].
        -- intros loc' Hin'. apply Hpout. by right.
    + rewrite lookup_insert_ne; [done|]. apply rpath_ne_dir.
    + intros loc' Hin'. destruct (Hl loc') as (? & ? & ?); [by right|]. split_and!; [done|done|].
      rewrite lookup_insert_ne; [done|]. intros E%rpath_inj. by apply (Hne loc').
  - eapply rspec_conseq; [| |apply IH]; [done| |done|done|intros; apply Hl; by right].
    intros x fs v (-> & -> & Hin & Hout). split; [done|]. split; [done|]. split.
    + intros loc' [->|Hin']%elem_of_cons Hneed; [congruence|by apply Hin].
    + intros p Hpout. apply Hout. intros loc' Hin'. apply Hpout. by right.
Qed.

Lemma rspec_removeOne rdir l rem fs0 (v0 : rfiles) :
  (localListByName l (RName rem) = None -> exists c t, v0 !! rpath rdir (RName rem) = Some (RFile c t)) ->
  rspec (now_at fs0 v0) (removeOne rdir l rem) (fun _ fs v =>
    now_at fs0 (if localListByName l (RName rem) then v0 else delete (rpath rdir (RName rem)) v0) fs v).
Proof.
  intros Hf. unfold removeOne. destruct (localListByName l (RName rem)) as [e|]; [apply rspec_ret; intros fs v [-> ->]; done|].
  destruct (Hf eq_refl) as (c & t & Hp).
  apply (rspec_bind _ _ _ (fun r fs v => r = inr tt /\ now_at fs0 (delete (rpath rdir (RName rem)) v0) fs v)).
  { apply rspec_there. intros s fs Hs [-> Hv]. subst v0. eexists _, _. split; [by eapply law_Remove|]. done. }
  intros r. apply rspec_pre. intros ? ? [-> [-> ->]]. by apply rspec_log.
Qed.

Lemma rspec_removeLoop rdir l rems fs0 (v0 : rfiles) :
  NoDup (RName <$> rems) ->
  (forall rem, rem ∈ rems -> localListByName l (RName rem) = None -> exists c t, v0 !! rpath rdir (RName rem) = Some (RFile c t)) ->
  rspec (now_at fs0 v0) (removeLoop rdir l rems) (fun _ fs v => fs = fs0 /\ removed rdir l rems v0 v).
Proof.
  revert v0. induction rems as [|rem rems IH]; intros v0 Hnd Hf.
  { apply rspec_ret. intros fs v [-> ->]. split; [done|]. split; [|done]. by intros ? ?%not_elem_of_nil. }
  csimpl in Hnd. apply NoDup_cons in Hnd as [Hn Hnd]. cbn [removeLoop].
  assert (forall r, r ∈ rems -> RName r <> RName rem) as Hne by (intros r Hin E; apply Hn; rewrite <- E; by apply list_elem_of_fmap_2).
  eapply rspec_bind; [apply rspec_removeOne, Hf; left|]. intros []. apply rspec_pre. intros fs v [-> ->].
  destruct (localListByName l (RName rem)) as [e|] eqn:E.
  - eapply rspec_conseq; [| |apply IH]; [done| |done|intros; apply Hf; [by right|done]].
    intros x fs v (-> & Hin & Hout). split; [done|]. split.
    + intros r [->|Hr]%elem_of_cons Hnone; [congruence|by apply Hin].
    + intros p Hp. apply Hout. intros r Hr. apply Hp. by right.
  - eapply rspec_conseq; [| |apply IH]; [done| |done|].
    + intros x fs v (-> & Hin & Hout). split; [done|]. split.
      * intros r [->|Hr]%elem_of_cons Hnone; [|by apply Hin]. rewrite Hout; [apply lookup_delete_eq|].
        intros r' Hr' _ E'%rpath_inj. by apply (Hne r').
      * intros p Hp. rewrite Hout; [|intros r Hr; apply Hp; by right]. rewrite lookup_delete_ne; [done|].
        intros E'. apply (Hp rem); [left|done|done].
    + intros r Hr Hnone. destruct (Hf r) as (c & t & Hc); [by right|done|]. exists c, t. rewrite lookup_delete_ne; [done|].
      intros E'%rpath_inj. by apply (Hne r).
Qed.

(** *** The session *)

(** With these local files the host accepts the configured login. *)
Definition dials (cfg : Config.Config) (fs : files) (s : srv) : Prop :=
  forall w, fine w -> w_fs w = fs -> fst (dial cfg (w, s)) = inr tt.

Lemma keyAuth_local cfg w s : fine w ->
  exists r w', keyAuth cfg (w, s) = (r, (w', s)) /\ fine w' /\ w_fs w' = w_fs w.
Proof.
  intros Hw. unfold keyAuth. case_if; [by eexists _, w|]. unfold mbind, RM_bind, here.
  pose proof (quiet_ReadFile (GoPath.FromSlash (Config.RemoteSSHKeyFile cfg)) w) as Hq.
  assert (fine (snd (ReadFile (GoPath.FromSlash (Config.RemoteSSHKeyFile cfg)) w))) as Hf.
  { unfold ReadFile, syscall. rewrite Hw by lia. intros t Ht. apply Hw. simpl in Ht. destruct (w_fs w !! _) as [[|[]]|]; simpl in Ht; lia. }
  pose proof (quiet_fs _ w (quiet_ReadFile (GoPath.FromSlash (Config.RemoteSSHKeyFile cfg)))) as Hfs.
  destruct (ReadFile _ w) as [r w']. by eexists _, w'.
Qed.

Lemma dial_ok cfg w s : fine w -> up s -> dials cfg (w_fs w) s ->
  exists w' s', dial cfg (w, s) = (inr tt, (w', s')) /\ fine w' /\ w_fs w' = w_fs w /\ up s' /\ view s' = view s.
Proof.
  intros Hw Hs Hd. specialize (Hd w Hw eq_refl). unfold dial in *. unfold mbind, RM_bind in *.
  destruct (keyAuth_local cfg w s Hw) as (r & w' & E & Hw' & Hfs). rewrite E in *.
  destruct r as [e|auth0]; [done|]. destruct (auth0 ++ _) as [|a auth]; [done|]. unfold there in *.
  destruct (ssh_Dial _ _ s) as [r s'] eqn:Ed. simpl in Hd. subst r. eexists _, _. split; [done|].
  split_and!; [done|done|by eapply law_Dial..].
Qed.

Lemma withSession_spec {A : Type} cfg (fail : err -> A) (body : RM A) P (Q : A -> files -> rfiles -> Prop) w s :
  rspec P body Q -> fine w -> up s -> dials cfg (w_fs w) s -> P (w_fs w) (view s) ->
  exists r w' s', withSession cfg fail body (w, s) = (r, (w', s')) /\ fine w' /\ up s' /\ Q r (w_fs w') (view s').
Proof.
  intros Hb Hw Hs Hd HP. destruct (dial_ok cfg w s Hw Hs Hd) as (w1 & s1 & E1 & Hw1 & Hfs1 & Hs1 & Hv1).
  destruct (law_NewClient s1 Hs1) as (s2 & E2 & Hs2 & Hv2). rewrite <- Hfs1, <- Hv1, <- Hv2 in HP.
  destruct (Hb w1 s2 Hw1 Hs2 HP) as (r & w3 & s3 & E3 & Hw3 & Hs3 & HQ).
  unfold withSession, mbind, RM_bind. rewrite E1. unfold there. rewrite E2, E3.
  destruct (law_sftp_Close s3) as [Hv4 Hs4]. destruct (sftp_Close s3) as [[] s4].
  destruct (law_ssh_Close s4) as [Hv5 Hs5]. destruct (ssh_Close s4) as [[] s5]. simpl in *.
  exists r, w3, s5. split_and!; [done|done|auto|]. by rewrite Hv5, Hv4.
Qed.

(** *** Mirroring *)

(** What is on the host does not stand for the local file: there is no file, or it is older,
    or, with encryption, its size is not that of the local one with salt and nonce, 32 bytes. *)
Definition outdated (encrypt : bool) (d : Data) (t : Time) (r : option RNode) : Prop :=
  match r with
  | Some (RFile c rt) => Before rt t = true \/ (encrypt = true /\ (Z.of_nat (length c) <> Z.of_nat (length (data_bytes d)) + 32)%Z)
  | _ => True
  end.

#[global] Instance outdated_dec encrypt d t r : Decision (outdated encrypt d t r).
Proof. unfold outdated. destruct r as [[|c rt]|]; apply _. Defined.

(** The remote tree [v'] mirrors the archives of a local directory, starting from [v]:
    each local archive is there, sent anew if it was outdated, an archive not here any more
    is gone, and nothing else has changed. *)
Definition mirrored (encrypt : bool) (pw : gostring) (fs : files) (dir rdir : gostring) (v v' : rfiles) : Prop :=
  (forall name, GoPath.plain name -> isBackupZip name = true ->
     let p := rpath rdir name in
     match fs !! GoPath.Join dir name with
     | Some (NFile d t) =>
         if decide (outdated encrypt d t (v !! p))
         then exists c t', carries encrypt pw d c /\ v' !! p = Some (RFile c t')
         else v' !! p = v !! p
     | _ => v' !! p = match v !! p with Some (RFile _ _) => None | x => x end
     end) /\
  (forall p, (forall name, GoPath.plain name -> isBackupZip name = true -> p <> rpath rdir name) -> v' !! p = v !! p).

(** No remote directory has the name of a local archive. *)
Definition no_clash (fs : files) (dir rdir : gostring) (v : rfiles) : Prop :=
  forall name d t, GoPath.plain name -> isBackupZip name = true ->
    fs !! GoPath.Join dir name = Some (NFile d t) -> v !! rpath rdir name <> Some RDir.

Lemma rspec_listRemote rdir fs0 v0 :
  v0 !! rdir = Some RDir ->
  rspec (now_at fs0 v0) (listRemote rdir)
    (fun r fs v => now_at fs0 v0 fs v /\ exists es, r = inr (remoteKept es) /\ listing v0 rdir es).
Proof.
  intros Hd. unfold listRemote.
  apply (rspec_bind _ _ _ (fun r fs v => now_at fs0 v0 fs v /\ exists es, r = inr es /\ listing v0 rdir es)).
  - apply rspec_there. intros s fs Hs [-> Hv]. subst v0. destruct (law_ReadDir rdir s Hs Hd) as (es & Hg & Hl).
    eexists _, _. split; [exact Hg|]. split; [done|]. by exists es.
  - intros r. apply rspec_pre. intros fs v [[-> ->] (es & -> & Hl)]. apply rspec_ret. intros fs v [-> ->].
    split; [done|]. by exists es.
Qed.

Lemma local_facts fs0 dir l rdir v0 loc :
  locals fs0 dir l -> no_clash fs0 dir rdir v0 -> loc ∈ l ->
  GoPath.plain (Name loc) /\ (exists d t, fs0 !! Path loc = Some (NFile d t)) /\ v0 !! rpath rdir (Name loc) <> Some RDir.
Proof. intros [_ Hl] Hn (name & d & t & Hp & Hz & Hf & ->)%Hl. simpl. split_and!; [done|by exists d, t|by eapply Hn]. Qed.

(** The two loops together mirror the directory. *)
Section Mirroring.
Context (dir rdir : gostring) (encrypt : bool) (pw : gostring) (fs0 : files) (l : list localEntry) (es : list RInfo) (v0 v1 v : rfiles).
Hypothesis Hloc : locals fs0 dir l.
Hypothesis Hl : listing v0 rdir es.
Hypothesis Hup : uploaded rdir (remoteMapOf (remoteKept es)) encrypt pw fs0 l v0 v1.
Hypothesis Hrm : removed rdir l (remoteKept es) v1 v.

Lemma locals_names name : GoPath.plain name -> isBackupZip name = true ->
  name ∈ Name <$> l <-> exists d t, fs0 !! GoPath.Join dir name = Some (NFile d t).
Proof using Hloc.
  intros Hp Hz. destruct Hloc as [_ Hin]. rewrite list_elem_of_fmap. split.
  - intros (loc & -> & (n & d & t & _ & _ & Hf & ->)%Hin). by exists d, t.
  - intros (d & t & Hf). eexists. split; [|apply Hin; by exists name, d, t]. done.
Qed.

Lemma not_uploaded name : name ∉ Name <$> l -> v1 !! rpath rdir name = v0 !! rpath rdir name.
Proof using Hup. intros Hn. apply Hup. intros loc Hin' _ E%rpath_inj. apply Hn. rewrite E. by apply list_elem_of_fmap_2. Qed.

Lemma not_removed name : name ∈ Name <$> l \/ remoteOf v0 rdir name = None -> v !! rpath rdir name = v1 !! rpath rdir name.
Proof using Hl Hrm.
  intros Hor. apply Hrm. intros rem (_ & _ & Hr)%(elem_of_remoteKept _ _ _ _ Hl) Hnone%localListByName_None E%rpath_inj.
  rewrite <- E in *. destruct Hor; congruence.
Qed.

Lemma remoteOf_name name rem : remoteOf v0 rdir name = Some rem -> RName rem = name.
Proof using Type. unfold remoteOf. destruct (v0 !! _) as [[|]|]; [done|by intros [= <-]|done]. Qed.

Lemma mirrored_gone name : GoPath.plain name -> isBackupZip name = true -> name ∉ Name <$> l ->
  v !! rpath rdir name = match v0 !! rpath rdir name with Some (RFile _ _) => None | x => x end.
Proof using Hl Hup Hrm.
  intros Hp Hz Hnl. destruct (remoteOf v0 rdir name) as [rem|] eqn:Er.
  - pose proof (remoteOf_name _ _ Er) as En. rewrite <- En in *. rewrite (proj1 Hrm);
      [unfold remoteOf in Er; by destruct (v0 !! rpath rdir (RName rem)) as [[|]|]|by apply (elem_of_remoteKept _ _ _ _ Hl)|by apply localListByName_None].
  - rewrite not_removed, not_uploaded by auto. unfold remoteOf in Er. by destruct (v0 !! rpath rdir name) as [[|]|].
Qed.

Lemma needUpload_outdated name d t path :
  needUpload encrypt (mkLocal name t (Z.of_nat (length (data_bytes d))) path) (remoteOf v0 rdir name) = bool_decide (outdated encrypt d t (v0 !! rpath rdir name)).
Proof using Type.
  unfold remoteOf. destruct (v0 !! rpath rdir name) as [[|c rt]|]; [done| |done]. cbn [needUpload ModTime RModTime RSize Size]. unfold After.
  apply eq_true_iff_eq. rewrite orb_true_iff, andb_true_iff, negb_true_iff, Z.eqb_neq, bool_decide_eq_true. done.
Qed.

Lemma mirrored_kept name d t : GoPath.plain name -> isBackupZip name = true -> fs0 !! GoPath.Join dir name = Some (NFile d t) ->
  if decide (outdated encrypt d t (v0 !! rpath rdir name))
  then exists c t', carries encrypt pw d c /\ v !! rpath rdir name = Some (RFile c t')
  else v !! rpath rdir name = v0 !! rpath rdir name.
Proof using Hloc Hl Hup Hrm.
  intros Hp Hz Ef. assert (name ∈ Name <$> l) as Hnl by (apply locals_names; eauto). rewrite not_removed by auto.
  set (loc := mkLocal name t (Z.of_nat (length (data_bytes d))) (GoPath.Join dir name)). assert (loc ∈ l) as Hinl by (apply Hloc; by exists name, d, t).
  assert (needUpload encrypt loc (remoteOf v0 rdir name) = bool_decide (outdated encrypt d t (v0 !! rpath rdir name))) as En by apply needUpload_outdated.
  destruct (decide (outdated encrypt d t (v0 !! rpath rdir name))) as [Eo|Eo]; [rewrite bool_decide_eq_true_2 in En by done|rewrite bool_decide_eq_false_2 in En by done];
    rewrite <- (remoteMap_spec _ _ es) in En by done.
  - destruct (proj1 Hup loc Hinl En) as (d' & t' & c & t2 & Hd' & Hc & Hp'). simpl in Hd'. rewrite Ef in Hd'. injection Hd' as <- <-. by exists c, t2.
  - apply Hup. intros loc' Hin' Hneed E%rpath_inj. rewrite (locals_fun fs0 dir l loc' loc) in Hneed; [|done|done|done|by rewrite <- E].
    simpl in Hneed. congruence.
Qed.

Lemma mirrored_loops : mirrored encrypt pw fs0 dir rdir v0 v.
Proof using Hloc Hl Hup Hrm.
  split.
  - intros name Hp Hz p. destruct (fs0 !! GoPath.Join dir name) as [[|d t]|] eqn:Ef; [|by apply mirrored_kept|];
      apply mirrored_gone; try done; rewrite locals_names by done; intros (? & ? & ?); congruence.
  - intros p Hp. rewrite (proj2 Hrm), (proj2 Hup); [done| |].
    + intros loc (n & d & t & Hpn & Hz & _ & ->)%(proj2 Hloc) _. by apply Hp.
    + intros rem (Hpn & Hz & _)%(elem_of_remoteKept _ _ _ _ Hl) _. by apply Hp.
Qed.

End Mirroring.

(** The session with any list of local archives. *)
Lemma rspec_syncBody_loops cfg l fs0 (v0 : rfiles) :
  let rdir := Config.RemoteBackupDir cfg in
  let pw := TrimSpace (Config.RemoteAESPassword cfg) in
  v0 !! rdir = Some RDir -> NoDup (Name <$> l) ->
  (forall loc, loc ∈ l -> GoPath.plain (Name loc) /\ (exists d t, fs0 !! Path loc = Some (NFile d t)) /\ v0 !! rpath rdir (Name loc) <> Some RDir) ->
  rspec (now_at fs0 v0) (syncBody cfg l) (fun r fs v => r = None /\ fs = fs0 /\ exists es v1, listing v0 rdir es /\
    uploaded rdir (remoteMapOf (remoteKept es)) (negb (pw ==? [])) pw fs0 l v0 v1 /\ removed rdir l (remoteKept es) v1 v).
Proof.
  intros rdir pw Hd Hnd Hfacts. unfold syncBody. change (GoPath.ToSlash (Config.RemoteBackupDir cfg)) with rdir.
  apply (rspec_bind _ _ _ (fun r fs v => r = inr tt /\ now_at fs0 v0 fs v)).
  { apply rspec_there. intros s fs Hs [-> Hv]. subst v0. eexists _, _. split; [by apply law_MkdirAll|]. done. }
  intros r. apply rspec_pre. intros ? ? [-> [-> ->]].
  apply (rspec_bind _ _ _ (fun _ => now_at fs0 v0)); [by apply rspec_ret|]. intros [].
  eapply rspec_bind; [by apply rspec_listRemote|]. intros r. apply rspec_pre. intros ? ? [[-> ->] (es & -> & Hl)].
  cbv zeta. fold pw. set (encrypt := negb (pw ==? [])). apply rspec_log_bind.
  eapply rspec_bind; [by apply rspec_uploadLoop|].
  intros r. apply rspec_pre. intros fs v1 (-> & -> & Hup).
  apply (rspec_bind _ _ _ (fun _ fs v => fs = fs0 /\ removed rdir l (remoteKept es) v1 v)); [|intros []; apply rspec_ret; intros fs v [-> ?]; by eauto 10].
  apply rspec_removeLoop; [by eapply remoteKept_NoDup|].
  intros rem (Hp & Hz & Hr)%(elem_of_remoteKept _ _ _ _ Hl) Hnone%localListByName_None. rewrite (not_uploaded _ _ _ _ _ _ _ _ Hup) by done.
  unfold remoteOf in Hr. destruct (v0 !! rpath rdir (RName rem)) as [[|c t]|]; [done|by exists c, t|done].
Qed.

Lemma rspec_syncBody cfg dir l fs0 (v0 : rfiles) :
  let rdir := Config.RemoteBackupDir cfg in
  let pw := TrimSpace (Config.RemoteAESPassword cfg) in
  v0 !! rdir = Some RDir -> locals fs0 dir l -> no_clash fs0 dir rdir v0 ->
  rspec (now_at fs0 v0) (syncBody cfg l)
    (fun r fs v => r = None /\ fs = fs0 /\ mirrored (negb (pw ==? [])) pw fs0 dir rdir v0 v).
Proof.
  intros rdir pw Hd Hloc Hclash. eapply rspec_conseq; [| |apply rspec_syncBody_loops; [done|by apply Hloc|by intros; eapply local_facts]]; [done|].
  intros r fs v (-> & -> & es & v1 & Hl & Hup & Hrm). split; [done|]. split; [done|]. by eapply mirrored_loops.
Qed.

(** *** Fetching *)

(** A place for a downloaded file. *)
Definition free_place (fs : files) (q : gostring) : Prop := fs !! q <> Some NDir /\ fs !! GoPath.Dir q = Some NDir.

Lemma rspec_Create q fs0 v0 :
  free_place fs0 q ->
  rspec (now_at fs0 v0) (here (Create q)) (fun r fs v => r = inr tt /\ exists t, now_at (<[q := NFile (Raw []) t]> fs0) v0 fs v).
Proof.
  intros [H1 H2]. apply rspec_here. intros fs v now [-> ->]. eexists _, _. split; [by apply does_Create|].
  split; [done|]. by exists now.
Qed.

Lemma rspec_Write q d n fs0 v0 :
  rspec (now_at (<[q := n]> fs0) v0) (here (Write q d)) (fun r fs v => r = inr tt /\ exists t, now_at (<[q := NFile d t]> fs0) v0 fs v).
Proof.
  apply rspec_here. intros fs v now [-> ->]. eexists _, _. split; [apply does_Write|]. split; [done|]. exists now.
  by rewrite insert_insert_eq.
Qed.

Lemma rspec_Read p off len c t fs0 (v0 : rfiles) :
  v0 !! p = Some (RFile c t) ->
  rspec (now_at fs0 v0) (there (sftp_Read p off len)) (fun r fs v => r = inr (window off len c) /\ now_at fs0 v0 fs v).
Proof.
  intros Hp. apply rspec_there. intros s fs Hs [-> Hv]. subst v0. eexists _, _. split; [by eapply law_Read|]. done.
Qed.

Lemma rspec_copyFrom p off f q done_ c t n fs0 (v0 : rfiles) :
  v0 !! p = Some (RFile c t) -> f [] = [] -> (exists t0, n = NFile (Raw done_) t0) ->
  rspec (now_at (<[q := n]> fs0) v0) (copyFrom p off f q done_)
    (fun r fs v => r = None /\ exists t, now_at (<[q := NFile (Raw (done_ ++ f (drop off c))) t]> fs0) v0 fs v).
Proof.
  intros Hp Hf (t0 & ->). unfold copyFrom. eapply rspec_bind; [by eapply rspec_Read|]. intros r. apply rspec_pre.
  intros ? ? [-> [-> ->]]. cbn [window]. case_if; bool_prop.
  - apply rspec_ret. intros fs v [-> ->]. split; [done|]. exists t0. by rewrite E, Hf, app_nil_r.
  - eapply rspec_bind; [apply rspec_Write|]. intros r. apply rspec_ret. intros fs v [-> (t1 & -> & ->)]. split; [done|]. by exists t1.
Qed.

(** Decryption of contents that start with salt and nonce. *)
Definition decrypted (pw c : gostring) : gostring :=
  xor_stream (ctr_byte (pbkdf2_Key pw (take saltLen c) pbkdf2Iter aesKeyLen) (take nonceLen (drop saltLen c))) 0
    (drop (saltLen + nonceLen) c).

(** Contents the code can read: with a full header, or none at all. *)
Definition readable (c : gostring) : Prop := length c = 0 \/ saltLen + nonceLen <= length c.

(** The bytes a password recovers from remote contents. *)
Definition recovered (pw c : gostring) : gostring :=
  if negb (pw ==? []) && negb (length c =? 0) && negb (looksPlain c) then decrypted pw c else c.

Lemma looksPlain_take n c : looksPlain (take (S (S n)) c) = looksPlain c.
Proof. by destruct c as [|a [|b c]]. Qed.

Lemma rspec_getPlain p q header c t fs0 (v0 : rfiles) :
  v0 !! p = Some (RFile c t) -> free_place fs0 q -> header = take (length header) c ->
  rspec (now_at fs0 v0) (getPlain p q header)
    (fun r fs v => r = None /\ exists t, now_at (<[q := NFile (Raw c) t]> fs0) v0 fs v).
Proof.
  intros Hp Hq Hh. unfold getPlain. eapply rspec_bind; [by apply rspec_Create|]. intros r. apply rspec_pre.
  intros ? ? [-> (t1 & -> & ->)].
  apply (rspec_bind _ _ _ (fun r fs v => r = inr tt /\ exists t, now_at (<[q := NFile (Raw header) t]> fs0) v0 fs v)).
  - case_if; bool_prop; [|by apply rspec_Write]. apply rspec_ret. intros fs v [-> ->]. split; [done|]. exists t1. by rewrite E.
  - intros r. apply rspec_pre. intros ? ? [-> (t2 & -> & ->)].
    eapply rspec_bind; [eapply rspec_copyFrom; [exact Hp|done|by eexists]|]. intros r. apply rspec_ret.
    intros fs v [-> (t3 & -> & ->)]. split; [done|]. exists t3. cbn [id]. rewrite Hh at 1. by rewrite take_drop.
Qed.

Lemma rspec_getDecrypted p q c t pw name fs0 (v0 : rfiles) :
  v0 !! p = Some (RFile c t) -> free_place fs0 q -> saltLen + nonceLen <= length c ->
  rspec (now_at fs0 v0) (getDecrypted p q (take (saltLen + nonceLen) c) pw name)
    (fun r fs v => r = None /\ exists t, now_at (<[q := NFile (Raw (decrypted pw c)) t]> fs0) v0 fs v).
Proof.
  intros Hp Hq Hlen. unfold getDecrypted. apply rspec_log_bind. unfold aes_NewCipher. rewrite pbkdf2_length. cbn [aesKeyLen Nat.eqb orb].
  eapply rspec_bind; [by apply rspec_Create|]. intros r. apply rspec_pre. intros ? ? [-> (t1 & -> & ->)].
  eapply rspec_bind; [eapply rspec_copyFrom; [exact Hp|done|by eexists]|]. intros r. apply rspec_ret.
  intros fs v [-> (t3 & -> & ->)]. split; [done|]. exists t3. rewrite app_nil_l, length_take_le by done. unfold decrypted.
  by rewrite take_take, Nat.min_l, skipn_firstn_comm, take_take, Nat.min_l by (unfold saltLen, nonceLen; lia).
Qed.

Lemma rspec_readFull p n c t fs0 (v0 : rfiles) :
  v0 !! p = Some (RFile c t) -> length c = 0 \/ n <= length c ->
  rspec (now_at fs0 v0) (readFull p n)
    (fun r fs v => r = (take n c, if (length (take n c) =? n)%nat then ReadOk else ReadEOF) /\ now_at fs0 v0 fs v).
Proof.
  intros Hp Hlen. unfold readFull. eapply rspec_bind; [by eapply rspec_Read|]. intros r. apply rspec_ret. intros fs v [-> Hn]. split; [|done].
  cbn [window]. rewrite drop_0. destruct Hlen as [Hz|Hge].
  - destruct c; [|done]. by rewrite take_nil.
  - by rewrite length_take_le, Nat.eqb_refl.
Qed.

Lemma rspec_getOneFile rdir name q cfg c t fs0 (v0 : rfiles) :
  let pw := TrimSpace (Config.RemoteAESPassword cfg) in
  v0 !! rpath rdir name = Some (RFile c t) -> free_place fs0 q -> readable c ->
  rspec (now_at fs0 v0) (getOneFile rdir name q cfg)
    (fun r fs v => r = None /\ exists t, now_at (<[q := NFile (Raw (recovered pw c)) t]> fs0) v0 fs v).
Proof.
  intros pw Hp Hq Hlen. unfold getOneFile.
  apply (rspec_bind _ _ _ (fun r fs v => r = inr tt /\ now_at fs0 v0 fs v)).
  { apply rspec_there. intros s fs Hs [-> Hv]. subst v0. eexists _, _. split; [by eapply law_Open|]. done. }
  intros r. apply rspec_pre. intros ? ? [-> [-> ->]].
  eapply rspec_bind; [by eapply rspec_readFull|]. intros [h e]. apply rspec_pre. intros ? ? [[= -> ->] [-> ->]]. fold pw.
  set (h := take _ c).
  assert ((length h =? saltLen + nonceLen)%nat = negb (length c =? 0)) as Elen.
  { unfold h. rewrite length_take. destruct Hlen as [->|Hge]; [done|]. rewrite Nat.min_l, Nat.eqb_refl by done.
    destruct (length c); [unfold saltLen, nonceLen in Hge; lia|done]. }
  enough (rspec (now_at fs0 v0)
    (if negb (pw ==? []) && (length h =? saltLen + nonceLen) && negb (looksPlain h)
     then getDecrypted (rpath rdir name) q h pw name else getPlain (rpath rdir name) q h)
    (fun r fs v => r = None /\ exists t, now_at (<[q := NFile (Raw (recovered pw c)) t]> fs0) v0 fs v)) as Hmain by (revert Hmain; by destruct (length h =? _)).
  rewrite Elen, (looksPlain_take 30 c : looksPlain h = _). unfold recovered. destruct (_ && _ && _) eqn:Edec.
  - eapply rspec_getDecrypted; [done..|]. bool_prop. destruct Hlen as [Hz|?]; [by rewrite Hz in *|done].
  - eapply rspec_getPlain; [done..|]. unfold h. rewrite length_take. symmetry. destruct Hlen as [Hz|Hge].
    + destruct c; [|done]. by rewrite !take_nil.
    + by rewrite Nat.min_l.
Qed.

(** Where a download goes: beside a file that is already there. *)
Definition place (fs : files) (dest name : gostring) : gostring :=
  if fs !! GoPath.Join dest name then GoPath.Join dest (lokal name) else GoPath.Join dest name.

Definition zipName (name : gostring) : Prop := GoPath.plain name /\ exists b, name = b ++ ".zip".

Lemma lokal_plain name : GoPath.plain name -> GoPath.plain (lokal name).
Proof.
  intros (Hs & He & _ & _). unfold lokal. split_and!.
  - rewrite elem_of_app. intros [?|H]; [done|]. revert H. apply (bool_decide_eq_true_1 _). reflexivity.
  - by destruct name.
  - intros H%(f_equal length). rewrite length_app in H. simpl in H. lia.
  - intros H%(f_equal length). rewrite length_app in H. simpl in H. lia.
Qed.

Lemma lokal_not_zip n b : lokal n <> b ++ str ".zip".
Proof. unfold lokal. intros H%(f_equal reverse). rewrite !reverse_app in H. done. Qed.

Lemma place_Dir fs dest name : GoPath.plain name -> GoPath.Dir (place fs dest name) = GoPath.Clean dest.
Proof. intros H. unfold place. case_match; apply GoPath.Dir_Join; [by apply lokal_plain|done]. Qed.

(** Different archives never go to the same place, even with different files around. *)
Lemma place_inj fs fs' dest n n' : zipName n -> zipName n' -> place fs dest n = place fs' dest n' -> n = n'.
Proof.
  intros [Hp (b & Hb)] [Hp' (b' & Hb')]. unfold place.
  destruct (fs !! _), (fs' !! _); intros E; apply GoPath.Join_plain_inj in E; auto using lokal_plain.
  - unfold lokal in E. by simplify_list_eq.
  - destruct (lokal_not_zip n b'). congruence.
  - destruct (lokal_not_zip n' b). congruence.
Qed.

(** Every name has readable contents [cont] on the host. *)
Definition fetchable (rdir : gostring) (v : rfiles) (names : list gostring) : Prop :=
  NoDup names /\ forall n, n ∈ names -> zipName n /\ exists c t, v !! rpath rdir n = Some (RFile c t) /\ readable c.

(** The files after fetching [names]. *)
Definition fetched (pw rdir dest : gostring) (names : list gostring) (v : rfiles) (fs0 fs : files) : Prop :=
  (forall n c t, n ∈ names -> v !! rpath rdir n = Some (RFile c t) ->
     exists t', fs !! place fs0 dest n = Some (NFile (Raw (recovered pw c)) t')) /\
  (forall p, p ∉ place fs0 dest <$> names -> fs !! p = fs0 !! p).

Lemma rspec_downloadLoop cfg rdir dest names saved fs0 (v0 : rfiles) :
  fetchable rdir v0 names -> fs0 !! GoPath.Clean dest = Some NDir -> GoPath.Clean dest = dest ->
  (forall n, n ∈ names -> fs0 !! place fs0 dest n <> Some NDir) ->
  rspec (now_at fs0 v0) (downloadLoop cfg rdir dest names saved) (fun r fs v =>
    r = (saved ++ (place fs0 dest <$> names), None) /\ v = v0 /\ fetched (TrimSpace (Config.RemoteAESPassword cfg)) rdir dest names v0 fs0 fs).
Proof.
  revert fs0 saved. induction names as [|n names IH]; intros fs0 saved [Hnd Hin] Hd Hcl Hnodir.
  { apply rspec_ret. intros fs v [-> ->]. rewrite app_nil_r. split; [done|]. split; [done|]. split; [|done].
    by intros ? ? ? ?%not_elem_of_nil. }
  apply NoDup_cons in Hnd as [Hn Hnd]. destruct (Hin n) as ([Hp Hz] & c & t & Hc & Hr); [left|].
  cbn [downloadLoop].
  apply (rspec_bind _ _ _ (fun r fs v => r = match fs0 !! GoPath.Join dest n with Some x => inr x | None => inl ENOENT end /\ now_at fs0 v0 fs v)).
  { apply rspec_here. intros fs v now [-> ->]. eexists _, _. split; [apply does_Stat|]. done. }
  intros r. apply rspec_pre. intros ? ? [-> [-> ->]].
  assert (match match fs0 !! GoPath.Join dest n with Some x => inr x | None => inl ENOENT end with
          | inr _ => GoPath.Join dest (lokal n) | inl _ => GoPath.Join dest n end = place fs0 dest n) as -> by (unfold place; by destruct (fs0 !! GoPath.Join dest n)).
  assert (free_place fs0 (place fs0 dest n)) as Hfree.
  { split; [apply Hnodir; left|by rewrite place_Dir]. }
  eapply rspec_bind; [by eapply rspec_getOneFile|]. intros r. apply rspec_pre. intros ? ? [-> (t1 & -> & ->)].
  set (fs1 := <[_ := _]> fs0).
  assert (forall p, p <> place fs0 dest n -> fs1 !! p = fs0 !! p) as Hfs1 by (intros p Hne; unfold fs1; by rewrite lookup_insert_ne).
  assert (forall n', n' ∈ names -> zipName n' /\ n' <> n) as Hother.
  { intros n' Hn'. split; [apply Hin; by right|]. by intros ->. }
  assert (forall n', n' ∈ names -> place fs1 dest n' = place fs0 dest n') as Eplace1.
  { intros n' Hn'. destruct (Hother n' Hn') as [Hz' Hne]. unfold place at 1 2.
    rewrite Hfs1; [done|]. intros E. apply Hne. apply (place_inj ∅ fs0 dest); [done|by split|]. rewrite <- E. unfold place. by rewrite lookup_empty. }
  assert (place fs1 dest <$> names = place fs0 dest <$> names) as Eplace.
  { apply list_fmap_ext. intros i n' Hn'%list_elem_of_lookup_2. by apply Eplace1. }
  eapply rspec_conseq; [| |apply (IH fs1)]; [done| |by split; [|intros; apply Hin; right]| |done|].
  - intros r fs v (-> & -> & Hf & Hout). rewrite Eplace in *. cbn [fmap list_fmap]. split; [by rewrite <- app_assoc|]. split; [done|]. split.
    + intros n' c' t' [->|Hn']%elem_of_cons Hc'.
      * rewrite Hc in Hc'. injection Hc' as <- <-. exists t1. rewrite Hout; [by apply lookup_insert_eq|].
        intros (n' & E & Hn')%list_elem_of_fmap. destruct (Hother n' Hn') as [Hz' Hne]. by apply Hne, (place_inj fs0 fs0 dest).
      * rewrite <- (Eplace1 n' Hn'). by eapply Hf.
    + intros p [Hp1 Hp2]%not_elem_of_cons. rewrite Hout by done. by apply Hfs1.
  - rewrite Hfs1; [done|]. intros E. destruct Hfree as [Hf _]. by rewrite <- E in Hf.
  - intros n' Hn'. rewrite Eplace1, Hfs1 by done || (intros E; destruct (Hother n' Hn') as [Hz' Hne]; by apply Hne, (place_inj fs0 fs0 dest)).
    apply Hnodir. by right.
Qed.

(** *** Selection *)

(** The archives on the host whose name matches. *)
Definition selected (pattern rdir : gostring) (v : rfiles) (n : gostring) : Prop :=
  GoPath.plain n /\ isBackupZip n = true /\ (exists c t, v !! rpath rdir n = Some (RFile c t)) /\ GoGlob.glob pattern n = true.

Lemma isBackupZip_zipName n : GoPath.plain n -> isBackupZip n = true -> zipName n.
Proof.
  intros Hp Hz. split; [done|]. unfold isBackupZip in Hz. bool_prop. destruct (GoPath.Ext_suffix n) as (a & E). exists a. congruence.
Qed.

Lemma selectMatches_glob pattern l :
  Forall GoGlob.simple pattern -> Forall (fun e => Forall GoGlob.nameByte (RName e)) l ->
  selectMatches pattern l = inr (filter (fun n => GoGlob.glob pattern n = true) (RName <$> l)).
Proof.
  intros Hp. induction 1 as [|e l He _ IH]; [done|]. cbn [selectMatches fmap list_fmap]. rewrite GoGlob.Match_glob, IH by done.
  rewrite filter_cons. by destruct (decide (GoGlob.glob pattern (RName e) = true)) as [Hg | Hg%not_true_is_false]; rewrite Hg.
Qed.

Lemma validGetfilePattern_spec p :
  validGetfilePattern p = true -> p <> [] /\ GoPath.slash ∉ p /\ backslash ∉ p /\ Contains p ".." = false.
Proof.
  unfold validGetfilePattern. destruct (p ==? []) eqn:E1; [done|]. destruct (Contains p "..") eqn:E2; [done|]. cbn [orb].
  intros H. bool_prop. split_and!; [done| | |done].
  - intros (a & b & ->)%list_elem_of_split. apply (eq_true_false_abs _ (proj2 (Contains_true _ _) (ex_intro _ a (ex_intro _ b eq_refl))) H1).
  - intros (a & b & ->)%list_elem_of_split. apply (eq_true_false_abs _ (proj2 (Contains_true _ _) (ex_intro _ a (ex_intro _ b eq_refl))) H0).
Qed.

Lemma containsWildcard_false p : containsWildcard p = false -> "*"%char ∉ p /\ "?"%char ∉ p.
Proof.
  unfold containsWildcard. intros [H1 H2]%orb_false_iff. split; intros (a & b & ->)%list_elem_of_split.
  - apply (eq_true_false_abs _ (proj2 (Contains_true _ _) (ex_intro _ a (ex_intro _ b eq_refl))) H1).
  - apply (eq_true_false_abs _ (proj2 (Contains_true _ _) (ex_intro _ a (ex_intro _ b eq_refl))) H2).
Qed.

(** A pattern with wildcards has neither classes nor escapes, and all archives on the host
    have names of ASCII bytes. *)
Definition ascii_names (pattern rdir : gostring) (v : rfiles) : Prop :=
  containsWildcard pattern = true -> Forall GoGlob.simple pattern /\ forall n c t, GoPath.plain n -> isBackupZip n = true -> v !! rpath rdir n = Some (RFile c t) -> Forall GoGlob.nameByte n.

Lemma rspec_selectFiles pattern rdir fs0 (v0 : rfiles) :
  v0 !! rdir = Some RDir -> ascii_names pattern rdir v0 -> (exists n, selected pattern rdir v0 n) ->
  rspec (now_at fs0 v0) (selectFiles pattern rdir)
    (fun r fs v => now_at fs0 v0 fs v /\ exists names, r = inr names /\ NoDup names /\ forall n, n ∈ names <-> selected pattern rdir v0 n).
Proof.
  intros Hd Hasc (n0 & Hsel). unfold selectFiles. destruct (containsWildcard pattern) eqn:Ew.
  - destruct (Hasc Ew) as [Hsi Hnb]. eapply rspec_bind; [by apply rspec_listRemote|]. intros r. apply rspec_ret. intros fs v [[-> ->] (es & -> & Hl)]. split; [done|].
    assert (forall n, n ∈ filter (fun n => GoGlob.glob pattern n = true) (RName <$> remoteKept es) <-> selected pattern rdir v0 n) as Hin.
    { intros n. rewrite list_elem_of_filter, list_elem_of_fmap. unfold selected. split.
      - intros (Hg & rem & -> & (Hp & Hz & Hr)%(elem_of_remoteKept _ _ _ _ Hl)). split_and!; [done..| |done].
        unfold remoteOf in Hr. destruct (v0 !! rpath rdir (RName rem)) as [[|c t]|]; [done|by exists c, t|done].
      - intros (Hp & Hz & (c & t & Hc) & Hg). split; [done|]. eexists (mkRemote n t _). split; [done|].
        apply (elem_of_remoteKept _ _ _ _ Hl). unfold remoteOf. simpl. by rewrite Hc. }
    rewrite selectMatches_glob; [|done|].
    + destruct (filter _ _) as [|n names] eqn:E; [by apply Hin, not_elem_of_nil in Hsel|]. exists (n :: names). split; [done|].
      split; [|by rewrite <- E in Hin |- *]. rewrite <- E. apply NoDup_filter. by eapply remoteKept_NoDup.
    + apply Forall_forall. intros rem (Hp & Hz & Hr)%(elem_of_remoteKept _ _ _ _ Hl). unfold remoteOf in Hr.
      destruct (v0 !! rpath rdir (RName rem)) as [[|c t]|] eqn:E; [done|by eapply Hnb|done].
  - apply containsWildcard_false in Ew as [Hs Hq].
    assert (forall n, selected pattern rdir v0 n -> pattern = n) as Hlit.
    { intros n (_ & _ & _ & Hg). rewrite GoGlob.glob_literal in Hg by done. by apply bool_decide_eq_true_1 in Hg. }
    pose proof (Hlit n0 Hsel) as <-. pose proof Hsel as (_ & Hz & _). unfold isBackupZip in Hz. apply andb_true_iff in Hz as [-> ->].
    apply rspec_ret. intros fs v [-> ->]. split; [done|]. exists [pattern]. split; [done|]. split; [apply NoDup_singleton|].
    intros n. rewrite list_elem_of_singleton. split; [by intros ->|]. by intros ->%Hlit.
Qed.

(** *** There and back *)

Lemma looksPlain_app a b : length a = saltLen -> looksPlain (a ++ b) = looksPlain a.
Proof. by destruct a as [|x [|y a]]. Qed.

(** What carries a file's bytes gives them back, unless the salt looks like a zip file. *)
Lemma carries_recovered pw d c :
  carries (negb (pw ==? [])) pw d c -> (forall t, looksPlain (rand_bytes t saltLen) = false) ->
  (pw = [] -> readable (data_bytes d)) -> recovered pw c = data_bytes d /\ readable c.
Proof.
  intros Hc Hpk Hr. unfold carries, recovered in *. destruct (pw ==? []) eqn:Epw; bool_prop; cbn [negb andb] in *; [subst; auto|].
  destruct Hc as (t1 & t2 & ->). cbv zeta. set (ks := ctr_byte _ _). rewrite looksPlain_app, Hpk by apply rand_length.
  assert (saltLen + nonceLen <= length (rand_bytes t1 saltLen ++ rand_bytes t2 nonceLen ++ xor_stream ks 0 (data_bytes d))) as Hlen.
  { rewrite !length_app, !rand_length. lia. }
  split; [|by right]. destruct (length _) eqn:E; [unfold saltLen, nonceLen in Hlen; lia|]. cbn [Nat.eqb negb andb]. unfold decrypted.
  rewrite (take_app_length' (rand_bytes t1 _)), (drop_app_length' (rand_bytes t1 _)), take_app_length' by (by rewrite rand_length).
  fold ks. rewrite app_assoc, drop_app_length' by (by rewrite length_app, !rand_length). apply xor_stream_invol.
Qed.

Lemma rspec_GetFile_body cfg pattern dest fs0 (v0 : rfiles) :
  let rdir := Config.RemoteBackupDir cfg in
  v0 !! rdir = Some RDir -> ascii_names pattern rdir v0 -> (exists n, selected pattern rdir v0 n) ->
  fs0 !! dest = Some NDir -> GoPath.Clean dest = dest ->
  (forall n, selected pattern rdir v0 n -> fs0 !! place fs0 dest n <> Some NDir) ->
  (forall n c t, selected pattern rdir v0 n -> v0 !! rpath rdir n = Some (RFile c t) -> readable c) ->
  rspec (now_at fs0 v0)
    (sel ← selectFiles pattern rdir;
     match sel with
     | inl e => mret ([], Some e)
     | inr toDownload => downloadLoop cfg rdir dest toDownload []
     end)
    (fun r fs v => exists names, (NoDup names /\ forall n, n ∈ names <-> selected pattern rdir v0 n) /\
       r = (place fs0 dest <$> names, None) /\ v = v0 /\ fetched (TrimSpace (Config.RemoteAESPassword cfg)) rdir dest names v0 fs0 fs).
Proof.
  intros rdir Hd Hasc Hsel Hdest Hcl Hnd Hread. eapply rspec_bind; [by apply rspec_selectFiles|]. intros r. apply rspec_pre.
  intros ? ? [[-> ->] (names & -> & Hdup & Hin)]. eapply rspec_conseq; [| |apply rspec_downloadLoop]; [done| | |congruence|done|].
  - intros x fs v (-> & -> & Hf). exists names. done.
  - split; [done|]. intros n Hn%Hin. pose proof Hn as (Hp & Hz & (c & t & Hc) & _).
    split; [by apply isBackupZip_zipName|]. exists c, t. split; [done|by eapply Hread].
  - intros n Hn%Hin. by apply Hnd.
Qed.

(** *** The two operations *)

Lemma Sync_spec cfg dir w s :
  let rdir := Config.RemoteBackupDir cfg in
  let pw := TrimSpace (Config.RemoteAESPassword cfg) in
  rdir <> [] -> Config.RemoteSSHHost cfg <> [] ->
  fine w -> up s -> dials cfg (w_fs w) s ->
  w_fs w !! dir = Some NDir -> view s !! rdir = Some RDir -> no_clash (w_fs w) dir rdir (view s) ->
  exists w' s', Sync cfg dir (w, s) = (None, (w', s')) /\ fine w' /\ up s' /\ w_fs w' = w_fs w /\
    mirrored (negb (pw ==? [])) pw (w_fs w) dir rdir (view s) (view s').
Proof.
  intros rdir pw Hr Hh Hw Hs Hdial Hd Hrd Hc. unfold Sync. rewrite !bool_decide_eq_false_2 by done. cbn [orb].
  destruct (does_listLocalBackups dir (w_now w) (w_fs w) Hd) as (l & Hdoes & Hloc).
  destruct (Hdoes w Hw eq_refl eq_refl) as (w1 & E1 & Hw1 & Hfs1 & _). unfold mbind, RM_bind, here. rewrite E1.
  rewrite <- Hfs1 in Hdial.
  destruct (withSession_spec cfg Some (syncBody cfg l) _ _ w1 s (rspec_syncBody cfg dir l (w_fs w) (view s) Hrd Hloc Hc) Hw1 Hs Hdial)
    as (r & w' & s' & E & Hw' & Hs' & -> & Hfs' & Hm); [done|]. by exists w', s'.
Qed.

Lemma GetFile_spec cfg pattern dest w s :
  let rdir := Config.RemoteBackupDir cfg in
  let sel := selected pattern rdir (view s) in
  rdir <> [] -> Config.RemoteSSHHost cfg <> [] -> validGetfilePattern pattern = true ->
  fine w -> up s -> dials cfg (w_fs w) s ->
  w_fs w !! dest = Some NDir -> GoPath.Clean dest = dest -> view s !! rdir = Some RDir -> ascii_names pattern rdir (view s) ->
  (exists n, sel n) -> (forall n, sel n -> w_fs w !! place (w_fs w) dest n <> Some NDir) ->
  (forall n c t, sel n -> view s !! rpath rdir n = Some (RFile c t) -> readable c) ->
  exists names w' s', (NoDup names /\ forall n, n ∈ names <-> sel n) /\
    GetFile cfg pattern dest (w, s) = ((place (w_fs w) dest <$> names, None), (w', s')) /\ view s' = view s /\
    fetched (TrimSpace (Config.RemoteAESPassword cfg)) rdir dest names (view s) (w_fs w) (w_fs w').
Proof.
  intros rdir sel Hr Hh Hv Hw Hs Hdial Hdest Hcl Hrd Hasc Hex Hnd Hread. unfold GetFile.
  rewrite !bool_decide_eq_false_2 by done. rewrite Hv. cbn [orb negb].
  edestruct (withSession_spec cfg (fun e => ([], Some e)) _ _ _ w s
    (rspec_GetFile_body cfg pattern dest (w_fs w) (view s) Hrd Hasc Hex Hdest Hcl Hnd Hread) Hw Hs Hdial)
    as (r & w' & s' & E & _ & _ & names & Hin & -> & Hv' & Hf); [done|]. by exists names, w', s'.
Qed.

Lemma selected_literal name rdir v n :
  containsWildcard name = false -> selected name rdir v n <->
  n = name /\ GoPath.plain name /\ isBackupZip name = true /\ exists c t, v !! rpath rdir name = Some (RFile c t).
Proof.
  intros [H1 H2]%containsWildcard_false. unfold selected. rewrite GoGlob.glob_literal, bool_decide_eq_true by done. naive_solver.
Qed.

End Uploads.

(** ** Lemmas: what holds whatever fails *)

(** *** The order of the calls *)

Definition keeping {A : Type} (J : A -> Prop) (a b : A) : Prop := J a -> J b.

#[global] Instance keeping_preorder {A : Type} (J : A -> Prop) : PreOrder (keeping J).
Proof. split; [by intros a H|]. intros a b c H1 H2 H. by apply H2, H1. Qed.

(** Every call but a removal preserves [J]. *)
Record spares `{Sftp} (J : srv -> Prop) : Prop := {
  sp_Dial a c s : J s -> J (snd (ssh_Dial a c s));
  sp_ssh_Close s : J s -> J (snd (ssh_Close s));
  sp_NewClient s : J s -> J (snd (sftp_NewClient s));
  sp_sftp_Close s : J s -> J (snd (sftp_Close s));
  sp_MkdirAll d s : J s -> J (snd (sftp_MkdirAll d s));
  sp_ReadDir d s : J s -> J (snd (sftp_ReadDir d s));
  sp_Create p s : J s -> J (snd (sftp_Create p s));
  sp_Write p bs s : J s -> J (snd (sftp_Write p bs s))
}.

Section Order.
Context {FT : Faults} {AB : ArchiveBytes} {SF : Sftp} {CR : Crypto} {RD : Rand} (J : srv -> Prop) (HJ : spares J).

Let R := on_server (keeping J).

Local Ltac step :=
  first [ apply always_here_server; apply _
        | apply always_there; intros ? ?;
          first [ by apply (sp_Dial J HJ) | by apply (sp_ssh_Close J HJ) | by apply (sp_NewClient J HJ) | by apply (sp_sftp_Close J HJ)
                | by apply (sp_MkdirAll J HJ) | by apply (sp_ReadDir J HJ) | by apply (sp_Create J HJ) | by apply (sp_Write J HJ) ] ].

Lemma keeps_dial cfg : always R (dial cfg).
Proof using HJ. unfold dial, keyAuth, R. solve_always step. Qed.

Lemma keeps_uploadFile lp rp encrypt pw : always R (uploadFile lp rp encrypt pw).
Proof using HJ. unfold uploadFile, streamEncryptUpload, copyTo, R. solve_always step. Qed.

Lemma keeps_uploadLoop rdir m encrypt pw l : always R (uploadLoop rdir m encrypt pw l).
Proof using HJ.
  unfold R. induction l as [|loc l IH]; cbn [uploadLoop]; [apply always_ret; apply _|]. case_if; [|exact IH].
  apply always_bind; [apply _| |intros [?|]; [apply always_ret; apply _|exact IH]].
  unfold uploadOne. apply always_bind; [apply _|apply keeps_uploadFile|]. intros r. solve_always step.
Qed.

(** The removals preserve [J] if they do for the names that are not local. *)
Lemma keeps_removeLoop rdir l rems :
  (forall name s, name ∉ Name <$> l -> J s -> J (snd (sftp_Remove (rpath rdir name) s))) -> always R (removeLoop rdir l rems).
Proof using HJ.
  intros Hrm. unfold R. induction rems as [|rem rems IH]; cbn [removeLoop]; [apply always_ret; apply _|].
  apply always_bind; [apply _| |intros []; exact IH]. unfold removeOne.
  destruct (localListByName l (RName rem)) eqn:E; [apply always_ret; apply _|]. apply localListByName_None in E.
  apply always_bind; [apply _|apply always_there; intros s Hs; by apply Hrm|]. intros r. solve_always step.
Qed.

(** If it returns an error, [J] is preserved. *)
Definition careful (m : RM (option err)) : Prop := forall ws, J (snd ws) -> fst (m ws) <> None -> J (snd (snd (m ws))).

Lemma careful_always m : always R m -> careful m.
Proof using Type. intros H ws H0 _. by apply H. Qed.

Lemma careful_bind {A : Type} (m : RM A) (f : A -> RM (option err)) : always R m -> (forall x, careful (f x)) -> careful (m ≫= f).
Proof using Type. intros Hm Hf ws H. unfold mbind, RM_bind. specialize (Hm ws H). destruct (m ws) as [x ws1]. by apply Hf. Qed.

(** A deferred action. *)
Lemma careful_defer (m : RM (option err)) (g : RM unit) : careful m -> always R g -> careful (r ← m; _ ← g; mret r).
Proof using Type.
  intros Hm Hg ws H. unfold mbind, RM_bind. specialize (Hm ws H). destruct (m ws) as [x ws1].
  specialize (Hg ws1). destruct (g ws1) as [[] ws2]. simpl. intros Hx. by apply Hg, Hm.
Qed.

Lemma careful_syncBody cfg l : careful (syncBody cfg l).
Proof using HJ.
  unfold syncBody. apply careful_bind; [unfold R; solve_always step|]. intros mk. apply careful_bind; [unfold R; solve_always step|]. intros [].
  apply careful_bind; [unfold listRemote, R; solve_always step|]. intros [e|rl]; [by intros ws ? ?|].
  apply careful_bind; [unfold R; solve_always step|]. intros []. apply careful_bind; [apply keeps_uploadLoop|].
  intros [e|]; [by intros ws ? ?|]. intros ws _ Hne. exfalso. apply Hne. unfold mbind, RM_bind. by destruct (removeLoop _ _ _ ws).
Qed.

Lemma careful_withSession cfg body : careful body -> careful (withSession cfg Some body).
Proof using HJ.
  intros Hb. unfold withSession. apply careful_bind; [apply keeps_dial|]. intros [e|_]; [by intros ws ? ?|].
  apply careful_bind; [unfold R; solve_always step|]. intros [e|_]; [apply careful_always; unfold R; solve_always step|].
  intros ws H. pose proof (careful_defer body (_ ← there sftp_Close; there ssh_Close) Hb ltac:(unfold R; solve_always step) ws H) as Hd.
  revert Hd. unfold mbind, RM_bind. destruct (body ws) as [r ws1]. destruct (there sftp_Close ws1) as [[] ws2]. by destruct (there ssh_Close ws2) as [[] ws3].
Qed.

Lemma keeps_syncBody cfg l :
  (forall name s, name ∉ Name <$> l -> J s -> J (snd (sftp_Remove (rpath (Config.RemoteBackupDir cfg) name) s))) ->
  always R (syncBody cfg l).
Proof using HJ.
  intros Hrm. unfold syncBody, listRemote, R.
  solve_always ltac:(first [step | apply keeps_uploadLoop | apply keeps_removeLoop; assumption]).
Qed.

Lemma keeps_withSession {A : Type} cfg fail (body : RM A) : always R body -> always R (withSession cfg fail body).
Proof using HJ. intros Hb. unfold withSession, R. solve_always ltac:(first [step | apply keeps_dial | exact Hb]). Qed.

End Order.

(** *** The files a download touches *)

#[global] Instance touches_preorder P : PreOrder (touches P).
Proof. split; apply _. Qed.

(** A place in the directory for an archive's name. *)
Definition landing (dest p : gostring) : Prop :=
  exists n, GoPath.plain n /\ isBackupZip n = true /\ (p = GoPath.Join dest n \/ p = GoPath.Join dest (lokal n)) /\ GoPath.Dir p = GoPath.Clean dest.

Section Confined.
Context {FT : Faults} {AB : ArchiveBytes} {SF : Sftp} {CR : Crypto} {RD : Rand} (P : gostring -> Prop).

Let R := on_local (touches P).

Lemma touches_quiet {A : Type} (m : M A) w : quiet m -> touches P w (snd (m w)).
Proof using Type. intros Hq. eapply touches_mono; [|apply Hq]. done. Qed.

Local Ltac step := first [apply always_there_local; apply _ | apply always_here; intros ?; apply touches_quiet; solve [eauto 2 with go | apply quiet_log]].

Lemma confined_dial cfg : always R (dial cfg).
Proof using Type. unfold dial, keyAuth, R. solve_always step. Qed.

Lemma confined_selectFiles pattern rdir : always R (selectFiles pattern rdir).
Proof using Type. unfold selectFiles, listRemote, R. solve_always step. Qed.

Lemma confined_withSession {A : Type} cfg fail (body : RM A) : always R body -> always R (withSession cfg fail body).
Proof using Type. intros Hb. unfold withSession, R. solve_always ltac:(first [step | apply confined_dial | exact Hb]). Qed.

Lemma confined_getOneFile rdir name q cfg : P q -> always R (getOneFile rdir name q cfg).
Proof using Type.
  intros Hq. assert (forall a b, touches (eq q) a b -> touches P a b) as Hmono by (intros a b; apply touches_mono; by intros ? <-).
  unfold getOneFile, readFull, getDecrypted, getPlain, copyFrom, R.
  solve_always ltac:(first [step | apply always_here; intros ?; apply Hmono; first [apply Create_touches | apply Write_touches]]).
Qed.

Lemma confined_downloadLoop cfg rdir dest names saved :
  (forall n, n ∈ names -> P (GoPath.Join dest n) /\ P (GoPath.Join dest (lokal n))) -> always R (downloadLoop cfg rdir dest names saved).
Proof using Type.
  intros HP. unfold R. revert saved. induction names as [|n names IH]; intros saved; cbn [downloadLoop]; [apply always_ret; apply _|].
  apply always_bind; [apply _|step|]. intros st. destruct (HP n) as [H1 H2]; [left|].
  apply always_bind; [apply _|apply confined_getOneFile; by case_match|]. intros [e|]; [apply always_ret; apply _|].
  apply IH. intros n' Hn'. apply HP. by right.
Qed.

End Confined.

(** The server never lists a name with a path in it. *)
Definition lists_plain `{Sftp} : Prop :=
  forall d s es, fst (sftp_ReadDir d s) = inr es -> Forall (fun i => GoPath.plain (ri_name i)) es.

Lemma selectMatches_sub pattern l names : selectMatches pattern l = inr names -> forall n, n ∈ names -> n ∈ RName <$> l.
Proof.
  revert names. induction l as [|e l IH]; intros names; cbn [selectMatches]; [intros [= <-]; by intros n ?%not_elem_of_nil|].
  destruct (GoGlob.Match pattern (RName e)) as [|ok]; [done|]. destruct (selectMatches pattern l) as [|names']; [done|].
  intros [= <-] n Hn. csimpl. destruct ok; [apply elem_of_cons in Hn as [->|Hn]; [left|]|]; right; by eapply IH.
Qed.

(** What is selected is an archive's name. *)
Lemma selectFiles_names `{Faults} `{ArchiveBytes} `{Sftp} pattern rdir ws :
  lists_plain -> validGetfilePattern pattern = true ->
  match fst (selectFiles pattern rdir ws) with
  | inr names => forall n, n ∈ names -> GoPath.plain n /\ isBackupZip n = true
  | inl _ => True
  end.
Proof.
  intros Hl Hv. unfold selectFiles. destruct (containsWildcard pattern).
  - unfold listRemote, mbind, RM_bind, there. destruct ws as [w s]. specialize (Hl rdir s).
    destruct (sftp_ReadDir rdir s) as [[e|es] s']; [by destruct (IsNotExist e)|]. simpl in *.
    destruct (selectMatches pattern (remoteKept es)) as [|[|n0 names]] eqn:E; [done..|].
    intros n (rem & -> & Hr)%(selectMatches_sub _ _ _ E)%list_elem_of_fmap. unfold remoteKept in Hr.
    apply list_elem_of_fmap in Hr as (i & -> & [[_ Hz] Hi]%list_elem_of_filter). simpl. split; [|done].
    specialize (Hl es eq_refl). rewrite Forall_forall in Hl. by apply Hl.
  - destruct (_ || _) eqn:E; [done|]. apply orb_false_iff in E as [E1%negb_false_iff E2%negb_false_iff].
    simpl. intros n ->%list_elem_of_singleton.
    assert (isBackupZip pattern = true) as Hz by (unfold isBackupZip; by rewrite E1, E2). split; [|done].
    apply validGetfilePattern_spec in Hv as (Hne & Hs & _ & _). apply bool_decide_eq_true_1 in E1.
    split_and!; [done|done|intros ->; done..].
Qed.

(** ** Samples *)

Definition sampleCfg (aes : gostring) : Config.Config :=
  Config.mkConfig 0 [] [] 3306 [] [] [] false [] [] [] [] 14 3 3 3 "/b" [] [] [] 587 [] [] [] []
    "/r" "backup.example" 22 "u" "secret" [] [] aes [] "22:00".

Definition sampleBytes : ArchiveBytes := mkBytes (fun es _ => "PK" ++ concat (snd <$> es)) 4096.
Definition sampleCrypto : Crypto := Build_Crypto (fun _ _ _ n => replicate n "k"%char) (fun _ _ i => chr (Z.of_nat i mod 256)).
Definition sampleRand (c : ascii) : Rand := fun _ n => "P"%char :: replicate (n - 1) c.

#[local] Instance sampleCrypto_laws : CryptoLaws sampleCrypto.
Proof. intros pw salt iter n. apply length_replicate. Qed.

#[local] Instance sampleRand_laws c : RandLaws (fun t n => take n (sampleRand c t n)).
Proof. intros t n. unfold rand_bytes, sampleRand. rewrite length_take. simpl. rewrite length_replicate. lia. Qed.

Abbreviation rnd c := (fun t n => take n (sampleRand c t n)).

Definition day (n : Z) : Time := Date 2024 1 n 0.
Definition shopName : gostring := "mysql_backup_20240115_db1_shop.zip".
Definition crmName : gostring := "mysql_backup_20240101_db1_crm.zip".
Definition shopData : Data := Zip [(str "shop.sql", str "a dump that is long enough to have a header")] true.
Definition localFs : files := <[str "/b" := NDir]> (<[str "/d" := NDir]> (<["/b/" ++ shopName := NFile shopData (day 15)]> ∅)).
Definition remoteTree (n : RNode) : rfiles := <[str "/r" := RDir]> (<["/r/" ++ crmName := RFile "an old archive, long enough for a header" (day 1)]> (<["/r/" ++ shopName := n]> ∅)).
Definition emptyTree : rfiles := <[str "/r" := RDir]> (<["/r/" ++ crmName := RFile "an old archive, long enough for a header" (day 1)]> ∅).
Definition sampleWorld : World := mkWorld localFs (day 16) 0 [] [].

(** The call that examines the local archive fails; the one that opens it fails. *)
Definition statFails : Faults := fun t => if (t =? 1)%nat then Some 5%Z else None.
Definition openFails : Faults := fun t => if (t =? 2)%nat then Some 5%Z else None.

Lemma fine_none w : @fine NoFaults w.
Proof. by intros t Ht. Qed.

Lemma tree_dials {FT : Faults} aes (fs : files) (s : TreeSrv) : @dials FT treeSftp (sampleCfg aes) fs s.
Proof. intros w Hw Hfs. reflexivity. Qed.

Lemma no_clash_check fs dir rdir (v : rfiles) :
  bool_decide (map_Forall (fun p n => n = RDir -> p = rdir) v) = true -> no_clash fs dir rdir v.
Proof. intros H%bool_decide_eq_true_1 name d t _ _ _ E. apply (H _ _) in E; [|done]. by apply rpath_ne_dir in E. Qed.

(** ** Theorems *)

(** C6: Without errors on either side and with a host that accepts the login and has the
    remote directory, [Sync] returns no error, leaves the local files alone and makes the remote
    directory a mirror of the local archives: each archive whose file there was missing or older,
    or, only if the files are encrypted, of another size than the archive's with salt and nonce,
    is sent anew; the file of any other archive stays as it is, whatever its size and contents; a
    remote archive that is not here is removed; and no other remote file changes.  (No remote
    directory has the name of a local archive.) *)
Theorem Sync_mirrors (FT : Faults) (AB : ArchiveBytes) (SF : Sftp) (SL : SftpLaws SF) (CR : Crypto) (CL : CryptoLaws CR)
    (RD : Rand) (RL : RandLaws RD) cfg dir w s :
  let rdir := Config.RemoteBackupDir cfg in
  let pw := TrimSpace (Config.RemoteAESPassword cfg) in
  rdir <> [] -> Config.RemoteSSHHost cfg <> [] ->
  fine w -> up s -> dials cfg (w_fs w) s ->
  w_fs w !! dir = Some NDir -> view s !! rdir = Some RDir -> no_clash (w_fs w) dir rdir (view s) ->
  exists w' s', Sync cfg dir (w, s) = (None, (w', s')) /\ w_fs w' = w_fs w /\
    mirrored (negb (pw ==? [])) pw (w_fs w) dir rdir (view s) (view s').
Proof.
  intros rdir pw Hr Hh Hw Hs Hdial Hd Hrd Hc.
  destruct (Sync_spec cfg dir w s Hr Hh Hw Hs Hdial Hd Hrd Hc) as (w' & s' & E & _ & _ & ?). by exists w', s'.
Qed.

(** C20: Without errors on either side, for a pattern without classes and escapes that matches
    some archive of the host, where all archives have ASCII names and none of the matching ones
    has 1 to 31 bytes, [GetFile] downloads exactly the archives whose names match the pattern in
    the declarative sense, leaves the host alone, puts each beside a file of the same name if
    there is one and touches no other local file.  What it writes are the bytes on the host,
    decrypted if a password is set and they do not begin with the signature of a zip file.  (The
    destination is a directory, and no directory is in the way of a file.) *)
Theorem GetFile_fetches (FT : Faults) (AB : ArchiveBytes) (SF : Sftp) (SL : SftpLaws SF) (CR : Crypto) (CL : CryptoLaws CR)
    (RD : Rand) (RL : RandLaws RD) cfg pattern dest w s :
  let rdir := Config.RemoteBackupDir cfg in
  let pw := TrimSpace (Config.RemoteAESPassword cfg) in
  let sel := selected pattern rdir (view s) in
  rdir <> [] -> Config.RemoteSSHHost cfg <> [] -> validGetfilePattern pattern = true ->
  fine w -> up s -> dials cfg (w_fs w) s ->
  w_fs w !! dest = Some NDir -> GoPath.Clean dest = dest -> view s !! rdir = Some RDir -> ascii_names pattern rdir (view s) ->
  (exists n, sel n) -> (forall n, sel n -> w_fs w !! place (w_fs w) dest n <> Some NDir) ->
  (forall n c t, sel n -> view s !! rpath rdir n = Some (RFile c t) -> readable c) ->
  exists names w' s', (NoDup names /\ forall n, n ∈ names <-> sel n) /\
    GetFile cfg pattern dest (w, s) = ((place (w_fs w) dest <$> names, None), (w', s')) /\ view s' = view s /\
    fetched pw rdir dest names (view s) (w_fs w) (w_fs w').
Proof.
  intros rdir pw sel Hr Hh Hv Hw Hs Hdial Hdest Hcl Hrd Hasc Hex Hnd Hread. by apply GetFile_spec.
Qed.

(** C10: A file sent by [Sync] comes back: after a session that uploads an archive, a
    session that fetches it by its name saves exactly the archive's bytes, encrypted or
    not, provided that no salt begins with the signature of a zip file. *)
Theorem Sync_GetFile_roundtrip (FT : Faults) (AB : ArchiveBytes) (SF : Sftp) (SL : SftpLaws SF) (CR : Crypto) (CL : CryptoLaws CR)
    (RD : Rand) (RL : RandLaws RD) cfg dir dest name d t w s :
  let rdir := Config.RemoteBackupDir cfg in
  rdir <> [] -> Config.RemoteSSHHost cfg <> [] ->
  fine w -> up s -> (forall fs s, up s -> dials cfg fs s) ->
  w_fs w !! dir = Some NDir -> view s !! rdir = Some RDir -> no_clash (w_fs w) dir rdir (view s) ->
  w_fs w !! dest = Some NDir -> GoPath.Clean dest = dest ->
  GoPath.plain name -> isBackupZip name = true -> validGetfilePattern name = true -> containsWildcard name = false ->
  w_fs w !! GoPath.Join dir name = Some (NFile d t) -> view s !! rpath rdir name = None ->
  w_fs w !! GoPath.Join dest name = None -> saltLen + nonceLen <= length (data_bytes d) ->
  (forall t, looksPlain (rand_bytes t saltLen) = false) ->
  let ws1 := snd (Sync cfg dir (w, s)) in
  let r := GetFile cfg name dest ws1 in
  fst r = ([GoPath.Join dest name], None) /\
  exists t', w_fs (fst (snd r)) !! GoPath.Join dest name = Some (NFile (Raw (data_bytes d)) t').
Proof.
  intros rdir Hr Hh Hw Hs Hdial Hd Hrd Hc Hdest Hcl Hp Hz Hval Hwild Hf Hrem Hfree Hlen Hpk.
  destruct (Sync_spec cfg dir w s Hr Hh Hw Hs (Hdial _ _ Hs) Hd Hrd Hc) as (w1 & s1 & E1 & Hw1 & Hs1 & Hfs1 & Hm & Hout).
  assert (exists c t', carries (negb (TrimSpace (Config.RemoteAESPassword cfg) ==? [])) (TrimSpace (Config.RemoteAESPassword cfg)) d c
    /\ view s1 !! rpath rdir name = Some (RFile c t')) as (c & t' & Hcar & Hv1).
  { specialize (Hm name Hp Hz). cbv zeta in Hm. rewrite Hf in Hm. fold rdir in Hm. rewrite Hrem in Hm. exact Hm. }
  destruct (carries_recovered _ _ _ Hcar Hpk) as [Hrec Hread]; [by right|].
  assert (forall n, selected name rdir (view s1) n <-> n = name) as Hsel.
  { intros n. rewrite selected_literal by done. naive_solver. }
  assert (place (w_fs w1) dest name = GoPath.Join dest name) as Eplace by (unfold place; by rewrite Hfs1, Hfree).
  destruct (GetFile_spec cfg name dest w1 s1) as (names & w2 & s2 & [Hnd Hin] & E2 & _ & Hfet & _); rewrite ?Hfs1; fold rdir; auto.
  - rewrite Hout; [done|]. intros n _ _. apply not_eq_sym, rpath_ne_dir.
  - intros Hw'. congruence.
  - exists name. by apply Hsel.
  - intros n ->%Hsel. rewrite <- Hfs1, Eplace, Hfs1, Hfree. done.
  - intros n c' t'' ->%Hsel Hc'. rewrite Hv1 in Hc'. by injection Hc' as <- <-.
  - assert (names = [name]) as ->.
    { apply Permutation_singleton_r, NoDup_Permutation; [done|apply NoDup_singleton|]. intros n.
      rewrite Hin, list_elem_of_singleton. apply Hsel. }
    rewrite E1. cbn [snd]. rewrite E2. cbn [fmap list_fmap]. rewrite Eplace. split; [done|].
    destruct (Hfet name c t') as (t2 & Ht2); [left|done|]. exists t2. by rewrite Eplace, Hrec in Ht2.
Qed.

(** C19: Whatever fails on either side, [Sync] removes nothing on the host unless every
    upload has succeeded, and then only names the local listing does not have: a property
    of the server that every call but a removal preserves holds after a [Sync] that
    returned an error, and after any [Sync] if the removals of other names preserve it. *)
Theorem Sync_removes_last (FT : Faults) (AB : ArchiveBytes) (SF : Sftp) (CR : Crypto) (RD : Rand) cfg dir (J : srv -> Prop) w s :
  spares J -> J s ->
  let r := Sync cfg dir (w, s) in
  (fst r <> None -> J (snd (snd r))) /\
  ((forall l, fst (listLocalBackups dir w) = inr l ->
      forall name s, name ∉ Name <$> l -> J s -> J (snd (sftp_Remove (rpath (Config.RemoteBackupDir cfg) name) s))) ->
   J (snd (snd r))).
Proof.
  intros HJ Hs r. unfold r, Sync. case_if; [done|]. unfold mbind, RM_bind, here.
  destruct (listLocalBackups dir w) as [[e|l] w1]; [done|]. split.
  - by apply (careful_withSession J HJ cfg _ (careful_syncBody J HJ cfg l) (w1, s)).
  - intros Hrm. by apply (keeps_withSession J HJ cfg Some _ (keeps_syncBody J HJ cfg l (Hrm l eq_refl)) (w1, s)).
Qed.

(** C21: Whatever fails, and whatever the host answers as long as the SFTP client returns plain
    names, [GetFile] touches only files directly in the destination directory that are
    named after an archive, or such a name with .lokal. *)
Theorem GetFile_confined (FT : Faults) (AB : ArchiveBytes) (SF : Sftp) (CR : Crypto) (RD : Rand) cfg pattern dest ws :
  lists_plain -> touches (landing dest) (fst ws) (fst (snd (GetFile cfg pattern dest ws))).
Proof.
  intros Hl. unfold GetFile. case_if; [done|]. destruct (validGetfilePattern pattern) eqn:Hv; [|done]. cbn [negb].
  revert ws. apply (confined_withSession (landing dest)).
  apply always_bind_res with (Q := fun sel => match sel with
    | inr names => forall n, n ∈ names -> GoPath.plain n /\ isBackupZip n = true | inl _ => True end);
    [apply _|apply confined_selectFiles|intros ws; by apply selectFiles_names|].
  intros [e|names] Hn; [apply always_ret; apply _|]. apply confined_downloadLoop. intros n [Hp Hz]%Hn.
  split; exists n; split_and!; auto; apply GoPath.Dir_Join; auto using lokal_plain.
Qed.

(** A remote copy of the wrong length that is not older than the archive, such as an
    upload cut off half-way leaves, is replaced by the next [Sync] if files are encrypted,
    but kept for good if they are not. *)
Theorem Sync_truncated (FT : Faults) (AB : ArchiveBytes) (SF : Sftp) (SL : SftpLaws SF) (CR : Crypto) (CL : CryptoLaws CR)
    (RD : Rand) (RL : RandLaws RD) cfg dir name d t c rt w s :
  let rdir := Config.RemoteBackupDir cfg in
  let pw := TrimSpace (Config.RemoteAESPassword cfg) in
  rdir <> [] -> Config.RemoteSSHHost cfg <> [] ->
  fine w -> up s -> dials cfg (w_fs w) s ->
  w_fs w !! dir = Some NDir -> view s !! rdir = Some RDir -> no_clash (w_fs w) dir rdir (view s) ->
  GoPath.plain name -> isBackupZip name = true -> w_fs w !! GoPath.Join dir name = Some (NFile d t) ->
  view s !! rpath rdir name = Some (RFile c rt) -> After t rt = false ->
  (Z.of_nat (length c) <> Z.of_nat (length (data_bytes d)) + encryptionOverhead)%Z ->
  let r := Sync cfg dir (w, s) in
  let after := view (snd (snd r)) !! rpath rdir name in
  fst r = None /\
  if pw ==? [] then after = Some (RFile c rt)
  else exists c' t', carries true pw d c' /\ after = Some (RFile c' t').
Proof.
  intros rdir pw Hr Hh Hw Hs Hdial Hd Hrd Hc Hp Hz Hf Hrem Hold Hlen r after.
  destruct (Sync_spec cfg dir w s Hr Hh Hw Hs Hdial Hd Hrd Hc) as (w' & s' & E & _ & _ & _ & Hm & _).
  unfold after, r. rewrite E. split; [done|]. specialize (Hm name Hp Hz). cbv zeta in Hm. rewrite Hf in Hm.
  fold rdir pw in Hm. rewrite Hrem in Hm. unfold After in Hold.
  destruct (decide _) as [Ho|Ho]; destruct (pw ==? []); try done; exfalso; unfold outdated in Ho; [destruct Ho as [Ho|[Ho _]]; [congruence|done]|].
  apply Ho. right. done.
Qed.

(** C37: If the salt of an encrypted file happens to begin with the signature of a zip file,
    the code takes the container for a plain archive: the download reports success and
    saves the encrypted bytes. *)
Theorem getOneFile_salt_PK (FT : Faults) (AB : ArchiveBytes) (SF : Sftp) (SL : SftpLaws SF) (CR : Crypto) (CL : CryptoLaws CR)
    (RD : Rand) (RL : RandLaws RD) cfg rdir name q d c t w s :
  let pw := TrimSpace (Config.RemoteAESPassword cfg) in
  fine w -> up s -> free_place (w_fs w) q ->
  view s !! rpath rdir name = Some (RFile c t) -> carries true pw d c -> looksPlain c = true ->
  let r := getOneFile rdir name q cfg (w, s) in
  fst r = None /\ length c = length (data_bytes d) + saltLen + nonceLen /\
  exists t', w_fs (fst (snd r)) !! q = Some (NFile (Raw c) t').
Proof.
  intros pw Hw Hs Hq Hv (t1 & t2 & Hc) Hpk r. cbv zeta in Hc.
  assert (length c = length (data_bytes d) + saltLen + nonceLen) as Hlen.
  { rewrite Hc, !length_app, !rand_length, xor_stream_length. lia. }
  destruct (rspec_getOneFile rdir name q cfg c t (w_fs w) (view s) Hv Hq) with (w := w) (s := s)
    as (x & w' & s' & E & _ & _ & -> & t' & Hfs & _); [right; lia|done|done|done|].
  unfold r. rewrite E. split; [done|]. split; [done|]. exists t'. cbn [fst snd]. rewrite Hfs, lookup_insert_eq.
  unfold recovered. by rewrite Hpk, andb_false_r.
Qed.

(** C36: A failing [Stat] costs the remote copy.  If the examination of a local archive fails
    (those of others may fail too) and nothing fails after the listing, [Sync] returns no error
    and leaves all local files as they are, the archive included, but removes the file of its
    name on the host. *)
Theorem Sync_stat_error_deletes_remote (FT : Faults) (AB : ArchiveBytes) (SF : Sftp) (SL : SftpLaws SF) (CR : Crypto) (CL : CryptoLaws CR)
    (RD : Rand) (RL : RandLaws RD) cfg dir w s pre name post c t :
  let rdir := Config.RemoteBackupDir cfg in
  rdir <> [] -> Config.RemoteSSHHost cfg <> [] -> up s -> dials cfg (w_fs w) s ->
  w_fs w !! dir = Some NDir -> view s !! rdir = Some RDir -> no_clash (w_fs w) dir rdir (view s) ->
  archiveNames (w_fs w) dir = pre ++ name :: post -> view s !! rpath rdir name = Some (RFile c t) ->
  fault (w_tick w) = None -> is_Some (fault (S (w_tick w) + length pre)) ->
  (forall i, S (w_tick w) + length (archiveNames (w_fs w) dir) <= i -> fault i = None) ->
  exists w' s', Sync cfg dir (w, s) = (None, (w', s')) /\ w_fs w' = w_fs w /\
    (exists d mt, w_fs w !! GoPath.Join dir name = Some (NFile d mt)) /\ view s' !! rpath rdir name = None.
Proof.
  intros rdir Hr Hh Hs Hdial Hd Hrd Hc Epre Hrem Hf0 Hf1 Hlater.
  destruct (listLocalBackups_faulty dir w Hd Hf0) as (l & w1 & E1 & Hfs1 & Ht1 & Hnd & Hsub & Hno). specialize (Hno _ _ _ Epre Hf1).
  assert (fine w1) as Hw1 by (intros i Hi; apply Hlater; lia).
  assert (GoPath.plain name /\ isBackupZip name = true /\ exists d mt, w_fs w !! GoPath.Join dir name = Some (NFile d mt)) as (Hp & Hz & Hhere).
  { assert (name ∈ archiveNames (w_fs w) dir) as Hin by (rewrite Epre; set_solver). unfold archiveNames, examined in Hin.
    apply list_elem_of_fmap in Hin as ([m n] & -> & [[Hn Hz] Hin]%list_elem_of_filter). apply elem_of_entriesOf in Hin as [Hp Hm].
    cbn [fst snd] in *. destruct n as [|d mt]; [done|]. eauto. }
  assert (rspec (now_at (w_fs w) (view s)) (syncBody cfg l) (fun r fs v => r = None /\ fs = w_fs w /\ v !! rpath rdir name = None)) as Hbody.
  { eapply rspec_conseq; [| |apply rspec_syncBody_loops; [done|done|]]; [done| |].
    - intros r fs v (-> & -> & es & v1 & Hl & Hup & Hrm). split; [done|]. split; [done|].
      pose proof (mirrored_gone _ _ _ _ _ _ _ _ _ Hl Hup Hrm name Hp Hz Hno) as Hgone. fold rdir in Hgone. by rewrite Hgone, Hrem.
    - intros loc Hloc. eapply local_facts; [apply locals_listed|exact Hc|]. by apply Hsub. }
  unfold Sync. rewrite !bool_decide_eq_false_2 by done. cbn [orb]. unfold mbind, RM_bind, here. rewrite E1. rewrite <- Hfs1 in Hdial.
  destruct (withSession_spec cfg Some (syncBody cfg l) _ _ w1 s Hbody Hw1 Hs Hdial) as (r & w' & s' & E & _ & _ & -> & Hfs' & Hgone); [done|].
  by exists w', s'.
Qed.

(** ** Witnesses *)

Lemma Sync_stat_error_deletes_remote_witness :
  let s := mkTree (remoteTree (RFile "the same archive, already sent before" (day 16))) (day 17) in
  exists w' s', @Sync statFails sampleBytes treeSftp sampleCrypto (rnd "s"%char) (sampleCfg []) "/b" (sampleWorld, s) = (None, (w', s')) /\
    tr_files s' !! ("/r/" ++ shopName) = None.
Proof.
  destruct (Sync_stat_error_deletes_remote statFails sampleBytes treeSftp treeLaws sampleCrypto sampleCrypto_laws (rnd "s"%char) (sampleRand_laws "s"%char)
    (sampleCfg []) "/b" sampleWorld (mkTree (remoteTree (RFile "the same archive, already sent before" (day 16))) (day 17)) [] shopName []
    "the same archive, already sent before" (day 16)) as (w' & s' & E & _ & _ & H).
  - done.
  - done.
  - exact I.
  - apply tree_dials.
  - reflexivity.
  - reflexivity.
  - apply no_clash_check. vm_compute. reflexivity.
  - vm_compute. reflexivity.
  - reflexivity.
  - reflexivity.
  - by exists 5%Z.
  - intros i Hi. unfold fault, statFails. rewrite (proj2 (Nat.eqb_neq i 1)); [done|].
    assert (length (archiveNames (w_fs sampleWorld) "/b") = 1) as El by (vm_compute; reflexivity). rewrite El in Hi. simpl in Hi. lia.
  - exists w', s'. split; [exact E|exact H].
Defined.

Lemma Sync_mirrors_witness :
  exists w' s', @Sync NoFaults sampleBytes treeSftp sampleCrypto (rnd "s"%char) (sampleCfg "key") "/b" (sampleWorld, mkTree emptyTree (day 17))
    = (None, (w', s')) /\ tr_files s' !! ("/r/" ++ crmName) = None.
Proof.
  destruct (Sync_mirrors NoFaults sampleBytes treeSftp treeLaws sampleCrypto sampleCrypto_laws (rnd "s"%char) (sampleRand_laws "s"%char)
    (sampleCfg "key") "/b" sampleWorld (mkTree emptyTree (day 17))) as (w' & s' & E & _ & Hm & _).
  - done.
  - done.
  - apply fine_none.
  - exact I.
  - apply tree_dials.
  - reflexivity.
  - reflexivity.
  - apply no_clash_check. vm_compute. reflexivity.
  - exists w', s'. split; [exact E|]. specialize (Hm crmName). apply Hm; apply (bool_decide_eq_true_1 _); vm_compute; reflexivity.
Defined.

Lemma ascii_names_check pattern rdir (v : rfiles) :
  Forall GoGlob.simple pattern -> bool_decide (map_Forall (fun p (_ : RNode) => Forall (fun c => (code c < 128)%Z) p) v) = true ->
  ascii_names pattern rdir v.
Proof.
  intros Hs H%bool_decide_eq_true_1 _. split; [done|]. intros n c t (Hsl & _) _ Hf. apply (H _ _) in Hf. unfold rpath in Hf.
  rewrite !Forall_app in Hf. destruct Hf as (_ & _ & Hf). apply Forall_forall. intros x Hx. rewrite Forall_forall in Hf.
  split; [by apply Hf|]. by intros ->.
Qed.

#[local] Instance readable_dec c : Decision (readable c).
Proof. unfold readable. apply _. Defined.

Definition node_readable (n : RNode) : Prop := match n with RFile c _ => readable c | RDir => True end.
#[local] Instance node_readable_dec n : Decision (node_readable n).
Proof. destruct n; unfold node_readable; apply _. Defined.

Lemma readable_check (v : rfiles) p c t :
  bool_decide (map_Forall (fun _ n => node_readable n) v) = true -> v !! p = Some (RFile c t) -> readable c.
Proof. intros H%bool_decide_eq_true_1 Hp. apply (H _ _ Hp). Qed.

Lemma place_check (fs : files) dest n :
  bool_decide (map_Forall (fun p x => x = NDir -> GoPath.Dir p <> GoPath.Clean dest) fs) = true -> GoPath.plain n ->
  fs !! place fs dest n <> Some NDir.
Proof. intros H%bool_decide_eq_true_1 Hp E. apply (H _ _) in E; [|done]. by rewrite place_Dir in E. Qed.

Lemma GetFile_fetches_witness :
  exists names, length names = 1 /\
    fst (@GetFile NoFaults treeSftp sampleCrypto (sampleCfg "key") "mysql_backup_2024*_cr?.zip" "/d" (sampleWorld, mkTree emptyTree (day 17)))
    = (place localFs "/d" <$> names, None).
Proof.
  destruct (GetFile_fetches NoFaults sampleBytes treeSftp treeLaws sampleCrypto sampleCrypto_laws (rnd "s"%char) (sampleRand_laws "s"%char)
    (sampleCfg "key") "mysql_backup_2024*_cr?.zip" "/d" sampleWorld (mkTree emptyTree (day 17))) as (names & w' & s' & [Hnd Hin] & E & _).
  - done.
  - done.
  - reflexivity.
  - apply fine_none.
  - exact I.
  - apply tree_dials.
  - reflexivity.
  - reflexivity.
  - reflexivity.
  - apply ascii_names_check; [apply (bool_decide_eq_true_1 _)|]; vm_compute; reflexivity.
  - exists crmName. split_and!; [apply (bool_decide_eq_true_1 _); vm_compute; reflexivity|vm_compute; reflexivity| |vm_compute; reflexivity].
    eexists _, _. vm_compute. reflexivity.
  - intros n (Hp & _). apply place_check; [vm_compute; reflexivity|exact Hp].
  - intros n c t _. apply readable_check. vm_compute. reflexivity.
  - exists names. split; [|exact (f_equal fst E)].
    apply (f_equal (fun r => length (fst (fst r)))) in E. cbn [fst] in E. rewrite length_fmap in E. rewrite <- E. vm_compute. reflexivity.
Defined.

Lemma Sync_GetFile_roundtrip_witness :
  let r := @GetFile NoFaults treeSftp sampleCrypto (sampleCfg "key") shopName "/d"
    (snd (@Sync NoFaults sampleBytes treeSftp sampleCrypto (rnd "s"%char) (sampleCfg "key") "/b" (sampleWorld, mkTree emptyTree (day 17)))) in
  fst r = (["/d/" ++ shopName], None) /\
  exists t', w_fs (fst (snd r)) !! ("/d/" ++ shopName) = Some (NFile (Raw (@data_bytes sampleBytes shopData)) t').
Proof.
  refine (Sync_GetFile_roundtrip NoFaults sampleBytes treeSftp treeLaws sampleCrypto sampleCrypto_laws (rnd "s"%char) (sampleRand_laws "s"%char)
    (sampleCfg "key") "/b" "/d" shopName shopData (day 15) sampleWorld (mkTree emptyTree (day 17)) _ _ (fine_none _) I _ _ _ _ _ _ _ _ _ _ _ _ _ _ _);
    try (vm_compute; reflexivity); try (apply (bool_decide_eq_true_1 _); vm_compute; reflexivity).
  apply no_clash_check. vm_compute. reflexivity.
Defined.

(** A remote file that is there. *)
Definition present (p : gostring) (s : TreeSrv) : Prop := is_Some (tr_files s !! p).

Lemma present_insert p q (v : rfiles) n : is_Some (v !! p) -> is_Some (<[q := n]> v !! p).
Proof. intros H. rewrite lookup_insert_is_Some. destruct (decide (q = p)); auto. Qed.

Lemma present_spares p : @spares treeSftp (present p).
Proof. unfold present. split; simpl; try done; intros; repeat case_match; simpl in *; auto using present_insert. Qed.

Lemma Sync_removes_last_witness :
  present ("/r/" ++ crmName) (snd (snd (@Sync openFails sampleBytes treeSftp sampleCrypto (rnd "s"%char) (sampleCfg []) "/b" (sampleWorld, mkTree emptyTree (day 17))))).
Proof.
  refine (proj1 (Sync_removes_last openFails sampleBytes treeSftp sampleCrypto (rnd "s"%char) (sampleCfg []) "/b" (present ("/r/" ++ crmName))
    sampleWorld (mkTree emptyTree (day 17)) (present_spares _) _) _).
  - apply (bool_decide_eq_true_1 _). vm_compute. reflexivity.
  - vm_compute. discriminate.
Defined.

Lemma tree_lists_plain : @lists_plain treeSftp.
Proof.
  intros d s es. simpl. destruct (tr_files s !! d) as [[|]|]; simpl; try done. intros [= <-]. apply Forall_forall.
  intros i (name & n & Hp & _ & ->)%elem_of_tree_list. by rewrite rinfo_name.
Qed.

Lemma GetFile_confined_witness :
  w_fs (fst (snd (@GetFile NoFaults treeSftp sampleCrypto (sampleCfg "key") crmName "/d" (sampleWorld, mkTree emptyTree (day 17))))) !! ("/b/" ++ shopName)
  = w_fs sampleWorld !! ("/b/" ++ shopName).
Proof.
  refine (proj1 (GetFile_confined NoFaults sampleBytes treeSftp sampleCrypto (rnd "s"%char) (sampleCfg "key") crmName "/d"
    (sampleWorld, mkTree emptyTree (day 17)) tree_lists_plain) _ _).
  intros (n & _ & _ & _ & Hd). vm_compute in Hd. discriminate.
Defined.

Lemma Sync_truncated_witness :
  let r := @Sync NoFaults sampleBytes treeSftp sampleCrypto (rnd "s"%char) (sampleCfg []) "/b"
    (sampleWorld, mkTree (remoteTree (RFile "PK" (day 16))) (day 17)) in
  tr_files (snd (snd r)) !! ("/r/" ++ shopName) = Some (RFile "PK" (day 16)).
Proof.
  refine (proj2 (Sync_truncated NoFaults sampleBytes treeSftp treeLaws sampleCrypto sampleCrypto_laws (rnd "s"%char) (sampleRand_laws "s"%char)
    (sampleCfg []) "/b" shopName shopData (day 15) "PK" (day 16) sampleWorld (mkTree (remoteTree (RFile "PK" (day 16))) (day 17))
    _ _ (fine_none _) I (tree_dials _ _ _) _ _ _ _ _ _ _ _ _));
    try (vm_compute; reflexivity); try (apply (bool_decide_eq_true_1 _); vm_compute; reflexivity).
  apply no_clash_check. vm_compute. reflexivity.
Defined.

(** An encrypted archive whose salt is PKKK... *)
Definition pkContainer : gostring :=
  let salt := rnd "K"%char 0 saltLen in
  salt ++ salt ++ @xor_stream (fun i => chr (Z.of_nat i mod 256)) 0 (@data_bytes sampleBytes shopData).

Lemma getOneFile_salt_PK_witness :
  exists t', w_fs (fst (snd (@getOneFile NoFaults treeSftp sampleCrypto "/r" shopName ("/d/" ++ shopName) (sampleCfg "key")
    (sampleWorld, mkTree (remoteTree (RFile pkContainer (day 16))) (day 17))))) !! ("/d/" ++ shopName) = Some (NFile (Raw pkContainer) t').
Proof.
  refine (proj2 (proj2 (getOneFile_salt_PK NoFaults sampleBytes treeSftp treeLaws sampleCrypto sampleCrypto_laws (rnd "K"%char) (sampleRand_laws "K"%char)
    (sampleCfg "key") "/r" shopName ("/d/" ++ shopName) shopData pkContainer (day 16) sampleWorld (mkTree (remoteTree (RFile pkContainer (day 16))) (day 17))
    (fine_none _) I _ _ _ _))).
  - split; [apply (bool_decide_eq_true_1 _)|]; vm_compute; reflexivity.
  - vm_compute. reflexivity.
  - exists 0, 0. vm_compute. reflexivity.
  - vm_compute. reflexivity.
Defined.

End Remote.
