(* ===== verification/Email.v ===== *)
(** * internal/email: error notifications over SMTP.

    The packages crypto/tls, net and net/smtp are the class [Smtp]: each call is an
    operation with an answer, and the state of a delivery is the local world with the
    transcript of the calls made, the deferred closings included. *)

From S2P Require Import Prelude GoStrings GoTime World Config.
Import GoStrings GoTime World.

Module Email.

(** [smtp.PlainAuth(identity, username, password, host)] *)
Record Auth := mkAuth { a_identity : gostring; a_user : gostring; a_password : gostring; a_host : gostring }.

Inductive SmtpOp :=
| TlsDial (addr server : gostring)
| NetDial (addr : gostring)
| NewClient (host : gostring)
| StartTLS (server : gostring)
| AuthCmd (a : Auth)
| MailCmd (from : gostring)
| RcptCmd (to : gostring)
| DataCmd
| WriteMsg (msg : gostring)
| DataClose
| Quit
| SendMail (addr : gostring) (a : Auth) (from : gostring) (to : list gostring) (msg : gostring)
| ClientClose
| ConnClose.

(** The answer to a call at a tick, and whether the server offers STARTTLS. *)
Class Smtp := {
  smtp_answer : nat -> SmtpOp -> option err;
  smtp_starttls : nat -> bool
}.

Definition EM (A : Type) : Type := World * list SmtpOp -> A * (World * list SmtpOp).

#[global] Instance EM_ret : MRet EM := fun A x st => (x, st).
#[global] Instance EM_bind : MBind EM := fun A B f m st => let '(x, st') := m st in f x st'.

(** ** Composing *)

Definition smtpPort (cfg : Config.Config) : Z :=
  if (Config.AdminSMTPPort cfg <=? 0)%Z then 587%Z else Config.AdminSMTPPort cfg.

Definition smtpAddr (cfg : Config.Config) : gostring := Config.AdminSMTPServer cfg ++ ":" ++ Itoa (smtpPort cfg).

Definition authOf (cfg : Config.Config) : Auth :=
  let u := TrimSpace (Config.AdminSMTPUser cfg) in
  let authUser := if u ==? [] then Config.AdminEmail cfg else u in
  mkAuth authUser authUser (Config.AdminSMTPPassword cfg) (Config.AdminSMTPServer cfg).

Definition CRLF : gostring := [CR; LF].

Definition message (cfg : Config.Config) (subject body : gostring) : gostring :=
  "To: " ++ Config.AdminEmail cfg ++ CRLF ++ "Subject: " ++ subject ++ CRLF
  ++ "Content-Type: text/plain; charset=UTF-8" ++ CRLF ++ CRLF ++ body ++ CRLF.

Definition tlsModeOf (cfg : Config.Config) : gostring :=
  let tlsMode := ToLower (TrimSpace (Config.AdminSMTPTLS cfg)) in
  if tlsMode ==? [] then
    if (smtpPort cfg =? 465)%Z then str "tls" else if (smtpPort cfg =? 587)%Z then str "starttls" else tlsMode
  else tlsMode.

Definition FormatErrorBody (subject errDetail logExcerpt : gostring) : gostring :=
  subject ++ [LF; LF] ++ "Fehlerdetails / Error details:" ++ [LF] ++ errDetail ++ [LF; LF]
  ++ (if logExcerpt ==? [] then [] else "Log-Auszug / Log excerpt:" ++ [LF] ++ logExcerpt).

(** ** Sending *)

Section Send.
Context {SM : Smtp}.

(** A call: noted, answered. *)
Definition call (op : SmtpOp) : EM (option err) := fun '(w, tr) => (smtp_answer (w_tick w) op, (tick w, tr ++ [op])).

(** A deferred close, whose error is dropped. *)
Definition deferred {A : Type} (m : EM A) (op : SmtpOp) : EM A := r ← m; _ ← call op; mret r.

(** The calls one after the other up to the first error. *)
Fixpoint calls (ops : list SmtpOp) : EM (option err) :=
  match ops with
  | [] => mret None
  | op :: ops' => e ← call op; match e with Some e => mret (Some e) | None => calls ops' end
  end.

(** From the login to the end of the session. *)
Definition deliver (cfg : Config.Config) (auth : Auth) (msg : gostring) : list SmtpOp :=
  [AuthCmd auth; MailCmd (Config.AdminEmail cfg); RcptCmd (Config.AdminEmail cfg); DataCmd; WriteMsg msg; DataClose; Quit].

Definition sendTLS (cfg : Config.Config) (addr : gostring) (auth : Auth) (msg : gostring) : EM (option err) :=
  d ← call (TlsDial addr (Config.AdminSMTPServer cfg));
  match d with
  | Some e => mret (Some (Errorf "err.tls_dial" [] (Some e)))
  | None =>
      deferred
        (c ← call (NewClient (Config.AdminSMTPServer cfg));
         match c with
         | Some e => mret (Some e)
         | None => deferred (calls (deliver cfg auth msg)) ClientClose
         end) ConnClose
  end.

Definition sendSTARTTLS (cfg : Config.Config) (addr : gostring) (auth : Auth) (msg : gostring) : EM (option err) :=
  d ← call (NetDial addr);
  match d with
  | Some e => mret (Some (Errorf "err.dial" [] (Some e)))
  | None =>
      deferred
        (c ← call (NewClient (Config.AdminSMTPServer cfg));
         match c with
         | Some e => mret (Some e)
         | None =>
             deferred
               (ok ← (fun '(w, tr) => (smtp_starttls (w_tick w), (w, tr)) : bool * (World * list SmtpOp));
                t ← (if (ok : bool) then call (StartTLS (Config.AdminSMTPServer cfg)) else mret None);
                match t with
                | Some e => mret (Some (Errorf "err.starttls" [] (Some e)))
                | None => calls (deliver cfg auth msg)
                end) ClientClose
         end) ConnClose
  end.

Definition Send (cfg : Config.Config) (subject body : gostring) : EM (option err) :=
  if (Config.AdminEmail cfg ==? []) || (Config.AdminSMTPServer cfg ==? []) then mret None
  else
    let addr := smtpAddr cfg in
    let auth := authOf cfg in
    let msg := message cfg subject body in
    let tlsMode := tlsModeOf cfg in
    if tlsMode ==? str "tls" then sendTLS cfg addr auth msg
    else if tlsMode ==? str "starttls" then sendSTARTTLS cfg addr auth msg
    else call (SendMail addr auth (Config.AdminEmail cfg) [Config.AdminEmail cfg] msg).

End Send.

(** ** The dialogue *)

(** What a server's answers make of a list of calls, the reference for [Send]. *)
Section Dialogue.
Context {SM : Smtp}.

(** The calls accepted from a tick on, and the first refused one with its error. *)
Fixpoint dialogue (t : nat) (ops : list SmtpOp) : list SmtpOp * option (SmtpOp * err) :=
  match ops with
  | [] => ([], None)
  | op :: ops' =>
      match smtp_answer t op with
      | Some e => ([], Some (op, e))
      | None => let '(accepted, refused) := dialogue (S t) ops' in (op :: accepted, refused)
      end
  end.

(** The error a refused call is reported by. *)
Definition reported (f : SmtpOp * err) : err :=
  match fst f with
  | TlsDial _ _ => Errorf "err.tls_dial" [] (Some (snd f))
  | NetDial _ => Errorf "err.dial" [] (Some (snd f))
  | StartTLS _ => Errorf "err.starttls" [] (Some (snd f))
  | _ => snd f
  end.

(** What has to be closed once a call is accepted. *)
Definition opens (op : SmtpOp) : list SmtpOp :=
  match op with
  | TlsDial _ _ | NetDial _ => [ConnClose]
  | NewClient _ => [ClientClose]
  | _ => []
  end.

(** All that is open is closed, what was opened last first. *)
Definition closings (accepted : list SmtpOp) : list SmtpOp := reverse (accepted ≫= opens).

Definition made (d : list SmtpOp * option (SmtpOp * err)) : list SmtpOp :=
  fst d ++ option_list (fst <$> snd d) ++ closings (fst d).

(** [n] calls later. *)
Definition later (n : nat) (w : World) : World := Nat.iter n tick w.

(** The run of a list of calls by its dialogue. *)
Definition perform (ops : list SmtpOp) : EM (option err) := fun '(w, tr) =>
  let d := dialogue (w_tick w) ops in (reported <$> snd d, (later (length (made d)) w, tr ++ made d)).

(** The calls of a delivery in order. *)
Definition script (cfg : Config.Config) (subject body : gostring) (starttls : bool) : list SmtpOp :=
  let mode := tlsModeOf cfg in
  let rest := deliver cfg (authOf cfg) (message cfg subject body) in
  if mode ==? str "tls" then [TlsDial (smtpAddr cfg) (Config.AdminSMTPServer cfg); NewClient (Config.AdminSMTPServer cfg)] ++ rest
  else if mode ==? str "starttls" then
    [NetDial (smtpAddr cfg); NewClient (Config.AdminSMTPServer cfg)]
    ++ (if starttls then [StartTLS (Config.AdminSMTPServer cfg)] else []) ++ rest
  else [SendMail (smtpAddr cfg) (authOf cfg) (Config.AdminEmail cfg) [Config.AdminEmail cfg] (message cfg subject body)].

(** ** Lemmas *)

Lemma later_fields n w : w_fs (later n w) = w_fs w /\ w_now (later n w) = w_now w /\ w_tick (later n w) = n + w_tick w.
Proof. induction n as [|n (IH1 & IH2 & IH3)]; [done|]. simpl. by rewrite IH1, IH2, IH3. Qed.

Lemma later_tick n w : later n (tick w) = tick (later n w).
Proof. induction n as [|n IH]; [done|]. simpl. by f_equal. Qed.

Lemma later_add n m w : later n (later m w) = later (n + m) w.
Proof. induction n as [|n IH]; [done|]. simpl. by f_equal. Qed.

Lemma closings_cons op accepted : closings (op :: accepted) = closings accepted ++ reverse (opens op).
Proof. apply reverse_app. Qed.

(** A call followed, if it is accepted, by a run that closes what the call has opened. *)
Lemma perform_cons op ops (k : EM (option err)) w tr :
  (forall tr', k (tick w, tr') =
    let '(r, (w', tr'')) := perform ops (tick w, tr') in (r, (later (length (opens op)) w', tr'' ++ reverse (opens op)))) ->
  (d ← call op; match d with Some e => mret (Some (reported (op, e))) | None => k end) (w, tr) = perform (op :: ops) (w, tr).
Proof.
  intros Hk. unfold mbind, EM_bind, call, perform. cbn [dialogue]. destruct (smtp_answer (w_tick w) op) as [e|]; [done|].
  rewrite Hk. unfold perform. change (w_tick (tick w)) with (S (w_tick w)). destruct (dialogue (S (w_tick w)) ops) as [acc r].
  unfold made. cbn [fst snd]. rewrite closings_cons. f_equal. f_equal; [|by rewrite <- !app_assoc].
  rewrite later_add, later_tick. change (tick (later ?n w)) with (later (S n) w). f_equal. cbn [app length]. rewrite !length_app, length_reverse. lia.
Qed.

(** A call that opens nothing, and one whose closing is deferred. *)
Lemma perform_plain op ops (k : EM (option err)) w tr :
  opens op = [] -> (forall tr', k (tick w, tr') = perform ops (tick w, tr')) ->
  (d ← call op; match d with Some e => mret (Some (reported (op, e))) | None => k end) (w, tr) = perform (op :: ops) (w, tr).
Proof.
  intros Ho Hk. apply perform_cons. intros tr'. rewrite Hk, Ho. destruct (perform ops _) as [r [w' tr'']]. by rewrite app_nil_r.
Qed.

Lemma perform_deferred op c ops (m : EM (option err)) w tr :
  opens op = [c] -> (forall tr', m (tick w, tr') = perform ops (tick w, tr')) ->
  (d ← call op; match d with Some e => mret (Some (reported (op, e))) | None => deferred m c end) (w, tr) = perform (op :: ops) (w, tr).
Proof.
  intros Ho Hm. apply perform_cons. intros tr'. unfold deferred, mbind, EM_bind. rewrite Hm, Ho. by destruct (perform ops _) as [r [w' tr'']].
Qed.

Lemma perform_calls ops st : Forall (fun op => opens op = [] /\ forall e, reported (op, e) = e) ops -> calls ops st = perform ops st.
Proof.
  intros H. revert st. induction H as [|op ops [Ho Hr] _ IH]; intros [w tr]; [unfold perform; cbn; by rewrite app_nil_r|].
  rewrite <- (perform_plain op ops (calls ops)) by auto. cbn [calls]. unfold mbind, EM_bind. destruct (call op _) as [[e|] st]; [by rewrite Hr|done].
Qed.

Lemma perform_deliver cfg auth msg st : calls (deliver cfg auth msg) st = perform (deliver cfg auth msg) st.
Proof. apply perform_calls. by repeat constructor. Qed.

Lemma perform_Send cfg subject body w tr :
  Config.AdminEmail cfg <> [] -> Config.AdminSMTPServer cfg <> [] ->
  Send cfg subject body (w, tr) = perform (script cfg subject body (smtp_starttls (2 + w_tick w))) (w, tr).
Proof.
  intros He Hs. unfold Send, script. rewrite !(bool_decide_eq_false_2 (_ = [])) by done. cbn [orb].
  destruct (tlsModeOf cfg ==? str "tls"); [|destruct (tlsModeOf cfg ==? str "starttls")].
  - apply perform_deferred; [done|]. intros tr1. apply perform_deferred; [done|]. intros tr2. apply perform_deliver.
  - apply perform_deferred; [done|]. intros tr1. apply perform_deferred; [done|]. intros tr2.
    unfold mbind at 1, EM_bind at 1. change (w_tick (tick (tick w))) with (2 + w_tick w).
    destruct (smtp_starttls (2 + w_tick w)); [|apply perform_deliver]. apply perform_plain; [done|]. intros tr3. apply perform_deliver.
  - unfold perform. cbn [dialogue]. unfold call. by destruct (smtp_answer _ _).
Qed.

End Dialogue.

(** What [Send] leaves alone. *)
Lemma Send_quiet {SM : Smtp} cfg subject body w tr :
  w_fs (fst (snd (Send cfg subject body (w, tr)))) = w_fs w /\ w_now (fst (snd (Send cfg subject body (w, tr)))) = w_now w.
Proof.
  destruct (decide (Config.AdminEmail cfg = [])) as [He|He]; [unfold Send; by rewrite bool_decide_eq_true_2|].
  destruct (decide (Config.AdminSMTPServer cfg = [])) as [Hs|Hs]; [unfold Send; by rewrite (bool_decide_eq_true_2 (Config.AdminSMTPServer cfg = [])), orb_true_r|].
  rewrite perform_Send by done. simpl. split; apply later_fields.
Qed.

(** ** Theorems *)

(** C31: An e-mail is delivered by the book.  The calls are those of the configured mode in
    order (dial, greeting, STARTTLS if it is offered, login, sender, recipient, message, quit),
    stopped by the first one the server refuses; then exactly what the accepted calls have opened
    is closed, the client before its connection.  The error returned is that of the refused
    call, named for the dialling and STARTTLS, and none if there is none; nothing else changes
    but the count of the calls.  So the message is never sent before the login is accepted. *)
Theorem Send_script (SM : Smtp) cfg subject body w tr :
  Config.AdminEmail cfg <> [] -> Config.AdminSMTPServer cfg <> [] ->
  let '(accepted, refused) := dialogue (w_tick w) (script cfg subject body (smtp_starttls (2 + w_tick w))) in
  let ops := accepted ++ option_list (fst <$> refused) ++ closings accepted in
  Send cfg subject body (w, tr) = (reported <$> refused, (later (length ops) w, tr ++ ops)).
Proof. intros He Hs. rewrite perform_Send by done. unfold perform, made. by destruct (dialogue _ _). Qed.

(** ** Witnesses *)

Definition sampleCfg : Config.Config :=
  Config.mkConfig 0 [] [] 3306 [] [] [] false [] [] [] [] 14 3 3 3 "/b" [] "admin@example.org" "mail.example.org" 587 [] [] "pw" [] [] [] 22 [] [] [] [] [] [] "22:00".

(** A server that refuses the login. *)
Definition refusing : Smtp := Build_Smtp (fun _ op => match op with AuthCmd _ => Some (EIO 535) | _ => None end) (fun _ => true).

Definition sampleWorld : World := mkWorld ∅ (Date 2024 1 15 0) 0 [] [].

Lemma Send_script_witness :
  @Send refusing sampleCfg "S" "B" (sampleWorld, []) = (Some (EIO 535), (later 6 sampleWorld,
    [NetDial "mail.example.org:587"; NewClient "mail.example.org"; StartTLS "mail.example.org"; AuthCmd (authOf sampleCfg); ClientClose; ConnClose])).
Proof. exact (Send_script refusing sampleCfg "S" "B" sampleWorld [] ltac:(discriminate) ltac:(discriminate)). Defined.

End Email.
