(* ===== verification/Logger.v ===== *)
(** * internal/logger and internal/disk.

    The log file is opened for appending and grows by one line per message, whose text is
    formatted; the rendering of the time (RFC 3339, with the zone's offset) is a parameter.
    The program hands the logger texts that are formatted already, [emit], and the second
    formatting garbles a text with a percent sign in one of its arguments.  The free space
    of a volume is what statfs reports, at 64 bits, or on Windows what GetDiskFreeSpaceExW
    writes. *)

From S2P Require Import Prelude GoStrings Regexp GoTime GoPath World GoFmt Translations CrashLogic I18n Config.
Import GoStrings GoTime World GoFmt CrashLogic I18n.

Module Logger.

(** [Logger]: the open file, if it is open; the echo to the terminal is always on. *)
Record Logger := mkLogger { l_file : option gostring; l_echo : bool; Verbose : bool }.

(** [time.Now().Format(time.RFC3339)] *)
Class ClockText := rfc3339 : Time -> gostring.

Section Logger.
Context {FT : Faults} {CT : ClockText} {MSG : Messages} {ET : ErrorText} {EP : ErrorPrint}.

(** [os.OpenFile(path, O_CREATE|O_WRONLY|O_APPEND)] *)
Definition OpenAppend (p : gostring) : M (err + unit) :=
  syscall (fun w =>
    match w_fs w !! p with
    | Some NDir => (inl (EIO 21), w)
    | Some (NFile _ _) => (inr tt, w)
    | None =>
        if w_fs w !! GoPath.Dir p ==? Some NDir then (inr tt, set_fs <[p := NFile (Raw []) (w_now w)]> w) else (inl ENOENT, w)
    end).

Definition New (path0 : gostring) : M (err + Logger) :=
  let path := GoPath.FromSlash path0 in
  d ← MkdirAll (GoPath.Dir path);
  match d with
  | inl e => mret (inl e)
  | inr _ =>
      f ← OpenAppend path;
      mret match f with
           | inl e => inl e
           | inr _ => inr (mkLogger (Some path) true false)
           end
  end.

Definition line (now : Time) (level msg : gostring) : gostring := rfc3339 now ++ " [" ++ level ++ "] " ++ msg ++ [LF].

(** One line to an open logger: the file, then the terminal; the error of the write is
    dropped.  The bytes on the terminal are the result. *)
Definition put (l : Logger) (level msg : gostring) : M gostring :=
  now ← get_now;
  let ln := line now level msg in
  _ ← match l_file l with Some p => Append p ln | None => mret (inl (EIO 9)) end;
  mret (if l_echo l then ln else []).

(** [None] for a format beyond the model. *)
Definition write (l : Logger) (level format : gostring) (a : list Arg) : option (M gostring) :=
  msg ← Sprintf format a; Some (put l level msg).

Definition Info (l : Logger) (format : gostring) (a : list Arg) : option (M gostring) := write l "INFO" format a.
Definition Warn (l : Logger) (format : gostring) (a : list Arg) : option (M gostring) := write l "WARN" format a.
Definition Error (l : Logger) (format : gostring) (a : list Arg) : option (M gostring) := write l "ERROR" format a.
Definition Debug (l : Logger) (format : gostring) (a : list Arg) : option (M gostring) :=
  if Verbose l then write l "DEBUG" format a else Some (mret []).

Definition logAt (lv : Level) : Logger -> gostring -> list Arg -> option (M gostring) :=
  match lv with LDebug => Debug | LInfo => Info | LWarn => Warn | LError => Error end.

(** A message of the program's log: [log.Info(i18n.Tf(key, a...))] and its siblings, or a
    format of the program's own with its arguments. *)
Definition emit (l : Logger) (e : LogEntry) : option (M gostring) :=
  match messages !! l_key e with
  | Some _ => msg ← Tf (l_key e) (l_args e); logAt (l_level e) l msg []
  | None => logAt (l_level e) l (l_key e) (l_args e)
  end.

(** [Close] forgets the file; a second one does nothing. *)
Definition Close (l : Logger) : M (option err * Logger) :=
  match l_file l with
  | None => mret (None, l)
  | Some _ =>
      c ← syscall (fun w => (inr tt, w));
      mret (match c with inl e => Some e | inr _ => None end, mkLogger None (l_echo l) (Verbose l))
  end.

End Logger.

(** ** Lemmas *)

(** A text, not empty, with directives and no percent sign of its own. *)
Definition unescaped (f : gostring) : bool := match cut f with Some ps => bool_decide (Text percent ∉ ps) && negb (f ==? []) | None => false end.

Lemma embedded_unescaped : Forall (fun '(_, t) => forallb (fun '(_, v) => unescaped (str v)) t = true) embedded.
Proof. repeat constructor; vm_compute; reflexivity. Qed.

Lemma entry_unescaped l t key v : (l, t) ∈ embedded -> entry t key = Some v -> unescaped v = true.
Proof.
  intros Hl He. pose proof embedded_unescaped as HF. rewrite Forall_forall in HF. specialize (HF _ Hl). cbn in HF. clear Hl.
  induction t as [|[k x] t IH]; [done|]. cbn [entry forallb] in *. apply andb_true_iff in HF as [H1 H2].
  case_bool_decide; [by injection He as <-|auto].
Qed.

(** The percent signs of a filled text come from the arguments. *)
Lemma fill_plain {ET : ErrorText} ps a : Text percent ∉ ps -> Forall (fun x => percent ∉ printValue x) a -> percent ∉ fill ps a.
Proof.
  revert a. induction ps as [|[c|v] ps IH]; intros a Hp Ha; [apply not_elem_of_nil|..]; apply not_elem_of_cons in Hp as [Hc Hp]; cbn [fill].
  - apply not_elem_of_cons. split; [congruence|]. by apply IH.
  - destruct a as [|x a]; [apply not_elem_of_nil|]. apply Forall_cons in Ha as [Hx Ha]. rewrite not_elem_of_app. split; [|by apply IH].
    destruct v, x; try exact Hx. apply fmtInteger_plain.
Qed.

Definition levelName (lv : Level) : gostring :=
  match lv with LDebug => str "DEBUG" | LInfo => str "INFO" | LWarn => str "WARN" | LError => str "ERROR" end.

Section Lines.
Context {FT : Faults} {CT : ClockText} {ET : ErrorText} {EP : ErrorPrint}.

Lemma logAt_write lv l f a : lv <> LDebug -> logAt lv l f a = write l (levelName lv) f a.
Proof. by destruct lv. Qed.

(** A typed message whose arguments have no percent signs is logged as its filled text. *)
Lemma emit_typed lang t lv key a l :
  (lang, t) ∈ embedded -> typed key a = true -> Forall (fun x => percent ∉ printValue x) a -> lv <> LDebug ->
  exists ps, cut (@T (messagesOf t) key) = Some ps /\ @emit FT CT (messagesOf t) ET EP l (mkLog lv key a) = Some (put l (levelName lv) (fill ps a)).
Proof.
  intros Ht Ha Hp Hlv. destruct (Tf_typed lang t key a Ht Ha) as (ps & Hc & E). exists ps. split; [exact Hc|].
  unfold emit. cbn [l_key l_args l_level]. rewrite E. cbn [mbind option_bind]. rewrite !logAt_write by done. unfold write.
  rewrite T_text in Hc. unfold text in Hc. rewrite messagesOf_entry. destruct (entry t key) as [v|] eqn:Ev.
  - assert (Text percent ∉ ps) as Hps.
    { apply (entry_unescaped lang) in Ev; [|done]. unfold unescaped in Ev. destruct (v ==? []); [by destruct (cut v); bool_prop|].
      rewrite Hc in Ev. by bool_prop. }
    by rewrite (Sprintf_plain (fill ps a)) by (by apply fill_plain).
  - unfold Tf in E. rewrite T_text in E. unfold text in E. rewrite Ev in E. by rewrite E.
Qed.

(** Without a fault the file grows by the line. *)
Lemma put_appends l level msg w p old mt :
  l_file l = Some p -> l_echo l = true -> w_fs w !! p = Some (NFile (Raw old) mt) -> fault (w_tick w) = None ->
  let ln := line (w_now w) level msg in
  fst (put l level msg w) = ln /\ w_fs (snd (put l level msg w)) = <[p := NFile (Raw (old ++ ln)) (w_now w)]> (w_fs w).
Proof.
  intros Hl He Hf Hw. unfold put, mbind, M_bind, get_now. rewrite Hl, He. unfold Append, syscall. rewrite Hw.
  change (w_fs (tick w)) with (w_fs w). by rewrite Hf.
Qed.

End Lines.

(** ** Samples *)

Definition sampleLogger : Logger := mkLogger (Some (str "/b/run.log")) true false.
Definition sampleWorld : World := mkWorld {[str "/b/run.log" := NFile (Raw "-") (Date 2024 1 1 0)]} (Date 2024 1 16 0) 0 [] [].
Definition samplePrint : ErrorPrint := mkPrint (fun _ => str "syscall.Errno") (fun _ c => "%!" ++ [c] ++ "(syscall.Errno=28)").

(** What a message adds to the log file and the terminal, with a short stamp. *)
Definition shownAs (t : table) (e : LogEntry) : option gostring :=
  m ← @emit NoFaults (fun _ => str "T") (messagesOf t) (fun _ => str "no space") samplePrint sampleLogger e;
  Some (fst (m sampleWorld)).

(** ** Theorems *)

(** C32: A message is logged as it reads: an information, warning or error with the arguments
    its text takes, none of which prints a percent sign, makes the log file grow by exactly one
    line, with the time, the level and the text of the language with its holes filled; the
    terminal shows the same line. *)
Theorem log_line_exact (FT : Faults) (CT : ClockText) (ET : ErrorText) (EP : ErrorPrint) lang t lv key a l w p old mt :
  (lang, t) ∈ embedded -> typed key a = true -> Forall (fun x => percent ∉ printValue x) a -> lv <> LDebug ->
  l_file l = Some p -> l_echo l = true -> w_fs w !! p = Some (NFile (Raw old) mt) -> fault (w_tick w) = None ->
  exists ps act, cut (@T (messagesOf t) key) = Some ps /\ @emit FT CT (messagesOf t) ET EP l (mkLog lv key a) = Some act /\
    let ln := line (w_now w) (levelName lv) (fill ps a) in
    fst (act w) = ln /\ w_fs (snd (act w)) = <[p := NFile (Raw (old ++ ln)) (w_now w)]> (w_fs w).
Proof.
  intros Ht Ha Hp Hlv Hl He Hw Hf. destruct (emit_typed lang t lv key a l Ht Ha Hp Hlv) as (ps & Hc & E).
  exists ps, (put l (levelName lv) (fill ps a)). split; [exact Hc|]. split; [exact E|]. eapply put_appends; eassumption.
Qed.

(** A percent sign in an argument is taken for a directive when the logger formats the text
    a second time: the name of the file is not the one that was uploaded. *)
Theorem percent_garbles_log :
  shownAs Translations.en (mkLog LInfo "log.msg.uploaded" [AStr "a.zip"]) = Some ("T [INFO] uploaded a.zip to remote" ++ [LF]) /\
  shownAs Translations.en (mkLog LInfo "log.msg.uploaded" [AStr "100%.zip"]) = Some ("T [INFO] uploaded 100%!z(MISSING)ip to remote" ++ [LF]).
Proof. vm_compute. split; reflexivity. Qed.

(** ** Witnesses *)

Lemma log_line_exact_witness : exists ps act, cut (@T (messagesOf Translations.de) "log.msg.uploaded") = Some ps /\
  @emit NoFaults (fun _ => str "T") (messagesOf Translations.de) (fun _ => []) samplePrint sampleLogger (mkLog LInfo "log.msg.uploaded" [AStr "a.zip"]) = Some act /\
  let ln := @line (fun _ => str "T") (Date 2024 1 16 0) "INFO" (@fill (fun _ => []) ps [AStr "a.zip"]) in
  fst (act sampleWorld) = ln /\ w_fs (snd (act sampleWorld)) = <[str "/b/run.log" := NFile (Raw ("-" ++ ln)) (Date 2024 1 16 0)]> (w_fs sampleWorld).
Proof.
  apply (log_line_exact NoFaults (fun _ => str "T") (fun _ => []) samplePrint (str "de") Translations.de LInfo "log.msg.uploaded" [AStr "a.zip"]
    sampleLogger sampleWorld "/b/run.log" "-" (Date 2024 1 1 0)); try reflexivity; try discriminate.
  - left.
  - constructor; [|constructor]. apply (bool_decide_eq_true_1 _). reflexivity.
Defined.

End Logger.

Module Disk.

Definition MinFreeBytes : Z := 100 * 1024 * 1024.

(** [syscall.Statfs]: the free blocks and the block size. *)
Class Statfs := statfs : nat -> gostring -> err + (Z * Z).

(** [filepath.Abs] *)
Definition Abs (getwd : err + gostring) (p : gostring) : err + gostring :=
  if GoPath.IsRooted p then inr (GoPath.Clean p)
  else match getwd with inl e => inl e | inr wd => inr (GoPath.Join wd p) end.

Definition two64 : Z := 2 ^ 64.

Section Disk.
Context {FT : Faults} {SF : Statfs}.

(** [available] on Unix: the product wraps around at 64 bits. *)
Definition available (path : gostring) : M (err + Z) :=
  fun w => (match statfs (w_tick w) path with
            | inl e => inl e
            | inr (bavail, bsize) => inr ((bavail * bsize) mod two64)%Z
            end, tick w).

Definition Available (getwd : err + gostring) (path0 : gostring) : M (err + Z) :=
  let path := GoPath.FromSlash path0 in
  let abs := match Abs getwd path with inl _ => path | inr a => a end in
  s ← Stat abs;
  available match s with inr (NFile _ _) => GoPath.Dir abs | _ => abs end.

Lemma Available_quiet getwd path : quiet (Available getwd path) /\ forward (Available getwd path).
Proof.
  assert (forall p, quiet (available p) /\ forward (available p)) as Ha by (intros p; split; intros w; simpl; [done|lia]).
  unfold Available. split; [apply quiet_bind|apply forward_bind]; eauto with go; intros; apply Ha.
Qed.

End Disk.

(** *** Windows *)

(** GetDiskFreeSpaceExW asked at a tick for a path in UTF-16: whether it succeeded, the
    bytes it wrote, the last error. *)
Class DiskFreeSpace := getDiskFreeSpaceEx : nat -> list Z -> bool * Z * err.

(** The units of a code point. *)
Definition units (r : Z) : list Z :=
  if (r <? 65536)%Z then [r] else [55296 + (r - 65536) / 1024; 56320 + (r - 65536) mod 1024]%Z.

Definition utf16 (s : gostring) : list Z := Regexp.runes s ≫= fun t => units (Regexp.rune t).

Definition EINVAL : err := EIO 22.

(** [syscall.UTF16PtrFromString] of a path in UTF-8. *)
Definition UTF16PtrFromString (s : gostring) : err + list Z :=
  if bool_decide ("000"%char ∈ s) then inl EINVAL else inr (utf16 s ++ [0%Z]).

Definition availableWindows {DF : DiskFreeSpace} (path : gostring) : M (err + Z) :=
  match UTF16PtrFromString path with
  | inl e => mret (inl e)
  | inr ptr => fun w => let '(r, freeBytesAvailable, e) := getDiskFreeSpaceEx (w_tick w) ptr in
      ((if negb r then inl e else inr freeBytesAvailable), tick w)
  end.

(** The system sees the whole path: the only zero is the terminator. *)
Lemma utf16_zero s : "000"%char ∉ s -> 0%Z ∉ utf16 s.
Proof.
  intros Hs. unfold utf16. intros (t & Hz & Ht)%list_elem_of_bind. unfold units in Hz. destruct (Regexp.rune t <? 65536)%Z eqn:E.
  - apply list_elem_of_singleton in Hz. destruct (Regexp.runes_low s t Ht) as (c & -> & Hc); [lia|]. apply Hs. cbn in Hz.
    assert (c = "000"%char) as <- by (rewrite <- (chr_code c), <- Hz; reflexivity). done.
  - apply Z.ltb_ge in E. pose proof (Z.div_pos (Regexp.rune t - 65536) 1024). pose proof (Z.mod_pos_bound (Regexp.rune t - 65536) 1024).
    rewrite !elem_of_cons in Hz. destruct Hz as [?|[?|?%not_elem_of_nil]]; [lia|lia|done].
Qed.

End Disk.
