(* ===== verification/Run.v ===== *)
(** * internal/run: the orchestration of a backup.

    [Backup] checks the disk space, starts the server if it has to, asks it what to back
    up, writes the archives, prunes old ones, mirrors the directory to the remote host and
    stops the server if it started it.  On an error it sends an e-mail.  The state is the
    local world, the remote server and the SMTP transcript. *)

From S2P Require Import Prelude GoStrings Regexp GoTime GoPath GoRuntime World CrashLogic Polling I18n Config Mysql Retention UserSQL Backup Restore RemoteHost Remote Email Logger.
Import GoStrings GoTime GoRuntime World CrashLogic Polling I18n RemoteHost.

Module Run.

(** Whether the command started at a tick runs into its deadline. *)
Class Deadline := deadline_exceeded : nat -> bool.

(** ** The server's life cycle *)

(** The same function as in internal/restore. *)
Definition splitCommandLine (s : gostring) : list gostring := Restore.splitCommandLine s.

(** The same choice as there. *)
Definition commandOf (goos cmd : gostring) : option (gostring * list gostring) := Restore.commandOf goos cmd.

Definition startHint : gostring :=
  LF :: "Hinweis: XAMPP/MySQL-Logs prüfen (z. B. mysql\data\*.err), Port 3306, my.ini.".

Definition stopMessage (out : gostring) : gostring :=
  if Contains (ToLower out) "could not be started" || Contains out "konnte nicht gestartet" then out ++ startHint else out.

Section Lifecycle.
Context {EX : Exec} {NT : Net} {DL : Deadline}.

(** For a command started in the background the result is that of starting it. *)
Definition runMySQLLifecycleCmd (cmd0 : gostring) (waitForExit : bool) : M (option err) :=
  let cmd := TrimSpace cmd0 in
  if cmd ==? [] then mret None
  else match commandOf Restore.GOOS cmd with
       | None => mret None
       | Some (name, args) =>
           if negb waitForExit then
             r ← run_cmd name args [];
             match x_err r with
             | Some e => mret (Some (Errorf "err.start_cmd" [] (Some e)))
             | None => _ ← Info "log.msg.mysql_start_background" []; mret None
             end
           else
             expired ← (fun w => (deadline_exceeded (w_tick w), w));
             r ← run_cmd name args [];
             match x_err r with
             | Some e =>
                 if (expired : bool) then mret (Some (Errorf "err.timeout_batch" [x_combined r] (Some e)))
                 else mret (Some (Errorf "%w (output: %s)" [stopMessage (x_combined r)] (Some e)))
             | None =>
                 _ ← (if bool_decide (0 < length (x_combined r)) then Info "log.msg.mysql_lifecycle" [AStr (x_combined r)] else mret tt);
                 mret None
             end
       end.

Definition waitForMySQL (conn : Mysql.Conn) (timeout interval : Z) : M bool :=
  poll_for timeout interval (r ← Mysql.Reachable conn; mret match r with None => true | Some _ => false end).

Definition portReachable (host : gostring) (port : Z) : M bool := Dials host port.

End Lifecycle.

(** ** Log excerpts *)

Definition excerptOf (logExcerpt : gostring) : gostring :=
  if (4096 <? Z.of_nat (length logExcerpt))%Z then drop (length logExcerpt - Z.to_nat 4096) logExcerpt else logExcerpt.

(** The last bytes of a file: what one read at its start, or at an offset, returns. *)
Definition CaptureLogExcerpt {FT : Faults} {AB : ArchiveBytes} (logPath : gostring) (maxBytes : Z) : M (option gostring) :=
  if (logPath ==? []) || (maxBytes <=? 0)%Z then mret None
  else
    f ← Open (GoPath.FromSlash logPath);
    match f with
    | inl _ => mret None
    | inr n =>
        info ← syscall (fun w => (inr (@node_size byte_sizes n), w));
        match info with
        | inl _ => mret None
        | inr size =>
            b ← ReadAll n;
            let zeros k := replicate (Z.to_nat k) "000"%char in
            if (size <=? maxBytes)%Z then mret (Some (match b with inr bs => bs | inl _ => zeros size end))
            else mret (Some (match b with inr bs => drop (Z.to_nat (size - maxBytes)) bs | inl _ => zeros maxBytes end))
        end
    end.

(** ** The flow *)

Section Flow.
Context {FT : Faults} {AB : ArchiveBytes} {EX : Exec} {SS : SliceSort} {MO : MapOrder} {MSG : Messages}.
Context {SF : Sftp} {CR : Crypto} {RD : Rand} {SM : Email.Smtp} {NT : Net} {DL : Deadline} {ET : ErrorText} {ST : Disk.Statfs}.

(** The local world, the remote server, the SMTP transcript. *)
Definition State : Type := World * srv * list Email.SmtpOp.

Definition XM (A : Type) : Type := State -> A * State.

#[global] Instance XM_ret : MRet XM := fun A x st => (x, st).
#[global] Instance XM_bind : MBind XM := fun A B f m st => let '(x, st') := m st in f x st'.

Definition local {A : Type} (m : M A) : XM A := fun '(w, s, tr) => let '(x, w') := m w in (x, (w', s, tr)).
Definition remotely {A : Type} (m : RM A) : XM A := fun '(w, s, tr) => let '(x, (w', s')) := m (w, s) in (x, (w', s', tr)).
Definition mailing {A : Type} (m : Email.EM A) : XM A := fun '(w, s, tr) => let '(x, (w', tr')) := m (w, tr) in (x, (w', s, tr')).

Definition sendErrorEmail (cfg : Config.Config) (subject errDetail logExcerpt : gostring) : XM unit :=
  let excerpt := if logExcerpt ==? [] then [] else excerptOf logExcerpt in
  let body := Email.FormatErrorBody subject errDetail excerpt in
  e ← mailing (Email.Send cfg subject body);
  match e with
  | Some e => local (Warn "log.warn.email" [AErr e])
  | None => mret tt
  end.

(** The e-mail and the error for the caller. *)
Definition report (cfg : Config.Config) (subjectKey detail : gostring) (e : err) : XM (option err) :=
  _ ← sendErrorEmail cfg (T subjectKey) detail []; mret (Some e).

Definition connOf (cfg : Config.Config) : Mysql.Conn :=
  Mysql.mkConn (Config.MySQLHost cfg) (Config.MySQLPort cfg) "root" (Config.RootPassword cfg) (Config.MySQLBin cfg).

(** Starting the server: [inr] says whether it was started, [inl] is the returned error. *)
Definition ensureRunning (cfg : Config.Config) (conn : Mysql.Conn) : XM (err + bool) :=
  if Config.MySQLAutoStartStop cfg && negb (Config.MySQLStartCmd cfg ==? []) && negb (Config.MySQLStopCmd cfg ==? []) then
    up ← local (Mysql.Reachable conn);
    match up with
    | None => mret (inr false)
    | Some _ =>
        open ← local (portReachable (Mysql.Host conn) (Mysql.Port conn));
        if (open : bool) then _ ← local (Info "log.msg.mysql_port_skip" [AStr (Mysql.Host conn); AInt (Mysql.Port conn)]); mret (inr false)
        else
          _ ← local (Info "log.msg.mysql_starting" [AStr (Config.MySQLStartCmd cfg)]);
          e ← local (runMySQLLifecycleCmd (Config.MySQLStartCmd cfg) false);
          match e with
          | Some e =>
              _ ← sendErrorEmail cfg (T "email.subject.mysql_start") (error_text e) [];
              mret (inl (Errorf "err.mysql_start" [] (Some e)))
          | None =>
              ok ← local (waitForMySQL conn (60 * Second) (2 * Second));
              if negb ok then
                _ ← sendErrorEmail cfg (T "email.subject.mysql_timeout") (T "email.body.mysql_timeout") [];
                mret (inl (Errorf "err.mysql_timeout" [] None))
              else _ ← local (Info "log.msg.mysql_started" []); mret (inr true)
          end
    end
  else mret (inr false).

(** From the archives on. *)
Definition backupAndSync (cfg : Config.Config) (conn : Mysql.Conn) (dbs : list gostring) (isMariaDB weStartedMySQL : bool) : XM (option err) :=
  u ← local (Mysql.ExportUsers conn isMariaDB);
  userSQL ← match u with
            | inl e => _ ← local (Warn "log.warn.export_users" [AErr e]); mret []
            | inr s => mret s
            end;
  r ← local (@Backup.Run FT byte_sizes EX MO cfg conn userSQL dbs isMariaDB);
  match r with
  | inl e => report cfg "email.subject.dump" (error_text e) (Errorf "err.backup" [] (Some e))
  | inr _ =>
      e ← local (@Retention.ApplyToDirs FT byte_sizes SS MSG (Config.BackupDir cfg) (Config.RemoteBackupDir cfg)
                   (Retention.mkRetain (Config.RetainDaily cfg) (Config.RetainWeekly cfg) (Config.RetainMonthly cfg) (Config.RetainYearly cfg)));
      _ ← match e with Some e => local (Warn "log.warn.retention" [AErr e]) | None => mret tt end;
      e ← remotely (Remote.Sync cfg (Config.BackupDir cfg));
      match e with
      | Some e => report cfg "email.subject.remote" (error_text e) (Errorf "err.remote_sync" [] (Some e))
      | None =>
          _ ← (if weStartedMySQL && Config.MySQLAutoStartStop cfg && negb (Config.MySQLStopCmd cfg ==? []) then
                 _ ← local (Info "log.msg.mysql_stopping" [AStr (Config.MySQLStopCmd cfg)]);
                 e ← local (runMySQLLifecycleCmd (Config.MySQLStopCmd cfg) true);
                 match e with Some e => local (Warn "log.warn.mysql_stop" [AErr e]) | None => mret tt end
               else mret tt);
          mret None
      end
  end.

(** The part that talks to the running server. *)
Definition backupServer (cfg : Config.Config) (conn : Mysql.Conn) (weStartedMySQL : bool) : XM (option err) :=
  v ← local (Mysql.IsMariaDB conn);
  match v with
  | inl e => report cfg "email.subject.mysql_server" (error_text e) (Errorf "err.mysql_server" [] (Some e))
  | inr isMariaDB =>
      l ← local (Mysql.ListDatabases conn);
      match l with
      | (_, Some e) => report cfg "email.subject.list_dbs" (error_text e) (Errorf "err.list_databases" [] (Some e))
      | ([], None) => _ ← local (Info "log.msg.no_user_dbs" []); mret None
      | (dbs, None) => backupAndSync cfg conn dbs isMariaDB weStartedMySQL
      end
  end.

Definition Backup (getwd : err + gostring) (cfg : Config.Config) : XM (option err) :=
  let backupDir := GoPath.FromSlash (Config.BackupDir cfg) in
  a ← local (Disk.Available getwd backupDir);
  let go :=
    let conn := connOf cfg in
    s ← ensureRunning cfg conn;
    match s with
    | inl e => mret (Some e)
    | inr weStartedMySQL => backupServer cfg conn weStartedMySQL
    end in
  match a with
  | inl e => _ ← local (Warn "log.warn.disk_check" [AErr e]); go
  | inr avail =>
      if (avail <? Disk.MinFreeBytes)%Z then
        let e := Errorf "err.disk_space" [Itoa avail; Itoa Disk.MinFreeBytes] None in
        report cfg "email.subject.disk" (error_text e) e
      else go
  end.

End Flow.

(** ** Lemmas: polling *)

(** Whether the server answers the poll at a tick. *)
Definition answers {EX : Exec} (conn : Mysql.Conn) (t : nat) : bool :=
  match x_err (exec t (Mysql.binPath conn "mysql") (Mysql.baseArgs conn ++ [str "-e"; str "SELECT 1"]) []) with
  | None => true
  | Some _ => false
  end.

Lemma Reachable_answers {EX : Exec} conn w :
  (r ← Mysql.Reachable conn; mret match r with None => true | Some _ => false end) w = (answers conn (w_tick w), tick w).
Proof. unfold Mysql.Reachable, mbind, M_bind, run_cmd, answers. by destruct (x_err _). Qed.

(** ** Lemmas: running the parts *)

Lemma local_bind {SF : Sftp} {A B : Type} (m : M A) (f : A -> XM B) x w w' s tr :
  m w = (x, w') -> (local m ≫= f) (w, s, tr) = f x (w', s, tr).
Proof. intros E. unfold mbind, XM_bind, local. by rewrite E. Qed.

Lemma remotely_bind {SF : Sftp} {A B : Type} (m : RM A) (f : A -> XM B) x w w' s s' tr :
  m (w, s) = (x, (w', s')) -> (remotely m ≫= f) (w, s, tr) = f x (w', s', tr).
Proof. intros E. unfold mbind, XM_bind, remotely. by rewrite E. Qed.

(** ** Lemmas: e-mails *)

Section Mails.
Context {FT : Faults} {AB : ArchiveBytes} {EX : Exec} {SS : SliceSort} {MO : MapOrder} {MSG : Messages}.
Context {SF : Sftp} {CR : Crypto} {RD : Rand} {SM : Email.Smtp} {NT : Net} {DL : Deadline} {ET : ErrorText} {ST : Disk.Statfs}.

Definition transcript (st : State) : list Email.SmtpOp := snd st.

(** One e-mail of the form of an error report has been handed over. *)
Definition mailed (cfg : Config.Config) (tr tr' : list Email.SmtpOp) : Prop :=
  exists subject detail w, tr' = snd (snd (Email.Send cfg subject (Email.FormatErrorBody subject detail []) (w, tr))).

Definition silent {A : Type} (m : XM A) : Prop := forall st, transcript (snd (m st)) = transcript st.

(** No e-mail without an error, one with an error; [fails] tells which results are errors. *)
Definition orderly {A : Type} (cfg : Config.Config) (fails : A -> bool) (m : XM A) : Prop :=
  forall st, if fails (fst (m st)) then mailed cfg (transcript st) (transcript (snd (m st)))
             else transcript (snd (m st)) = transcript st.

Lemma silent_ret {A : Type} (x : A) : silent (mret x).
Proof using Type. by intros st. Qed.

Lemma silent_local {A : Type} (m : M A) : silent (local m).
Proof using Type. intros [[w s] tr]. unfold local. by destruct (m w). Qed.

Lemma silent_remotely {A : Type} (m : RM A) : silent (remotely m).
Proof using Type. intros [[w s] tr]. unfold remotely. by destruct (m (w, s)) as [x [w' s']]. Qed.

Lemma silent_bind {A B : Type} (m : XM A) (f : A -> XM B) : silent m -> (forall x, silent (f x)) -> silent (m ≫= f).
Proof using Type.
  intros Hm Hf st. unfold mbind, XM_bind. specialize (Hm st). destruct (m st) as [x st1]. simpl in Hm. by rewrite Hf, Hm.
Qed.

Lemma orderly_bind {A B : Type} cfg fails (m : XM A) (f : A -> XM B) : silent m -> (forall x, orderly cfg fails (f x)) -> orderly cfg fails (m ≫= f).
Proof using Type.
  intros Hm Hf st. unfold mbind, XM_bind. specialize (Hm st). destruct (m st) as [x st1]. simpl in Hm. specialize (Hf x st1).
  by rewrite Hm in Hf.
Qed.

Lemma orderly_ok {A : Type} cfg (fails : A -> bool) m : silent m -> (forall st, fails (fst (m st)) = false) -> orderly cfg fails m.
Proof using Type. intros Hm Hf st. rewrite Hf. apply Hm. Qed.

Lemma sendErrorEmail_mails cfg subject detail st : mailed cfg (transcript st) (transcript (snd (sendErrorEmail cfg subject detail [] st))).
Proof using Type.
  destruct st as [[w s] tr]. unfold sendErrorEmail, mbind, XM_bind, mailing. exists subject, detail, w.
  change (if @nil ascii ==? [] then [] else excerptOf []) with (@nil ascii).
  change (transcript (w, s, tr)) with tr. by destruct (Email.Send cfg subject _ (w, tr)) as [[e|] [w' tr']].
Qed.

(** It changes neither files nor the remote host. *)
Lemma sendErrorEmail_frame cfg subject detail w s tr :
  exists w' tr', sendErrorEmail cfg subject detail [] (w, s, tr) = (tt, (w', s, tr')) /\ w_fs w' = w_fs w.
Proof using Type.
  unfold sendErrorEmail, mbind, XM_bind, mailing. set (body := Email.FormatErrorBody _ _ _).
  pose proof (proj1 (Email.Send_quiet cfg subject body w tr)) as Hq.
  destruct (Email.Send cfg subject body (w, tr)) as [[e|] [w' tr']]; eexists _, _; (split; [reflexivity|exact Hq]).
Qed.

(** The e-mail, then the error. *)
Lemma orderly_report {A : Type} cfg (fails : A -> bool) subject detail (x : A) :
  fails x = true -> orderly cfg fails (_ ← sendErrorEmail cfg subject detail []; mret x).
Proof using Type.
  intros Hx st. unfold mbind, XM_bind. pose proof (sendErrorEmail_mails cfg subject detail st) as Hm.
  destruct (sendErrorEmail cfg subject detail [] st) as [[] st1]. simpl. by rewrite Hx.
Qed.

Definition isErr (o : option err) : bool := match o with Some _ => true | None => false end.
Definition isLeft {A : Type} (o : err + A) : bool := match o with inl _ => true | inr _ => false end.

Ltac silence := repeat (intros; cbv zeta; first [apply silent_ret | apply silent_local | apply silent_remotely | apply silent_bind | case_match]).

Lemma orderly_ensureRunning cfg conn : orderly cfg isLeft (ensureRunning cfg conn).
Proof using Type.
  unfold ensureRunning. case_if; [|by apply orderly_ok; [silence|]].
  apply orderly_bind; [silence|]. intros [e|]; [|by apply orderly_ok; [silence|]].
  apply orderly_bind; [silence|]. intros [|].
  { apply orderly_bind; [silence|]. intros []. by apply orderly_ok; [silence|]. }
  apply orderly_bind; [silence|]. intros []. apply orderly_bind; [silence|]. intros [e'|]; [by apply orderly_report|].
  apply orderly_bind; [silence|]. intros [|]; [|by apply orderly_report].
  apply orderly_bind; [silence|]. intros []. by apply orderly_ok; [silence|].
Qed.

Lemma orderly_backupServer cfg conn b : orderly cfg isErr (backupServer cfg conn b).
Proof using Type.
  unfold backupServer, report. apply orderly_bind; [silence|]. intros [e|isMariaDB]; [by apply orderly_report|].
  apply orderly_bind; [silence|]. intros [dbs [e|]]; [destruct dbs; by apply orderly_report|].
  destruct dbs as [|db dbs].
  { apply orderly_bind; [silence|]. intros []. by apply orderly_ok; [silence|]. }
  unfold backupAndSync, report. apply orderly_bind; [silence|]. intros u. apply orderly_bind; [silence|]. intros userSQL.
  apply orderly_bind; [silence|]. intros [e|created]; [by apply orderly_report|].
  apply orderly_bind; [silence|]. intros e. apply orderly_bind; [silence|]. intros [].
  apply orderly_bind; [silence|]. intros [e'|]; [by apply orderly_report|].
  apply orderly_bind; [silence|]. intros []. by apply orderly_ok; [silence|].
Qed.

(** A failing first part ends the run, otherwise the second part decides. *)
Lemma orderly_go cfg conn :
  orderly cfg isErr (s ← ensureRunning cfg conn;
    match s with inl e => mret (Some e) | inr b => backupServer cfg conn b end).
Proof using Type.
  intros st. unfold mbind, XM_bind. pose proof (orderly_ensureRunning cfg conn st) as H.
  destruct (ensureRunning cfg conn st) as [[e|b] st1]; simpl in *; [done|].
  pose proof (orderly_backupServer cfg conn b st1) as H2. by rewrite H in H2.
Qed.

Lemma orderly_Backup getwd cfg : orderly cfg isErr (Backup getwd cfg).
Proof using Type.
  unfold Backup. apply orderly_bind; [apply silent_local|]. intros [e|avail].
  - apply orderly_bind; [apply silent_local|]. intros []. apply orderly_go.
  - case_if; [by apply orderly_report|apply orderly_go].
Qed.

End Mails.

(** ** Lemmas: a healthy run *)

Section Healthy.
Context {FT : Faults} {AB : ArchiveBytes} {EX : Exec} {SS : SliceSort} {MO : MapOrder} {MSG : Messages}.
Context {SF : Sftp} {SL : SftpLaws SF} {CR : Crypto} {CL : CryptoLaws CR} {RD : Rand} {RL : RandLaws RD}.
Context {SM : Email.Smtp} {NT : Net} {DL : Deadline} {ET : ErrorText} {ST : Disk.Statfs}.

(** The same files and clock, and still no errors ahead. *)
Definition steady (w w' : World) : Prop := w_fs w' = w_fs w /\ w_now w' = w_now w /\ fine w'.

Lemma steady_trans a b c : steady a b -> steady b c -> steady a c.
Proof using Type. intros (? & ? & ?) (? & ? & ?). split_and!; congruence || done. Qed.

Lemma steady_quiet {A : Type} (m : M A) w : quiet m -> forward m -> fine w -> steady w (snd (m w)).
Proof using Type. intros Hq Hf Hw. split_and!; [by apply quiet_fs|by apply quiet_now|by apply fine_forward]. Qed.

(** The server answers, tells its version and lists these databases. *)
Definition serverOk (conn : Mysql.Conn) (isMariaDB : bool) (dbs : list gostring) : Prop :=
  let ask q t := exec t (Mysql.binPath conn "mysql") (Mysql.baseArgs conn ++ [str "-e"; str q]) [] in
  forall t, x_err (ask "SELECT 1"%string t) = None /\
    x_err (ask "SELECT @@version"%string t) = None /\ Contains (ToLower (x_combined (ask "SELECT @@version"%string t))) "mariadb" = isMariaDB /\
    x_err (ask "SHOW DATABASES"%string t) = None /\ Mysql.parse_databases (x_combined (ask "SHOW DATABASES"%string t)) = (dbs, None).

(** Enough free space everywhere. *)
Definition spaceOk : Prop :=
  forall t p, exists bavail bsize, Disk.statfs t p = inr (bavail, bsize) /\ (Disk.MinFreeBytes <= (bavail * bsize) mod Disk.two64)%Z.

Lemma Available_ok getwd path w : spaceOk -> exists a, fst (Disk.Available getwd path w) = inr a /\ (Disk.MinFreeBytes <= a)%Z.
Proof using Type.
  intros Hs. unfold Disk.Available, mbind, M_bind. destruct (Stat _ w) as [r w1]. unfold Disk.available.
  match goal with |- context [Disk.statfs ?t ?p] => destruct (Hs t p) as (b & z & -> & H) end. eauto.
Qed.

Lemma ensureRunning_ok cfg conn isMariaDB dbs w s tr :
  serverOk conn isMariaDB dbs -> fine w -> exists w', ensureRunning cfg conn (w, s, tr) = (inr false, (w', s, tr)) /\ steady w w'.
Proof using Type.
  intros Hok Hw. unfold ensureRunning. case_if; [|by exists w]. destruct (Hok (w_tick w)) as (Hr & _).
  exists (tick w). split; [|split_and!; [done..|intros t Ht; apply Hw; simpl in Ht; lia]].
  unfold mbind, XM_bind, local, Mysql.Reachable, mbind, M_bind, run_cmd. by rewrite Hr.
Qed.

Lemma backupServer_ok cfg conn isMariaDB dbs b w s tr :
  serverOk conn isMariaDB dbs -> dbs <> [] -> fine w ->
  exists w', backupServer cfg conn b (w, s, tr) = backupAndSync cfg conn dbs isMariaDB b (w', s, tr) /\ steady w w'.
Proof using Type.
  intros Hok Hne Hw. exists (tick (tick w)). split; [|split_and!; [done..|intros t Ht; apply Hw; simpl in Ht; lia]].
  destruct (Hok (w_tick w)) as (_ & Hv & Hm & _). destruct (Hok (w_tick (tick w))) as (_ & _ & _ & Hl & Hp). unfold backupServer.
  erewrite (local_bind (Mysql.IsMariaDB conn)). 2: { unfold Mysql.IsMariaDB, mbind, M_bind, run_cmd. by rewrite Hv, Hm. }
  cbv beta iota. erewrite (local_bind (Mysql.ListDatabases conn)).
  2: { unfold Mysql.ListDatabases, mbind, M_bind, run_cmd. by rewrite Hl, Hp. }
  by destruct dbs.
Qed.

(** The users' text that is put into the archives: what the export gave, or nothing if it failed. *)
Definition exported (conn : Mysql.Conn) (isMariaDB : bool) (userSQL : gostring) : Prop :=
  exists w, match fst (Mysql.ExportUsers conn isMariaDB w) with inr u => userSQL = u | inl _ => userSQL = [] end.

Lemma export_ok conn isMariaDB w s tr :
  fine w -> exists userSQL w', exported conn isMariaDB userSQL /\ steady w w' /\
  forall A (k : gostring -> XM A),
    (u ← local (Mysql.ExportUsers conn isMariaDB);
     userSQL ← match u with
               | inl e => _ ← local (Warn "log.warn.export_users" [AErr e]); mret []
               | inr s => mret s
               end;
     k userSQL) (w, s, tr) = k userSQL (w', s, tr).
Proof using Type.
  intros Hw. destruct (Mysql.ExportUsers_quiet conn isMariaDB) as [Hq Hf]. pose proof (steady_quiet _ w Hq Hf Hw) as Hs.
  destruct (Mysql.ExportUsers conn isMariaDB w) as [[e|u] w1] eqn:E.
  - exists [], (snd (Warn "log.warn.export_users" [AErr e] w1)). split_and!; [exists w; by rewrite E|exact Hs|]. intros A k. unfold mbind, XM_bind, local. by rewrite E.
  - exists u, w1. split_and!; [exists w; by rewrite E|exact Hs|]. intros A k. unfold mbind, XM_bind, local. by rewrite E.
Qed.

(** The name under which a database's archive is kept. *)
Definition archiveName (cfg : Config.Config) (now : Time) (db : gostring) : gostring :=
  Backup.zipNameOf (FormatDate now) (Backup.hostnameForFile (Config.HostnameForBackup cfg)) db.

Lemma archiveName_facts cfg now db :
  (0 <= Year now <= 9999)%Z -> GoPath.slash ∉ db -> LF ∉ db ->
  GoPath.plain (archiveName cfg now db) /\ Remote.isBackupZip (archiveName cfg now db) = true /\
  Retention.name_date (archiveName cfg now db) = Some (mkTime (t_day now) 0).
Proof using Type.
  intros Hy Hs Hl. unfold archiveName. set (host := Backup.hostnameForFile _).
  assert (LF ∉ host) as Hlf.
  { unfold host, Backup.hostnameForFile. intros Hin. apply Regexp.ReplaceAllString_Cls in Hin as [Hin|Hin]; [by apply list_elem_of_singleton in Hin|done|done]. }
  assert (Backup.zipNameOf (FormatDate now) host db = "mysql_backup_" ++ FormatDate now ++ "_" ++ (host ++ "_" ++ db) ++ ".zip") as E
    by (unfold Backup.zipNameOf; by rewrite <- !app_assoc).
  split_and!.
  - apply Backup.zipName_plain; [apply Backup.digits_no_slash, FormatDate_digits; done|apply Backup.hostnameForFile_no_slash|done].
  - rewrite E. apply Remote.isBackupZip_written; [done|]. rewrite !not_elem_of_app. split_and!; [done| |done]. by apply (bool_decide_eq_true_1 _).
  - rewrite E. by apply Retention.name_date_written.
Qed.

(** Archives of today survive the pruning, and so does the directory. *)
Lemma prune_ok cfg userSQL dbs isMariaDB dump w :
  let dir := Config.BackupDir cfg in
  let users := fst (fst (UserSQL.ParseUserSQL userSQL)) in
  let r := Retention.mkRetain (Config.RetainDaily cfg) (Config.RetainWeekly cfg) (Config.RetainMonthly cfg) (Config.RetainYearly cfg) in
  fine w -> (0 <= Year (w_now w) <= 9999)%Z -> (0 <= Config.RetainDaily cfg)%Z ->
  GoPath.Clean dir = dir -> w_fs w !! dir = Some NDir -> Backup.no_dirs dir (w_fs w) ->
  Forall (Backup.dumpable (connOf cfg) isMariaDB dump) dbs -> Forall (fun db => LF ∉ db) dbs ->
  exists l w1, @Backup.Run FT byte_sizes EX MO cfg (connOf cfg) userSQL dbs isMariaDB w = (inr l, w1) /\
    let w2 := snd (@Retention.ApplyToDirs FT byte_sizes SS MSG dir (Config.RemoteBackupDir cfg) r w1) in
    fine w2 /\ w_fs w2 !! dir = Some NDir /\
    forall db, db ∈ dbs -> w_fs w2 !! GoPath.Join dir (archiveName cfg (w_now w) db) = Some (Backup.archiveOf users dump (w_now w) db).
Proof using Type.
  intros dir users r Hw Hy Hret Hcl Hd Hn Hall Hlf.
  destruct (@Backup.does_Run_frame FT byte_sizes EX MO cfg (connOf cfg) userSQL dbs isMariaDB dump w Hw Hy Hcl Hd Hn Hall)
    as (l & w1 & E & Hw1 & Hnow & Har & Hd1).
  exists l, w1. split; [exact E|]. cbv zeta. split_and!.
  - apply (fine_forward (@Retention.ApplyToDirs FT byte_sizes SS MSG dir (Config.RemoteBackupDir cfg) r)); [apply Retention.ApplyToDirs_forward|done].
  - rewrite Retention.ApplyToDirs_keeps; [done|done|]. left. intros d mt. unfold dir. by rewrite Hd1.
  - intros db Hin. rewrite Forall_forall in Hall, Hlf.
    destruct (archiveName_facts cfg (w_now w) db Hy) as (Hp & _ & Hdate); [by apply Hall|by apply Hlf|].
    rewrite Retention.ApplyToDirs_keeps; [by apply Har|done|]. right. exists dir, (archiveName cfg (w_now w) db). rewrite Hnow. done.
Qed.

(** The archives are here, and on the host. *)
Definition backedUp (cfg : Config.Config) (users : gmap gostring gostring) (dump : gostring -> ExecResult) (now : Time)
    (dbs : list gostring) (fs : files) (v : rfiles) : Prop :=
  let pw := TrimSpace (Config.RemoteAESPassword cfg) in
  forall db, db ∈ dbs -> exists d,
    Backup.archiveOf users dump now db = NFile d now /\
    fs !! GoPath.Join (Config.BackupDir cfg) (archiveName cfg now db) = Some (NFile d now) /\
    exists c t, Remote.carries (negb (pw ==? [])) pw d c /\ v !! rpath (Config.RemoteBackupDir cfg) (archiveName cfg now db) = Some (RFile c t).

(** An archive newer than anything on the host is sent to it. *)
Lemma mirrored_new cfg users dump now dbs fs v v' :
  let pw := TrimSpace (Config.RemoteAESPassword cfg) in
  let rdir := Config.RemoteBackupDir cfg in
  (0 <= Year now <= 9999)%Z -> Forall (fun db => GoPath.slash ∉ db /\ LF ∉ db) dbs ->
  (forall p c t, v !! p = Some (RFile c t) -> Before t now = true) ->
  (forall db, db ∈ dbs -> fs !! GoPath.Join (Config.BackupDir cfg) (archiveName cfg now db) = Some (Backup.archiveOf users dump now db)) ->
  Remote.mirrored (negb (pw ==? [])) pw fs (Config.BackupDir cfg) rdir v v' -> backedUp cfg users dump now dbs fs v'.
Proof using Type.
  intros pw rdir Hy Hdbs Hold Hfs [Hm _] db Hin. rewrite Forall_forall in Hdbs. destruct (Hdbs db Hin) as [Hs Hl].
  destruct (archiveName_facts cfg now db Hy Hs Hl) as (Hp & Hz & _). specialize (Hm _ Hp Hz). cbv zeta in Hm. rewrite (Hfs db Hin) in Hm.
  unfold Backup.archiveOf in *. unfold rdir, pw in *. eexists. split_and!; [reflexivity|by apply Hfs|].
  destruct (decide _) as [|Ho]; [exact Hm|]. exfalso. apply Ho.
  destruct (v !! rpath (Config.RemoteBackupDir cfg) (archiveName cfg now db)) as [[|c t]|] eqn:Ev; [done| |done]. left. by apply (Hold _ _ _ Ev).
Qed.

(** The run of a server that answers, from the listing of its databases on. *)
Lemma backupAndSync_ok cfg isMariaDB dbs dump w s tr :
  let dir := Config.BackupDir cfg in
  let rdir := Config.RemoteBackupDir cfg in
  fine w -> up s -> (0 <= Year (w_now w) <= 9999)%Z -> (0 <= Config.RetainDaily cfg)%Z ->
  GoPath.Clean dir = dir -> w_fs w !! dir = Some NDir -> Backup.no_dirs dir (w_fs w) ->
  Forall (Backup.dumpable (connOf cfg) isMariaDB dump) dbs -> Forall (fun db => LF ∉ db) dbs ->
  rdir <> [] -> Config.RemoteSSHHost cfg <> [] -> (forall fs s, up s -> Remote.dials cfg fs s) ->
  view s !! rdir = Some RDir -> (forall name, Remote.isBackupZip name = true -> view s !! rpath rdir name <> Some RDir) ->
  (forall p c t, view s !! p = Some (RFile c t) -> Before t (w_now w) = true) ->
  exists userSQL w' s', backupAndSync cfg (connOf cfg) dbs isMariaDB false (w, s, tr) = (None, (w', s', tr)) /\
    exported (connOf cfg) isMariaDB userSQL /\ backedUp cfg (fst (fst (UserSQL.ParseUserSQL userSQL))) dump (w_now w) dbs (w_fs w') (view s').
Proof using SL CL RL.
  intros dir rdir Hw Hs Hy Hret Hcl Hd Hn Hall Hlf Hr Hh Hdial Hrd Hclash Hold.
  destruct (export_ok (connOf cfg) isMariaDB w s tr Hw) as (userSQL & w0 & Hu & (Hfs0 & Hnow0 & Hw0) & Hexp).
  rewrite <- Hnow0 in Hy, Hold |- *. rewrite <- Hfs0 in Hd, Hn.
  destruct (prune_ok cfg userSQL dbs isMariaDB dump w0 Hw0 Hy Hret Hcl Hd Hn Hall Hlf) as (l & w1 & Er & Hw2 & Hd2 & Har).
  unfold backupAndSync. rewrite Hexp. rewrite (local_bind _ _ _ _ _ _ _ Er). cbv iota.
  set (ap := Retention.ApplyToDirs _ _ _) in *. destruct (ap w1) as [e w2] eqn:Ea. simpl in Hw2, Hd2, Har.
  rewrite (local_bind _ _ _ _ _ _ _ Ea).
  assert (exists w3, steady w2 w3 /\ forall A (k : unit -> XM A),
    (match e with Some e => local (Warn "log.warn.retention" [AErr e]) | None => mret tt end ≫= k) (w2, s, tr) = k tt (w3, s, tr)) as (w3 & (Hfs3 & _ & Hw3) & Hk).
  { destruct e as [e|]; eexists; (split; [|intros; reflexivity]); split_and!; done. }
  rewrite Hk. rewrite <- Hfs3 in Hd2, Har.
  destruct (Remote.Sync_spec cfg dir w3 s Hr Hh Hw3 Hs (Hdial _ _ Hs) Hd2 Hrd) as (w4 & s4 & Es & _ & _ & Hfs4 & Hm).
  { intros name d t _ Hz _. by apply Hclash. }
  rewrite (remotely_bind _ _ _ _ _ _ _ _ Es). exists userSQL, w4, s4. split_and!; [reflexivity|exact Hu|]. rewrite Hfs4.
  eapply mirrored_new; [done| |exact Hold|exact Har|exact Hm].
  rewrite Forall_forall in *. intros db Hin. split; [by apply Hall|by apply Hlf].
Qed.

End Healthy.

(** ** Samples *)

(** A server that is up from a tick on and has these databases. *)
Definition sampleExec (from : nat) (listing : gostring) : Exec := fun t cmd args _ =>
  let say out := mkExec out [] out None in
  match last args with
  | Some q => if q ==? str "SELECT 1" then (if (t <? from)%nat then mkExec [] [] [] (Some (ExitError 1)) else say [])
              else if q ==? str "SHOW DATABASES" then say listing
              else say "8.0"
  | None => say []
  end.

Definition sampleCfg : Config.Config :=
  Config.mkConfig 0 "localhost" "db1" 3306 [] [] [] true "mysqld_safe" "mysqladmin shutdown" [] [] 14 3 3 3 "/b" [] "admin@example.org" "mail.example.org" 587 [] [] [] []
    "/r" "backup.example" 22 "u" "secret" [] [] "key" [] "22:00".

Definition sampleSmtp : Email.Smtp := Email.Build_Smtp (fun _ _ => None) (fun _ => true).
Definition noMessages : Messages := (∅ : gmap gostring gostring).
Definition sampleStatfs (blocks : Z) : Disk.Statfs := fun _ _ => inr (blocks, 4096%Z).
Definition sampleState : @State treeSftp := (Remote.sampleWorld, mkTree Remote.emptyTree (Remote.day 17), []).
Definition oneDb : gostring := unlines [str "Database"; str "mysql"; str "shop"].
Definition noDb : gostring := unlines [str "Database"; str "mysql"].

Definition sampleBackup (from : nat) (listing : gostring) (blocks : Z) : option err * @State treeSftp :=
  @Backup NoFaults Remote.sampleBytes (sampleExec from listing) _ _ noMessages treeSftp Remote.sampleCrypto (Remote.rnd "s"%char) sampleSmtp
    noNet (fun _ => false) (fun _ => str "error") (sampleStatfs blocks) (inr (str "/")) sampleCfg sampleState.

(** The messages of a run. *)
Definition logged (st : @State treeSftp) : list gostring := l_key <$> w_log (fst (fst st)).

Lemma old_dirs name : Remote.emptyTree !! rpath "/r" name <> Some RDir.
Proof.
  assert (map_Forall (fun p n => n = RDir -> p = str "/r") Remote.emptyTree) as H by (apply (bool_decide_eq_true_1 _); vm_compute; reflexivity).
  intros E. apply (H _ _) in E; [|done]. by apply rpath_ne_dir in E.
Qed.

Lemma old_files p c t : Remote.emptyTree !! p = Some (RFile c t) -> Before t (Remote.day 16) = true.
Proof.
  assert (map_Forall (fun _ n => match n with RFile _ t => Before t (Remote.day 16) = true | RDir => True end) Remote.emptyTree) as H.
  { unfold Remote.emptyTree. repeat (apply map_Forall_insert_2; [vm_compute; done|]). apply map_Forall_empty. }
  intros E. exact (H _ _ E).
Qed.

(** ** Theorems *)

(** C22: Waiting for the server ends, with any amount of fuel from [pollFuel] on the same way,
    however long the single polls take, and succeeds exactly if the server answers a poll that
    begins before the time is over: the first begins at once, each next one when the one before
    it and the pause of one interval are over. *)
Theorem waitForMySQL_spec (EX : Exec) (NT : Net) conn timeout interval w :
  proper (w_now w) -> (0 < interval)%Z -> (0 <= timeout)%Z ->
  (fst (waitForMySQL conn timeout interval w) = true <->
     exists i, (begins interval (w_tick w) i < timeout)%Z /\ answers conn (w_tick w + i) = true) /\
  forall fuel, pollFuel timeout interval <= fuel ->
    poll fuel (Add (w_now w) timeout) interval (r ← Mysql.Reachable conn; mret match r with None => true | Some _ => false end) w
    = waitForMySQL conn timeout interval w.
Proof. intros Hw Hi Ht. apply poll_for_spec; [apply Reachable_answers|done..]. Qed.

(** C23: Whatever fails, a backup run that returns an error has handed over exactly one
    e-mail, an error report composed by [FormatErrorBody], and a run that returns none has
    not touched the mail server. *)
Theorem Backup_mails_iff_error (FT : Faults) (AB : ArchiveBytes) (EX : Exec) (SS : SliceSort) (MO : MapOrder) (MSG : Messages)
    (SF : Sftp) (CR : Crypto) (RD : Rand) (SM : Email.Smtp) (NT : Net) (DL : Deadline) (ET : ErrorText) (ST : Disk.Statfs) getwd cfg st :
  let r := Backup getwd cfg st in
  match fst r with
  | None => transcript (snd r) = transcript st
  | Some _ => mailed cfg (transcript st) (transcript (snd r))
  end.
Proof.
  pose proof (orderly_Backup getwd cfg st) as H. cbv zeta. by destruct (fst (Backup getwd cfg st)).
Qed.

(** With less than 100 MiB free, a run does nothing but report it: it returns the error
    with both numbers, and no file and nothing on the remote host has changed. *)
Theorem Backup_low_disk (FT : Faults) (AB : ArchiveBytes) (EX : Exec) (SS : SliceSort) (MO : MapOrder) (MSG : Messages)
    (SF : Sftp) (CR : Crypto) (RD : Rand) (SM : Email.Smtp) (NT : Net) (DL : Deadline) (ET : ErrorText) (ST : Disk.Statfs) getwd cfg w s tr avail :
  fst (Disk.Available getwd (Config.BackupDir cfg) w) = inr avail -> (avail < Disk.MinFreeBytes)%Z ->
  exists w' tr', Backup getwd cfg (w, s, tr) = (Some (Errorf "err.disk_space" [Itoa avail; Itoa Disk.MinFreeBytes] None), (w', s, tr'))
    /\ w_fs w' = w_fs w.
Proof.
  intros Ha Hlt. unfold Backup. pose proof (quiet_fs _ w (proj1 (Disk.Available_quiet getwd (Config.BackupDir cfg)))) as Hq.
  unfold mbind, XM_bind, local, GoPath.FromSlash. destruct (Disk.Available getwd (Config.BackupDir cfg) w) as [a w1]. simpl in Ha, Hq. subst a.
  rewrite (proj2 (Z.ltb_lt _ _) Hlt). unfold report, mbind, XM_bind.
  destruct (sendErrorEmail_frame cfg (T "email.subject.disk") (error_text (Errorf "err.disk_space" [Itoa avail; Itoa Disk.MinFreeBytes] None)) w1 s tr)
    as (w' & tr' & -> & Hfs). exists w', tr'. split; [done|congruence].
Qed.

(** C1: A backup run from end to end: with enough space, a server that answers, dumps that
    succeed, an existing backup directory and a host that accepts the login and holds
    nothing newer than now, the run returns no error and sends no e-mail; every database's
    archive, with its dump and the users the
    export gave for it, is in the backup directory after the pruning, and
    the host has a file of its name that carries its bytes. *)
Theorem Backup_end_to_end (FT : Faults) (AB : ArchiveBytes) (EX : Exec) (SS : SliceSort) (MO : MapOrder) (MSG : Messages)
    (SF : Sftp) (SL : SftpLaws SF) (CR : Crypto) (CL : CryptoLaws CR) (RD : Rand) (RL : RandLaws RD)
    (SM : Email.Smtp) (NT : Net) (DL : Deadline) (ET : ErrorText) (ST : Disk.Statfs) getwd cfg isMariaDB dbs dump w s tr :
  let dir := Config.BackupDir cfg in
  let rdir := Config.RemoteBackupDir cfg in
  fine w -> up s -> spaceOk -> serverOk (connOf cfg) isMariaDB dbs -> dbs <> [] ->
  (0 <= Year (w_now w) <= 9999)%Z -> (0 <= Config.RetainDaily cfg)%Z ->
  GoPath.Clean dir = dir -> w_fs w !! dir = Some NDir -> Backup.no_dirs dir (w_fs w) ->
  Forall (Backup.dumpable (connOf cfg) isMariaDB dump) dbs -> Forall (fun db => LF ∉ db) dbs ->
  rdir <> [] -> Config.RemoteSSHHost cfg <> [] -> (forall fs s, up s -> Remote.dials cfg fs s) ->
  view s !! rdir = Some RDir -> (forall name, Remote.isBackupZip name = true -> view s !! rpath rdir name <> Some RDir) ->
  (forall p c t, view s !! p = Some (RFile c t) -> Before t (w_now w) = true) ->
  exists userSQL w' s', Backup getwd cfg (w, s, tr) = (None, (w', s', tr)) /\
    exported (connOf cfg) isMariaDB userSQL /\ backedUp cfg (fst (fst (UserSQL.ParseUserSQL userSQL))) dump (w_now w) dbs (w_fs w') (view s').
Proof.
  intros dir rdir Hw Hs Hsp Hok Hne Hy Hret Hcl Hd Hn Hall Hlf Hr Hh Hdial Hrd Hclash Hold.
  destruct (Available_ok getwd dir w Hsp) as (avail & Ha & Hle).
  destruct (Disk.Available_quiet getwd dir) as [Hq Hf]. pose proof (steady_quiet _ w Hq Hf Hw) as Hs1.
  unfold Backup, GoPath.FromSlash. fold dir. destruct (Disk.Available getwd dir w) as [a w1] eqn:Ea. simpl in Ha, Hs1. subst a.
  rewrite (local_bind _ _ _ _ _ _ _ Ea), (proj2 (Z.ltb_ge _ _) Hle). cbv zeta.
  destruct (ensureRunning_ok cfg (connOf cfg) isMariaDB dbs w1 s tr Hok (proj2 (proj2 Hs1))) as (w2 & E2 & Hs2).
  destruct (backupServer_ok cfg (connOf cfg) isMariaDB dbs false w2 s tr Hok Hne (proj2 (proj2 Hs2))) as (w3 & E3 & Hs3).
  unfold mbind, XM_bind. rewrite E2, E3. destruct (steady_trans _ _ _ Hs1 (steady_trans _ _ _ Hs2 Hs3)) as (Hfs & Hnow & Hw3).
  rewrite <- Hnow in Hy, Hold |- *. rewrite <- Hfs in Hd, Hn. by apply backupAndSync_ok.
Qed.

(** A server the run has started is stopped at the end of a full run, but a run that
    finds no databases returns without an error and leaves it running. *)
Theorem started_server_left_running :
  let full := sampleBackup 4 oneDb 1000000 in
  let none := sampleBackup 4 noDb 1000000 in
  fst full = None /\ str "log.msg.mysql_started" ∈ logged (snd full) /\ str "log.msg.mysql_stopping" ∈ logged (snd full) /\
  fst none = None /\ str "log.msg.mysql_started" ∈ logged (snd none) /\ str "log.msg.mysql_stopping" ∉ logged (snd none).
Proof. cbv zeta. split_and!; apply (bool_decide_eq_true_1 _); vm_compute; reflexivity. Qed.

(** ** Witnesses *)

(** Every poll takes a second: with a pause of two there are twenty in a minute. *)
Definition slowNet : Net := mkNet (fun _ _ _ => false) (fun _ => Z.to_N Second).

Lemma waitForMySQL_spec_witness :
  fst (@waitForMySQL (sampleExec 20 []) slowNet (connOf sampleCfg) (60 * Second) (2 * Second) Remote.sampleWorld) = false /\
  fst (@waitForMySQL (sampleExec 19 []) slowNet (connOf sampleCfg) (60 * Second) (2 * Second) Remote.sampleWorld) = true.
Proof.
  assert (proper (w_now Remote.sampleWorld)) as Hp by (vm_compute; split; congruence).
  split.
  - apply not_true_is_false. intros H.
    apply (proj1 (waitForMySQL_spec (sampleExec 20 []) slowNet (connOf sampleCfg) (60 * Second) (2 * Second) Remote.sampleWorld Hp eq_refl ltac:(done))) in H as (i & Hb & Ha).
    rewrite (begins_const _ (Z.to_N Second)) in Hb by done. unfold Second in Hb. assert (i < 20) as Hi by lia.
    assert (forallb (fun i => negb (@answers (sampleExec 20 []) (connOf sampleCfg) i)) (seq 0 20) = true) as Hn by (vm_compute; reflexivity).
    rewrite forallb_forall in Hn. specialize (Hn i). rewrite in_seq in Hn. change (w_tick Remote.sampleWorld + i) with i in Ha. rewrite Ha in Hn. discriminate Hn. lia.
  - apply (waitForMySQL_spec (sampleExec 19 []) slowNet (connOf sampleCfg) (60 * Second) (2 * Second) Remote.sampleWorld Hp eq_refl ltac:(done)).
    exists 19. rewrite (begins_const _ (Z.to_N Second)) by done. split; [reflexivity|vm_compute; reflexivity].
Defined.

Lemma Backup_low_disk_witness :
  exists st', sampleBackup 0 oneDb 10 = (Some (Errorf "err.disk_space" [str "40960"; Itoa Disk.MinFreeBytes] None), st').
Proof.
  destruct (Backup_low_disk NoFaults Remote.sampleBytes (sampleExec 0 oneDb) _ _ noMessages treeSftp Remote.sampleCrypto (Remote.rnd "s"%char) sampleSmtp
    noNet (fun _ => false) (fun _ => str "error") (sampleStatfs 10) (inr (str "/")) sampleCfg Remote.sampleWorld
    (mkTree Remote.emptyTree (Remote.day 17)) [] 40960%Z) as (w' & tr' & E & _).
  - vm_compute. reflexivity.
  - vm_compute. reflexivity.
  - eexists. exact E.
Defined.

Lemma Backup_end_to_end_witness :
  exists st', sampleBackup 0 oneDb 1000000 = (None, st') /\ exists c t, tr_files (snd (fst st')) !! str "/r/mysql_backup_20240116_db1_shop.zip" = Some (RFile c t).
Proof.
  destruct (Backup_end_to_end NoFaults Remote.sampleBytes (sampleExec 0 oneDb) _ _ noMessages treeSftp treeLaws Remote.sampleCrypto Remote.sampleCrypto_laws
    (Remote.rnd "s"%char) (Remote.sampleRand_laws "s"%char) sampleSmtp noNet (fun _ => false) (fun _ => str "error")
    (sampleStatfs 1000000) (inr (str "/")) sampleCfg false [str "shop"] (fun _ => mkExec (str "8.0") [] (str "8.0") None) Remote.sampleWorld
    (mkTree Remote.emptyTree (Remote.day 17)) []) as (u & w' & s' & E & _ & Hb).
  - apply Remote.fine_none.
  - exact I.
  - intros t p. exists 1000000%Z, 4096%Z. split; [reflexivity|apply (bool_decide_eq_true_1 _); vm_compute; reflexivity].
  - intros t. split_and!; vm_compute; reflexivity.
  - discriminate.
  - vm_compute. split; discriminate.
  - vm_compute. discriminate.
  - reflexivity.
  - reflexivity.
  - apply Backup.no_dirs_check. vm_compute. reflexivity.
  - repeat constructor; first [apply (bool_decide_eq_true_1 _); reflexivity | reflexivity].
  - repeat constructor. apply (bool_decide_eq_true_1 _). reflexivity.
  - discriminate.
  - discriminate.
  - intros fs s _ w Hw Hfs. reflexivity.
  - reflexivity.
  - intros name _ Hv. exact (old_dirs _ Hv).
  - intros p c t Hv. exact (old_files _ _ _ Hv).
  - destruct (Hb (str "shop")) as (d & _ & _ & c & t & _ & Hr); [left|]. eexists. split; [exact E|]. exists c, t. exact Hr.
Defined.

End Run.
