(* ===== verification/Main.v ===== *)
(** * main: the command line, the actions and their exit codes.

    The state is that of a backup run, the working directory and the lines written to the
    terminal, by key and arguments.  [os.Exit] ends a computation at once; the exit code
    of a run that returns is 0.  The target is Linux. *)

From S2P Require Import Prelude GoStrings Regexp GoTime GoPath GoRuntime World CrashLogic Polling I18n Config Mysql Retention UserSQL Backup Schedule Restore Reinit RemoteHost Remote Email Logger Run.
Import GoStrings GoTime GoRuntime World CrashLogic Polling I18n RemoteHost.

Module Main.

(** ** Flags *)

Record Flags := mkFlags {
  configFlag : gostring;
  v : bool;
  verboseFlag : bool;
  init : bool;
  cleanconfig : bool;
  remove : bool;
  status : bool;
  backup : bool;
  restore : bool;
  restorefull : bool;
  getfile : gostring
}.

Definition noFlags : Flags := mkFlags [] false false false false false false false false false [].

(** Setting a boolean flag. *)
Definition setBool (name : gostring) (b : bool) (f : Flags) : option Flags :=
  if name ==? str "v" then Some (mkFlags (configFlag f) b (verboseFlag f) (init f) (cleanconfig f) (remove f) (status f) (backup f) (restore f) (restorefull f) (getfile f))
  else if name ==? str "verbose" then Some (mkFlags (configFlag f) (v f) b (init f) (cleanconfig f) (remove f) (status f) (backup f) (restore f) (restorefull f) (getfile f))
  else if name ==? str "init" then Some (mkFlags (configFlag f) (v f) (verboseFlag f) b (cleanconfig f) (remove f) (status f) (backup f) (restore f) (restorefull f) (getfile f))
  else if name ==? str "cleanconfig" then Some (mkFlags (configFlag f) (v f) (verboseFlag f) (init f) b (remove f) (status f) (backup f) (restore f) (restorefull f) (getfile f))
  else if name ==? str "remove" then Some (mkFlags (configFlag f) (v f) (verboseFlag f) (init f) (cleanconfig f) b (status f) (backup f) (restore f) (restorefull f) (getfile f))
  else if name ==? str "status" then Some (mkFlags (configFlag f) (v f) (verboseFlag f) (init f) (cleanconfig f) (remove f) b (backup f) (restore f) (restorefull f) (getfile f))
  else if name ==? str "backup" then Some (mkFlags (configFlag f) (v f) (verboseFlag f) (init f) (cleanconfig f) (remove f) (status f) b (restore f) (restorefull f) (getfile f))
  else if name ==? str "restore" then Some (mkFlags (configFlag f) (v f) (verboseFlag f) (init f) (cleanconfig f) (remove f) (status f) (backup f) b (restorefull f) (getfile f))
  else if name ==? str "restorefull" then Some (mkFlags (configFlag f) (v f) (verboseFlag f) (init f) (cleanconfig f) (remove f) (status f) (backup f) (restore f) b (getfile f))
  else None.

(** Setting a flag with a text. *)
Definition setText (name value : gostring) (f : Flags) : option Flags :=
  if name ==? str "config" then Some (mkFlags value (v f) (verboseFlag f) (init f) (cleanconfig f) (remove f) (status f) (backup f) (restore f) (restorefull f) (getfile f))
  else if name ==? str "getfile" then Some (mkFlags (configFlag f) (v f) (verboseFlag f) (init f) (cleanconfig f) (remove f) (status f) (backup f) (restore f) (restorefull f) value)
  else None.

(** [strconv.ParseBool] *)
Definition ParseBool (s : gostring) : option bool :=
  if bool_decide (s ∈ [str "1"; str "t"; str "T"; str "true"; str "TRUE"; str "True"]) then Some true
  else if bool_decide (s ∈ [str "0"; str "f"; str "F"; str "false"; str "FALSE"; str "False"]) then Some false
  else None.

(** How parsing ends: with flags and the other arguments, with a wrong flag, or with a
    question for help. *)
Inductive Parsed :=
| Ok (f : Flags) (args : list gostring)
| BadFlag
| Help.

(** The name of a flag without its one or two dashes; [None] for an argument that is no flag. *)
Definition flagName (s : gostring) : option gostring :=
  match s with
  | c :: d :: s' => if c ==? "-"%char then Some (if d ==? "-"%char then s' else d :: s') else None
  | _ => None
  end.

(** What stands before and after the first equals sign, which is not the first character. *)
Definition flagValue (name : gostring) : gostring * option gostring :=
  match SplitN name "=" 2 with
  | n :: value :: _ => (n, Some value)
  | _ => (name, None)
  end.

(** [flag.Parse] with the flags of this program. *)
Fixpoint parseFlags (f : Flags) (args : list gostring) : Parsed :=
  match args with
  | [] => Ok f []
  | s :: args' =>
      if s ==? str "--" then Ok f args'
      else match flagName s with
      | None => Ok f args
      | Some name0 =>
          if (name0 ==? []) || HasPrefix name0 "-" || HasPrefix name0 "=" then BadFlag
          else
            let '(name, value) := flagValue name0 in
            match setBool name true f, value with
            | Some f', None => parseFlags f' args'
            | Some _, Some value =>
                match ParseBool value with
                | None => BadFlag
                | Some b => match setBool name b f with Some f' => parseFlags f' args' | None => BadFlag end
                end
            | None, _ =>
                match setText name [] f with
                | None => if (name ==? str "help") || (name ==? str "h") then Help else BadFlag
                | Some _ =>
                    match value with
                    | Some value => match setText name value f with Some f' => parseFlags f' args' | None => BadFlag end
                    | None =>
                        match args' with
                        | [] => BadFlag
                        | value :: args'' => match setText name value f with Some f' => parseFlags f' args'' | None => BadFlag end
                        end
                    end
                end
            end
      end
  end.

(** ** Sizes *)

(** [float64(n)] of an integer that is not negative: 53 bits, half to even. *)
Definition f64 (n : Z) : Z :=
  let e := (Z.log2 n - 52)%Z in
  if (e <=? 0)%Z then n
  else
    let u := (2 ^ e)%Z in
    let q := (n / u)%Z in
    let r := (2 * (n mod u))%Z in
    (u * (if (r <? u) || ((r =? u) && Z.even q) then q else q + 1))%Z.

(** [%.1f] of [a / b]: half to even. *)
Definition fixed1 (a b : Z) : gostring :=
  let q := (10 * a / b)%Z in
  let r := (2 * (10 * a mod b))%Z in
  let t := if ((r <? b) || ((r =? b) && Z.even q))%Z then q else (q + 1)%Z in
  Itoa (t / 10) ++ "." ++ Itoa (t mod 10).

(** [v := float64(n) / unit], with one decimal below 10. *)
Definition withUnit (n unit : Z) (suffix : gostring) : gostring :=
  let a := f64 n in
  if (a <? 10 * unit)%Z then fixed1 a unit ++ suffix else Itoa (a / unit) ++ suffix.

Definition formatSize (n : Z) : gostring :=
  let k := 1024%Z in
  if (n <? k)%Z then Itoa n
  else if (n <? k * k)%Z then withUnit n k "K"
  else if (n <? k * k * k)%Z then withUnit n (k * k) "M"
  else withUnit n (k * k * k) "T".

(** ** Patterns *)

(** The characters looked for are ASCII, so that the loop over code points finds them
    exactly where the bytes are. *)
Definition containsPath (s : gostring) : bool :=
  HasPrefix s ".." || bool_decide (GoPath.slash ∈ s) || bool_decide (backslash ∈ s).

Definition validGetfilePattern (s : gostring) : bool :=
  if (s ==? []) || negb (GoPath.Base s ==? s) then false else negb (containsPath s).

(** ** The terminal *)

Inductive Stream := Stdout | Stderr.

(** A translated message with its arguments, a formatted row, or the row of sums with a
    translated message in its last column. *)
Inductive Line :=
| Msg (s : Stream) (key : gostring) (args : list Arg)
| Row (text : gostring)
| SumRow (text key : gostring) (count : Z).

(** [%-*s] and [%*s] count characters. *)
Definition padRight (w : nat) (s : gostring) : gostring := s ++ replicate (w - length (Regexp.runes s)) " "%char.
Definition padLeft (w : nat) (s : gostring) : gostring := replicate (w - length (Regexp.runes s)) " "%char ++ s.

(** [t.Format("2006-01-02 15:04:05")] *)
Definition FormatStamp (t : Time) : gostring :=
  let s := (t_nsec t / Second)%Z in
  appendInt (Year t) 4 ++ "-" ++ appendInt (Month t) 2 ++ "-" ++ appendInt (Day t) 2 ++ " "
  ++ appendInt (s / 3600) 2 ++ ":" ++ appendInt (s / 60 mod 60) 2 ++ ":" ++ appendInt (s mod 60) 2.

Definition ellipsis : gostring := [chr 226; chr 128; chr 166].

Definition shortName (name : gostring) : gostring :=
  if bool_decide (60 < length name)%nat then take 59 name ++ ellipsis else name.

Definition fileRow {MSG : Messages} (f : Retention.BackupFile) : gostring :=
  padRight 19 (FormatStamp (Retention.ModTime f)) ++ " " ++ padLeft 6 (formatSize (Retention.Size f)) ++ " "
  ++ padRight 60 (shortName (GoPath.Base (Retention.Path f))) ++ " " ++ padRight 12 ("(" ++ Retention.Classify (Retention.BDate f) ++ ")").

(** An int64. *)
Definition wrap64 (n : Z) : Z := ((n + 2 ^ 63) mod 2 ^ 64 - 2 ^ 63)%Z.

Definition totalSize (files : list Retention.BackupFile) : Z := foldl (fun t f => wrap64 (t + Retention.Size f)) 0%Z files.

(** ** The program *)

(** What the process was started with. *)
Record Proc := mkProc { p_env : Config.ProcEnv; p_args : list gostring }.

Section Program.
Context {FT : Faults} {AB : ArchiveBytes} {EX : Exec} {SS : SliceSort} {MO : MapOrder} {MSG : Messages} {CT : Schedule.Crontab} {DR : Restore.Drain}.
Context {SF : Sftp} {CR : Crypto} {RD : Rand} {SM : Email.Smtp} {NT : Net} {DL : Run.Deadline} {ET : ErrorText} {ST : Disk.Statfs}.
Context (sconfig_LoadConfig : Config.Config -> Z -> gostring -> bool -> bool -> err + Config.Config) (Version : gostring) (proc : Proc).

(** The state of a run, the working directory, the terminal. *)
Record Sys := mkSys { s_run : Run.State; s_wd : err + gostring; s_out : list Line }.

(** A program part ends the process with a code, or goes on. *)
Definition P (A : Type) : Type := Sys -> (Z + A) * Sys.

#[global] Instance P_ret : MRet P := fun A x s => (inr x, s).
#[global] Instance P_bind : MBind P := fun A B f m s =>
  match m s with
  | (inl code, s') => (inl code, s')
  | (inr x, s') => f x s'
  end.

Definition Exit {A : Type} (code : Z) : P A := fun s => (inl code, s).
Definition say (l : Line) : P unit := fun s => (inr tt, mkSys (s_run s) (s_wd s) (s_out s ++ [l])).
Definition says (ls : list Line) : P unit := fun s => (inr tt, mkSys (s_run s) (s_wd s) (s_out s ++ ls)).
Definition in_run {A : Type} (m : Run.XM A) : P A := fun s => let '(x, st) := m (s_run s) in (inr x, mkSys st (s_wd s) (s_out s)).
Definition act {A : Type} (m : M A) : P A := in_run (Run.local m).
Definition getwd : P (err + gostring) := fun s => (inr (s_wd s), s).
Definition abs (p : gostring) : P (err + gostring) := fun s => (inr (Disk.Abs (s_wd s) p), s).

(** The process's answers with the working directory of now. *)
Definition env : P Config.ProcEnv :=
  fun s => (inr (Config.mkEnv (Config.Executable (p_env proc)) (s_wd s) (Config.UserHomeDir (p_env proc))), s).

(** [os.Chdir], whose error is dropped. *)
Definition Chdir (d : gostring) : P unit := fun s =>
  let '(r, st) := Run.local (Stat d) (s_run s) in
  (inr tt, mkSys st (match r with inr NDir => inr d | _ => s_wd s end) (s_out s)).

Definition invokedDirectory : P gostring :=
  match p_args proc with
  | [] => mret []
  | arg0 :: _ =>
      if arg0 ==? [] then mret []
      else if negb (Contains arg0 "/") then mret []
      else
        a ← abs arg0;
        mret match a with inl _ => [] | inr abs => GoPath.Dir abs end
  end.

Definition printUsage : P unit :=
  says ((fun key => Msg Stderr key []) <$> [str "usage.title"; str "usage.usage"; str "usage.one_action"; str "usage.config"; str "usage.config_desc";
    str "usage.verbose"; str "usage.verbose_desc"; str "usage.init"; str "usage.init_desc"; str "usage.cleanconfig"; str "usage.cleanconfig_desc";
    str "usage.remove"; str "usage.remove_desc"; str "usage.status"; str "usage.status_desc"; str "usage.backup"; str "usage.backup_desc";
    str "usage.restore"; str "usage.restore_desc"; str "usage.restorefull"; str "usage.restorefull_desc"; str "usage.getfile";
    str "usage.getfile_desc"; str "usage.getfile_wildcards"; str "usage.help"; str "usage.help_desc"]).

Definition exeName : gostring :=
  match Config.Executable (p_env proc) with inr exe => exe | inl _ => default [] (head (p_args proc)) end.

Definition logStartup : P unit :=
  _ ← act (Info "log.start.executable" [AStr exeName]);
  _ ← act (Info "log.start.version" [AStr Version]);
  act (Info "log.start.arguments" [AStrs (tail (p_args proc))]).

Definition printStartupHeader (configPath : gostring) : P unit :=
  _ ← says [Msg Stderr "header.version" [AStr Version]; Msg Stderr "header.executable" [AStr exeName]; Msg Stderr "header.arguments" [AStrs (tail (p_args proc))]];
  if configPath ==? [] then mret tt
  else
    a ← abs configPath;
    say (Msg Stderr "section.config_file" [AStr (match a with inl _ => configPath | inr p => p end)]).

Definition defaultLogPath (cfg : Config.Config) : gostring :=
  let logPath := match Config.Executable (p_env proc) with
                 | inr exe => if GoPath.Dir exe ==? [] then [] else GoPath.Join (GoPath.Dir exe) "mysqlbackup.log"
                 | inl _ => []
                 end in
  if logPath ==? [] then GoPath.Join (Config.BackupDir cfg) "mysqlbackup.log" else logPath.

Definition loadConfigAndLog (path : gostring) (verbose : bool) : P (err + Config.Config) :=
  match Config.Load sconfig_LoadConfig path false with
  | inl e => mret (inl e)
  | inr cfg =>
      let logPath := if Config.LogFilename cfg ==? [] then defaultLogPath cfg else Config.LogFilename cfg in
      l ← act (Logger.New logPath);
      match l with
      | inl e => mret (inl e)
      | inr _ =>
          a ← abs logPath;
          _ ← match a with inr absLog => say (Msg Stderr "section.log_file" [AStr absLog]) | inl _ => mret tt end;
          _ ← logStartup;
          mret (inr cfg)
      end
  end.

(** [fmt.Fprintf(os.Stderr, ...); os.Exit(1)] *)
Definition fail {A : Type} (key : gostring) (args : list Arg) : P A := _ ← say (Msg Stderr key args); Exit 1.

(** The header, the configuration and the log of an action. *)
Definition withConfig {A : Type} (path : gostring) (verbose : bool) (body : Config.Config -> P A) : P A :=
  r ← loadConfigAndLog path verbose;
  match r with
  | inl e => fail "error.config" [AErr e]
  | inr cfg => body cfg
  end.

Definition runInit (path : gostring) (verbose : bool) : P unit :=
  _ ← printStartupHeader path;
  withConfig path verbose (fun cfg =>
    en ← env;
    e ← act (Schedule.EnsureInstalled en cfg path);
    match e with
    | Some e => fail "error.init" [AErr e]
    | None => say (Msg Stdout "msg.jobs_created" [AStr path])
    end).

Definition runCleanConfig (path : gostring) (verbose : bool) : P unit :=
  _ ← printStartupHeader path;
  _ ← (if verbose then say (Msg Stderr "log.debug.loadclean" []) else mret tt);
  match Config.LoadClean sconfig_LoadConfig path verbose with
  | Some e => fail "error.cleanconfig" [AErr e]
  | None => say (Msg Stdout "msg.cleanconfig_done" [AStr path])
  end.

(** An action without a logger: its messages are dropped. *)
Definition unlogged {A : Type} (m : M A) : M A := fun w =>
  let '(x, w') := m w in (x, mkWorld (w_fs w') (w_now w') (w_tick w') (w_log w) (w_hist w')).

Definition opened (l : err + Logger.Logger) : bool := match l with inr _ => true | inl _ => false end.

Definition runRemove (path : gostring) (verbose : bool) : P unit :=
  _ ← printStartupHeader path;
  log ← match Config.Load sconfig_LoadConfig path false with
        | inr cfg =>
            let logPath := if Config.LogFilename cfg ==? [] then GoPath.Join (Config.BackupDir cfg) "mysqlbackup.log" else Config.LogFilename cfg in
            l ← act (Logger.New logPath); mret (opened l)
        | inl _ => mret false
        end;
  log ← (if (log : bool) then mret true else l ← act (Logger.New "mysqlbackup.log"); mret (opened l));
  _ ← (if (log : bool) then logStartup else mret tt);
  en ← env;
  e ← act (if (log : bool) then Schedule.Uninstall en else unlogged (Schedule.Uninstall en));
  match e with
  | Some e => fail "error.remove" [AErr e]
  | None => say (Msg Stdout "msg.jobs_removed" [])
  end.

Definition ensureSchedule (cfg : Config.Config) (path : gostring) : P unit :=
  en ← env;
  e ← act (Schedule.EnsureInstalled en cfg path);
  match e with
  | Some e => act (Warn "log.warn.schedule_ensure" [AErr e])
  | None => mret tt
  end.

Definition printBackups (cfg : Config.Config) : P unit :=
  r ← act (@Retention.ListBackups FT byte_sizes SS (Config.BackupDir cfg));
  match r with
  | inl e => say (Msg Stderr "section.backup_dir_error" [AErr e])
  | inr [] => say (Msg Stdout "msg.no_backups" [])
  | inr files =>
      _ ← says ((fun f => Row (fileRow f)) <$> files);
      say (SumRow (padRight 19 (T "status.summe") ++ " " ++ padLeft 6 (formatSize (totalSize files)) ++ " ")
             "msg.files_count" (Z.of_nat (length files)))
  end.

Definition runStatus (path : gostring) (verbose : bool) : P unit :=
  _ ← printStartupHeader path;
  withConfig path verbose (fun cfg =>
    _ ← ensureSchedule cfg path;
    _ ← says [Msg Stdout "section.config" []; Msg Stdout "section.config_file" [AStr path];
              Msg Stdout "section.mysql" [AStr (Config.MySQLHost cfg); AInt (Config.MySQLPort cfg)]; Msg Stdout "section.backup_dir" [AStr (Config.BackupDir cfg)];
              Msg Stdout "section.retention" (AInt <$> [Config.RetainDaily cfg; Config.RetainWeekly cfg; Config.RetainMonthly cfg; Config.RetainYearly cfg]);
              Msg Stdout "section.start_time" [AStr (Config.StartTime cfg)]];
    _ ← (if negb (Config.RemoteBackupDir cfg ==? []) && negb (Config.RemoteSSHHost cfg ==? [])
         then say (Msg Stdout "section.remote" [AStr (Config.RemoteBackupDir cfg); AStr (Config.RemoteSSHHost cfg)]) else mret tt);
    _ ← says [Row []; Msg Stdout "section.job" []];
    en ← env;
    st ← act (Schedule.Status en cfg path);
    _ ← (let '(key, args) := st in if key ==? [] then say (Msg Stdout "msg.no_job" []) else say (Msg Stdout key args));
    _ ← says [Row []; Msg Stdout "section.backups" []];
    printBackups cfg).

Definition runGetfile (path filename : gostring) (verbose : bool) : P unit :=
  _ ← printStartupHeader path;
  if negb (validGetfilePattern filename) then fail "error.getfile_no_path" []
  else withConfig path verbose (fun cfg =>
    cwd ← getwd;
    match cwd with
    | inl e => fail "error.workdir" [AErr e]
    | inr cwd =>
        r ← in_run (Run.remotely (Remote.GetFile cfg filename cwd));
        match r with
        | (_, Some e) => fail "error.getfile" [AErr e]
        | (saved, None) => says ((fun p => Msg Stdout "msg.saved" [AStr p]) <$> saved)
        end
    end).

Definition runBackup (path : gostring) (verbose : bool) : P unit :=
  _ ← printStartupHeader path;
  withConfig path verbose (fun cfg =>
    _ ← ensureSchedule cfg path;
    wd ← getwd;
    e ← in_run (Run.Backup wd cfg);
    match e with
    | Some e => _ ← act (log_at LError "log.error.backup_failed" [AErr e]); Exit 1
    | None => act (Info "log.msg.backup_ok" [])
    end).

Definition restoreConn (cfg : Config.Config) (full : bool) : Mysql.Conn :=
  Mysql.mkConn (Config.MySQLHost cfg) (Config.MySQLPort cfg) "root" (if full then [] else Config.RootPassword cfg) (Config.MySQLBin cfg).

(** What follows the configuration and the log. *)
Definition restoreAction (cfg : Config.Config) (dateStr : gostring) (full : bool) : P unit :=
  let d := TrimSpace dateStr in
  let beforeDate := if d ==? [] then Some None else Some <$> ParseDate d in
  match beforeDate with
  | None => fail "error.restoredate_format" [AErr (Errorf "parsing time" [d] None)]
  | Some beforeDate =>
      r ← act (@Retention.LastBackupBefore FT byte_sizes SS (Config.BackupDir cfg) beforeDate);
      match r with
      | inl e => fail "error.restore_select" [AErr e]
      | inr [] => fail "error.restore_no_backup_found" []
      | inr files =>
          e ← (if full then act (Reinit.FullReinit cfg) else mret None);
          match e with
          | Some e => fail "error.restorefull" [AErr e]
          | None =>
              e ← act (Restore.RestoreFromZips (restoreConn cfg full) files);
              match e with
              | Some e => fail "error.restore" [AErr e]
              | None => act (Info "log.msg.restore_ok" [])
              end
          end
      end
  end.

Definition runRestore (path dateStr : gostring) (full verbose : bool) : P unit :=
  _ ← printStartupHeader path;
  withConfig path verbose (fun cfg => restoreAction cfg dateStr full).

(** The number of actions asked for. *)
Definition actions (f : Flags) : nat :=
  length (filter (eq true) [init f; cleanconfig f; remove f; status f; backup f; restore f; restorefull f; negb (getfile f ==? [])]).

Definition dispatch (f : Flags) (path dateArg : gostring) : P unit :=
  let verbose := v f || verboseFlag f in
  if init f then runInit path verbose
  else if cleanconfig f then runCleanConfig path verbose
  else if remove f then runRemove path verbose
  else if status f then runStatus path verbose
  else if backup f then runBackup path verbose
  else if restore f then runRestore path dateArg false verbose
  else if restorefull f then runRestore path dateArg true verbose
  else if negb (getfile f ==? []) then runGetfile path (getfile f) verbose
  else mret tt.

(** Header and usage, and what is wrong. *)
Definition refuse (path key : gostring) : P unit :=
  _ ← printStartupHeader path;
  _ ← printUsage;
  fail key [].

(** The path of the configuration; its directory becomes the working directory. *)
Definition findConfig (f : Flags) : P gostring :=
  invokedDir ← invokedDirectory;
  en ← env;
  path ← act (Config.ConfigPath en (configFlag f) invokedDir);
  _ ← (if path ==? [] then mret tt
       else a ← abs path;
            match a with
            | inl _ => mret tt
            | inr p => if GoPath.Dir p ==? [] then mret tt else Chdir (GoPath.Dir p)
            end);
  mret path.

(** One action per call; a date only for a restore. *)
Definition checkArgs (f : Flags) (args : list gostring) (path : gostring) : P unit :=
  if bool_decide (1 < length args) then refuse path "error.restore_too_many_args"
  else if bool_decide (length args = 1) && negb (restore f) && negb (restorefull f) then refuse path "error.restoredate_requires_restore"
  else
    let dateArg := match args with a :: _ => TrimSpace a | [] => [] end in
    if bool_decide (actions f = 0) then (_ ← printStartupHeader path; _ ← printUsage; Exit 0)
    else if bool_decide (1 < actions f) then refuse path "error.one_flag"
    else dispatch f path dateArg.

(** From the parsed flags on. *)
Definition proceed (f : Flags) (args : list gostring) : P unit := path ← findConfig f; checkArgs f args path.

Definition main : P unit :=
  match parseFlags noFlags (tail (p_args proc)) with
  | BadFlag => _ ← printUsage; Exit 2
  | Help => _ ← printUsage; Exit 0
  | Ok f args => proceed f args
  end.

(** The process's exit code and its final state. *)
Definition exitCode (s : Sys) : Z := match fst (main s) with inl code => code | inr _ => 0%Z end.

End Program.

(** ** Lemmas *)

Section Harmless.
Context {FT : Faults} {AB : ArchiveBytes} {EX : Exec} {SS : SliceSort} {MO : MapOrder} {MSG : Messages} {CT : Schedule.Crontab} {DR : Restore.Drain}.
Context {SF : Sftp} {CR : Crypto} {RD : Rand} {SM : Email.Smtp} {NT : Net} {DL : Run.Deadline} {ET : ErrorText} {ST : Disk.Statfs}.
Context (Version : gostring) (proc : Proc).

Definition files_of (s : Sys) : files := w_fs (fst (fst (s_run s))).
Definition host_of (s : Sys) : srv := snd (fst (s_run s)).
Definition mail_of (s : Sys) : list Email.SmtpOp := snd (s_run s).

(** The same local files, remote host and SMTP transcript. *)
Definition untouched (s s' : Sys) : Prop := files_of s' = files_of s /\ host_of s' = host_of s /\ mail_of s' = mail_of s.

#[global] Instance untouched_preorder : PreOrder untouched.
Proof. split; [by intros s|]. intros a b c (? & ? & ?) (? & ? & ?). split_and!; congruence. Qed.

Definition harmless {A : Type} (m : P A) : Prop := forall s, untouched s (snd (m s)).

Lemma harmless_ret {A : Type} (x : A) : harmless (mret x).
Proof using Type. by intros s. Qed.

Lemma harmless_exit {A : Type} n : harmless (@Exit SF A n).
Proof using Type. by intros s. Qed.

Lemma harmless_bind {A B : Type} (m : P A) (f : A -> P B) : harmless m -> (forall x, harmless (f x)) -> harmless (m ≫= f).
Proof using Type.
  intros Hm Hf s. unfold mbind, P_bind. specialize (Hm s). destruct (m s) as [[code|x] s1]; [done|]. etrans; [exact Hm|apply Hf].
Qed.

Lemma harmless_says ls : harmless (says ls).
Proof using Type. by intros s. Qed.

Lemma harmless_say l : harmless (say l).
Proof using Type. by intros s. Qed.

Lemma harmless_act {A : Type} (m : M A) : quiet m -> harmless (act m).
Proof using Type.
  intros Hq [[[w s] tr] wd out]. unfold act, in_run, Run.local. cbn [s_run]. pose proof (quiet_fs m w Hq) as H.
  destruct (m w) as [x w']. split_and!; [exact H|done|done].
Qed.

Lemma harmless_getwd : harmless getwd.
Proof using Type. by intros s. Qed.

Lemma harmless_abs p : harmless (abs p).
Proof using Type. by intros s. Qed.

Lemma harmless_env : harmless (env proc).
Proof using Type. by intros s. Qed.

Lemma harmless_Chdir d : harmless (Chdir d).
Proof using Type.
  intros [[[w s] tr] wd out]. unfold Chdir, Run.local. cbn [s_run]. pose proof (quiet_fs (Stat d) w (quiet_Stat d)) as H.
  destruct (Stat d w) as [x w']. split_and!; [exact H|done|done].
Qed.

Lemma quiet_ConfigPath en flag dir : quiet (Config.ConfigPath en flag dir).
Proof using Type. unfold Config.ConfigPath. solve_quiet. Qed.

End Harmless.

#[export] Hint Resolve harmless_ret harmless_exit harmless_says harmless_say harmless_getwd harmless_abs harmless_env harmless_Chdir : main.
#[export] Hint Resolve quiet_ConfigPath : go.

Ltac solve_harmless :=
  repeat (intros; cbv zeta; first [solve [eauto 2 with main] | apply harmless_act; solve [eauto 2 with go | apply quiet_log] | apply harmless_bind | case_match]).

Section Refusals.
Context {FT : Faults} {AB : ArchiveBytes} {EX : Exec} {SS : SliceSort} {MO : MapOrder} {MSG : Messages} {CT : Schedule.Crontab} {DR : Restore.Drain}.
Context {SF : Sftp} {CR : Crypto} {RD : Rand} {SM : Email.Smtp} {NT : Net} {DL : Run.Deadline} {ET : ErrorText} {ST : Disk.Statfs}.
Context (sconfig : Config.Config -> Z -> gostring -> bool -> bool -> err + Config.Config) (Version : gostring) (proc : Proc).

Lemma harmless_header path : harmless (printStartupHeader Version proc path).
Proof using Type. unfold printStartupHeader. solve_harmless. Qed.

(** A part that always goes on. *)
Definition goes_on {A : Type} (m : P A) : Prop := forall s, exists x s', m s = (inr x, s').

Lemma goes_on_bind {A B : Type} (m : P A) (f : A -> P B) : goes_on m -> (forall x, goes_on (f x)) -> goes_on (m ≫= f).
Proof using Type. intros Hm Hf s. unfold mbind, P_bind. destruct (Hm s) as (x & s1 & ->). apply Hf. Qed.

Lemma goes_on_act {A : Type} (m : M A) : goes_on (act m).
Proof using Type. intros [[[w s] tr] wd out]. unfold act, in_run, Run.local. cbn [s_run]. destruct (m w). by eexists _, _. Qed.

Lemma goes_on_Chdir d : goes_on (Chdir d).
Proof using Type. intros [[[w s] tr] wd out]. unfold Chdir, Run.local. cbn [s_run]. destruct (Stat d w). by eexists _, _. Qed.

Lemma goes_on_header path : goes_on (printStartupHeader Version proc path).
Proof using Type. unfold printStartupHeader. apply goes_on_bind; [intros s; by eexists _, _|]. intros []. case_if; [intros s; by eexists _, _|]. intros s. by eexists _, _. Qed.

(** A refusal: nothing is touched, and the code is 1. *)
Lemma refuse_spec path key s : exists s', refuse Version proc path key s = (inl 1%Z, s') /\ untouched s s'.
Proof using Type.
  unfold refuse, mbind at 1, P_bind at 1. destruct (goes_on_header path s) as ([] & s1 & E). pose proof (harmless_header path s) as H. rewrite E in *.
  eexists. split; [reflexivity|]. exact H.
Qed.

Lemma findConfig_spec f s : exists path s', findConfig proc f s = (inr path, s') /\ untouched s s'.
Proof using Type.
  assert (harmless (findConfig proc f)) as H by (unfold findConfig, invokedDirectory; solve_harmless).
  assert (goes_on (findConfig proc f)) as Hg.
  { unfold findConfig, invokedDirectory.
    repeat (intros; first [apply goes_on_act | apply goes_on_Chdir | apply goes_on_bind | case_match | intros ?; by eexists _, _]). }
  destruct (Hg s) as (path & s' & E). exists path, s'. split; [exact E|]. specialize (H s). by rewrite E in H.
Qed.

(** What makes a command line complete: one action, and a date only for a restore. *)
Definition requested (f : Flags) (args : list gostring) : bool :=
  bool_decide (actions f = 1) && bool_decide (length args <= 1) && (bool_decide (args = []) || restore f || restorefull f).

Lemma actions_restore f : restore f || restorefull f = true -> 1 <= actions f.
Proof using Type.
  intros H. unfold actions. destruct (restore f) eqn:E1, (restorefull f) eqn:E2; try done;
    repeat (rewrite filter_cons; case_decide; simpl; try lia; try done).
Qed.

(** The checks of the command line. *)
Lemma checkArgs_spec f args path s :
  if requested f args then checkArgs sconfig Version proc f args path s = dispatch sconfig Version proc f path (default [] (TrimSpace <$> head args)) s
  else exists s', checkArgs sconfig Version proc f args path s = (inl (if bool_decide (args = [] /\ actions f = 0) then 0%Z else 1%Z), s') /\ untouched s s'.
Proof using Type.
  assert (exists s', (_ ← printStartupHeader Version proc path; _ ← printUsage; @Exit SF () 0) s = (inl 0%Z, s') /\ untouched s s') as Hnone.
  { unfold mbind at 1, P_bind at 1. destruct (goes_on_header path s) as ([] & s2 & E2). pose proof (harmless_header path s) as H2.
    rewrite E2 in *. eexists. split; [reflexivity|done]. }
  assert (restore f || restorefull f = true -> 1 <= actions f) as Hr by apply actions_restore.
  unfold requested, checkArgs. rewrite <- (andb_assoc _ (negb _)), <- negb_orb. destruct (restore f || restorefull f) eqn:Er;
    [specialize (Hr eq_refl)|clear Hr]; rewrite <- (orb_assoc _ (restore f)), Er; clear Er; (destruct args as [|a [|a' args]]; simpl);
    repeat (case_bool_decide; simpl); try lia; try tauto; try apply refuse_spec; try done.
Qed.

Lemma proceed_spec f args s : exists path s1, untouched s s1 /\
  if requested f args then proceed sconfig Version proc f args s = dispatch sconfig Version proc f path (default [] (TrimSpace <$> head args)) s1
  else exists s', proceed sconfig Version proc f args s = (inl (if bool_decide (args = [] /\ actions f = 0) then 0%Z else 1%Z), s') /\ untouched s s'.
Proof using Type.
  destruct (findConfig_spec f s) as (path & s1 & E & H1). exists path, s1. split; [exact H1|].
  assert (proceed sconfig Version proc f args s = checkArgs sconfig Version proc f args path s1) as -> by (unfold proceed, mbind, P_bind; by rewrite E).
  pose proof (checkArgs_spec f args path s1) as H. destruct (requested f args); [exact H|]. destruct H as (s' & -> & H). exists s'. split; [done|by etrans].
Qed.

End Refusals.

(** *** Patterns and sizes *)

Lemma Contains_byte s c : Contains s [c] = bool_decide (c ∈ s).
Proof.
  apply eq_true_iff_eq. rewrite Contains_true, bool_decide_eq_true. split.
  - intros (a & b & ->). apply elem_of_app. right. left.
  - intros (a & b & ->)%list_elem_of_split. by exists a, b.
Qed.

Lemma HasPrefix_Contains s p : HasPrefix s p = true -> Contains s p = true.
Proof.
  unfold HasPrefix. intros [r H]%bool_decide_eq_true_1. apply strip_prefix_Some in H as ->. apply Contains_true. by exists [], r.
Qed.

Lemma Itoa_length n k : (0 <= n < 10 ^ Z.of_nat k)%Z -> 0 < k -> length (Itoa n) <= k.
Proof.
  intros Hn Hk. unfold Itoa. rewrite (proj2 (Z.ltb_ge n 0)) by lia. unfold digits.
  pose proof (digits_aux_length (S (Z.to_nat (Z.log2 n))) n [] k Hn Hk) as H. by rewrite Nat.add_0_r in H.
Qed.

(** Integers below 2 to the 53 are floats. *)
Lemma f64_exact n : (0 <= n < 2 ^ 53)%Z -> f64 n = n.
Proof.
  intros Hn. unfold f64. assert (Z.log2 n <= 52)%Z.
  { destruct (decide (n = 0)%Z) as [->|]; [done|]. apply Z.lt_succ_r. apply Z.log2_lt_pow2; simpl; lia. }
  by rewrite (proj2 (Z.leb_le _ 0)) by lia.
Qed.

Lemma withUnit_length n unit suffix :
  (0 <= n < 2 ^ 53 -> 0 < unit -> n < 100000 * unit -> length suffix = 1%nat -> (length (withUnit n unit suffix) <= 6)%nat)%Z.
Proof.
  intros Hn Hu Hb Hs. unfold withUnit. rewrite f64_exact by done. destruct (n <? 10 * unit)%Z eqn:E; [apply Z.ltb_lt in E|apply Z.ltb_ge in E].
  - unfold fixed1. cbv zeta. match goal with |- context [(?x / 10)%Z] => set (t := x) end. assert (0 <= t <= 100)%Z as Ht.
    { assert (0 <= 10 * n / unit < 100)%Z as Hq by (split; [apply Z.div_pos; lia|apply Z.div_lt_upper_bound; lia]). unfold t. destruct (_ || _); lia. }
    clearbody t. assert (0 <= t / 10 < 100 /\ 0 <= t mod 10 < 10)%Z as [H1 H2] by (split; [split; [apply Z.div_pos|apply Z.div_lt_upper_bound]|apply Z.mod_pos_bound]; lia).
    rewrite !length_app, Hs. pose proof (Itoa_length (t / 10) 2 H1 ltac:(lia)).
    pose proof (Itoa_length (t mod 10) 1 H2 ltac:(lia)). simpl. lia.
  - rewrite length_app, Hs. pose proof (Itoa_length (n / unit) 5) as H. change (10 ^ Z.of_nat 5)%Z with 100000%Z in H.
    assert (0 <= n / unit < 100000)%Z as Hq by (split; [apply Z.div_pos; lia|apply Z.div_lt_upper_bound; lia]). specialize (H Hq). lia.
Qed.

(** The working directory is not a log file. *)
Lemma New_dot {FT : Faults} w : exists e w', Logger.New "." w = (inl e, w').
Proof.
  unfold Logger.New, GoPath.FromSlash, mbind, M_bind. change (GoPath.Dir ".") with (str "."). unfold MkdirAll, syscall.
  destruct (fault (w_tick w)); [by eexists _, _|]. cbn [tick w_fs]. change (ancestors [] (str ".")) with [str "."].
  assert (forall w1 : World, w_fs w1 !! str "." = Some NDir -> exists e w', Logger.OpenAppend "." w1 = (inl e, w')) as Ho.
  { intros w1 H1. unfold Logger.OpenAppend, syscall. destruct (fault (w_tick w1)); [by eexists _, _|]. cbn [tick w_fs]. rewrite H1. by eexists _, _. }
  destruct (w_fs w !! str ".") as [[|d t]|] eqn:E.
  - destruct (Ho (snapshot (tick w)) E) as (e & w' & ->). by eexists _, _.
  - cbn [mkdirs]. cbn [tick w_fs]. rewrite E. by eexists _, _.
  - cbn [mkdirs]. cbn [tick w_fs]. rewrite E. destruct (Ho (snapshot (set_fs <[str ".":=NDir]> (tick w)))) as (e & w' & ->); [apply lookup_insert_eq|]. by eexists _, _.
Qed.

(** *** Parts that send no mail *)

Section Mute.
Context {FT : Faults} {AB : ArchiveBytes} {EX : Exec} {SS : SliceSort} {MO : MapOrder} {MSG : Messages} {CT : Schedule.Crontab} {DR : Restore.Drain}.
Context {SF : Sftp} {CR : Crypto} {RD : Rand} {SM : Email.Smtp} {NT : Net} {DL : Run.Deadline} {ET : ErrorText} {ST : Disk.Statfs}.
Context (sconfig : Config.Config -> Z -> gostring -> bool -> bool -> err + Config.Config) (Version : gostring) (proc : Proc).

(** It goes on, without mail. *)
Definition mute {A : Type} (m : P A) : Prop := forall s, exists x s', m s = (inr x, s') /\ mail_of s' = mail_of s.

Lemma mute_bind {A B : Type} (m : P A) (f : A -> P B) : mute m -> (forall x, mute (f x)) -> mute (m ≫= f).
Proof using Type.
  intros Hm Hf s. unfold mbind, P_bind. destruct (Hm s) as (x & s1 & -> & E). destruct (Hf x s1) as (y & s2 & -> & E2). exists y, s2. split; [done|congruence].
Qed.

Lemma mute_act {A : Type} (m : M A) : mute (act m).
Proof using Type. intros [[[w s] tr] wd out]. unfold act, in_run, Run.local. cbn [s_run]. destruct (m w). by eexists _, _. Qed.

Ltac solve_mute := repeat (intros; first [apply mute_act | apply mute_bind | case_match | intros ?; by eexists _, _]).

Lemma mute_header path : mute (printStartupHeader Version proc path).
Proof using Type. unfold printStartupHeader. solve_mute. Qed.

(** Loading gives the configuration of the file, normalised. *)
Lemma loadConfigAndLog_spec path verbose s : exists r s', loadConfigAndLog sconfig Version proc path verbose s = (inr r, s') /\ mail_of s' = mail_of s /\
  forall cfg, r = inr cfg -> Config.Load sconfig path false = inr cfg.
Proof using Type.
  unfold loadConfigAndLog. destruct (Config.Load sconfig path false) as [e|cfg]; [by eexists _, _|]. cbv zeta.
  unfold mbind at 1, P_bind at 1. destruct (mute_act (Logger.New (if Config.LogFilename cfg ==? [] then defaultLogPath proc cfg else Config.LogFilename cfg)) s)
    as ([e|l] & s1 & -> & E1); [by eexists _, _|].
  assert (mute (a ← abs (if Config.LogFilename cfg ==? [] then defaultLogPath proc cfg else Config.LogFilename cfg);
    match a with inr absLog => say (Msg Stderr "section.log_file" [AStr absLog]) | inl _ => mret tt end)) as H1 by solve_mute.
  assert (mute (logStartup Version proc)) as H2 by (unfold logStartup; solve_mute).
  destruct (H1 s1) as ([] & s2 & E2 & Em2). destruct (H2 s2) as ([] & s3 & E3 & Em3). exists (inr cfg), s3.
  split_and!; [|congruence|by intros ? [= <-]]. revert E2. unfold mbind, P_bind. destruct (abs _ s1) as [[|a] sa]; [done|]. intros ->. by rewrite E3.
Qed.

Lemma mute_ensureSchedule cfg path : mute (ensureSchedule proc cfg path).
Proof using Type. unfold ensureSchedule. solve_mute. Qed.

End Mute.

(** ** Samples *)

Definition sampleProc (args : list gostring) : Proc :=
  mkProc (Config.mkEnv (inr (str "/usr/bin/mysqlbackup")) (inr (str "/home/u")) (inr (str "/home/u"))) (str "mysqlbackup" :: args).

Definition sampleSconfig (log : gostring) : Config.Config -> Z -> gostring -> bool -> bool -> err + Config.Config := fun c _ _ _ _ =>
  inr (Config.with_paths c [] [] [] "/b" log "/r" []).

Definition sampleFs : files := list_to_map [(str "/home/u", NDir); (str "/home/u/conf", NDir); (str "/home/u/conf/my.json", NFile (Raw "{}") (Date 2024 1 1 0)); (str "/b", NDir)].
Definition sampleSys : @Sys treeSftp := mkSys (mkWorld sampleFs (Date 2024 1 16 0) 0 [] [], mkTree Remote.emptyTree (Remote.day 17), []) (inr (str "/home/u")) [].
Definition sampleCrontab : Schedule.Crontab := Schedule.mkCrontab (mret (inr [])) (fun _ => mret None).

Definition sampleMain (log : gostring) (args : list gostring) : (Z + unit) * @Sys treeSftp :=
  @main NoFaults Remote.sampleBytes (Run.sampleExec 0 []) _ _ Run.noMessages sampleCrontab (fun _ _ => true) treeSftp Remote.sampleCrypto (Remote.rnd "s"%char)
    Run.sampleSmtp noNet (fun _ => false) (fun _ => str "error") (Run.sampleStatfs 1000000) (sampleSconfig log) "1.2.0" (sampleProc args) sampleSys.

(** ** Theorems *)


(** C13: No backup fails in silence: a backup action either ends well, without an e-mail, or
    with exit code 1, and then the configuration could not be loaded and the terminal says so, or
    an error report has been handed over for e-mail with the loaded configuration. *)
Theorem backup_failure_reported (FT : Faults) (AB : ArchiveBytes) (EX : Exec) (SS : SliceSort) (MO : MapOrder) (MSG : Messages) (CT : Schedule.Crontab)
    (SF : Sftp) (CR : Crypto) (RD : Rand) (SM : Email.Smtp) (NT : Net) (DL : Run.Deadline) (ET : ErrorText) (ST : Disk.Statfs)
    sconfig Version proc path verbose s :
  let '(r, s') := runBackup sconfig Version proc path verbose s in
  match r with
  | inr _ => mail_of s' = mail_of s
  | inl code => code = 1%Z /\
      ((mail_of s' = mail_of s /\ exists e, last (s_out s') = Some (Msg Stderr "error.config" [AErr e])) \/
       (exists cfg, Config.Load sconfig path false = inr cfg /\ Run.mailed cfg (mail_of s) (mail_of s')))
  end.
Proof.
  unfold runBackup. unfold mbind at 1, P_bind at 1. destruct (mute_header Version proc path s) as ([] & s1 & -> & E1).
  unfold withConfig. unfold mbind at 1, P_bind at 1. destruct (loadConfigAndLog_spec sconfig Version proc path verbose s1) as (r & s2 & -> & E2 & Hc).
  destruct r as [e|cfg].
  { unfold fail, mbind, P_bind, say, Exit. split; [done|]. left. split; [unfold mail_of in *; simpl; congruence|]. exists e. cbn [s_out]. apply last_snoc. }
  unfold mbind at 1, P_bind at 1. destruct (mute_ensureSchedule proc cfg path s2) as ([] & s3 & -> & E3). unfold mbind at 1, P_bind at 1. cbn [getwd].
  unfold mbind at 1, P_bind at 1, in_run. pose proof (Run.orderly_Backup (s_wd s3) cfg (s_run s3)) as Ho.
  destruct (Run.Backup (s_wd s3) cfg (s_run s3)) as [[e|] [[w' h'] tr']]; unfold Run.transcript in Ho; simpl in Ho.
  - cbn. split; [done|]. right. exists cfg. split; [by apply Hc|]. unfold mail_of in *. simpl. by rewrite <- E1, <- E2, <- E3.
  - unfold mail_of in *. cbn. congruence.
Qed.

(** The two checks of a file pattern agree except for one case: what the remote package accepts
    is what the command line accepts without two dots anywhere in it; the command line looks for them at
    the beginning only. *)
Theorem getfile_patterns_agree s : Remote.validGetfilePattern s = validGetfilePattern s && negb (Contains s "..").
Proof.
  unfold Remote.validGetfilePattern, validGetfilePattern, containsPath. change (Contains s "/") with (Contains s [GoPath.slash]). rewrite !Contains_byte.
  destruct (s ==? []); [done|]. cbn [orb]. destruct (Contains s "..") eqn:Ec; [by rewrite andb_false_r|].
  assert (HasPrefix s ".." = false) as ->.
  { destruct (HasPrefix s "..") eqn:E; [|done]. apply HasPrefix_Contains in E. congruence. }
  by destruct (GoPath.Base s ==? s), (bool_decide (GoPath.slash ∈ s)), (bool_decide (backslash ∈ s)).
Qed.

(** C33: The sizes of the status listing fit their column of six characters up to 100000
    times 2 to the 30, through all roundings. *)
Theorem formatSize_width n : (0 <= n < 100000 * 2 ^ 30)%Z -> length (formatSize n) <= 6.
Proof.
  intros Hn. unfold formatSize. repeat (case_if; bool_prop).
  - pose proof (Itoa_length n 4 ltac:(change (10 ^ Z.of_nat 4)%Z with 10000%Z; lia) ltac:(lia)). lia.
  - apply withUnit_length; (done || lia).
  - apply withUnit_length; (done || lia).
  - apply withUnit_length; (done || lia).
Qed.

(** C38: The documented default of the log file does not work: a configuration without
    log_filename is normalised to the name of the working directory, which cannot be opened
    as a file, so that every action that needs the log ends with exit code 1 before its body. *)
Theorem unset_log_filename_fails (FT : Faults) (SF : Sftp) sconfig Version proc path verbose cfg (body : Config.Config -> P unit) s :
  sconfig Config.DefaultConfig (Config.Version Config.DefaultConfig) path false false = inr cfg -> Config.LogFilename cfg = [] ->
  fst (withConfig sconfig Version proc path verbose body s) = inl 1%Z.
Proof.
  intros Hc Hl. unfold withConfig, loadConfigAndLog, Config.Load. rewrite Hc. cbv zeta.
  change (Config.LogFilename (Config.normalizePaths cfg)) with (Config.cleanPath (Config.LogFilename cfg)). rewrite Hl.
  change (Config.cleanPath []) with (str "."). rewrite (bool_decide_eq_false_2 (str "." = [])) by done.
  destruct s as [[[w h] tr] wd out]. destruct (New_dot w) as (e & w' & E). unfold act, in_run, Run.local, mbind, P_bind. cbn [s_run]. by rewrite E.
Qed.

(** A relative path of the configuration is read in the wrong place: the working directory
    becomes the directory of the file, and the path, still relative, is then taken from there; called with
    "-config conf/my.json" in /home/u, the program works on /home/u/conf/conf/my.json. *)
Theorem relative_config_misread :
  let s' := snd (sampleMain "/b/run.log" [str "--status"; str "-config"; str "conf/my.json"]) in
  w_fs (fst (fst (s_run sampleSys))) !! str "/home/u/conf/my.json" <> None /\
  s_wd s' = inr (str "/home/u/conf") /\ Msg Stderr "section.config_file" [AStr (str "/home/u/conf/conf/my.json")] ∈ s_out s'.
Proof. cbv zeta. split; [discriminate|]. split; [vm_compute; reflexivity|]. do 3 right. left. Qed.

(** ** Witnesses *)

Lemma formatSize_width_witness : length (formatSize (99999 * 2 ^ 30 + 5)) <= 6.
Proof. apply (formatSize_width (99999 * 2 ^ 30 + 5)). split; [discriminate|reflexivity]. Defined.

Lemma unset_log_filename_fails_witness :
  fst (withConfig (FT := NoFaults) (SF := treeSftp) (sampleSconfig []) "1.2.0" (sampleProc []) "/c.json" false (fun _ => mret tt) sampleSys) = inl 1%Z.
Proof.
  apply (unset_log_filename_fails NoFaults treeSftp (sampleSconfig []) "1.2.0" (sampleProc []) "/c.json" false
    (Config.with_paths Config.DefaultConfig [] [] [] "/b" [] "/r" [])); reflexivity.
Defined.

End Main.
