(* ===== verification/EndToEnd.v ===== *)
(** * Backup and restore together.

    What a backup run wrote is what a later restore selects and hands to the client; a full
    restore does so after it has replaced the data directory. *)

From S2P Require Import Prelude GoStrings Regexp GoTime GoPath GoRuntime World GoFmt CrashLogic FileTree Polling I18n Config Mysql Retention UserSQL Backup Schedule Restore Reinit RemoteHost Remote Email Logger Run Main.
Import GoStrings GoTime GoRuntime World CrashLogic FileTree Polling I18n RemoteHost.

Module EndToEnd.

(** ** Restoring complete archives *)

(** The import of a text succeeds exactly if [ok] accepts it. *)
Definition imports {EX : Exec} (conn : Mysql.Conn) (ok : gostring -> bool) : Prop :=
  forall t sql, x_err (exec t (Mysql.binPath conn "mysql") (Mysql.baseArgs conn) sql) = None <-> ok sql = true.

(** A complete archive with one text. *)
Definition archive (fs : files) (p sql : gostring) : Prop :=
  exists db t, fs !! p = Some (NFile (Zip [(db ++ ".sql", sql)] true) t).

Lemma archive_fun fs p sql sql' : archive fs p sql -> archive fs p sql' -> sql = sql'.
Proof. intros (db & t & H) (db' & t' & H'). congruence. Qed.

Section Restoring.
Context {FT : Faults} {EX : Exec} {DR : Restore.Drain} (conn : Mysql.Conn) (ok : gostring -> bool).
Hypothesis Hok : imports conn ok.
Hypothesis Hdrain : forall t sql, Restore.drained t sql = true.

Lemma restoreZip_result p sql w : fine w -> archive (w_fs w) p sql ->
  exists r w', Restore.restoreZip conn p w = (r, w') /\ fine w' /\ w_fs w' = w_fs w /\ (r = None <-> ok sql = true).
Proof.
  intros Hw (db & t & Hp). destruct (Restore.restoreZip_complete conn p db sql t w Hw Hp (fun t => Hdrain t sql)) as (w1 & -> & Hfs & Hw1).
  unfold Mysql.ImportSQL, mbind, M_bind, run_cmd. eexists _, _. split; [reflexivity|]. split.
  { intros n Hn. apply Hw1. simpl in Hn. lia. }
  split; [exact Hfs|]. rewrite <- (Hok (w_tick w1)). by destruct (x_err _).
Qed.

(** The loop ends well exactly if every text is accepted. *)
Lemma restoreLoop_result fs files w : w_fs w = fs -> fine w -> Forall (fun f => exists sql, archive fs (Retention.Path f) sql) files ->
  exists r w', Restore.restoreLoop conn files w = (r, w') /\ w_fs w' = fs /\
    (r = None <-> forall f sql, f ∈ files -> archive fs (Retention.Path f) sql -> ok sql = true).
Proof.
  intros Hfs Hw Hall. revert w Hfs Hw. induction Hall as [|f files [sql Ha] _ IH]; intros w Hfs Hw.
  { eexists _, _. split; [reflexivity|]. split; [done|]. split; [|done]. intros _ f sql H. by apply not_elem_of_nil in H. }
  cbn [Restore.restoreLoop]. unfold mbind at 1, M_bind at 1. cbn [World.Info log_at].
  set (w1 := mkWorld _ _ _ _ _). assert (fine w1 /\ w_fs w1 = fs) as [Hw1 Hf1] by (split; [exact Hw|exact Hfs]).
  destruct (restoreZip_result (Retention.Path f) sql w1 Hw1) as (r & w2 & E & Hw2 & Hf2 & Hr); [by rewrite Hf1|].
  unfold mbind at 1, M_bind at 1. rewrite E. destruct r as [e|].
  - eexists _, _. split; [reflexivity|]. split; [congruence|]. split; [done|]. intros H. exfalso. assert (Some e = None) as [=]. apply Hr. eapply H; [left|exact Ha].
  - destruct (IH w2 ltac:(congruence) Hw2) as (r & w3 & E3 & Hf3 & H3). exists r, w3. split; [exact E3|]. split; [exact Hf3|]. rewrite H3. split.
    + intros H g s Hg Hs. apply elem_of_cons in Hg as [->|Hg]; [|by eapply H]. rewrite (archive_fun _ _ _ _ Hs Ha). by apply Hr.
    + intros H g s Hg. apply H. by right.
Qed.

Lemma RestoreFromZips_result files w : files <> [] -> fine w -> Forall (fun f => exists sql, archive (w_fs w) (Retention.Path f) sql) files ->
  exists r w', Restore.RestoreFromZips conn files w = (r, w') /\ w_fs w' = w_fs w /\
    (r = None <-> forall f sql, f ∈ files -> archive (w_fs w) (Retention.Path f) sql -> ok sql = true).
Proof.
  intros Hne Hw Hall. destruct (restoreLoop_result (w_fs w) files w eq_refl Hw Hall) as (r & w1 & E & Hf & Hr).
  unfold Restore.RestoreFromZips. rewrite bool_decide_eq_false_2 by (by destruct files). unfold mbind at 1, M_bind at 1. rewrite E.
  destruct r; by eexists _, _.
Qed.

End Restoring.

(** ** The directory after a run *)

(** The text the run puts together for a database. *)
Definition textOf (users : gmap gostring gostring) (dump : gostring -> ExecResult) (db : gostring) : gostring :=
  x_out (dump db) ++ concat (Backup.userPieces (default [] (users !! db))).

Section Directory.
Context {AS : ArchiveSize} (dir host : gostring) (users : gmap gostring gostring) (dump : gostring -> ExecResult) (now : Time) (dbs : list gostring) (fs : files).

Abbreviation date := (FormatDate now).
Abbreviation zips := (Backup.zipPathOf dir date host <$> dbs).
Abbreviation today := (mkTime (t_day now) 0).

(** Archives and .sav files there before the run are of earlier days, or replaced. *)
Definition outdated : Prop := forall base t, GoPath.slash ∉ base -> Retention.name_date (base ++ ".zip") = Some t ->
  is_Some (fs !! Backup.zipOf dir base) \/ is_Some (fs !! Backup.savOf dir base) ->
  (t_day t < t_day now)%Z \/ Backup.zipOf dir base ∈ zips.

Definition afterRun : files := fold_left (Backup.write_archive dir date host users dump now) dbs (Backup.recovered dir fs).

Hypothesis Hy : (0 <= Year now <= 9999)%Z.
Hypothesis Hhost : GoPath.slash ∉ host.
Hypothesis Hn : Backup.no_dirs dir fs.
Hypothesis Hdbs : Forall (fun db => GoPath.slash ∉ db) dbs.

Lemma date_plain : GoPath.slash ∉ date.
Proof using Hy. apply Backup.digits_no_slash, FormatDate_digits. done. Qed.

Lemma zip_date db : Retention.name_date (Backup.zipNameOf date host db) = Some today.
Proof using Hy. pose proof (Retention.name_date_written now (host ++ "_" ++ db) Hy) as H. rewrite <- !app_assoc in H. exact H. Qed.

Lemma name_date_zip name t : Retention.name_date name = Some t -> exists base, name = base ++ ".zip".
Proof using Type.
  unfold Retention.name_date, Retention.name_ok. destruct (_ && _) eqn:E; [|done]. intros _. apply andb_true_iff in E as [_ E%bool_decide_eq_true].
  destruct (GoPath.Ext_suffix name) as [base Hb]. exists base. by rewrite E in Hb.
Qed.

(** The archives of the directory: those of the run, and older ones. *)
Lemma afterRun_dated p t : outdated -> Retention.dated_archive afterRun dir p t -> (p ∈ zips /\ t = today) \/ (t_day t < t_day now)%Z.
Proof using Hy Hhost Hn Hdbs.
  intros Hold (Hd & name & d & mt & Hplain & -> & Hp & Ht). destruct (name_date_zip name t Ht) as [base ->].
  assert (GoPath.slash ∉ base) as Hb by (destruct Hplain as [[? _]%not_elem_of_app _]; done).
  change (GoPath.Join dir (base ++ ".zip")) with (Backup.zipOf dir base) in *.
  destruct (decide (Backup.zipOf dir base ∈ zips)) as [Hin|Hin].
  - left. split; [done|]. apply list_elem_of_fmap in Hin as (db & E & Hdb). rewrite Forall_forall in Hdbs.
    apply GoPath.Join_plain_inj in E; [|done|apply Backup.zipName_plain; [apply date_plain|done|auto]].
    rewrite E, zip_date in Ht. congruence.
  - right. destruct (Hold base t Hb Ht) as [H|H]; [|exact H|done]. revert Hp. unfold afterRun. rewrite Backup.written_frame.
    + destruct (Backup.recovered_pair dir fs base Hb Hn) as [_ ->]. destruct (fs !! Backup.savOf dir base); [by right; eauto|intros ->; eauto].
    + intros db Hdb. rewrite Forall_forall in Hdbs. split; [intros E; apply Hin; rewrite E; by apply list_elem_of_fmap_2|].
      destruct (Backup.zipPathOf_pair dir date host date_plain Hhost db) as (b & Hs & _ & ->); [auto|].
      apply not_eq_sym. by apply Backup.pair_ne.
Qed.

Lemma afterRun_zip db : afterRun !! dir = Some NDir -> db ∈ dbs ->
  Retention.dated_archive afterRun dir (Backup.zipPathOf dir date host db) today /\ archive afterRun (Backup.zipPathOf dir date host db) (textOf users dump db).
Proof using Hy Hhost Hdbs.
  intros Hd Hin. assert (afterRun !! Backup.zipPathOf dir date host db = Some (Backup.archiveOf users dump now db)) as E
    by (apply Backup.written_lookup; [apply date_plain|done..]).
  split; [|by eexists db, now]. split; [done|]. exists (Backup.zipNameOf date host db). eexists _, _. split_and!; [|done|exact E|apply zip_date].
  apply Backup.zipName_plain; [apply date_plain|done|]. rewrite Forall_forall in Hdbs. auto.
Qed.

(** The latest archives are those of the run. *)
Lemma afterRun_latest p t : outdated -> afterRun !! dir = Some NDir -> dbs <> [] ->
  (Retention.dated_archive afterRun dir p t /\ forall p' t', Retention.dated_archive afterRun dir p' t' -> (t_day t' <= t_day t)%Z)
  <-> p ∈ zips /\ t = today.
Proof using Hy Hhost Hn Hdbs.
  intros Hold Hd Hne. split.
  - intros [Hp Hmax]. destruct (afterRun_dated p t Hold Hp) as [H|H]; [exact H|].
    assert (exists db, db ∈ dbs) as [db Hin] by (clear -Hne; destruct dbs; [done|eexists; left]).
    destruct (afterRun_zip db Hd Hin) as [Hdb _]. specialize (Hmax _ _ Hdb). simpl in Hmax. lia.
  - intros [(db & -> & Hdb)%list_elem_of_fmap ->]. split; [by apply afterRun_zip|]. intros p' t' H.
    destruct (afterRun_dated p' t' Hold H) as [[_ ->]|H']; simpl; lia.
Qed.

End Directory.

(** ** The action *)

(** Without I/O errors there is a selection, and nothing has changed. *)
Lemma LastBackupBefore_ok {FT : Faults} {AS : ArchiveSize} {SS : SliceSort} dir b w :
  w_fs w !! dir = Some NDir -> fine w -> exists sel w', Retention.LastBackupBefore dir b w = (inr sel, w') /\ w_fs w' = w_fs w /\ fine w'.
Proof.
  intros Hd Hw. destruct (Retention.ListBackups_ok dir w Hd (Hw _ (le_n _))) as (files & w' & E). pose proof (quiet_fs _ w (Retention.quiet_ListBackups dir)) as Hq.
  pose proof (fine_forward _ w (Retention.LastBackupBefore_forward dir b) Hw) as Hf. revert Hf. unfold Retention.LastBackupBefore, mbind, M_bind. rewrite E in *.
  destruct files as [|f files]; [by eexists _, _|]. destruct (Retention.target_date (f :: files) b); by eexists _, _.
Qed.

Lemma act_bind {SF : Sftp} {A B : Type} (m : M A) (f : A -> Main.P B) x w w' h tr wd out :
  m w = (x, w') -> (Main.act m ≫= f) (Main.mkSys (w, h, tr) wd out) = f x (Main.mkSys (w', h, tr) wd out).
Proof. intros E. unfold mbind, Main.P_bind, Main.act, Main.in_run, Run.local. cbn [Main.s_run]. by rewrite E. Qed.

Lemma ret_bind {SF : Sftp} {A B : Type} (x : A) (f : A -> Main.P B) s : (mret x ≫= f) s = f x s.
Proof. done. Qed.

(** The archives of the latest day of a directory. *)
Definition latest (fs : files) (dir p : gostring) : Prop :=
  exists t, Retention.dated_archive fs dir p t /\ forall p' t', Retention.dated_archive fs dir p' t' -> (t_day t' <= t_day t)%Z.

(** The client accepts the texts of the latest day. *)
Definition accepted (fs : files) (dir : gostring) (ok : gostring -> bool) : Prop := forall p sql, latest fs dir p -> archive fs p sql -> ok sql = true.

Section Action.
Context {FT : Faults} {AB : ArchiveBytes} {EX : Exec} {SS : SliceSort} {DR : Restore.Drain} {SF : Sftp} {NT : Net}.

(** The selection without a date is the latest day. *)
Lemma select_latest dir w : fine w -> w_fs w !! dir = Some NDir -> (exists p, latest (w_fs w) dir p) ->
  exists f sel w', @Retention.LastBackupBefore FT byte_sizes SS dir None w = (inr (f :: sel), w') /\ w_fs w' = w_fs w /\ fine w' /\
    forall p, latest (w_fs w) dir p <-> exists g, g ∈ f :: sel /\ Retention.Path g = p.
Proof.
  intros Hw Hd [p0 H0]. destruct (@LastBackupBefore_ok FT byte_sizes SS dir None w Hd Hw) as (sel & w1 & E & Hf1 & Hw1).
  pose proof (Retention.LastBackupBefore_members dir None w sel w1 E) as Hsel.
  assert (forall p, latest (w_fs w) dir p <-> exists f, f ∈ sel /\ Retention.Path f = p) as Hp.
  { intros p. split.
    - intros (t & Hp & Hmax).
      assert ((p, t) ∈ Retention.file_key <$> sel) as (f & [= -> ->] & Hf)%list_elem_of_fmap by (apply Hsel; split_and!; eauto; done). eauto.
    - intros (f & Hf & <-). destruct (proj1 (Hsel (Retention.Path f) (Retention.BDate f))) as (H1 & _ & H2); [by apply (list_elem_of_fmap_2 Retention.file_key)|].
      exists (Retention.BDate f). split; [done|]. intros p' t' H'. by eapply H2. }
  destruct sel as [|f sel]; [|by exists f, sel, w1]. apply Hp in H0 as (f & Hf & _). by apply not_elem_of_nil in Hf.
Qed.

(** Importing the selection after a call that has left its archives alone. *)
Lemma import_latest conn ok dir fs f sel w : imports conn ok -> (forall t sql, Restore.drained t sql = true) -> fine w ->
  (forall p, latest fs dir p <-> exists g, g ∈ f :: sel /\ Retention.Path g = p) ->
  (forall p, latest fs dir p -> w_fs w !! p = fs !! p /\ exists sql, archive fs p sql) ->
  exists r w', Restore.RestoreFromZips conn (f :: sel) w = (r, w') /\ w_fs w' = w_fs w /\ (r = None <-> accepted fs dir ok).
Proof.
  intros Hok Hdr Hw Hp Har.
  assert (forall p sql, latest fs dir p -> archive (w_fs w) p sql <-> archive fs p sql) as Heq by (intros p sql H; unfold archive; by rewrite (proj1 (Har p H))).
  destruct (RestoreFromZips_result conn ok Hok Hdr (f :: sel) w) as (r & w' & E & Hf & Hr); [done|done|..].
  { apply Forall_forall. intros g Hg. assert (latest fs dir (Retention.Path g)) as H by (apply Hp; eauto).
    destruct (Har _ H) as [_ [sql Ha]]. exists sql. by apply Heq. }
  exists r, w'. split; [done|]. split; [done|]. rewrite Hr. split.
  - intros H p sql Hl Ha. apply Heq in Ha; [|done]. apply Hp in Hl as (g & Hg & <-). by eapply H.
  - intros H g sql Hg. assert (latest fs dir (Retention.Path g)) as Hl by (apply Hp; eauto). intros Ha%Heq; [|done]. by eapply H.
Qed.

(** Restoring the latest day of a directory whose archives are complete. *)
Lemma restoreAction_latest cfg ok w h tr wd out :
  let dir := Config.BackupDir cfg in
  fine w -> w_fs w !! dir = Some NDir -> imports (Main.restoreConn cfg false) ok -> (forall t sql, Restore.drained t sql = true) ->
  (exists p, latest (w_fs w) dir p) -> (forall p, latest (w_fs w) dir p -> exists sql, archive (w_fs w) p sql) ->
  let r := fst (Main.restoreAction cfg [] false (Main.mkSys (w, h, tr) wd out)) in
  (r = inr tt \/ r = inl 1%Z) /\ (r = inr tt <-> accepted (w_fs w) dir ok).
Proof.
  intros dir Hw Hd Hok Hdr Hne Har r. subst r. unfold Main.restoreAction. cbv zeta.
  change (if TrimSpace [] ==? [] then Some None else Some <$> ParseDate (TrimSpace [])) with (Some (@None Time)). cbv beta iota.
  fold dir. destruct (select_latest dir w Hw Hd Hne) as (f & sel & w1 & E & Hf1 & Hw1 & Hp). rewrite (act_bind _ _ _ _ _ _ _ _ _ E).
  destruct (import_latest (Main.restoreConn cfg false) ok dir (w_fs w) f sel w1 Hok Hdr Hw1 Hp) as (r & w2 & E2 & _ & Hr).
  { intros p Hl. rewrite Hf1. auto. }
  rewrite ret_bind, (act_bind _ _ _ _ _ _ _ _ _ E2), <- Hr. destruct r; (split; [auto|by split]).
Qed.

(** The same with a new data directory, which leaves the archives alone. *)
Lemma restoreAction_full cfg ok w h tr wd out e w2 :
  let dir := Config.BackupDir cfg in
  let w1 := snd (@Retention.LastBackupBefore FT byte_sizes SS dir None w) in
  fine w -> w_fs w !! dir = Some NDir -> imports (Main.restoreConn cfg true) ok -> (forall t sql, Restore.drained t sql = true) ->
  (exists p, latest (w_fs w) dir p) -> (forall p, latest (w_fs w) dir p -> exists sql, archive (w_fs w) p sql) ->
  Reinit.FullReinit cfg w1 = (e, w2) -> fine w2 -> (forall p, e = None -> latest (w_fs w) dir p -> w_fs w2 !! p = w_fs w !! p) ->
  let st := Main.restoreAction cfg [] true (Main.mkSys (w, h, tr) wd out) in
  Main.files_of (snd st) = w_fs w2 /\ (fst st = inr tt \/ fst st = inl 1%Z) /\ (fst st = inr tt <-> e = None /\ accepted (w_fs w) dir ok).
Proof.
  intros dir w1 Hw Hd Hok Hdr Hne Har E Hw2 Hsame st. subst st. unfold Main.restoreAction. cbv zeta.
  change (if TrimSpace [] ==? [] then Some None else Some <$> ParseDate (TrimSpace [])) with (Some (@None Time)). cbv beta iota.
  fold dir. destruct (select_latest dir w Hw Hd Hne) as (f & sel & w1' & E1 & _ & _ & Hp). rewrite (act_bind _ _ _ _ _ _ _ _ _ E1).
  subst w1. rewrite E1 in E. cbn [snd] in E. rewrite (act_bind _ _ _ _ _ _ _ _ _ E).
  destruct e as [e|]; [split; [done|]; split; [by right|]; split; [done|by intros []]|].
  destruct (import_latest (Main.restoreConn cfg true) ok dir (w_fs w) f sel w2 Hok Hdr Hw2 Hp) as (r & w3 & E3 & Hf3 & Hr).
  { intros p Hl. auto. }
  rewrite (act_bind _ _ _ _ _ _ _ _ _ E3), <- Hr. destruct r; (split; [exact Hf3|]; split; [auto|split; [done|by intros []]]).
Qed.

End Action.

(** ** Theorems *)

(** C2: Backup and restore work together: after a backup run without I/O errors into a
    directory with no archive or .sav file of that day or later but those the run replaces, the
    restore action without a date, in any later state with the same files, ends well exactly if
    the client accepts, for every database of the run, the dump followed by the users' block,
    and otherwise with exit code 1: it hands over all of these texts and no others. *)
Theorem backup_then_restore (FT : Faults) (AB : ArchiveBytes) (EX : Exec) (SS : SliceSort) (MO : MapOrder) (DR : Restore.Drain) (SF : Sftp) (NT : Net)
    cfg userSQL dbs isMariaDB dump ok w s :
  let dir := Config.BackupDir cfg in
  let host := Backup.hostnameForFile (Config.HostnameForBackup cfg) in
  let users := fst (fst (UserSQL.ParseUserSQL userSQL)) in
  fine w -> (0 <= Year (w_now w) <= 9999)%Z ->
  GoPath.Clean dir = dir -> w_fs w !! dir = Some NDir -> Backup.no_dirs dir (w_fs w) ->
  Forall (Backup.dumpable (Run.connOf cfg) isMariaDB dump) dbs -> dbs <> [] -> outdated dir host (w_now w) dbs (w_fs w) ->
  imports (Main.restoreConn cfg false) ok -> (forall t sql, Restore.drained t sql = true) ->
  fine (fst (fst (Main.s_run s))) ->
  Main.files_of s = w_fs (snd (@Backup.Run FT byte_sizes EX MO cfg (Run.connOf cfg) userSQL dbs isMariaDB w)) ->
  fst (Main.restoreAction cfg [] false s) = if forallb (fun db => ok (textOf users dump db)) dbs then inr tt else inl 1%Z.
Proof.
  intros dir host users Hw Hy Hc Hd Hn Hall Hne Hold Hok Hdr Hs Hfs.
  destruct (@Backup.does_Run_frame FT byte_sizes EX MO cfg (Run.connOf cfg) userSQL dbs isMariaDB dump w Hw Hy Hc Hd Hn Hall) as (l & w' & E & _ & _ & _ & Hdir').
  pose proof (does_run _ _ _ _ _ _ (@Backup.does_Run_archives FT byte_sizes EX MO cfg (Run.connOf cfg) userSQL dbs isMariaDB dump w Hy Hc Hd Hn Hall) Hw eq_refl eq_refl) as [_ Efs].
  fold dir host users in Efs. rewrite E in Hfs, Efs. cbn [snd] in Hfs, Efs. rewrite Efs in Hfs, Hdir'. fold (@afterRun byte_sizes dir host users dump (w_now w) dbs (w_fs w)) in Hfs, Hdir'.
  assert (GoPath.slash ∉ host) as Hh by apply Backup.hostnameForFile_no_slash.
  assert (Forall (fun db => GoPath.slash ∉ db) dbs) as Hsl by (eapply Forall_impl; [exact Hall|]; by intros x []).
  destruct s as [[[wr h] tr] wd out]. cbn in Hfs, Hs.
  pose proof (fun p t => @afterRun_latest byte_sizes dir host users dump (w_now w) dbs (w_fs w) Hy Hh Hn Hsl p t Hold Hdir' Hne) as Hlat.
  pose proof (fun db => @afterRun_zip byte_sizes dir host users dump (w_now w) dbs (w_fs w) Hy Hh Hsl db Hdir') as Hzip.
  rewrite <- Hfs in Hlat, Hzip, Hdir'.
  assert (forall p, latest (w_fs wr) dir p <-> p ∈ Backup.zipPathOf dir (FormatDate (w_now w)) host <$> dbs) as Hps.
  { intros p. split; [intros [t Ht]; by apply Hlat in Ht as []|]. intros Hp. exists (mkTime (t_day (w_now w)) 0). by apply Hlat. }
  destruct (restoreAction_latest cfg ok wr h tr wd out) as [Hr Hiff]; try done.
  - destruct dbs as [|db dbs]; [done|]. eexists. apply Hps. left.
  - intros p (db & -> & Hdb)%Hps%list_elem_of_fmap. eexists. by apply Hzip.
  - destruct (forallb _ dbs) eqn:Ef.
    + apply Hiff. intros p sql (db & -> & Hdb)%Hps%list_elem_of_fmap Ha. rewrite (archive_fun _ _ _ _ Ha (proj2 (Hzip db Hdb))).
      rewrite forallb_forall in Ef. by apply Ef, list_elem_of_In.
    + destruct Hr as [Hr|Hr]; [|done]. exfalso. apply not_true_iff_false in Ef. apply Ef, forallb_forall. intros db Hdb%list_elem_of_In.
      eapply (proj1 Hiff Hr); [by apply Hps, list_elem_of_fmap_2|by apply Hzip].
Qed.

(** C5: A full restore replaces the data and imports the latest backup: without I/O errors, with
    a template beside the data directory, no old data in the way and the archives outside the
    data, the action ends with exit code 1 and unchanged files if the server cannot be stopped;
    otherwise the data directory becomes a copy of the template, what was in it is kept below
    the name with ".old" and nothing else changes, and the action ends well exactly if the
    server starts again and the client, logging in without a password, accepts every text of
    the latest day, else with exit code 1. *)
Theorem full_restore (FT : Faults) (AB : ArchiveBytes) (EX : Exec) (SS : SliceSort) (DR : Restore.Drain) (SF : Sftp) (NT : Net) cfg ok s :
  let data := Reinit.dataDirOf cfg in let backup := Reinit.backupDirOf cfg in let old := data ++ ".old" in let dir := Config.BackupDir cfg in
  let w := fst (fst (Main.s_run s)) in let fs := w_fs w in
  GoPath.IsRooted data = true -> GoPath.IsRooted backup = true -> Reinit.apart data backup -> FileTree.well_formed fs -> Reinit.shallow backup fs ->
  fine w -> TrimSpace (Config.MySQLDataDir cfg) <> [] -> fs !! data = Some NDir -> fs !! backup = Some NDir -> fs !! old = None ->
  fs !! dir = Some NDir -> (exists p, latest fs dir p) ->
  (forall p, latest fs dir p -> (exists sql, archive fs p sql) /\ forall r, FileTree.names r -> p <> Reinit.inside data r /\ p <> Reinit.inside old r) ->
  imports (Main.restoreConn cfg true) ok -> (forall t sql, Restore.drained t sql = true) ->
  let st := Main.restoreAction cfg [] true s in
  let w1 := snd (@Retention.LastBackupBefore FT byte_sizes SS dir None w) in
  match Reinit.stopServer cfg (snd (Reinit.checkDirs data backup old w1)) with
  | (Some _, _) => fst st = inl 1%Z /\ Main.files_of (snd st) = fs
  | (None, w2) =>
      Reinit.replaced data backup old (w_now w2) fs (Main.files_of (snd st)) /\ (fst st = inr tt \/ fst st = inl 1%Z) /\
      (fst st = inr tt <-> fst (Reinit.startServer cfg (snd (Reinit.replaceData data backup old w2))) = None /\ accepted fs dir ok)
  end.
Proof.
  destruct s as [[[w h] tr] wd out]. intros data backup old dir w0 fs. change w0 with w in fs |- *. clear w0. subst fs. intros Hrd Hrb Ha Hwf Hsh Hw Hne Hd Hb Ho Hdir Hlat Hout Hok Hdr st w1.
  destruct (@LastBackupBefore_ok FT byte_sizes SS dir None w Hdir Hw) as (sel & w1' & E1 & Hf1 & Hw1). assert (w1 = w1') as -> by (unfold w1; by rewrite E1).
  pose proof (Reinit.FullReinit_steps cfg w1' Hrd Hrb Ha) as H. fold data backup old in H. rewrite Hf1 in H. specialize (H Hwf Hsh Hw1 Hne Hd Hb Ho).
  pose proof (fun e w2 => restoreAction_full cfg ok w h tr wd out e w2 Hw Hdir Hok Hdr Hlat (fun p Hp => proj1 (Hout p Hp))) as Hact. fold dir in Hact. rewrite E1 in Hact.
  pose proof (fine_forward _ _ (Reinit.forward_stopServer cfg) (fine_forward _ _ (Reinit.forward_checkDirs data backup old) Hw1)) as Hws.
  destruct (Reinit.stopServer cfg _) as [[e|] w2].
  - destruct H as [E Hf]. destruct (Hact _ _ E Hws) as (Hfs & Hr & Hiff); [done|]. fold st in Hfs, Hr, Hiff. split; [|congruence].
    destruct Hr as [Hr|Hr]; [|done]. by apply Hiff in Hr as [].
  - destruct H as (E & Hw3 & Hrep). set (w3 := snd _) in *. rewrite (surjective_pairing (Reinit.startServer cfg w3)) in E.
    pose proof (Reinit.keeps_fs _ w3 (fun J => Reinit.keeps_startServer J cfg)) as Hfs3.
    destruct (Hact _ _ E (fine_forward _ _ (Reinit.forward_startServer cfg) Hw3)) as (Hfs & Hr & Hiff).
    + intros p _ Hp. rewrite Hfs3. apply Hrep. by apply Hout.
    + fold st in Hfs, Hr, Hiff. rewrite Hfs, Hfs3. done.
Qed.

(** ** Witnesses *)

Definition yesterdaysZip : gostring := "mysql_backup_20240114_localhost_shop.zip".
Definition sampleFs : files := <[str "/b" := NDir]> (<[GoPath.Join "/b" yesterdaysZip := Backup.sampleOld]> ∅).

Lemma sampleFs_lookup name n : GoPath.plain name -> sampleFs !! GoPath.Join "/b" name = Some n -> name = yesterdaysZip.
Proof.
  intros Hp. unfold sampleFs. rewrite lookup_insert_ne.
  - intros [[E _]|[_ []%lookup_empty_Some]]%lookup_insert_Some. apply GoPath.Join_plain_inj in E; [done|by apply (bool_decide_eq_true_1 _)|done].
  - rewrite GoPath.Join_plain by done. intros E. apply (f_equal length) in E. rewrite length_app in E. by destruct name as [|c name]; [destruct Hp as (_ & [] & _)|].
Qed.

Lemma sampleFs_outdated host dbs : outdated "/b" host Backup.sampleDay dbs sampleFs.
Proof.
  intros base t Hb Ht H. left. assert (base ++ ".zip" = yesterdaysZip \/ base ++ ".sav" = yesterdaysZip) as [E|E].
  { destruct H as [[n H]|[n H]]; [left|right]; (eapply sampleFs_lookup; [|exact H]); by apply Backup.plain_ext. }
  - rewrite E in Ht. vm_compute in Ht. injection Ht as <-. reflexivity.
  - apply (f_equal (@last _)) in E. rewrite last_app in E. discriminate E.
Qed.

(** A client that imports everything but texts with "bad" in them. *)
Definition sampleClient : Exec := fun _ cmd _ stdin =>
  if cmd ==? str "/opt/mysql/bin/mysqldump" then mkExec (str "dump") [] (str "dump") None
  else mkExec [] [] [] (if Contains stdin "bad" then Some (ExitError 1) else None).

Definition backedUpWorld : World :=
  snd (@Backup.Run NoFaults (@byte_sizes Remote.sampleBytes) sampleClient _ Backup.sampleCfg (Run.connOf Backup.sampleCfg) Backup.sampleUserSQL [str "shop"; str "crm"] false
         (mkWorld sampleFs Backup.sampleDay 0 [] [])).

Definition backedUpSys : @Main.Sys treeSftp := Main.mkSys (backedUpWorld, mkTree Remote.emptyTree (Remote.day 17), []) (inr (str "/")) [].

Lemma backup_then_restore_witness :
  fst (@Main.restoreAction NoFaults Remote.sampleBytes sampleClient _ (fun _ _ => true) treeSftp noNet Backup.sampleCfg [] false backedUpSys) = inr tt.
Proof.
  rewrite (backup_then_restore NoFaults Remote.sampleBytes sampleClient _ _ (fun _ _ => true) treeSftp noNet Backup.sampleCfg Backup.sampleUserSQL
    [str "shop"; str "crm"] false (fun _ => mkExec (str "dump") [] (str "dump") None) (fun sql => negb (Contains sql "bad")) (mkWorld sampleFs Backup.sampleDay 0 [] [])).
  - vm_compute. reflexivity.
  - apply Backup.fine_NoFaults.
  - vm_compute. split; discriminate.
  - reflexivity.
  - reflexivity.
  - apply Backup.no_dirs_check. reflexivity.
  - repeat constructor; apply (bool_decide_eq_true_1 _); reflexivity.
  - discriminate.
  - apply sampleFs_outdated.
  - intros t sql. unfold exec, sampleClient. change (Mysql.binPath (Main.restoreConn Backup.sampleCfg false) "mysql" ==? str "/opt/mysql/bin/mysqldump") with false.
    cbn [x_err]. by destruct (Contains sql "bad").
  - reflexivity.
  - apply Backup.fine_NoFaults.
  - reflexivity.
Defined.

(** A server with a data directory, a template and one archive. *)
Definition shopZip : gostring := "/b/mysql_backup_20240114_localhost_shop.zip".
Definition fullFs : files :=
  <[str "/b" := NDir]> (<[shopZip := NFile (Zip [(str "shop.sql", str "dump")] true) Reinit.day]> Reinit.sampleFs).
Definition fullSys : @Main.Sys treeSftp := Main.mkSys (mkWorld fullFs (Date 2024 1 16 0) 0 [] [], mkTree Remote.emptyTree (Remote.day 17), []) (inr (str "/")) [].

Lemma fullFs_dated p t : Retention.dated_archive fullFs "/b" p t -> p = shopZip /\ t = Date 2024 1 14 0.
Proof.
  intros (_ & name & d & mt & Hn & -> & Hp & Ht). assert (map_Forall (fun k n => match n with NFile _ _ => GoPath.Dir k = str "/b" -> k = shopZip | NDir => True end) fullFs) as H.
  { apply map_Forall_to_list. vm_compute. repeat constructor; discriminate || reflexivity. }
  specialize (H _ _ Hp). cbv beta iota in H. rewrite GoPath.Dir_Join in H by done. specialize (H eq_refl).
  change shopZip with (GoPath.Join "/b" yesterdaysZip) in *. assert (name = yesterdaysZip) as -> by (apply GoPath.Join_plain_inj in H; [done|done|by apply (bool_decide_eq_true_1 _)]).
  split; [done|]. vm_compute in Ht. by injection Ht as <-.
Qed.

Lemma fullFs_latest p : latest fullFs "/b" p <-> p = shopZip.
Proof.
  split; [by intros (t & [-> _]%fullFs_dated & _)|]. intros ->. exists (Date 2024 1 14 0). split.
  - split; [reflexivity|]. exists yesterdaysZip, (Zip [(str "shop.sql", str "dump")] true), Reinit.day. split_and!; [by apply (bool_decide_eq_true_1 _)|reflexivity|reflexivity|vm_compute; reflexivity].
  - intros p' t' [_ ->]%fullFs_dated. done.
Qed.

Lemma shopZip_outside d r : names r -> GoPath.plain d -> shopZip <> Reinit.inside (pathOf [str "srv"; d]) r.
Proof.
  intros Hr Hd. assert (names [str "srv"; d]) as Hs by (apply Forall_cons; split; [by apply (bool_decide_eq_true_1 _)|by apply Forall_singleton]).
  unfold Reinit.inside. rewrite foldl_Join_pathOf by done. change shopZip with (pathOf [str "b"; yesterdaysZip]). intros E.
  apply pathOf_inj in E; [discriminate E|repeat constructor; by apply (bool_decide_eq_true_1 _)|by apply names_app].
Qed.

(** The port is closed, and open after the start of the server. *)
Definition fullNet : Net := mkNet (fun t _ _ => (8 <? t)%nat) (fun _ => 0%N).

Abbreviation fullCfg := (Reinit.sampleCfg "mysqld" []).

Lemma full_restore_witness :
  let st := @Main.restoreAction NoFaults Remote.sampleBytes sampleClient _ (fun _ _ => true) treeSftp fullNet fullCfg [] true fullSys in
  fst st = inr tt /\ Main.files_of (snd st) !! str "/srv/data.old/ibdata1" = Some (NFile (Raw "rows") Reinit.day).
Proof.
  cbv zeta. pose proof (full_restore NoFaults Remote.sampleBytes sampleClient _ (fun _ _ => true) treeSftp fullNet fullCfg (fun sql => negb (Contains sql "bad")) fullSys) as H.
  cbv zeta in H. change (w_fs _) with fullFs in H.
  assert (match @Reinit.stopServer sampleClient fullNet fullCfg (snd (@Reinit.checkDirs NoFaults (Reinit.dataDirOf fullCfg) (Reinit.backupDirOf fullCfg) (Reinit.dataDirOf fullCfg ++ ".old")
      (snd (@Retention.LastBackupBefore NoFaults (@byte_sizes Remote.sampleBytes) _ "/b" None (fst (fst (Main.s_run fullSys))))))) with
    | (None, w2) => fst (@Reinit.startServer sampleClient fullNet fullCfg (snd (@Reinit.replaceData NoFaults (Reinit.dataDirOf fullCfg) (Reinit.backupDirOf fullCfg) (Reinit.dataDirOf fullCfg ++ ".old") w2))) = None
    | _ => False end) as Hs by (vm_compute; reflexivity).
  change (Config.BackupDir fullCfg) with (str "/b") in H. destruct (Reinit.stopServer _ _) as [[e|] w2]; [done|]. destruct H as ((_ & Hold & _) & _ & Hiff).
  - reflexivity.
  - reflexivity.
  - split; reflexivity.
  - apply Reinit.well_formed_check. vm_compute. reflexivity.
  - apply (Reinit.shallow_check [str "srv"; str "backup"]); [repeat constructor; apply (bool_decide_eq_true_1 _); reflexivity|vm_compute; reflexivity].
  - by intros t _.
  - discriminate.
  - reflexivity.
  - reflexivity.
  - reflexivity.
  - reflexivity.
  - exists shopZip. by apply fullFs_latest.
  - intros p ->%fullFs_latest. split; [exists (str "dump"), (str "shop"), Reinit.day; reflexivity|].
    intros r Hr. split; (apply (shopZip_outside _ r Hr); by apply (bool_decide_eq_true_1 _)).
  - intros t sql. change (exec t _ _ sql) with (mkExec [] [] [] (if Contains sql "bad" then Some (ExitError 1) else None)). by destruct (Contains sql "bad").
  - done.
  - split.
    + apply Hiff. split; [exact Hs|]. intros p sql ->%fullFs_latest (db & t & Hp). vm_compute in Hp. injection Hp as _ <- _. reflexivity.
    + apply (Hold [str "ibdata1"]). repeat constructor; by apply (bool_decide_eq_true_1 _).
Defined.

End EndToEnd.
