(* ===== verification/MessageTypes.v ===== *)
(** * Every message has the arguments its text takes.

    The formats of the messages are in the translation files, out of the compiler's sight.
    An invariant over the whole program says that the messages logged and printed so far
    are typed: in every language the directives of the text fit the arguments. *)

From S2P Require Import Prelude GoStrings Regexp GoTime GoPath GoRuntime World GoFmt Translations CrashLogic FileTree Polling I18n Config Mysql Retention UserSQL Backup Schedule Restore Reinit RemoteHost Remote Email Logger Run Main.
Import GoStrings GoTime GoRuntime World GoFmt CrashLogic FileTree Polling I18n RemoteHost.

Module MessageTypes.

Definition entry_ok (l : LogEntry) : Prop := typed (l_key l) (l_args l) = true.

Definition log_ok (w : World) : Prop := Forall entry_ok (w_log w).

(** ** State transformers that keep an invariant *)

Definition keeping {S A : Type} (I : S -> Prop) (m : S -> A * S) : Prop := forall s, I s -> I (snd (m s)).

Lemma keeping_bind {S A B : Type} (I : S -> Prop) (m : S -> A * S) (f : A -> S -> B * S) :
  keeping I m -> (forall x, keeping I (f x)) -> keeping I (fun s => let '(x, s') := m s in f x s').
Proof. intros Hm Hf s Hs. specialize (Hm s Hs). destruct (m s) as [x s']. by apply Hf. Qed.

Definition tidy {A : Type} (m : M A) : Prop := keeping log_ok m.

Lemma tidy_bind {A B : Type} (m : M A) (f : A -> M B) : tidy m -> (forall x, tidy (f x)) -> tidy (m ≫= f).
Proof. apply keeping_bind. Qed.

Lemma tidy_ret {A : Type} (x : A) : tidy (mret x).
Proof. intros w H. exact H. Qed.

Lemma tidy_log l key a : typed key a = true -> tidy (log_at l key a).
Proof. intros H w Hw. apply Forall_app. split; [exact Hw|]. by constructor. Qed.

(** An action that leaves the log alone. *)
Lemma tidy_same {A : Type} (m : M A) : (forall w, w_log (snd (m w)) = w_log w) -> tidy m.
Proof. intros H w Hw. unfold log_ok. by rewrite H. Qed.

Lemma tidy_syscall `{Faults} {A : Type} (act : World -> (err + A) * World) : (forall w, w_log (snd (act w)) = w_log w) -> tidy (syscall act).
Proof.
  intros H0. apply tidy_same. intros w. unfold syscall. destruct (fault (w_tick w)); [done|].
  specialize (H0 (tick w)). by destruct (act (tick w)).
Qed.

Create HintDb tidy discriminated.
#[export] Hint Resolve tidy_ret : tidy.

(** ** The operating system *)

Section Calls.
Context {FT : Faults}.

Lemma tidy_Stat p : tidy (Stat p). Proof. by apply tidy_syscall. Qed.
Lemma tidy_Remove p : tidy (Remove p). Proof. apply tidy_syscall. intros w. destruct (w_fs w !! p) as [[]|]; try case_if; done. Qed.
Lemma tidy_Rename p q : tidy (Rename p q). Proof. apply tidy_syscall. intros w. destruct (w_fs w !! p); [case_if|]; done. Qed.
Lemma tidy_Create p : tidy (Create p). Proof. apply tidy_syscall. intros w. repeat case_if; done. Qed.
Lemma tidy_Write p d : tidy (Write p d). Proof. by apply tidy_syscall. Qed.
Lemma tidy_ReadFile p : tidy (ReadFile p). Proof. apply tidy_syscall. intros w. destruct (w_fs w !! p) as [[|[]]|]; done. Qed.
Lemma tidy_Open p : tidy (Open p). Proof. by apply tidy_syscall. Qed.
Lemma tidy_ReadAll `{ArchiveBytes} n : tidy (ReadAll n). Proof. by apply tidy_syscall. Qed.
Lemma tidy_ReadDir d : tidy (ReadDir d). Proof. apply tidy_syscall. intros w. destruct (w_fs w !! d) as [[]|]; done. Qed.

Lemma mkdirs_log ps w : w_log (snd (mkdirs ps w)) = w_log w.
Proof. revert w. induction ps as [|p ps IH]; intros w; [done|]. cbn. destruct (w_fs w !! p) as [[]|]; [by rewrite IH|done|by rewrite IH]. Qed.

Lemma tidy_MkdirAll p : tidy (MkdirAll p).
Proof. apply tidy_syscall. intros w. destruct (w_fs w !! p) as [[]|]; [done|apply mkdirs_log..]. Qed.

Lemma tidy_RenameTree p q : tidy (RenameTree p q).
Proof. apply tidy_syscall. intros w. repeat case_match; done. Qed.

Lemma tidy_get_now : tidy get_now. Proof. by apply tidy_same. Qed.
Lemma tidy_Sleep d : tidy (Sleep d). Proof. by apply tidy_same. Qed.
Lemma tidy_run_cmd `{Exec} c a i : tidy (run_cmd c a i). Proof. by apply tidy_same. Qed.

Lemma tidy_for_each {A : Type} (xs : list A) body : (forall x, tidy (body x)) -> tidy (for_each xs body).
Proof. intros H. induction xs as [|x xs IH]; [apply tidy_ret|]. apply tidy_bind; auto. Qed.

Lemma tidy_until_error {A : Type} (xs : list A) body : (forall x, tidy (body x)) -> tidy (until_error xs body).
Proof. intros H. induction xs as [|x xs IH]; [apply tidy_ret|]. apply tidy_bind; [auto|]. intros [e|]; [apply tidy_ret|exact IH]. Qed.

End Calls.

(** Follows the structure of an action; messages are checked against the English text. *)
Ltac check_message :=
  lazymatch goal with
  | |- tidy (log_at _ _ _) => idtac
  | |- tidy (Info _ _) => idtac
  | |- tidy (Warn _ _) => idtac
  end; apply tidy_log; vm_compute; reflexivity.
Ltac intro_vars := repeat match goal with |- forall _, _ => intro end.
Ltac step_tidy :=
  lazymatch goal with
  | |- tidy (_ ≫= _) => apply tidy_bind
  | |- tidy (for_each _ _) => apply tidy_for_each
  | |- tidy (until_error _ _) => apply tidy_until_error
  end.
Ltac solve_tidy := repeat (intro_vars; cbv zeta; first [solve [eauto 2 with tidy] | check_message | step_tidy | case_match]).

#[export] Hint Resolve tidy_Stat tidy_Remove tidy_Rename tidy_Create tidy_Write tidy_ReadFile tidy_Open tidy_ReadAll tidy_ReadDir
  tidy_MkdirAll tidy_RenameTree tidy_get_now tidy_Sleep tidy_run_cmd tidy_for_each tidy_until_error : tidy.

(** ** The components on this machine *)

Section Components.
Context {FT : Faults} {AS : ArchiveSize} {AB : ArchiveBytes} {EX : Exec} {SS : SliceSort} {MO : MapOrder} {MSG : Messages} {DR : Restore.Drain} {NT : Net}
  {DL : Run.Deadline} {ST : Disk.Statfs}.

Lemma tidy_WriteFile p b : tidy (WriteFile p b).
Proof. unfold WriteFile. solve_tidy. Qed.

Lemma tidy_timed check : tidy check -> tidy (timed check).
Proof. intros Hc w Hw. specialize (Hc w Hw). unfold timed. by destruct (check w). Qed.

Lemma tidy_poll_for t i check : tidy check -> tidy (poll_for t i check).
Proof.
  intros H. assert (forall n d, tidy (poll n d i check)) as Hp.
  { induction n as [|n IH]; intros d; cbn [poll]; solve_tidy; by apply tidy_timed. }
  unfold poll_for. solve_tidy.
Qed.

Lemma tidy_Dials h p : tidy (Dials h p).
Proof. by apply tidy_same. Qed.

Lemma tidy_ConfigPath env f d : tidy (Config.ConfigPath env f d).
Proof. unfold Config.ConfigPath. solve_tidy. Qed.

Lemma tidy_New p : tidy (Logger.New p).
Proof.
  unfold Logger.New, Logger.OpenAppend. apply tidy_bind; [auto with tidy|]. intros [e|u]; [apply tidy_ret|].
  apply tidy_bind; [|intros; apply tidy_ret]. apply tidy_syscall. intros w. repeat case_match; done.
Qed.

Lemma tidy_Available wd p : tidy (Disk.Available wd p).
Proof. unfold Disk.Available. apply tidy_bind; [auto with tidy|]. intros x. by apply tidy_same. Qed.

(** *** mysql *)

Lemma tidy_ExportUsers c b : tidy (Mysql.ExportUsers c b).
Proof.
  assert (forall ls, tidy (Mysql.exportRows c ls)) as Hr.
  { induction ls as [|l ls IH]; cbn [Mysql.exportRows]; unfold Mysql.exportRow; solve_tidy. }
  unfold Mysql.ExportUsers, Mysql.exportUsersMariaDB, Mysql.exportUsersMariaDBFallback. solve_tidy.
Qed.

Lemma tidy_DumpDatabase c db b dest : (forall s, tidy (dest s)) -> tidy (Mysql.DumpDatabase c db b dest).
Proof. intros H. unfold Mysql.DumpDatabase. solve_tidy. Qed.

Lemma tidy_ImportSQL c s : tidy (Mysql.ImportSQL c s).
Proof. unfold Mysql.ImportSQL. solve_tidy. Qed.

Lemma tidy_Reachable c : tidy (Mysql.Reachable c).
Proof. unfold Mysql.Reachable. solve_tidy. Qed.

Lemma tidy_IsMariaDB c : tidy (Mysql.IsMariaDB c).
Proof. unfold Mysql.IsMariaDB. solve_tidy. Qed.

Lemma tidy_ListDatabases c : tidy (Mysql.ListDatabases c).
Proof. unfold Mysql.ListDatabases. solve_tidy. Qed.

(** *** retention *)

Lemma tidy_ListBackups d : tidy (Retention.ListBackups d).
Proof.
  assert (forall es, tidy (Retention.list_loop d es)) as Hl.
  { induction es as [|e es IH]; cbn [Retention.list_loop]; unfold Retention.list_entry; solve_tidy. }
  unfold Retention.ListBackups. solve_tidy.
Qed.

#[local] Hint Resolve tidy_WriteFile tidy_Dials tidy_ListBackups : tidy.

Lemma tidy_LastBackupBefore d b : tidy (Retention.LastBackupBefore d b).
Proof. unfold Retention.LastBackupBefore. solve_tidy. Qed.

Lemma tidy_ApplyToDirs d r p : tidy (Retention.ApplyToDirs d r p).
Proof.
  assert (forall d, tidy (Retention.Apply d p)) as Ha.
  { intros d'. unfold Retention.Apply, Retention.prune_one. solve_tidy. }
  unfold Retention.ApplyToDirs. solve_tidy.
Qed.

(** *** backup *)

(** The warnings of the parser are typed, and so are those of the output. *)
Lemma parseLine_warnings st l : Forall entry_ok (snd st) -> Forall entry_ok (snd (UserSQL.parseLine st l)).
Proof.
  assert (forall u h t, Forall entry_ok (snd (UserSQL.noteHost u h t))) as Hn.
  { intros u h t. unfold UserSQL.noteHost. repeat case_match; cbn; auto. by repeat constructor. }
  intros H. unfold UserSQL.parseLine, UserSQL.parseCreate, UserSQL.parseGrant. cbv zeta.
  repeat case_match; auto; cbn; apply Forall_app; (split; [done|]);
    match goal with E : UserSQL.noteHost ?u ?h ?t = (_, ?ws) |- Forall _ ?ws => specialize (Hn u h t); by rewrite E in Hn end.
Qed.

Lemma ParseUserSQL_warnings s : Forall entry_ok (snd (UserSQL.ParseUserSQL s)).
Proof.
  unfold UserSQL.ParseUserSQL. case_bool_decide; [constructor|]. destruct (UserSQL.parseUserRecords s) as [users ws] eqn:E.
  assert (Forall entry_ok ws) as Hws.
  { change ws with (snd (users, ws)). rewrite <- E. unfold UserSQL.parseUserRecords.
    assert (forall ls st, Forall entry_ok (snd st) -> Forall entry_ok (snd (fold_left UserSQL.parseLine ls st))) as Hf.
    { induction ls as [|l ls IH]; intros st Hst; [done|]. by apply IH, parseLine_warnings. }
    by apply Hf. }
  assert (forall us acc, Forall entry_ok (snd acc) -> Forall entry_ok (snd (fold_left UserSQL.addUser us acc))) as Hf.
  { induction us as [|u us IH]; intros acc Hacc; [done|]. apply IH. unfold UserSQL.addUser. case_bool_decide; [done|].
    cbn [snd]. apply Forall_app. split; [done|]. case_match; repeat constructor. }
  specialize (Hf (snd <$> range_map users) (∅, ws) Hws). by destruct (fold_left _ _ _).
Qed.

Lemma tidy_recoverSavFiles d : tidy (Backup.recoverSavFiles d).
Proof. unfold Backup.recoverSavFiles, Backup.recoverOne. solve_tidy. Qed.

Lemma tidy_zipWrite p b : tidy (Backup.zipWrite p b).
Proof. intros w Hw. unfold Backup.zipWrite. repeat case_match; try exact Hw. by apply tidy_Write. Qed.

Lemma tidy_zipClose p : tidy (Backup.zipClose p).
Proof. intros w Hw. unfold Backup.zipClose. repeat case_match; try exact Hw; by apply tidy_Write. Qed.

Lemma tidy_fileClose p : tidy (Backup.fileClose p).
Proof. by apply tidy_syscall. Qed.

#[local] Hint Resolve tidy_recoverSavFiles tidy_zipWrite tidy_zipClose tidy_fileClose tidy_ImportSQL : tidy.

Lemma tidy_cancel p : tidy (Backup.cancel p).
Proof. unfold Backup.cancel. solve_tidy. Qed.

#[local] Hint Resolve tidy_cancel tidy_DumpDatabase : tidy.

Lemma tidy_backupOne c b z db u : tidy (Backup.backupOne c b z db u).
Proof.
  assert (forall ps, tidy (Backup.writePieces z ps)) as Hp.
  { induction ps as [|p ps IH]; cbn [Backup.writePieces]; solve_tidy. }
  unfold Backup.backupOne, Backup.safeWriteZIPStreaming, Backup.safeWriteFrom, Backup.zipCreate, Backup.restoreSav, Backup.streamOne, Backup.finish.
  solve_tidy; try apply Hp; try apply tidy_cancel; apply tidy_DumpDatabase; auto with tidy.
Qed.

#[local] Hint Resolve tidy_backupOne : tidy.

Lemma tidy_Run cfg c u dbs b : tidy (Backup.Run cfg c u dbs b).
Proof.
  assert (forall dir d h m l cr, tidy (Backup.runLoop c b dir d h m l cr)) as Hl.
  { intros dir d h m l. induction l as [|x l IH]; intros cr; cbn [Backup.runLoop]; solve_tidy. }
  pose proof (ParseUserSQL_warnings u) as Hw. unfold Backup.Run. destruct (UserSQL.ParseUserSQL u) as [[m names] ws].
  assert (tidy (Backup.log_all ws)) as Hlog.
  { unfold Backup.log_all. cbn in Hw. induction Hw as [|e es He _ IH]; [apply tidy_ret|]. apply tidy_bind; [by apply tidy_log|auto]. }
  solve_tidy.
Qed.

(** *** restore *)

Lemma tidy_lifecycle c b : tidy (Restore.runMySQLLifecycleCmd c b).
Proof. unfold Restore.runMySQLLifecycleCmd. solve_tidy. Qed.

Lemma tidy_restoreZip c p : tidy (Restore.restoreZip c p).
Proof.
  assert (tidy (Restore.zipOpen p)) by (apply tidy_syscall; intros w; repeat case_match; done).
  assert (tidy Restore.entryOpen) by (by apply tidy_syscall).
  assert (forall s, tidy (Restore.copyErr s)) by (intros s; by apply tidy_same).
  unfold Restore.restoreZip. solve_tidy.
Qed.

#[local] Hint Resolve tidy_lifecycle tidy_restoreZip : tidy.

Lemma tidy_RestoreFromZips c fs : tidy (Restore.RestoreFromZips c fs).
Proof.
  assert (tidy (Restore.restoreLoop c fs)) as Hl by (induction fs as [|f fs IH]; cbn [Restore.restoreLoop]; solve_tidy).
  unfold Restore.RestoreFromZips. solve_tidy.
Qed.

Lemma tidy_walkDir n p d fn : (forall p x, tidy (fn p x)) -> tidy (walkDir n p d fn).
Proof.
  intros H. revert p d. induction n as [|n IH]; intros p d; cbn [walkDir]; solve_tidy.
Qed.

Lemma tidy_copyDir s d : tidy (Reinit.copyDir s d).
Proof.
  assert (tidy Reinit.Close) by (by apply tidy_syscall).
  assert (forall p x, tidy (Reinit.copyEntry s d p x)) as He.
  { intros p x. unfold Reinit.copyEntry, Reinit.copyFile, Reinit.ioCopy. solve_tidy. }
  unfold Reinit.copyDir, WalkDir. solve_tidy. by apply tidy_walkDir.
Qed.

#[local] Hint Resolve tidy_copyDir tidy_poll_for : tidy.

Lemma tidy_FullReinit cfg : tidy (Reinit.FullReinit cfg).
Proof.
  unfold Reinit.FullReinit, Reinit.orElse, Reinit.checkDirs, Reinit.stopServer, Reinit.startServer, Reinit.replaceData, Reinit.portReachable,
    Reinit.waitForPortState, Reinit.portReachable. solve_tidy; apply tidy_poll_for; solve_tidy.
Qed.

(** *** run: the server *)

Lemma tidy_run_lifecycle c b : tidy (Run.runMySQLLifecycleCmd c b).
Proof.
  assert (tidy (fun w => (Run.deadline_exceeded (w_tick w), w))) by (by apply tidy_same).
  unfold Run.runMySQLLifecycleCmd. solve_tidy.
Qed.

Lemma tidy_waitForMySQL c t i : tidy (Run.waitForMySQL c t i).
Proof. apply tidy_poll_for. apply tidy_bind; [apply tidy_Reachable|intros; apply tidy_ret]. Qed.

End Components.

#[export] Hint Resolve tidy_WriteFile tidy_Dials tidy_ConfigPath tidy_New tidy_Available tidy_ExportUsers tidy_Reachable tidy_IsMariaDB tidy_ListDatabases
  tidy_ListBackups tidy_LastBackupBefore tidy_ApplyToDirs tidy_Run tidy_lifecycle tidy_RestoreFromZips tidy_FullReinit tidy_run_lifecycle tidy_waitForMySQL : tidy.

(** *** schedule *)

Section Scheduling.
Context {FT : Faults} {EX : Exec} {CT : Schedule.Crontab}.

(** The crontab program does not write the program's log. *)
Class TidyCrontab := {
  tidy_list : tidy Schedule.crontab_list;
  tidy_store : forall d, tidy (Schedule.crontab_store d)
}.
Context {TC : TidyCrontab}.
#[local] Hint Resolve tidy_list tidy_store : tidy.

Lemma tidy_getCrontab : tidy Schedule.getCrontab.
Proof. unfold Schedule.getCrontab. solve_tidy. Qed.
#[local] Hint Resolve tidy_getCrontab : tidy.

Lemma tidy_ensureUnixCron env cfg p : tidy (Schedule.ensureUnixCron env cfg p).
Proof.
  assert (forall ps e, tidy (Schedule.firstReadable ps e)) as Hf by (induction ps as [|q ps IH]; intros e; cbn [Schedule.firstReadable]; solve_tidy).
  unfold Schedule.ensureUnixCron, Schedule.ensureUnixCronSystemFile, Schedule.setCrontab. solve_tidy.
Qed.

Lemma tidy_EnsureInstalled env cfg p : tidy (Schedule.EnsureInstalled env cfg p).
Proof.
  pose proof tidy_ensureUnixCron. unfold Schedule.EnsureInstalled, Schedule.ensureUnix, Schedule.systemdUserAvailable, Schedule.ensureLinuxSystemd.
  solve_tidy.
Qed.

Lemma tidy_crontabHasMarker : tidy Schedule.crontabHasMarker.
Proof.
  assert (forall ps, tidy (Schedule.anyHasMarker ps)) as Hf by (induction ps as [|q ps IH]; cbn [Schedule.anyHasMarker]; solve_tidy).
  unfold Schedule.crontabHasMarker, Schedule.systemCrontabHasMarker. solve_tidy.
Qed.
#[local] Hint Resolve tidy_crontabHasMarker : tidy.

Lemma tidy_Status env cfg p : tidy (Schedule.Status env cfg p).
Proof. unfold Schedule.Status. solve_tidy. Qed.

Lemma tidy_Uninstall env : tidy (Schedule.Uninstall env).
Proof.
  assert (forall ps, tidy (Schedule.removeFromFirst ps)) as Hf by (induction ps as [|q ps IH]; cbn [Schedule.removeFromFirst]; solve_tidy).
  unfold Schedule.Uninstall, Schedule.removeCrontabMarker, Schedule.removeSystemCrontabMarker, Schedule.setCrontab. solve_tidy.
Qed.

(** What the status says has a text that takes its arguments. *)
Lemma Status_typed env cfg p w : let '(key, a) := fst (Schedule.Status env cfg p w) in key = [] \/ typed key a = true.
Proof.
  unfold Schedule.Status, mbind, M_bind. destruct (Config.UserHomeDir env) as [e|home]; [by left|].
  destruct (Stat _ w) as [[e|n] w1].
  - destruct (Schedule.crontabHasMarker w1) as [[] w2]; [right; vm_compute; reflexivity|by left].
  - right. vm_compute. reflexivity.
Qed.

End Scheduling.

(** ** Sessions with the remote host *)

Section Sessions.
Context {FT : Faults} {AB : ArchiveBytes} {SF : Sftp} {CR : Crypto} {RD : Rand}.

Definition tidyR {A : Type} (m : RM A) : Prop := keeping (fun ws => log_ok (fst ws)) m.

Lemma tidyR_ret {A : Type} (x : A) : tidyR (mret x).
Proof. intros ws H. exact H. Qed.

Lemma tidyR_bind {A B : Type} (m : RM A) (f : A -> RM B) : tidyR m -> (forall x, tidyR (f x)) -> tidyR (m ≫= f).
Proof. apply keeping_bind. Qed.

Lemma tidyR_here {A : Type} (m : M A) : tidy m -> tidyR (here m).
Proof. intros H [w s] Hw. specialize (H w Hw). unfold here. by destruct (m w). Qed.

Lemma tidyR_there {A : Type} (f : srv -> A * srv) : tidyR (there f).
Proof. intros [w s] Hw. unfold there. by destruct (f s). Qed.

Ltac solve_tidyR :=
  repeat (intro_vars; cbv zeta;
    first [ solve [eauto 2 with tidy]
          | lazymatch goal with
            | |- tidyR (mret _) => apply tidyR_ret
            | |- tidyR (_ ≫= _) => apply tidyR_bind
            | |- tidyR (there _) => apply tidyR_there
            | |- tidyR (here _) => apply tidyR_here; solve [solve_tidy]
            end
          | case_match ]).

Lemma tidy_rand n : tidy (rand_Read n).
Proof. by apply tidy_syscall. Qed.
#[local] Hint Resolve tidy_rand : tidy.

Lemma tidyR_copyTo p b : tidyR (Remote.copyTo p b).
Proof. unfold Remote.copyTo. solve_tidyR. Qed.
#[local] Hint Resolve tidyR_copyTo : tidy.

Lemma tidyR_uploadFile l r e p : tidyR (Remote.uploadFile l r e p).
Proof. unfold Remote.uploadFile, Remote.streamEncryptUpload. solve_tidyR. Qed.
#[local] Hint Resolve tidyR_uploadFile : tidy.

Lemma tidyR_withSession {A : Type} cfg (fail : err -> A) body : tidyR body -> tidyR (Remote.withSession cfg fail body).
Proof. intros H. unfold Remote.withSession, Remote.dial, Remote.keyAuth. solve_tidyR. Qed.

Lemma tidy_listLocalBackups d : tidy (Remote.listLocalBackups d).
Proof.
  assert (forall dir es, tidy (Remote.localLoop dir es)) as Hl by (intros dir; induction es as [|[n x] es IH]; cbn [Remote.localLoop]; solve_tidy).
  unfold Remote.listLocalBackups. solve_tidy.
Qed.
#[local] Hint Resolve tidy_listLocalBackups : tidy.

Lemma tidyR_uploadLoop rd m e p ls : tidyR (Remote.uploadLoop rd m e p ls).
Proof. induction ls as [|l ls IH]; cbn [Remote.uploadLoop]; unfold Remote.uploadOne; solve_tidyR. Qed.

Lemma tidyR_removeLoop rd ll rs : tidyR (Remote.removeLoop rd ll rs).
Proof. induction rs as [|r rs IH]; cbn [Remote.removeLoop]; unfold Remote.removeOne; solve_tidyR. Qed.

Lemma tidyR_listRemote d : tidyR (Remote.listRemote d).
Proof. unfold Remote.listRemote. solve_tidyR. Qed.
#[local] Hint Resolve tidyR_uploadLoop tidyR_removeLoop tidyR_listRemote : tidy.

Lemma tidyR_encryption (b : bool) : tidyR (here (Info (if b then "log.msg.remote_aes_on" else "log.msg.remote_aes_off") [])).
Proof. apply tidyR_here. destruct b; check_message. Qed.
#[local] Hint Resolve tidyR_encryption : tidy.

Lemma tidyR_syncBody cfg ls : tidyR (Remote.syncBody cfg ls).
Proof. unfold Remote.syncBody. solve_tidyR. Qed.

Lemma tidyR_Sync cfg d : tidyR (Remote.Sync cfg d).
Proof. unfold Remote.Sync. solve_tidyR. apply tidyR_withSession, tidyR_syncBody. Qed.

Lemma tidyR_copyFrom r o f l d : tidyR (Remote.copyFrom r o f l d).
Proof. unfold Remote.copyFrom. solve_tidyR. Qed.
#[local] Hint Resolve tidyR_copyFrom : tidy.

Lemma tidyR_getPlain r l h : tidyR (Remote.getPlain r l h).
Proof. unfold Remote.getPlain. solve_tidyR. Qed.

Lemma tidyR_getDecrypted r l h p n : tidyR (Remote.getDecrypted r l h p n).
Proof. unfold Remote.getDecrypted. solve_tidyR. Qed.

Lemma tidyR_readFull r n : tidyR (Remote.readFull r n).
Proof. unfold Remote.readFull. solve_tidyR. Qed.
#[local] Hint Resolve tidyR_getPlain tidyR_getDecrypted tidyR_readFull : tidy.

Lemma tidyR_getOneFile rd n l cfg : tidyR (Remote.getOneFile rd n l cfg).
Proof. unfold Remote.getOneFile. solve_tidyR. Qed.
#[local] Hint Resolve tidyR_getOneFile : tidy.

Lemma tidyR_GetFile cfg p d : tidyR (Remote.GetFile cfg p d).
Proof.
  assert (forall rd dd ns sv, tidyR (Remote.downloadLoop cfg rd dd ns sv)) as Hd.
  { intros rd dd. induction ns as [|n ns IH]; intros sv; cbn [Remote.downloadLoop]; solve_tidyR. }
  unfold Remote.GetFile. solve_tidyR. apply tidyR_withSession. unfold Remote.selectFiles, Remote.listRemote. solve_tidyR.
Qed.

End Sessions.

#[export] Hint Resolve tidyR_Sync tidyR_GetFile : tidy.

(** ** The orchestration *)

Section Flow.
Context {FT : Faults} {AB : ArchiveBytes} {EX : Exec} {SS : SliceSort} {MO : MapOrder} {MSG : Messages}.
Context {SF : Sftp} {CR : Crypto} {RD : Rand} {SM : Email.Smtp} {NT : Net} {DL : Run.Deadline} {ET : ErrorText} {ST : Disk.Statfs}.

Definition tidyX {A : Type} (m : Run.XM A) : Prop := keeping (fun st => log_ok (fst (fst st))) m.

Lemma tidyX_ret {A : Type} (x : A) : tidyX (mret x).
Proof. intros st H. exact H. Qed.

Lemma tidyX_bind {A B : Type} (m : Run.XM A) (f : A -> Run.XM B) : tidyX m -> (forall x, tidyX (f x)) -> tidyX (m ≫= f).
Proof. apply keeping_bind. Qed.

Lemma tidyX_local {A : Type} (m : M A) : tidy m -> tidyX (Run.local m).
Proof. intros H [[w s] tr] Hw. specialize (H w Hw). unfold Run.local. by destruct (m w). Qed.

Lemma tidyX_remotely {A : Type} (m : RM A) : tidyR m -> tidyX (Run.remotely m).
Proof. intros H [[w s] tr] Hw. specialize (H (w, s) Hw). unfold Run.remotely. by destruct (m (w, s)) as [x [w' s']]. Qed.

(** Sending an e-mail logs nothing. *)
Definition unlogging {A : Type} (m : Email.EM A) : Prop := forall st, w_log (fst (snd (m st))) = w_log (fst st).

Lemma unlogging_bind {A B : Type} (m : Email.EM A) (f : A -> Email.EM B) : unlogging m -> (forall x, unlogging (f x)) -> unlogging (m ≫= f).
Proof. intros Hm Hf st. unfold mbind, Email.EM_bind. specialize (Hm st). destruct (m st) as [x st']. by rewrite Hf. Qed.

Lemma unlogging_call op : unlogging (Email.call op).
Proof. by intros [w tr]. Qed.

Lemma unlogging_calls ops : unlogging (Email.calls ops).
Proof.
  induction ops as [|op ops IH]; [by intros [w tr]|]. apply unlogging_bind; [apply unlogging_call|]. intros [e|]; [by intros [w tr]|exact IH].
Qed.

Lemma unlogging_Send cfg subject body : unlogging (Email.Send cfg subject body).
Proof.
  unfold Email.Send, Email.sendTLS, Email.sendSTARTTLS, Email.deferred. cbv zeta.
  repeat (intro_vars; first [apply unlogging_call | apply unlogging_calls | lazymatch goal with |- unlogging (_ ≫= _) => apply unlogging_bind end
    | case_match | by intros [w tr]]).
Qed.

Lemma tidyX_mailing {A : Type} (m : Email.EM A) : unlogging m -> tidyX (Run.mailing m).
Proof. intros H [[w s] tr] Hw. specialize (H (w, tr)). unfold Run.mailing, log_ok. destruct (m (w, tr)) as [x [w' tr']]. cbn in *. by rewrite H. Qed.

Ltac solve_tidyX :=
  repeat (intro_vars; cbv zeta;
    first [ solve [eauto 2 with tidy]
          | lazymatch goal with
            | |- tidyX (mret _) => apply tidyX_ret
            | |- tidyX (_ ≫= _) => apply tidyX_bind
            | |- tidyX (Run.local _) => apply tidyX_local; solve [solve_tidy]
            | |- tidyX (Run.remotely _) => apply tidyX_remotely; solve [eauto 2 with tidy]
            end
          | case_match ]).

Lemma tidyX_sendErrorEmail cfg subject detail excerpt : tidyX (Run.sendErrorEmail cfg subject detail excerpt).
Proof. unfold Run.sendErrorEmail. cbv zeta. apply tidyX_bind; [apply tidyX_mailing, unlogging_Send|]. solve_tidyX. Qed.
#[local] Hint Resolve tidyX_sendErrorEmail : tidy.

Lemma tidyX_report cfg key detail e : tidyX (Run.report cfg key detail e).
Proof. unfold Run.report. solve_tidyX. Qed.
#[local] Hint Resolve tidyX_report : tidy.

Lemma tidyX_ensureRunning cfg conn : tidyX (Run.ensureRunning cfg conn).
Proof. unfold Run.ensureRunning, Run.portReachable. solve_tidyX. Qed.

Lemma tidyX_backupAndSync cfg conn dbs b we : tidyX (Run.backupAndSync cfg conn dbs b we).
Proof. unfold Run.backupAndSync. solve_tidyX. Qed.
#[local] Hint Resolve tidyX_ensureRunning tidyX_backupAndSync : tidy.

Lemma tidyX_backupServer cfg conn we : tidyX (Run.backupServer cfg conn we).
Proof. unfold Run.backupServer. solve_tidyX. Qed.
#[local] Hint Resolve tidyX_backupServer : tidy.

Lemma tidyX_Backup wd cfg : tidyX (Run.Backup wd cfg).
Proof. unfold Run.Backup. solve_tidyX. Qed.

End Flow.

#[export] Hint Resolve tidyX_Backup : tidy.

(** ** The program *)

(** A line written to the terminal has the arguments its text takes. *)
Definition line_ok (l : Main.Line) : Prop :=
  match l with
  | Main.Msg _ key a => typed key a = true
  | Main.Row _ => True
  | Main.SumRow _ key n => typed key [AInt n] = true
  end.

Definition sys_ok {SF : Sftp} (s : Main.Sys) : Prop := log_ok (fst (fst (Main.s_run s))) /\ Forall line_ok (Main.s_out s).

Section Program.
Context {FT : Faults} {AB : ArchiveBytes} {EX : Exec} {SS : SliceSort} {MO : MapOrder} {MSG : Messages} {CT : Schedule.Crontab} {TC : TidyCrontab} {DR : Restore.Drain}.
Context {SF : Sftp} {CR : Crypto} {RD : Rand} {SM : Email.Smtp} {NT : Net} {DL : Run.Deadline} {ET : ErrorText} {ST : Disk.Statfs}.
Context (sconfig : Config.Config -> Z -> gostring -> bool -> bool -> err + Config.Config) (Version : gostring) (proc : Main.Proc).

Definition tidyP {A : Type} (m : Main.P A) : Prop := keeping sys_ok m.

Lemma tidyP_ret {A : Type} (x : A) : tidyP (mret x).
Proof. intros s H. exact H. Qed.

Lemma tidyP_exit {A : Type} n : tidyP (@Main.Exit SF A n).
Proof. intros s H. exact H. Qed.

Lemma tidyP_bind {A B : Type} (m : Main.P A) (f : A -> Main.P B) : tidyP m -> (forall x, tidyP (f x)) -> tidyP (m ≫= f).
Proof.
  intros Hm Hf s Hs. specialize (Hm s Hs). unfold mbind, Main.P_bind. destruct (m s) as [[code|x] s']; [exact Hm|]. by apply Hf.
Qed.

Lemma tidyP_in_run {A : Type} (m : Run.XM A) : tidyX m -> tidyP (Main.in_run m).
Proof. intros H [st wd out] [Hl Ho]. specialize (H st Hl). unfold Main.in_run. cbn [Main.s_run]. by destruct (m st). Qed.

Lemma tidyP_act {A : Type} (m : M A) : tidy m -> tidyP (Main.act m).
Proof. intros H. by apply tidyP_in_run, tidyX_local. Qed.

(** What the result of an action is known to satisfy. *)
Lemma tidyP_act_bind {A B : Type} (Q : A -> Prop) (m : M A) (f : A -> Main.P B) :
  tidy m -> (forall w, Q (fst (m w))) -> (forall x, Q x -> tidyP (f x)) -> tidyP (Main.act m ≫= f).
Proof.
  intros Hm HQ Hf [[[w h] tr] wd out] Hs. pose proof (tidyP_act m Hm _ Hs) as H. specialize (HQ w). revert H.
  unfold mbind, Main.P_bind, Main.act, Main.in_run, Run.local. cbn [Main.s_run]. destruct (m w) as [x w']. by apply Hf.
Qed.

Lemma tidyP_says ls : Forall line_ok ls -> tidyP (Main.says ls).
Proof. intros H s [Hl Ho]. split; [exact Hl|]. by apply Forall_app. Qed.

Lemma tidyP_say l : line_ok l -> tidyP (Main.say l).
Proof. intros H. apply (tidyP_says [l]). by constructor. Qed.

Lemma tidyP_Chdir d : tidyP (Main.Chdir d).
Proof.
  intros [st wd out] [Hl Ho]. pose proof (tidyX_local (Stat d) (tidy_Stat d) st Hl) as H. unfold Main.Chdir. cbn [Main.s_run].
  by destruct (Run.local (Stat d) st).
Qed.

Lemma tidyP_fail {A : Type} key a : typed key a = true -> tidyP (@Main.fail SF A key a).
Proof. intros H. apply tidyP_bind; [by apply tidyP_say|]. intros. apply tidyP_exit. Qed.

Lemma tidy_unlogged {A : Type} (m : M A) : tidy (Main.unlogged m).
Proof. intros w Hw. unfold Main.unlogged. by destruct (m w). Qed.

Lemma tidyP_getwd : tidyP Main.getwd. Proof. intros s H. exact H. Qed.
Lemma tidyP_abs p : tidyP (Main.abs p). Proof. intros s H. exact H. Qed.
Lemma tidyP_env : tidyP (Main.env proc). Proof. intros s H. exact H. Qed.

#[local] Hint Resolve tidyP_ret tidyP_exit tidyP_Chdir tidyP_getwd tidyP_abs tidyP_env tidy_unlogged tidy_EnsureInstalled tidy_Uninstall : tidy.

Ltac typed_lines := repeat first [apply Forall_cons; split; [first [exact I | vm_compute; reflexivity]|] | apply Forall_nil; exact I].
Ltac solve_tidyP :=
  repeat (intro_vars; cbv zeta;
    first [ solve [eauto 2 with tidy]
          | lazymatch goal with
            | |- tidyP (_ ≫= _) => apply tidyP_bind
            | |- tidyP (Main.act _) => apply tidyP_act; solve [solve_tidy]
            | |- tidyP (Main.in_run (Run.remotely _)) => apply tidyP_in_run, tidyX_remotely; solve [eauto 2 with tidy]
            | |- tidyP (Main.in_run _) => apply tidyP_in_run; solve [eauto 2 with tidy]
            | |- tidyP (Main.fail _ _) => apply tidyP_fail; vm_compute; reflexivity
            | |- tidyP (Main.say _) => apply tidyP_say; vm_compute; reflexivity
            | |- tidyP (Main.says (_ :: _)) => apply tidyP_says; typed_lines
            end
          | case_match ]).

Lemma tidyP_printUsage : tidyP Main.printUsage.
Proof. apply tidyP_says. cbn [fmap list_fmap]. typed_lines. Qed.

Lemma tidyP_header path : tidyP (Main.printStartupHeader Version proc path).
Proof. unfold Main.printStartupHeader. solve_tidyP. Qed.

Lemma tidyP_logStartup : tidyP (Main.logStartup Version proc).
Proof. unfold Main.logStartup. solve_tidyP. Qed.
#[local] Hint Resolve tidyP_printUsage tidyP_header tidyP_logStartup : tidy.

Lemma tidyP_loadConfigAndLog path verbose : tidyP (Main.loadConfigAndLog sconfig Version proc path verbose).
Proof. unfold Main.loadConfigAndLog. solve_tidyP. Qed.
#[local] Hint Resolve tidyP_loadConfigAndLog : tidy.

Lemma tidyP_withConfig {A : Type} path verbose (body : Config.Config -> Main.P A) : (forall cfg, tidyP (body cfg)) -> tidyP (Main.withConfig sconfig Version proc path verbose body).
Proof. intros H. unfold Main.withConfig. apply tidyP_bind; [auto with tidy|]. intros [e|cfg]; [|apply H]. solve_tidyP. Qed.

Lemma tidyP_ensureSchedule cfg path : tidyP (Main.ensureSchedule proc cfg path).
Proof. unfold Main.ensureSchedule. solve_tidyP. Qed.

Lemma tidyP_rows {X : Type} (f : X -> Main.Line) xs : (forall x, line_ok (f x)) -> tidyP (Main.says (f <$> xs)).
Proof. intros H. apply tidyP_says, Forall_fmap, Forall_true. exact H. Qed.

Lemma tidyP_printBackups cfg : tidyP (Main.printBackups cfg).
Proof.
  unfold Main.printBackups. apply tidyP_bind; [solve_tidyP|]. intros [e|[|f fs]]; [solve_tidyP..|].
  apply tidyP_bind; [by apply tidyP_rows|]. solve_tidyP.
Qed.
#[local] Hint Resolve tidyP_ensureSchedule tidyP_printBackups : tidy.

Lemma tidyP_runStatus path verbose : tidyP (Main.runStatus sconfig Version proc path verbose).
Proof.
  unfold Main.runStatus. apply tidyP_bind; [auto with tidy|]. intros _. apply tidyP_withConfig. intros cfg.
  do 4 (apply tidyP_bind; [solve_tidyP|]; intros ?). apply tidyP_bind; [auto with tidy|]. intros en.
  apply (tidyP_act_bind (fun '(key, a) => key = [] \/ typed key a = true)).
  - apply tidy_Status.
  - intros w. pose proof (Status_typed en cfg path w) as H. by destruct (fst _).
  - intros [key a] H. apply tidyP_bind; [|solve_tidyP]. case_bool_decide; [solve_tidyP|]. destruct H; [done|]. by apply tidyP_say.
Qed.

Lemma tidyP_runGetfile path file verbose : tidyP (Main.runGetfile sconfig Version proc path file verbose).
Proof.
  unfold Main.runGetfile. apply tidyP_bind; [auto with tidy|]. intros _. case_match; [solve_tidyP|]. apply tidyP_withConfig. intros cfg.
  apply tidyP_bind; [auto with tidy|]. intros [e|cwd]; [solve_tidyP|]. apply tidyP_bind; [solve_tidyP|].
  intros [saved [e|]]; [solve_tidyP|]. apply tidyP_rows. intros p. vm_compute. reflexivity.
Qed.

Lemma tidyP_runBackup path verbose : tidyP (Main.runBackup sconfig Version proc path verbose).
Proof.
  unfold Main.runBackup. apply tidyP_bind; [auto with tidy|]. intros _. apply tidyP_withConfig. solve_tidyP.
Qed.

Lemma tidyP_runRestore path date full verbose : tidyP (Main.runRestore sconfig Version proc path date full verbose).
Proof.
  unfold Main.runRestore. apply tidyP_bind; [auto with tidy|]. intros _. apply tidyP_withConfig. intros cfg. unfold Main.restoreAction. cbv zeta.
  match goal with |- tidyP (match ?x with _ => _ end) => destruct x end; [|solve_tidyP].
  apply tidyP_bind; [solve_tidyP|]. intros [e|[|f fs]]; solve_tidyP.
Qed.

Lemma tidyP_dispatch f path date : tidyP (Main.dispatch sconfig Version proc f path date).
Proof.
  pose proof tidyP_runStatus. pose proof tidyP_runGetfile. pose proof tidyP_runBackup. pose proof tidyP_runRestore.
  unfold Main.dispatch. repeat (case_match; try done).
  all: unfold Main.runInit, Main.runCleanConfig, Main.runRemove; solve_tidyP; try (intros; apply tidyP_withConfig; solve_tidyP).
Qed.

Lemma tidyP_main : tidyP (Main.main sconfig Version proc).
Proof.
  assert (forall path key, typed key [] = true -> tidyP (Main.refuse Version proc path key)) as Hr.
  { intros path key H. unfold Main.refuse. do 2 (apply tidyP_bind; [auto with tidy|]; intros _). by apply tidyP_fail. }
  unfold Main.main. case_match; [|solve_tidyP..]. unfold Main.proceed. apply tidyP_bind.
  - unfold Main.findConfig, Main.invokedDirectory. solve_tidyP.
  - intros p. unfold Main.checkArgs. cbv zeta.
    repeat (lazymatch goal with |- tidyP (if ?b then _ else _) => destruct b end; [first [apply Hr; vm_compute; reflexivity | solve_tidyP]|]).
    apply tidyP_dispatch.
Qed.

End Program.

(** The messages of a run so far, logged and printed. *)
Definition said {SF : Sftp} (s : Main.Sys) : list (gostring * list Arg) :=
  ((fun e => (l_key e, l_args e)) <$> w_log (fst (fst (Main.s_run s)))) ++
  omap (fun l => match l with Main.Msg _ key a => Some (key, a) | Main.Row _ => None | Main.SumRow _ key n => Some (key, [AInt n]) end) (Main.s_out s).

Lemma said_typed {SF : Sftp} (s : Main.Sys) : sys_ok s <-> Forall (fun '(key, a) => typed key a = true) (said s).
Proof.
  unfold sys_ok, said. rewrite Forall_app, Forall_fmap. apply and_iff_compat_l. generalize (Main.s_out s). intros ls.
  induction ls as [|l ls IH]; [done|]. rewrite Forall_cons. destruct l; cbn [omap list_omap line_ok]; rewrite ?Forall_cons, IH; tauto.
Qed.

(** ** Theorems *)

(** C14: Every message is typed: whatever the command line, the configuration, the servers and
    the operating system do, a run that starts with an empty log and an empty terminal ends with
    messages that all have the arguments their texts take: in each of the four languages
    formatting a message that was logged or printed gives the translated text with the arguments
    in its holes. *)
Theorem messages_typed (FT : Faults) (AB : ArchiveBytes) (EX : Exec) (SS : SliceSort) (MO : MapOrder) (MSG : Messages) (CT : Schedule.Crontab)
    (DR : Restore.Drain) (SF : Sftp) (CR : Crypto) (RD : Rand) (SM : Email.Smtp) (NT : Net) (DL : Run.Deadline) (ET : ErrorText) (EP : ErrorPrint) (ST : Disk.Statfs)
    sconfig Version proc s key a lang t :
  TidyCrontab -> said s = [] -> (lang, t) ∈ embedded ->
  (key, a) ∈ said (snd (Main.main sconfig Version proc s)) ->
  exists ps, cut (@T (messagesOf t) key) = Some ps /\ @Tf (messagesOf t) ET EP key a = Some (fill ps a).
Proof.
  intros TC Hs Ht Hm. assert (sys_ok s) as H0 by (apply said_typed; by rewrite Hs).
  pose proof (tidyP_main sconfig Version proc s H0) as H. apply said_typed in H. apply (Tf_typed lang); [exact Ht|].
  exact (proj1 (Forall_forall _ _) H _ Hm).
Qed.

(** ** Witnesses *)

Lemma messages_typed_witness :
  exists ps, cut (@T (messagesOf Translations.de) "section.config_file") = Some ps /\
    @Tf (messagesOf Translations.de) (fun _ => []) (mkPrint (fun _ => []) (fun _ _ => [])) "section.config_file" [AStr (str "/home/u/conf/conf/my.json")] = Some (@fill (fun _ => []) ps [AStr (str "/home/u/conf/conf/my.json")]).
Proof.
  apply (messages_typed NoFaults Remote.sampleBytes (Run.sampleExec 0 []) _ _ Run.noMessages Main.sampleCrontab (fun _ _ => true) treeSftp Remote.sampleCrypto (Remote.rnd "s"%char)
    Run.sampleSmtp noNet (fun _ => false) (fun _ => []) (mkPrint (fun _ => []) (fun _ _ => [])) (Run.sampleStatfs 1000000) (Main.sampleSconfig "/b/run.log") "1.2.0"
    (Main.sampleProc [str "--status"; str "-config"; str "conf/my.json"]) Main.sampleSys _ _ (str "de")).
  - split; [apply tidy_ret|intros d; apply tidy_ret].
  - reflexivity.
  - left.
  - apply (bool_decide_eq_true_1 _). vm_compute. reflexivity.
Defined.

End MessageTypes.
